(* ===== verification/_CoqProject ===== *)
-Q . S2P
Prelude.v
CString.v
JsonString.v
KafkaArray.v
TopicDb.v
Pair.v
File.v
Addr.v
ZzJson.v
ZzXml.v
ZzSession.v
HttpAuth.v
Decoders.v
Http.v
HttpConfig.v
HttpProps.v
Stream.v
Daemon.v
Refused.v
EndToEnd.v
Kafka.v
Socket.v
SocketProps.v
SocketDelivery.v
SocketStop.v
GlobalConfig.v
GlobalConfigProps.v
MainProgram.v
