(* ===== verification/Prelude.v ===== *)
(** * n2kafka: a network to Kafka translator

    n2kafka receives data over HTTP, TCP or UDP, decodes it and hands it to Apache
    Kafka through librdkafka.  The main program reads a configuration (from the
    environment and a file), starts librdkafka and one listener per entry of the
    configuration, polls librdkafka until it is told to end, and reloads the
    listeners on a signal.  A listener owns a decoder.  For an HTTP request
    libmicrohttpd calls the listener, the listener opens a session of the decoder,
    gives it the body chunk by chunk and answers with the code of the first error;
    a TCP listener spreads its connections over worker threads, which decode what
    they read, and the threads of a UDP listener take turns at one socket.  The
    zz_http2k decoder takes the topic from the URL, splits a stream of JSON objects
    (or XML documents, turned into JSON) into messages and produces them to that
    topic; topic handlers are shared by all the threads through a database with
    reference counts; the payload buffer of a batch is shared by its messages and
    freed by the last delivery report.

    This library models that path, from the arguments of the program and the
    callbacks of the network libraries to the batches given to librdkafka, and
    proves what each part promises to the next one.

    ** Files

    - [Prelude]: outcomes of C code (a value, a fault such as a failed assertion,
      a bad access or a use after free, or no more fuel), bytes, lists by integer
      offsets, decimal printing, tactics.
    - [CString]: util/string.c and string.h, the growable string; the allocator is
      a class with the laws of [realloc].
    - [JsonString]: the JSON escaping of util/string.c; UTF-8 as RFC 3629 has it, and
      a reader of JSON strings that takes no control characters.
    - [KafkaArray]: util/kafka_message_array.c and .h and [msg_delivered] of
      util/kafka.c: building a batch, producing it (the calls made to librdkafka,
      with their topic and messages, are part of the result), and the reference count
      of its buffer, as a step relation of the producer thread and the delivery
      reports.
    - [TopicDb]: util/topic_database.c and decoder/zz_http2k/zz_database.c: the
      hash table, the LRU list and the reference counts in a heap of handlers; the
      critical sections are separate steps, so threads interleave at the places
      where the code leaves the lock.
    - [Pair]: util/pair.c, util/in_addr_list.c, the codes of decoder_api.h.
    - [File]: util/file.c over the stream functions of the C library.
    - [Addr]: engine/rb_addr.c, and [inet_ntop] and [inet_pton] of the C library.
    - [ZzJson], [ZzXml], [ZzSession]: decoder/zz_http2k/, the JSON callbacks over
      yajl, the XML handlers over expat and yajl_gen, and the sessions that join
      them; those libraries are classes with the laws the code relies on.  The end of
      a session answers what it still owns ([owned]: strings, handles and generators),
      which the world of the decoder adds up ([zw_leaked]).
    - [HttpAuth]: listener/http/http_auth.c and its use in http_config.c.
    - [Decoders]: the record of function pointers of decoder/decoder_api.h,
      listener/listener_api.c, and the decoders of the program as such records:
      decoder/dumb/dumb.c, zz_http2k and decoder/meraki/meraki.c.
    - [Http]: listener/http/http.c, responses.c and tls.c, one definition per
      callback, over an arbitrary decoder record.
    - [HttpConfig]: listener/http/http_config.c, the options of a listener, its
      secret files, the start and the stop of the daemon.
    - [HttpProps]: a request as the sequence of calls libmicrohttpd makes, and the
      theorems on requests, for any decoder.
    - [Stream]: the requests of the zz_http2k and meraki listeners behind one
      interface, the class [StreamLaws]: a session is opened, takes the pieces of the
      body, which the chunks carry as they are or compressed, up to the first it
      refuses, and is deleted.  JSON and XML bodies are its instances.
    - [Daemon]: the calls of many requests in any order, against that interface and
      one for the requests without a session (the class [ShortLaws]), and the delivery
      reports of librdkafka between them; the requests have their own pointers and
      answers and share the topics database, the batches in flight and the process.  A
      call is one step: the topics database, which calls of different threads share, is
      interleaved at its critical sections in [TopicDb], and a batch with its reports
      while it is produced in [KafkaArray].
    - [Refused]: the requests of those listeners that get no session: refused clients
      and URLs, GETs and other methods, as instances of [ShortLaws].
    - [EndToEnd]: the service from its start to its end, and single requests.
    - [Kafka]: the start, the polls, the stop and the statistics callbacks of
      util/kafka.c.
    - [Socket]: listener/socket/socket.c.  The process has descriptors, a heap of
      watchers and the decoder world; a TCP listener has the queue and the event
      loop of each worker.  The callbacks are definitions, cut where another thread
      can come between (a client is queued, then the worker is woken up), and the
      events of the threads are the steps [tcp_step] runs.
    - [SocketProps]: the invariant of a TCP listener and its preservation by every
      event, liveness and the connections that are lost.
    - [SocketDelivery]: the callbacks as the steps done without interruption, which
      worker serves a client, what TCP and UDP listeners produce, bounds, errors.
    - [SocketStop]: the end of a TCP listener: its main thread leaves its loop after
      [join_listener_socket], joins the workers and can be joined itself.
    - [GlobalConfig]: engine/global_config.c: options of librdkafka, statistics
      text, blacklist, listeners, reload; listeners are abstract there, with the
      function pointers of listener/listener_api.h ([listener_ops]).
    - [GlobalConfigProps]: the options, the blacklist up to the accepted clients,
      and the reload, proved against what factories promise (the class
      [ListenerLaws], with the HTTP and socket listeners as its instance
      [program_laws]).
    - [MainProgram]: engine/n2kafka.c, the signals, the main loop and the end.

    ** What is proved

    - Delivery: from the start of the decoder to its end, whatever the interleaving
      of the calls for any number of requests and of the delivery reports, each POST,
      compressed or not, is answered 200 (400 with the text of the parser if its JSON or
      XML is malformed, not at all if its client went away) and hands over exactly its
      own payloads, in order, for its own topic; refused
      requests and those that are not POSTs get their own answers and hand nothing
      over; a batch lives until its last report, and the blocks of the requests, what
      their sessions owned and the topics are released ([http_service_lifetime], from the interfaces of [Stream] and [Daemon], which the
      JSON, XML and meraki decoders implement); for one POST of JSON, the messages are
      its top-level objects, however the body is cut in chunks
      ([http_json_post_delivered], [json_objects_delivered]); XML documents become the
      messages of their JSON translation ([xml_documents_messages]); malformed JSON is
      answered with the parser text and the number of objects of the chunk, after the
      objects before it ([json_error_reported]).  A TCP connection is produced in order ([tcp_dumb_in_order]), UDP threads lose and invent no
      datagram ([udp_datagrams_produced]).
    - The HTTP state machine refines the decoding of the chunks one by one up to
      the first error ([post_streamed], [compressed_post_streamed]); requests refused
      by their certificate or their credentials do not reach the decoder
      ([refused_not_decoded]), and a daemon is only started with consistent, protected
      secrets, and with all that its options and their files say ([http_start_safe]).
    - Shared state: in every interleaving no topic handler is used after it is
      freed and the counters are exact ([topics_db_threads_safe]), every critical
      section refines a map from names to times ([topics_db_step_refines]), the
      buffer of a batch is freed once ([batch_refcount_safe]); in a TCP listener each
      connection has one owner and no wake-up is lost, and a callback that does not
      return has one of three causes ([tcp_threads_safe]), so a queued connection is
      served ([tcp_connection_served]) by the worker of its turn
      ([accept_round_robin]), and joining the listener ends ([tcp_join_ends]).
    - Configuration: what a variable of the environment sets, for every name
      ([environment_sets_property]), the file has precedence, the clients that are
      turned away are the blacklisted ones ([blacklist_enforced]), and a reload joins
      exactly the listeners whose port is gone, reloads the others and creates the
      missing ones ([reload_leaves_new_ports]).
    - The program: a SIGINT ends the loop in its round ([main_loop_signals]); [main] is
      then the composition of its parts, and returns 0 unless one of them does not
      return ([main_exits]).
    - Data structures: the growable string refines byte lists, whatever the allocator
      answers ([string_refines_bytes]), a JSON reader gets an escaped text back exactly
      if it has no other control characters than those with a short escape
      ([json_string_roundtrip]), and the block of a message array is always a header and the messages
      that were added, whatever the allocator answers ([array_well_typed]).
    - Defects of the code, each as a theorem about the definitions as they are
      written: loops that do not end, assertions that fail, reads and writes
      outside of objects, error codes that are lost or exchanged, connections that
      nobody reads.

    ** Conventions

    A C string is the list of its bytes before the NUL, a NULL pointer is [None],
    machine integers are [Z] with explicit wrap-around where they can overflow.
    Loops that are not structural take fuel and answer [NoFuel] without it; the
    theorems that a function returns give enough fuel (the length of the text for
    the statistics, one round per 512 KiB of output for inflate, two rounds for a printf
    that fits, one more than the length of its queue for a worker, the polls librdkafka needs for the end), and
    the theorems that it does not return hold for every fuel.  Results of the
    environment (allocations, system calls, clocks) are arguments, and so is what
    uninitialised memory holds ([garbage], [old]).  Where the code writes past an
    object, the argument [room] says how many bytes can be written there without
    harm: C guarantees 4 for the text of [print_accepted_connection_log] and 2 for
    [searched_port]; theorems say what they need of it.  The model is the
    program as it is built with assertions: a failing [assert] is a fault.  A build
    that defines NDEBUG (configure.n2kafka does unless assertions are enabled) runs the
    same code without them, so a theorem that gives a result holds for it too, while
    one about an assertion that fails ([http_authenticate_needs_marker],
    [http_authenticate_one_user_asserts], [xml_split_document_asserts]) is about builds
    with assertions only.  Libraries the sources only
    call (librdkafka, librd, yajl, expat, zlib, libmicrohttpd, libev, jansson,
    gnutls) are classes or arguments; each theorem that assumes one of their laws
    has an example with a concrete instance.

    The requests of [http_service_lifetime] are those the code serves: the theorem asks
    of them what the defects break.  An XML document lies in one piece of the body
    ([xml_split_document_asserts]) and its elements have one run of text; a compressed
    chunk does not inflate to whole buffers of 512 KiB and a request whose session is
    refused is not compressed; the client of a GET stays for its answer; the headers do
    not have the names of the options of the listener ([header_overrides_url]); and
    memory is available, where a part shows what happens without it.

    ** Not modelled

    Log texts and the usage text; socket options (keep-alive, non-blocking), which
    change no modelled state; the macros of util/util.h; the destructor of the
    thread-specific generator of the XML parser, which runs when a thread ends; the
    magic numbers of structures, checked by casts, except for connections and
    message arrays; and mklove/, the scripts that configure the build. *)

From Stdlib Require Export Strings.Byte ZArith Lia.
From stdpp Require Export base decidable list strings option numbers countable.

#[global] Open Scope Z_scope.
#[global] Set Default Goal Selector "!".

(** ** Outcomes of C code

    A C function either returns, or stops on a fault (a failing [assert], an
    access outside of an object, an undefined shift, a use of freed memory, a
    process exit), or has not returned within the fuel the caller gave. *)

Inductive fault :=
| assert_failed
| bad_access
| bad_shift
| use_after_free
| double_free
| process_exit.

Inductive outcome (A : Type) :=
| Ret (a : A)
| Fault (f : fault)
| NoFuel.
Arguments Ret {A} _.
Arguments Fault {A} _.
Arguments NoFuel {A}.

#[export] Instance fault_eq_dec : EqDecision fault.
Proof. solve_decision. Defined.

#[export] Instance outcome_ret : MRet outcome := fun A a => Ret a.
#[export] Instance outcome_bind : MBind outcome := fun A B k m =>
  match m with
  | Ret a => k a
  | Fault f => Fault f
  | NoFuel => NoFuel
  end.

(** [assert(b)] of the C code. *)
Definition c_assert (b : bool) : outcome unit :=
  if b then Ret tt else Fault assert_failed.

Definition returns {A} (m : outcome A) : Prop := exists a, m = Ret a.

Lemma bind_Ret {A B} (a : A) (k : A -> outcome B) : (Ret a ≫= k) = k a.
Proof. reflexivity. Qed.

Lemma Ret_inj {A} (a b : A) : Ret a = Ret b -> a = b.
Proof. congruence. Qed.

Lemma bind_Ret_inv {A B} (m : outcome A) (k : A -> outcome B) b :
  (m ≫= k) = Ret b -> exists a, m = Ret a /\ k a = Ret b.
Proof. destruct m; cbn; intros; eauto; discriminate. Qed.

Lemma bind_assoc {A B C} (m : outcome A) (k : A -> outcome B) (l : B -> outcome C) :
  ((m ≫= k) ≫= l) = (m ≫= fun a => k a ≫= l).
Proof. by destruct m. Qed.

(** ** Bytes and C strings *)

Abbreviation byte := Byte.byte.
Abbreviation bytes := (list Byte.byte).

#[export] Instance byte_eq_dec : EqDecision Byte.byte := Byte.byte_eq_dec.

#[export] Program Instance byte_countable : Countable Byte.byte :=
  inj_countable Byte.to_N Byte.of_N _.
Next Obligation. apply Byte.of_to_N. Qed.

(** Value of a byte seen as [uint8_t]. *)
Definition byte_val (b : byte) : Z := Z.of_N (Byte.to_N b).

Definition byte_of_Z (z : Z) : byte :=
  match Byte.of_N (Z.to_N (z mod 256)) with Some b => b | None => x00 end.

(** The bytes of a string literal of the source, without the final NUL. *)
Definition bs (s : string) : bytes := String.list_byte_of_string s.
Arguments bs s%_string_scope.

(** The double quote and the backslash. *)
Definition dquote : byte := x22.
Definition backslash : byte := x5c.

(** A literal with its single quotes read as double quotes, for JSON texts. *)
Definition jbs (s : string) : bytes :=
  map (fun c => if bool_decide (c = x27) then dquote else c) (bs s).
Arguments jbs s%_string_scope.

Definition zlen {A} (l : list A) : Z := Z.of_nat (length l).

(** ** Machine integers *)

Definition wrap32 (z : Z) : Z := z mod 2 ^ 32.
Definition wrap64 (z : Z) : Z := z mod 2 ^ 64.

Lemma wrap64_small z : 0 <= z < 2 ^ 64 -> wrap64 z = z.
Proof. apply Z.mod_small. Qed.

Lemma wrap32_small z : 0 <= z < 2 ^ 32 -> wrap32 z = z.
Proof. apply Z.mod_small. Qed.

(** ** Lists *)

Definition ztake {A} (n : Z) (l : list A) : list A := take (Z.to_nat n) l.
Definition zdrop {A} (n : Z) (l : list A) : list A := drop (Z.to_nat n) l.

Section lists.
Context {A : Type}.
Implicit Types l k : list A.

Lemma zlen_nonneg l : 0 <= zlen l.
Proof. unfold zlen. lia. Qed.

Lemma zlen_app l k : zlen (l ++ k) = zlen l + zlen k.
Proof. unfold zlen. rewrite length_app. lia. Qed.

Lemma zlen_cons x l : zlen (x :: l) = 1 + zlen l.
Proof. unfold zlen. cbn. lia. Qed.

Lemma zlen_nil : zlen (@nil A) = 0.
Proof. reflexivity. Qed.

Lemma zlen_zero l : zlen l = 0 -> l = [].
Proof. destruct l; [done|]. rewrite zlen_cons. pose proof (zlen_nonneg l). lia. Qed.

Lemma zlen_ztake n l : 0 <= n <= zlen l -> zlen (ztake n l) = n.
Proof. unfold zlen, ztake. intros. rewrite length_take. lia. Qed.

Lemma zlen_zdrop n l : 0 <= n <= zlen l -> zlen (zdrop n l) = zlen l - n.
Proof. unfold zlen, zdrop. intros. rewrite length_drop. lia. Qed.

Lemma ztake_zdrop n l : ztake n l ++ zdrop n l = l.
Proof. apply take_drop. Qed.

Lemma ztake_all n l : zlen l <= n -> ztake n l = l.
Proof. unfold zlen, ztake. intros. apply take_ge. lia. Qed.

Lemma ztake_app_exact n l k : n = zlen l -> ztake n (l ++ k) = l.
Proof. intros ->. unfold ztake, zlen. rewrite Nat2Z.id. apply take_app_length. Qed.

Lemma zdrop_app_exact n l k : n = zlen l -> zdrop n (l ++ k) = k.
Proof. intros ->. unfold zdrop, zlen. rewrite Nat2Z.id. apply drop_app_length. Qed.

Lemma ztake_app_le n l k : n <= zlen l -> ztake n (l ++ k) = ztake n l.
Proof. unfold ztake, zlen. intros. rewrite take_app_le; [done|lia]. Qed.

Lemma ztake_app_ge n l k : zlen l <= n -> ztake n (l ++ k) = l ++ ztake (n - zlen l) k.
Proof.
  unfold ztake, zlen. intros. rewrite take_app, take_ge by lia. do 2 f_equal. lia.
Qed.

Lemma zdrop_app_le n l k : n <= zlen l -> zdrop n (l ++ k) = zdrop n l ++ k.
Proof. unfold zdrop, zlen. intros. rewrite drop_app_le; [done|lia]. Qed.

Lemma zdrop_app_ge n l k : zlen l <= n -> zdrop n (l ++ k) = zdrop (n - zlen l) k.
Proof. unfold zdrop, zlen. intros. rewrite drop_app_ge by lia. f_equal. lia. Qed.

Lemma zdrop_0 l : zdrop 0 l = l.
Proof. reflexivity. Qed.

Lemma ztake_ztake n m l : n <= m -> ztake n (ztake m l) = ztake n l.
Proof. unfold ztake. intros. rewrite take_take. f_equal. lia. Qed.

#[export] Instance zlen_proper : Proper ((≡ₚ) ==> eq) (@zlen A).
Proof. intros l k H. unfold zlen. by rewrite H. Qed.

End lists.

(** The bytes of [text] from [a] to [b]. *)
Definition slice (text : bytes) (a b : Z) : bytes := ztake (b - a) (zdrop a text).

Lemma slice_app_prev P chunk a c :
  0 <= a <= zlen P -> 0 <= c <= zlen chunk ->
  slice (P ++ chunk) a (zlen P + c) = zdrop a P ++ ztake c chunk.
Proof.
  intros Ha Hc. unfold slice. rewrite zdrop_app_le by lia.
  rewrite ztake_app_ge; rewrite zlen_zdrop by lia; [|lia]. do 2 f_equal. lia.
Qed.

Lemma slice_app_cur P chunk a c :
  zlen P <= a -> slice (P ++ chunk) a (zlen P + c) = slice chunk (a - zlen P) c.
Proof. intros Ha. unfold slice. rewrite zdrop_app_ge by lia. f_equal. lia. Qed.

Lemma slice_whole b n : zlen b = n -> slice b 0 n = b.
Proof. intros <-. unfold slice. rewrite Z.sub_0_r. by rewrite ztake_all by done. Qed.

Lemma slice_app_left text rest a b :
  0 <= a -> b <= zlen text -> slice (text ++ rest) a b = slice text a b.
Proof.
  intros Ha Hb. unfold slice. destruct (Z.le_gt_cases a (zlen text)).
  - rewrite zdrop_app_le, ztake_app_le by (rewrite ?zlen_zdrop; lia). done.
  - unfold ztake. replace (Z.to_nat (b - a)) with O by lia. done.
Qed.

(** ** Decimal numbers *)

(** The digits [printf] writes for [%zu]; 20 digits are enough for 64 bits. *)
Fixpoint decimal_digits (fuel : nat) (n : Z) (acc : bytes) : bytes :=
  match fuel with
  | O => acc
  | S fuel =>
      let acc := byte_of_Z (48 + n mod 10) :: acc in
      if n <? 10 then acc else decimal_digits fuel (n / 10) acc
  end.

Definition print_zu (n : Z) : bytes := decimal_digits 20 n [].

Definition read_decimal (s : bytes) : Z :=
  fold_left (fun v c => 10 * v + (byte_val c - 48)) s 0.

Lemma byte_val_of_Z z : 0 <= z < 256 -> byte_val (byte_of_Z z) = z.
Proof.
  intros Hz. unfold byte_val, byte_of_Z. rewrite Z.mod_small by lia.
  destruct (Byte.of_N (Z.to_N z)) as [b|] eqn:E.
  - apply Byte.to_of_N in E. lia.
  - apply Byte.of_N_None_iff in E. lia.
Qed.

Lemma byte_of_val b : byte_of_Z (byte_val b) = b.
Proof. by destruct b. Qed.

Lemma decimal_digits_read fuel n acc :
  0 <= n < 10 ^ Z.of_nat fuel ->
  fold_left (fun v c => 10 * v + (byte_val c - 48)) (decimal_digits fuel n acc) 0 =
  fold_left (fun v c => 10 * v + (byte_val c - 48)) acc n.
Proof.
  revert n acc. induction fuel as [|fuel IH]; intros n acc Hn.
  { cbn in Hn |- *. by replace n with 0 by lia. }
  cbn [decimal_digits]. pose proof (Z.mod_pos_bound n 10 ltac:(lia)) as Hm.
  destruct (n <? 10) eqn:E.
  - cbn [fold_left]. rewrite byte_val_of_Z, Z.mod_small by lia. f_equal. lia.
  - rewrite IH.
    + cbn [fold_left]. rewrite byte_val_of_Z by lia. f_equal.
      pose proof (Z.div_mod n 10 ltac:(lia)). lia.
    + rewrite Nat2Z.inj_succ, Z.pow_succ_r in Hn by lia. split; [apply Z.div_pos; lia|].
      apply Z.div_lt_upper_bound; lia.
Qed.

Lemma print_zu_read n : 0 <= n < 10 ^ 20 -> read_decimal (print_zu n) = n.
Proof. intros Hn. by apply (decimal_digits_read 20 n []). Qed.

Lemma decimal_digits_length fuel n acc :
  (length (decimal_digits fuel n acc) <= fuel + length acc)%nat.
Proof.
  revert n acc. induction fuel as [|fuel IH]; intros n acc; [done|]. cbn [decimal_digits].
  destruct (n <? 10); [cbn; lia|]. etransitivity; [apply IH|]. cbn. lia.
Qed.

Lemma print_zu_length n : zlen (print_zu n) <= 20.
Proof. pose proof (decimal_digits_length 20 n []). unfold zlen, print_zu. cbn in *. lia. Qed.

(** ** Automation *)

Create HintDb n2k.
Create Rewrite HintDb n2k.
#[export] Hint Rewrite @zlen_app @zlen_cons @zlen_nil @bind_Ret : n2k.
#[export] Hint Resolve zlen_nonneg : n2k.

(** Bring the sign of every length of the goal into the context, then [lia]. *)
Ltac zlen_facts :=
  repeat match goal with
  | |- context [zlen ?l] =>
      lazymatch goal with
      | _ : 0 <= zlen l |- _ => fail
      | _ => pose proof (zlen_nonneg l)
      end
  | _ : context [zlen ?l] |- _ =>
      lazymatch goal with
      | _ : 0 <= zlen l |- _ => fail
      | _ => pose proof (zlen_nonneg l)
      end
  end.
(** Compute the lengths of literals. *)
Ltac zlen_lits :=
  repeat match goal with
  | |- context [zlen (bs ?s)] =>
      let v := eval vm_compute in (zlen (bs s)) in change (zlen (bs s)) with v
  end.
Ltac zlia := autorewrite with n2k in *; zlen_facts; lia.

(** Decide the boolean integer tests of the goal that [lia] can settle. *)
Ltac ztest_step :=
  match goal with
  | |- context [?a <? ?b] =>
      first [ rewrite (proj2 (Z.ltb_lt a b)) by zlia
            | rewrite (proj2 (Z.ltb_ge a b)) by zlia ]
  | |- context [?a <=? ?b] =>
      first [ rewrite (proj2 (Z.leb_le a b)) by zlia
            | rewrite (proj2 (Z.leb_gt a b)) by zlia ]
  | |- context [?a =? ?b] =>
      first [ rewrite (proj2 (Z.eqb_eq a b)) by zlia
            | rewrite (proj2 (Z.eqb_neq a b)) by zlia ]
  end.
Ltac ztest := repeat ztest_step; cbn [negb andb orb].

(** Split a bind that is known to return. *)
Ltac inv_bind H :=
  let a := fresh "a" in let H1 := fresh "Hbind" in let H2 := fresh "Hk" in
  apply bind_Ret_inv in H as (a & H1 & H2).
