(* ===== verification/CString.v ===== *)
(** * The growing byte string of util/string.c and util/string.h

    The buffer of a [string] is the block the allocator returned, seen as the
    list of its bytes; its length is the real allocated size, which the C code
    never stores: it recomputes it from [size] in [string_allocated].  The C
    library's [realloc] is the class [Allocator]; [vsnprintf] is given the text
    the format produces. *)

From S2P Require Import Prelude.

(** [realloc(old, n)]: [None] is the NULL of an exhausted memory. *)
Class Allocator := {
  realloc : option bytes -> Z -> option bytes;
  realloc_size : forall old n new,
    0 <= n -> realloc old n = Some new -> zlen new = n;
  realloc_keep : forall b n new,
    0 <= n -> realloc (Some b) n = Some new ->
    ztake (Z.min (zlen b) n) new = ztake n b
}.

Record cstring := mkstr { str_buf : option bytes; str_size : Z }.

Definition N2K_STRING_INITIALIZER : cstring := mkstr None 0.

Definition STRING_MIN_SIZE : Z := 4096.

Definition smax (a b : Z) : Z := if b <? a then a else b.

(** [__builtin_clzl] of a non-zero 64-bit word. *)
Definition clzl (x : Z) : Z := 63 - Z.log2 x.

(** [1u << n]: the literal is 32 bits wide. *)
Definition shl1u (n : Z) : outcome Z :=
  if n <? 32 then Ret (wrap32 (Z.shiftl 1 n)) else Fault bad_shift.

Definition next_pow2 (x : Z) : outcome Z :=
  if negb (x =? 0) && negb (wrap64 (x - 1) =? 0)
  then shl1u (64 - clzl (wrap64 (x - 1)))
  else Ret 1.

Definition string_size (s : cstring) : Z := str_size s.

Definition string_init : Z * cstring := (0, N2K_STRING_INITIALIZER).

(** [free(str->buf); memset(str, 0, sizeof( *str))]. *)
Definition string_done (s : cstring) : cstring := mkstr None 0.

Definition string_allocated (s : cstring) : outcome Z :=
  match str_buf s with
  | None => Ret 0
  | Some _ =>
      if str_size s <? STRING_MIN_SIZE then Ret STRING_MIN_SIZE
      else next_pow2 (str_size s)
  end.

(** Store [data] at offset [off] of a block. *)
Definition mem_write (b : bytes) (off : Z) (data : bytes) : outcome bytes :=
  if (0 <=? off) && (off + zlen data <=? zlen b)
  then Ret (ztake off b ++ data ++ zdrop (off + zlen data) b)
  else Fault bad_access.

(** [memcpy(&buf[off], data, |data|)]; copying nothing touches no object. *)
Definition buf_write (buf : option bytes) (off : Z) (data : bytes)
    : outcome (option bytes) :=
  match buf, data with
  | _, [] => Ret buf
  | None, _ => Fault bad_access
  | Some b, _ => b' ← mem_write b off data; Ret (Some b')
  end.

(** The first [size] bytes of the buffer. *)
Definition contents (s : cstring) : bytes :=
  match str_buf s with
  | None => []
  | Some b => ztake (str_size s) b
  end.

Section string.
Context {alloc : Allocator}.

Definition string_grow (s : cstring) (delta : Z) : outcome (Z * cstring) :=
  let new_size := wrap64 (str_size s + delta) in
  new_allocated_size ← next_pow2 new_size;
  allocated ← string_allocated s;
  if negb (allocated <? new_allocated_size)
  then Ret (allocated, s)
  else
    let new_allocated := smax new_allocated_size STRING_MIN_SIZE in
    match realloc (str_buf s) new_allocated with
    | None => Ret (allocated, s)
    | Some new_buf => Ret (new_allocated, mkstr (Some new_buf) (str_size s))
    end.

Definition string_append (s : cstring) (data : bytes) : outcome (Z * cstring) :=
  '(new_size, s1) ← string_grow s (zlen data);
  if new_size <? wrap64 (str_size s1 + zlen data)
  then Ret (-1, s1)
  else
    buf ← buf_write (str_buf s1) (str_size s1) data;
    Ret (0, mkstr buf (wrap64 (str_size s1 + zlen data))).

Definition string_append_string (s : cstring) (data : bytes) : outcome (Z * cstring) :=
  string_append s data.

Definition string_pop_back (s : cstring) : outcome cstring :=
  match str_buf s with
  | None => Fault assert_failed
  | Some b =>
      _ ← c_assert (0 <? str_size s);
      b' ← mem_write b (str_size s - 1) [x00];
      Ret (mkstr (Some b') (str_size s - 1))
  end.

(** [vsnprintf(buf + size, available, ...)] of a format that produces [out]. *)
Definition vsnprintf (s : cstring) (available : Z) (out : bytes) : outcome cstring :=
  if available =? 0 then Ret s
  else
    buf ← buf_write (str_buf s) (str_size s) (ztake (available - 1) out ++ [x00]);
    Ret (mkstr buf (str_size s)).

Fixpoint string_printf_loop (fuel : nat) (initial_len : Z) (s : cstring) (out : bytes)
    : outcome (Z * cstring) :=
  match fuel with
  | O => NoFuel
  | S fuel =>
      allocated ← string_allocated s;
      let available := wrap64 (allocated - string_size s) in
      s1 ← vsnprintf s available out;
      let printf_rc := zlen out in
      if printf_rc + 1 <? available
      then Ret (printf_rc, mkstr (str_buf s1) (str_size s1 + printf_rc))
      else
        '(new_len, s2) ← string_grow s1 (wrap64 (initial_len + printf_rc));
        if new_len =? initial_len
        then
          buf ← buf_write (str_buf s2) initial_len [x00];
          Ret (-1, mkstr buf (str_size s2))
        else string_printf_loop fuel initial_len s2 out
  end.

Definition string_printf (fuel : nat) (s : cstring) (out : bytes) : outcome (Z * cstring) :=
  string_printf_loop fuel (string_size s) s out.

End string.

(** The capacity [string_allocated] recomputes from the size. *)
Definition cap_of (size : Z) : Z := Z.max STRING_MIN_SIZE (2 ^ Z.log2_up size).

Definition size_limit : Z := 2 ^ 31.

(** The block is at least as long as the recomputed capacity. *)
Definition string_inv (s : cstring) : Prop :=
  0 <= str_size s <= size_limit /\
  match str_buf s with
  | None => str_size s = 0
  | Some b => cap_of (str_size s) <= zlen b
  end.

(** [realloc] never returns NULL. *)
Definition never_fails (alloc : Allocator) : Prop :=
  forall old n, exists b, realloc old n = Some b.

(** An allocator that never fails and one that always does. *)
Definition zeros (n : Z) : bytes := replicate (Z.to_nat n) x00.

Definition realloc_zero (old : option bytes) (n : Z) : option bytes :=
  Some (ztake n (default [] old ++ zeros n)).

Lemma zlen_zeros n : 0 <= n -> zlen (zeros n) = n.
Proof. intros. unfold zlen, zeros. rewrite length_replicate. lia. Qed.

Lemma realloc_zero_size old n new :
  0 <= n -> realloc_zero old n = Some new -> zlen new = n.
Proof.
  intros Hn [= <-]. apply zlen_ztake. rewrite zlen_app, zlen_zeros by done. zlia.
Qed.

Lemma realloc_zero_keep b n new :
  0 <= n -> realloc_zero (Some b) n = Some new ->
  ztake (Z.min (zlen b) n) new = ztake n b.
Proof.
  intros Hn [= <-]. rewrite ztake_ztake by lia. cbn [default from_option].
  destruct (Z.le_ge_cases n (zlen b)).
  - rewrite Z.min_r by lia. by apply ztake_app_le.
  - rewrite Z.min_l, (ztake_all n b) by lia. by apply ztake_app_exact.
Qed.

#[export] Instance total_allocator : Allocator :=
  {| realloc := realloc_zero;
     realloc_size := realloc_zero_size;
     realloc_keep := realloc_zero_keep |}.

#[refine] Definition failing_allocator : Allocator :=
  {| realloc := fun _ _ => None |}.
Proof. all: discriminate. Defined.

Lemma total_never_fails : never_fails total_allocator.
Proof. intros old n. by eexists. Qed.

(** ** Arithmetic of the capacity *)

Lemma log2_up_bound x : 0 <= x <= size_limit -> 0 <= Z.log2_up x <= 31.
Proof.
  unfold size_limit. intros. split; [apply Z.log2_up_nonneg|].
  rewrite <- (Z.log2_up_pow2 31) by lia. apply Z.log2_up_le_mono. lia.
Qed.

Lemma pow_log2_up_bound x :
  0 <= x <= size_limit -> x <= 2 ^ Z.log2_up x <= 2 ^ 31.
Proof.
  intros Hx. pose proof (log2_up_bound x Hx). split.
  - destruct (Z.le_gt_cases x 1) as [?|?].
    + rewrite Z.log2_up_eqn0 by lia. lia.
    + pose proof (Z.log2_up_spec x). lia.
  - apply Z.pow_le_mono_r; lia.
Qed.

Lemma next_pow2_spec x :
  0 <= x <= size_limit -> next_pow2 x = Ret (2 ^ Z.log2_up x).
Proof.
  unfold size_limit. intros Hx. unfold next_pow2.
  destruct (Z.le_gt_cases x 1) as [?|Hgt].
  - rewrite Z.log2_up_eqn0 by lia.
    assert (x = 0 \/ x = 1) as [-> | ->] by lia; reflexivity.
  - rewrite wrap64_small by lia. ztest.
    pose proof (log2_up_bound x) as Hb. unfold size_limit in Hb.
    assert (64 - clzl (x - 1) = Z.log2_up x) as ->.
    { unfold clzl. rewrite Z.log2_up_eqn by lia. rewrite <- Z.sub_1_r. lia. }
    unfold shl1u. ztest. rewrite Z.shiftl_mul_pow2 by lia. rewrite Z.mul_1_l.
    rewrite wrap32_small; [done|]. split; [lia|].
    apply Z.pow_lt_mono_r; lia.
Qed.

Lemma next_pow2_overflow x : size_limit < x < 2 ^ 64 -> next_pow2 x = Fault bad_shift.
Proof.
  unfold size_limit. intros Hx. unfold next_pow2. rewrite wrap64_small by lia. ztest.
  unfold shl1u, clzl.
  assert (31 <= Z.log2 (x - 1)).
  { change 31 with (Z.log2 (2 ^ 31)). apply Z.log2_le_mono. lia. }
  by ztest.
Qed.

Lemma cap_of_min size : 4096 <= cap_of size.
Proof. unfold cap_of, STRING_MIN_SIZE. lia. Qed.

Lemma cap_of_size size : 0 <= size <= size_limit -> size <= cap_of size.
Proof. intros H. pose proof (pow_log2_up_bound size H). unfold cap_of. lia. Qed.

Lemma cap_of_small size : size <= 4096 -> cap_of size = 4096.
Proof.
  intros. unfold cap_of, STRING_MIN_SIZE. apply Z.max_l. change 4096 with (2 ^ 12).
  apply Z.pow_le_mono_r; [lia|]. change 12 with (Z.log2_up 4096).
  by apply Z.log2_up_le_mono.
Qed.

Lemma cap_of_mono a b : a <= b -> cap_of a <= cap_of b.
Proof.
  intros. unfold cap_of. apply Z.max_le_compat_l, Z.pow_le_mono_r; [lia|].
  by apply Z.log2_up_le_mono.
Qed.

(** A capacity that is too short for the rounded size is too short for it. *)
Lemma cap_of_lt a x :
  0 <= x <= size_limit -> cap_of a < 2 ^ Z.log2_up x -> cap_of a < x.
Proof.
  intros Hx Hlt. unfold cap_of in *.
  assert (exists k, 0 <= k /\ Z.max STRING_MIN_SIZE (2 ^ Z.log2_up a) = 2 ^ k) as (k & Hk & Hcap).
  { pose proof (Z.log2_up_nonneg a).
    destruct (Z.max_spec STRING_MIN_SIZE (2 ^ Z.log2_up a)) as [[_ ->]|[_ ->]].
    - by exists (Z.log2_up a).
    - by exists 12. }
  rewrite Hcap in *.
  destruct (Z.le_gt_cases x 1) as [Hle|Hgt].
  - rewrite Z.log2_up_eqn0 in Hlt by lia.
    pose proof (Z.pow_pos_nonneg 2 k). lia.
  - apply Z.log2_up_lt_pow2; [lia|].
    by apply (Z.pow_lt_mono_r_iff 2) in Hlt; [|lia|apply Z.log2_up_nonneg].
Qed.

(** ** Memory operations *)

Lemma mem_write_spec b off data :
  0 <= off -> off + zlen data <= zlen b ->
  mem_write b off data = Ret (ztake off b ++ data ++ zdrop (off + zlen data) b).
Proof. intros. unfold mem_write. by ztest. Qed.

Lemma zlen_overwrite (b : bytes) off data :
  0 <= off -> off + zlen data <= zlen b ->
  zlen (ztake off b ++ data ++ zdrop (off + zlen data) b) = zlen b.
Proof.
  intros. rewrite !zlen_app, zlen_ztake, zlen_zdrop by zlia. lia.
Qed.

Lemma ztake_overwrite (b : bytes) off data :
  0 <= off -> off + zlen data <= zlen b ->
  ztake (off + zlen data) (ztake off b ++ data ++ zdrop (off + zlen data) b)
    = ztake off b ++ data.
Proof.
  intros. rewrite app_assoc. apply ztake_app_exact.
  rewrite zlen_app, zlen_ztake; zlia.
Qed.

(** ** Functional behaviour *)

Lemma zlen_contents s : string_inv s -> zlen (contents s) = str_size s.
Proof.
  intros [Hsz Hb]. unfold contents. destruct (str_buf s) as [b|]; [|by rewrite Hb].
  pose proof (cap_of_size _ Hsz). apply zlen_ztake. lia.
Qed.

Definition capacity (s : cstring) : Z :=
  match str_buf s with None => 0 | Some _ => cap_of (str_size s) end.

Lemma string_allocated_spec s : string_inv s -> string_allocated s = Ret (capacity s).
Proof.
  intros [Hsz Hb]. unfold string_allocated, capacity.
  destruct (str_buf s) as [b|]; [|done].
  destruct (str_size s <? STRING_MIN_SIZE) eqn:E.
  - apply Z.ltb_lt in E. f_equal. symmetry. apply cap_of_small.
    unfold STRING_MIN_SIZE in E. lia.
  - apply Z.ltb_ge in E. pose proof (pow_log2_up_bound _ Hsz).
    rewrite next_pow2_spec by done. unfold cap_of. rewrite Z.max_r; [done|lia].
Qed.

Lemma string_init_inv : string_inv N2K_STRING_INITIALIZER.
Proof. repeat split; cbn; unfold size_limit; lia. Qed.

Lemma smax_max a : smax a STRING_MIN_SIZE = Z.max STRING_MIN_SIZE a.
Proof. unfold smax. destruct (STRING_MIN_SIZE <? a) eqn:E; lia. Qed.

Section string_lemmas.
Context {alloc : Allocator}.

(** Growing either gives a block with room for [delta] more bytes and the same
    contents, or changes nothing because [realloc] failed. *)
Lemma string_grow_spec s delta :
  string_inv s -> 0 <= delta -> str_size s + delta <= size_limit ->
  exists n s', string_grow s delta = Ret (n, s') /\
    ((exists b, str_buf s' = Some b /\ str_size s' = str_size s /\
        contents s' = contents s /\ str_size s + delta <= n /\
        4096 <= n /\
        cap_of (str_size s + delta) <= zlen b) \/
     (s' = s /\ n = capacity s /\ n < 2 ^ Z.log2_up (str_size s + delta) /\
      ~ never_fails alloc)).
Proof.
  intros Hinv Hd Hlim. pose proof Hinv as [Hsz Hb].
  assert (Hnew : 0 <= str_size s + delta <= size_limit) by lia.
  unfold string_grow.
  rewrite wrap64_small by (unfold size_limit in Hlim; lia).
  rewrite next_pow2_spec by done. rewrite string_allocated_spec by done. cbn [mbind outcome_bind].
  pose proof (pow_log2_up_bound _ Hnew) as Hp.
  pose proof (Z.pow_pos_nonneg 2 _ ltac:(lia) (Z.log2_up_nonneg (str_size s + delta))).
  pose proof (cap_of_mono (str_size s) (str_size s + delta)).
  destruct (capacity s <? 2 ^ Z.log2_up (str_size s + delta)) eqn:E; cbn [negb].
  - apply Z.ltb_lt in E. rewrite smax_max.
    change (Z.max STRING_MIN_SIZE (2 ^ Z.log2_up (str_size s + delta)))
      with (cap_of (str_size s + delta)).
    pose proof (cap_of_size _ Hnew). pose proof (cap_of_min (str_size s + delta)).
    destruct (realloc (str_buf s) (cap_of (str_size s + delta))) as [nb|] eqn:R.
    + eexists _, _. split; [done|]. left. exists nb. cbn.
      assert (Hc : 0 <= cap_of (str_size s + delta)) by lia.
      pose proof (realloc_size _ _ _ Hc R) as Hlen.
      repeat split; try done; try lia.
      unfold contents; cbn. unfold capacity in E.
      destruct (str_buf s) as [b|] eqn:B.
      * pose proof (cap_of_size _ Hsz).
        pose proof (f_equal (ztake (str_size s)) (realloc_keep _ _ _ Hc R)) as Hk.
        by rewrite !ztake_ztake in Hk by lia.
      * rewrite Hb. done.
    + eexists _, _. split; [done|]. right. split_and!; [done..|].
      intros Hnf. destruct (Hnf (str_buf s) (cap_of (str_size s + delta))). congruence.
  - apply Z.ltb_ge in E. eexists _, _. split; [done|]. left.
    unfold capacity in *. destruct (str_buf s) as [b|] eqn:B; [|lia].
    pose proof (cap_of_min (str_size s)).
    exists b. repeat split; try lia.
    unfold cap_of in *. unfold STRING_MIN_SIZE in *. lia.
Qed.

Lemma buf_write_spec b off data :
  0 <= off -> off + zlen data <= zlen b ->
  exists b', buf_write (Some b) off data = Ret (Some b') /\ zlen b' = zlen b /\
    ztake (off + zlen data) b' = ztake off b ++ data.
Proof.
  intros. destruct data as [|c data].
  - exists b. by rewrite Z.add_0_r, app_nil_r.
  - eexists. unfold buf_write. rewrite mem_write_spec by done.
    split; [reflexivity|]. split; [by apply zlen_overwrite|by apply ztake_overwrite].
Qed.

(** [string_append] either appends all of [data] or changes nothing. *)
Lemma string_append_spec s data :
  string_inv s -> str_size s + zlen data <= size_limit ->
  (exists s', string_append s data = Ret (0, s') /\ string_inv s' /\
     contents s' = contents s ++ data) \/
  (string_append s data = Ret (-1, s) /\ ~ never_fails alloc).
Proof.
  intros Hinv Hlim. pose proof Hinv as [Hsz Hb]. zlen_facts.
  destruct (string_grow_spec s (zlen data)) as (n & s1 & Hg & Hcase); [done..|].
  unfold string_append. rewrite Hg. cbn [mbind outcome_bind].
  destruct Hcase as [(b & Hb1 & Hs1 & Hc & Hn & _ & Hcap)|(-> & -> & Hlt & Hnf)].
  - rewrite Hs1. rewrite wrap64_small by (unfold size_limit in *; lia). ztest. left.
    rewrite Hb1.
    pose proof (cap_of_size (str_size s + zlen data) ltac:(lia)).
    destruct (buf_write_spec b (str_size s) data) as (b' & -> & Hlen & Htk); [lia..|].
    cbn [mbind outcome_bind]. eexists. split; [done|]. split.
    + split; cbn; [lia|]. by rewrite Hlen.
    + rewrite <- Hc. unfold contents. cbn. by rewrite Hb1, Hs1, Htk.
  - rewrite wrap64_small by (unfold size_limit in *; lia).
    destruct (capacity s <? str_size s + zlen data) eqn:E.
    + apply Z.ltb_lt in E. by right.
    + apply Z.ltb_ge in E. left.
      unfold capacity in *. destruct (str_buf s) as [b|] eqn:B.
      * apply cap_of_lt in Hlt; lia.
      * assert (zlen data = 0) by lia. rewrite (zlen_zero data) by done.
        cbn. eexists. split; [done|]. rewrite Hb. split; [apply string_init_inv|].
        unfold contents. cbn. by rewrite B.
Qed.

(** A string that has a block takes [STRING_MIN_SIZE] bytes without asking for
    memory. *)
Lemma string_append_room s data :
  string_inv s -> str_buf s <> None -> str_size s + zlen data <= STRING_MIN_SIZE ->
  exists s', string_append s data = Ret (0, s') /\ string_inv s' /\
    contents s' = contents s ++ data.
Proof.
  intros Hinv Hb Hl. pose proof Hinv as [Hsz _]. zlen_facts. unfold STRING_MIN_SIZE in Hl.
  destruct (string_append_spec s data Hinv) as [?|[Hf _]]; [unfold size_limit; lia|done|].
  exfalso. revert Hf. unfold string_append, string_grow.
  rewrite (wrap64_small (str_size s + zlen data)) by lia.
  rewrite next_pow2_spec by (unfold size_limit; lia). rewrite string_allocated_spec by done.
  cbn [mbind outcome_bind].
  assert (Hcap : capacity s = cap_of (str_size s)) by (unfold capacity; by destruct (str_buf s)).
  pose proof (cap_of_min (str_size s)).
  assert (2 ^ Z.log2_up (str_size s + zlen data) <= 4096).
  { pose proof (cap_of_small (str_size s + zlen data) Hl) as Hc. unfold cap_of, STRING_MIN_SIZE in Hc. lia. }
  rewrite Hcap. ztest. cbn [negb mbind outcome_bind].
  rewrite (wrap64_small (str_size s + zlen data)) by lia. ztest.
  by destruct (buf_write _ _ _).
Qed.

Lemma string_pop_back_spec s :
  string_inv s -> 0 < str_size s ->
  exists s', string_pop_back s = Ret s' /\ string_inv s' /\
    contents s' = ztake (str_size s - 1) (contents s).
Proof.
  intros [Hsz Hb] Hpos. unfold string_pop_back, contents.
  destruct (str_buf s) as [b|]; [|lia].
  pose proof (cap_of_size _ Hsz). unfold c_assert. ztest. cbn [mbind outcome_bind].
  rewrite mem_write_spec by zlia. cbn [mbind outcome_bind].
  eexists. split; [done|]. split.
  - split; cbn [str_size str_buf]; [lia|].
    rewrite zlen_overwrite by zlia.
    pose proof (cap_of_mono (str_size s - 1) (str_size s)). lia.
  - cbn [str_size str_buf]. rewrite ztake_ztake by lia.
    apply ztake_app_exact. rewrite zlen_ztake; lia.
Qed.

(** ** [string_printf] *)

Lemma vsnprintf_spec s b available out :
  string_inv s -> str_buf s = Some b -> 0 <= available <= cap_of (str_size s) - str_size s ->
  exists b', vsnprintf s available out = Ret (mkstr (Some b') (str_size s)) /\
    zlen b' = zlen b /\ ztake (str_size s) b' = ztake (str_size s) b /\
    (zlen out < available ->
     ztake (str_size s + zlen out) b' = ztake (str_size s) b ++ out).
Proof.
  intros [Hsz Hb] B Hav. rewrite B in Hb. zlen_facts. unfold vsnprintf.
  destruct (available =? 0) eqn:E.
  - apply Z.eqb_eq in E. exists b. destruct s; cbn in *; subst. repeat split; zlia.
  - apply Z.eqb_neq in E. rewrite B.
    set (txt := ztake (available - 1) out ++ [x00]).
    assert (Ht : zlen txt <= available /\ (zlen out < available -> txt = out ++ [x00])).
    { unfold txt. split.
      - unfold zlen, ztake. rewrite length_app, length_take. cbn. lia.
      - intros. rewrite ztake_all; [done|lia]. }
    destruct Ht as [Ht1 Ht2].
    destruct (buf_write_spec b (str_size s) txt) as (b' & -> & Hlen & Htk); [lia..|].
    exists b'. cbn. repeat split; [done| |].
    + zlen_facts.
      rewrite <- (ztake_ztake _ (str_size s + zlen txt)) by lia. rewrite Htk.
      apply ztake_app_exact. rewrite zlen_ztake; [lia|].
      pose proof (cap_of_size _ Hsz). lia.
    + intros Hlt. rewrite <- (ztake_ztake _ (str_size s + zlen txt)).
      * rewrite Htk, Ht2 by done. rewrite app_assoc. apply ztake_app_exact.
        rewrite zlen_app, zlen_ztake; [lia|]. pose proof (cap_of_size _ Hsz). lia.
      * rewrite Ht2 by done. zlia.
Qed.

(** A text that leaves two spare bytes of the recomputed capacity is printed in
    the first round. *)
Lemma string_printf_fits s b out fuel i :
  string_inv s -> str_buf s = Some b ->
  str_size s + zlen out + 2 <= cap_of (str_size s) ->
  str_size s + zlen out <= size_limit ->
  exists s', string_printf_loop (S fuel) i s out = Ret (zlen out, s') /\ string_inv s' /\
    contents s' = contents s ++ out.
Proof.
  intros Hinv B Hfit Hlim. pose proof Hinv as [Hsz Hb]. rewrite B in Hb. zlen_facts.
  cbn [string_printf_loop]. rewrite string_allocated_spec by done. cbn [mbind outcome_bind].
  unfold capacity. rewrite B. unfold string_size.
  rewrite wrap64_small.
  2:{ unfold size_limit in *. unfold cap_of, STRING_MIN_SIZE in *.
      pose proof (pow_log2_up_bound (str_size s) Hsz). lia. }
  destruct (vsnprintf_spec s b (cap_of (str_size s) - str_size s) out)
    as (b' & -> & Hlen & _ & Htk); [done..|lia|].
  cbn [mbind outcome_bind]. ztest.
  eexists. split; [done|]. cbn [str_buf str_size]. split.
  - split; cbn [str_buf str_size]; [lia|]. rewrite Hlen.
    enough (cap_of (str_size s + zlen out) <= cap_of (str_size s)) by lia.
    destruct (Z.le_gt_cases (cap_of (str_size s + zlen out)) (cap_of (str_size s))) as [?|Hgt];
      [done|].
    unfold cap_of at 2 in Hgt. apply Z.max_lt_iff in Hgt as [Hgt|Hgt].
    + pose proof (cap_of_min (str_size s)). unfold STRING_MIN_SIZE in Hgt. lia.
    + apply cap_of_lt in Hgt; lia.
  - unfold contents. cbn. rewrite B. apply Htk. lia.
Qed.

(** The first round on an empty string only allocates; without memory the
    error path stores the terminator through a NULL buffer. *)
Lemma string_printf_initial out fuel :
  zlen out + 2 <= 4096 ->
  match realloc None 4096 with
  | Some _ =>
      exists s', string_printf (S (S fuel)) N2K_STRING_INITIALIZER out = Ret (zlen out, s') /\
        string_inv s' /\ contents s' = out
  | None => string_printf (S (S fuel)) N2K_STRING_INITIALIZER out = Fault bad_access
  end.
Proof.
  intros Hfit. zlen_facts. unfold string_printf.
  remember (S fuel) as f eqn:Hf.
  cbn [string_printf_loop]. cbn [mbind outcome_bind N2K_STRING_INITIALIZER
    string_allocated str_buf string_size str_size].
  change (wrap64 (0 - 0)) with 0. cbn [vsnprintf Z.eqb mbind outcome_bind]. ztest.
  rewrite wrap64_small by (cbn; lia). unfold string_grow. cbn [str_size].
  rewrite wrap64_small by (cbn; lia). rewrite !Z.add_0_l.
  assert (Hl : 0 <= zlen out <= size_limit) by (unfold size_limit; lia).
  rewrite next_pow2_spec by done.
  cbn [mbind outcome_bind string_allocated str_buf str_size N2K_STRING_INITIALIZER].
  pose proof (Z.pow_pos_nonneg 2 _ ltac:(lia) (Z.log2_up_nonneg (zlen out))). ztest.
  rewrite smax_max. change (Z.max STRING_MIN_SIZE _) with (cap_of (zlen out)).
  rewrite cap_of_small by lia.
  destruct (realloc None 4096) as [b|] eqn:R; [|reflexivity].
  subst f. cbn [mbind outcome_bind]. ztest.
  assert (Hb : zlen b = 4096) by (eapply realloc_size; [|done]; lia).
  assert (cap_of 0 = 4096) by reflexivity.
  destruct (string_printf_fits (mkstr (Some b) 0) b out fuel 0) as (s' & -> & Hi & Hc);
    cbn [str_size str_buf]; unfold size_limit in *; try done; try lia.
  - split; cbn; unfold size_limit; lia.
  - exists s'. split; [done|]. split; [done|]. rewrite Hc. done.
Qed.

(** A text that does not fit is retried for ever: growing the block does not
    change the capacity that is recomputed from the unchanged size. *)
Lemma string_printf_diverges s b out fuel :
  string_inv s -> str_buf s = Some b -> str_size s < 4096 ->
  4096 <= str_size s + zlen out + 1 ->
  2 * str_size s + zlen out <= size_limit ->
  string_printf_loop fuel (str_size s) s out = NoFuel.
Proof.
  revert s b. induction fuel as [|fuel IH]; intros s b Hinv B Hsmall Hbig Hlim; [done|].
  pose proof Hinv as [Hsz Hb]. rewrite B in Hb. zlen_facts.
  cbn [string_printf_loop]. rewrite string_allocated_spec by done. cbn [mbind outcome_bind].
  pose proof (cap_of_small (str_size s) ltac:(lia)) as Hcap.
  unfold capacity. rewrite B, Hcap. unfold string_size.
  rewrite wrap64_small by lia.
  destruct (vsnprintf_spec s b (4096 - str_size s) out)
    as (b' & -> & Hlen & _ & _); [done..|lia|].
  cbn [mbind outcome_bind]. ztest.
  rewrite wrap64_small by (unfold size_limit in *; lia).
  set (s1 := mkstr (Some b') (str_size s)).
  assert (Hinv1 : string_inv s1) by (split; cbn; lia).
  destruct (string_grow_spec s1 (str_size s + zlen out)) as (n & s2 & -> & Hcase);
    cbn [s1 str_size]; [done|lia|lia|].
  cbn [mbind outcome_bind].
  destruct Hcase as [(b2 & Hb2 & Hs2 & _ & _ & Hn & Hc2)|(-> & -> & _ & _)].
  - ztest. cbn [str_size s1] in Hs2. rewrite <- Hs2. apply (IH s2 b2); rewrite ?Hs2; try done.
    split; rewrite ?Hs2; [done|]. rewrite Hb2. cbn [str_size s1] in Hc2.
    pose proof (cap_of_mono (str_size s) (str_size s + (str_size s + zlen out))). lia.
  - unfold capacity. cbn [s1 str_buf str_size]. rewrite Hcap. ztest.
    by apply (IH s1 b').
Qed.
End string_lemmas.

(** ** Abstract specification: a string is its list of bytes *)

Inductive string_op :=
| OpAppend (data : bytes)
| OpPrintf (out : bytes)
| OpPopBack
| OpDone.

(** The operations with their return values; 0 for those that have none. *)
Definition string_step {alloc : Allocator} (fuel : nat) (s : cstring) (op : string_op)
    : outcome (Z * cstring) :=
  match op with
  | OpAppend data => string_append s data
  | OpPrintf out => string_printf fuel s out
  | OpPopBack => s' ← string_pop_back s; Ret (0, s')
  | OpDone => Ret (0, string_done s)
  end.

(** What an operation may do to the list of bytes, with the value it returns. *)
Inductive abs_step : bytes -> string_op -> Z -> bytes -> Prop :=
| abs_append l data : abs_step l (OpAppend data) 0 (l ++ data)
| abs_append_failed l data : abs_step l (OpAppend data) (-1) l
| abs_printf l out : abs_step l (OpPrintf out) (zlen out) (l ++ out)
| abs_pop_back l c : abs_step (l ++ [c]) OpPopBack 0 l
| abs_done l : abs_step l OpDone 0 [].

(** When an operation may be used: an append up to the bytes that [next_pow2] can
    round up; a printf of a text that leaves two of the bytes of the first block, if
    that block can be allocated; a pop if there is something to remove. *)
Definition allowed {alloc : Allocator} (l : bytes) (op : string_op) : Prop :=
  match op with
  | OpAppend data => zlen l + zlen data <= size_limit
  | OpPrintf out => zlen l + zlen out + 2 <= STRING_MIN_SIZE /\ is_Some (realloc None STRING_MIN_SIZE)
  | OpPopBack => l <> []
  | OpDone => True
  end.

(** A client of the string: what it does next depends on the values returned. *)
Inductive string_client :=
| Finish
| Call (op : string_op) (next : Z -> string_client).

(** A client that only uses the operations when they may be used, whatever they
    return. *)
Fixpoint careful {alloc : Allocator} (l : bytes) (p : string_client) : Prop :=
  match p with
  | Finish => True
  | Call op next => allowed l op /\ forall rc l', abs_step l op rc l' -> careful l' (next rc)
  end.

(** The operations of a client, with the values they returned. *)
Fixpoint string_run {alloc : Allocator} (fuel : nat) (s : cstring) (p : string_client)
    : outcome (list (string_op * Z) * cstring) :=
  match p with
  | Finish => Ret ([], s)
  | Call op next =>
      '(rc, s1) ← string_step fuel s op;
      '(calls, s2) ← string_run fuel s1 (next rc);
      Ret ((op, rc) :: calls, s2)
  end.

Inductive abs_run : bytes -> list (string_op * Z) -> bytes -> Prop :=
| abs_run_nil l : abs_run l [] l
| abs_run_cons l op rc l1 calls l2 :
    abs_step l op rc l1 -> abs_run l1 calls l2 -> abs_run l ((op, rc) :: calls) l2.

Lemma string_append_never_fails {alloc : Allocator} s data :
  never_fails alloc -> string_inv s -> str_size s + zlen data <= size_limit ->
  exists s', string_append s data = Ret (0, s') /\ string_inv s' /\
    contents s' = contents s ++ data.
Proof.
  intros Hnf Hinv Hlim.
  destruct (string_append_spec s data Hinv Hlim) as [?|[_ []]]; done.
Qed.

(** The same with the contents given. *)
Lemma string_append_contents {alloc : Allocator} s data l :
  never_fails alloc -> string_inv s -> contents s = l -> zlen l + zlen data <= size_limit ->
  exists s', string_append s data = Ret (0, s') /\ string_inv s' /\ contents s' = l ++ data.
Proof.
  intros Hnf Hinv <- Hlim. apply string_append_never_fails; [done..|].
  by rewrite <- (zlen_contents s Hinv).
Qed.

(** [string_printf] on a string of any kind, when the text fits the first block. *)
Lemma string_printf_short {alloc : Allocator} fuel s out :
  string_inv s -> str_size s + zlen out + 2 <= STRING_MIN_SIZE -> is_Some (realloc None STRING_MIN_SIZE) ->
  exists s', string_printf (S (S fuel)) s out = Ret (zlen out, s') /\ string_inv s' /\
    contents s' = contents s ++ out.
Proof.
  intros Hinv Hfit [b0 Hb0]. pose proof Hinv as [Hsz Hb]. zlen_facts. unfold STRING_MIN_SIZE in *.
  destruct (str_buf s) as [b|] eqn:B.
  - pose proof (cap_of_min (str_size s)). unfold string_printf.
    apply (string_printf_fits s b); [done..|lia|unfold size_limit; lia].
  - assert (s = N2K_STRING_INITIALIZER) as -> by (destruct s; cbn in *; by subst).
    pose proof (string_printf_initial out fuel) as Hp. rewrite Hb0 in Hp. apply Hp. cbn in Hfit. lia.
Qed.

Lemma string_step_refines {alloc : Allocator} fuel s op :
  string_inv s -> allowed (contents s) op ->
  exists rc s', string_step (S (S fuel)) s op = Ret (rc, s') /\ string_inv s' /\
    abs_step (contents s) op rc (contents s') /\ (never_fails alloc -> 0 <= rc).
Proof.
  intros Hinv Hop. pose proof (zlen_contents s Hinv) as Hlen.
  destruct op as [data|out| |]; cbn [allowed string_step] in *.
  - destruct (string_append_spec s data Hinv) as [(s' & -> & Hi & Hc)|[-> Hf]]; [lia|..].
    + exists 0, s'. rewrite Hc. split_and!; try done. constructor.
    + exists (-1), s. split_and!; try done. constructor.
  - destruct Hop as [Hfit Hmem]. destruct (string_printf_short fuel s out Hinv) as (s' & -> & Hi & Hc); [lia|done|].
    exists (zlen out), s'. rewrite Hc. pose proof (zlen_nonneg out). split_and!; try done. constructor.
  - destruct (exists_last Hop) as (l & c & Hl). rewrite Hl in Hlen |- *. rewrite zlen_app in Hlen.
    pose proof (zlen_nonneg l). change (zlen [c]) with 1 in Hlen.
    destruct (string_pop_back_spec s Hinv) as (s' & -> & Hi & Hc); [lia|]. exists 0, s'.
    rewrite Hc, Hl, ztake_app_exact by lia. split_and!; try done. constructor.
  - exists 0, (string_done s). split; [done|]. split; [apply string_init_inv|]. split; [constructor|done].
Qed.

(** ** Properties *)

(** C31: next_pow2 returns the least power of two that is not below its
    argument for every argument up to 2^31; for every larger size_t the 32-bit
    literal it shifts makes the shift undefined. *)
Theorem next_pow2_correct (x : Z) (Hx : 0 <= x < 2 ^ 64) :
  if x <=? 2 ^ 31
  then exists k, 0 <= k /\ next_pow2 x = Ret (2 ^ k) /\ x <= 2 ^ k /\
         forall j, 0 <= j -> x <= 2 ^ j -> 2 ^ k <= 2 ^ j
  else next_pow2 x = Fault bad_shift.
Proof.
  destruct (x <=? 2 ^ 31) eqn:E.
  - apply Z.leb_le in E. assert (Hl : 0 <= x <= size_limit) by (unfold size_limit; lia).
    exists (Z.log2_up x). repeat split; [apply Z.log2_up_nonneg|by apply next_pow2_spec| |].
    + by apply pow_log2_up_bound.
    + intros j Hj Hle. apply Z.pow_le_mono_r; [lia|].
      destruct (Z.le_gt_cases x 1).
      * by rewrite Z.log2_up_eqn0.
      * by apply Z.log2_up_le_pow2; [lia|].
  - apply Z.leb_gt in E. apply next_pow2_overflow. unfold size_limit. lia.
Qed.

Lemma next_pow2_correct_witness :
  (0 <= 5000 < 2 ^ 64) /\ exists k, next_pow2 5000 = Ret (2 ^ k) /\ 5000 <= 2 ^ k.
Proof.
  assert (H : 0 <= 5000 < 2 ^ 64) by lia. split; [exact H|].
  destruct (next_pow2_correct 5000 H) as (k & _ & Hk & Hle & _). by exists k.
Defined.

(** String_append on a well-formed string never accesses memory outside of
    the block: it appends all of the data and returns 0, or returns -1 and
    leaves the string as it was; the string stays well-formed. *)
Theorem string_append_correct {alloc : Allocator} (s : cstring) (data : bytes)
    (Hinv : string_inv s) (Hsize : str_size s + zlen data <= size_limit) :
  exists rc s', string_append s data = Ret (rc, s') /\ string_inv s' /\
    ((rc = 0 /\ contents s' = contents s ++ data) \/ (rc = -1 /\ s' = s)).
Proof.
  destruct (string_append_spec s data Hinv Hsize) as [(s' & H1 & H2 & H3)|[H1 _]];
    eexists _, _; (split; [exact H1|]); auto.
Qed.

Lemma string_append_correct_witness :
  exists rc s', @string_append total_allocator N2K_STRING_INITIALIZER (bs "abc") = Ret (rc, s')
    /\ string_inv s'.
Proof.
  destruct (@string_append_correct total_allocator N2K_STRING_INITIALIZER (bs "abc")
    string_init_inv ltac:(vm_compute; discriminate)) as (rc & s' & H1 & H2 & _).
  by exists rc, s'.
Defined.

(** C29: a string is its list of bytes, whatever the allocator does.  A client that
    appends, prints, pops and releases, and may look at what the calls return, runs
    on the growing buffer without a fault and ends, and the calls do to the list of
    bytes what they say: an append that returns 0 adds its data at the end and one
    that returns -1 changes nothing, a printf adds its text and returns its length, a
    pop removes the last byte and a release all of them; with an allocator that does
    not fail no append returns -1.  The client is asked to append only up to 2^31
    bytes in all, to pop only from a string that is not empty, and to print only
    texts that leave two of the first 4096 bytes, with an allocator that can give the
    first block (a longer text makes string_printf loop forever,
    [string_printf_never_returns]).  Two rounds are enough for its loop. *)
Theorem string_refines_bytes {alloc : Allocator} (p : string_client) (s : cstring) (fuel : nat) :
  string_inv s -> careful (contents s) p ->
  exists calls s', string_run (S (S fuel)) s p = Ret (calls, s') /\ string_inv s' /\
    abs_run (contents s) calls (contents s') /\
    (never_fails alloc -> Forall (fun call => 0 <= call.2) calls).
Proof.
  revert s. induction p as [|op next IH]; intros s Hinv Hp.
  { exists [], s. split_and!; try done. constructor. }
  destruct Hp as [Hop Hnext].
  destruct (string_step_refines fuel s op Hinv Hop) as (rc & s1 & Hs1 & Hinv1 & Habs & Hnf).
  destruct (IH rc s1 Hinv1 (Hnext _ _ Habs)) as (calls & s2 & Hrun & Hinv2 & Habs2 & Hnf2).
  exists ((op, rc) :: calls), s2. cbn [string_run]. rewrite Hs1. cbn [mbind outcome_bind]. rewrite Hrun.
  split_and!; try done; [by econstructor|]. intros H. constructor; [by apply Hnf|by apply Hnf2].
Qed.

Lemma abs_pop_back_length l rc l' : abs_step l OpPopBack rc l' -> zlen l' + 1 = zlen l.
Proof. inversion 1; subst. by rewrite zlen_app. Qed.

(** A client that goes on when the first append does not fail. *)
Definition demo_client : string_client :=
  Call (OpAppend (bs "ab")) (fun rc =>
    if rc =? 0 then Call OpPopBack (fun _ => Call (OpPrintf (bs "cd")) (fun _ => Finish)) else Finish).

Lemma string_refines_bytes_witness :
  (exists calls s', string_run 2 N2K_STRING_INITIALIZER demo_client = Ret (calls, s') /\ string_inv s' /\
    abs_run [] calls (contents s') /\ (never_fails total_allocator -> Forall (fun call => 0 <= call.2) calls)).
Proof.
  apply (string_refines_bytes demo_client N2K_STRING_INITIALIZER 0).
  - apply string_init_inv.
  - split; [vm_compute; discriminate|]. intros rc l H. inversion H; subst; cbn; [|exact I].
    split; [discriminate|]. intros rc' l' H'%abs_pop_back_length. cbn. split; [|done].
    change (zlen [x61; x62]) with 2 in H'. change (zlen [x63; x64]) with 2. unfold STRING_MIN_SIZE.
    split; [lia|by eexists].
Defined.

Example demo_client_run :
  match string_run 2 N2K_STRING_INITIALIZER demo_client with
  | Ret (calls, s') => contents s' = bs "acd" /\ map snd calls = [0; 0; 2]
  | _ => False
  end.
Proof. vm_compute. by split. Qed.

(** String_printf of a text of at most 4094 bytes to a fresh string
    terminates: it leaves exactly the text and returns its length, except that
    without memory it stores through the NULL buffer. *)
Theorem string_printf_fresh {alloc : Allocator} (out : bytes) (fuel : nat)
    (Hfit : zlen out + 2 <= 4096) :
  match realloc None 4096 with
  | Some _ =>
      exists s', string_printf (S (S fuel)) N2K_STRING_INITIALIZER out = Ret (zlen out, s') /\
        string_inv s' /\ contents s' = out
  | None => string_printf (S (S fuel)) N2K_STRING_INITIALIZER out = Fault bad_access
  end.
Proof. by apply string_printf_initial. Qed.

Lemma string_printf_fresh_witness :
  zlen (bs "msg") + 2 <= 4096 /\
  exists s', string_printf 2 N2K_STRING_INITIALIZER (bs "msg") = Ret (3, s').
Proof.
  assert (H : zlen (bs "msg") + 2 <= 4096) by (vm_compute; discriminate).
  split; [exact H|].
  destruct (string_printf_fresh (alloc := total_allocator) (bs "msg") 0 H) as (s' & Hs & _).
  exists s'. exact Hs.
Defined.

(** String_printf never returns when the text does not leave two spare
    bytes in the 4096 of a short string: the loop grows the block but derives
    the available space from the unchanged size, so no number of rounds is
    enough. *)
Theorem string_printf_never_returns {alloc : Allocator} (s : cstring) (b out : bytes) (fuel : nat)
    (Hinv : string_inv s) (Hbuf : str_buf s = Some b) (Hshort : str_size s < 4096)
    (Hbig : 4096 <= str_size s + zlen out + 1)
    (Hlim : 2 * str_size s + zlen out <= size_limit) :
  string_printf fuel s out = NoFuel.
Proof. by apply (string_printf_diverges s b). Qed.

Lemma string_printf_never_returns_witness :
  string_printf 50 (mkstr (Some (zeros 4096)) 4090) (bs "1234567890") = NoFuel.
Proof.
  apply (string_printf_never_returns _ (zeros 4096)); [|reflexivity|..].
  - split; cbn; [unfold size_limit; lia|]. vm_compute. discriminate.
  - reflexivity.
  - vm_compute. discriminate.
  - vm_compute. discriminate.
Defined.
