(* ===== verification/JsonString.v ===== *)
(** * JSON string escaping of util/string.c

    [string_append_json_string] and its helpers, with a reader of JSON string
    bodies as the reference the written text is checked against. *)

From S2P Require Import Prelude CString.

(** [__builtin_clz] of a non-zero 32-bit word. *)
Definition clz32 (x : Z) : Z := 31 - Z.log2 x.

(** [clz(~((unsigned)c << 24))]: the number of leading one bits of the byte. *)
Definition leading_ones (c : byte) : Z :=
  clz32 (Z.lxor (2 ^ 32 - 1) (wrap32 (Z.shiftl (byte_val c) 24))).

(** The continuation bytes [data[1] .. data[n-1]] all start with the bits 10. *)
Fixpoint trailing_ok (n : nat) (rest : bytes) : bool :=
  match n, rest with
  | O, _ => true
  | S n, c :: rest => (Z.land (byte_val c) 0xc0 =? 0x80) && trailing_ok n rest
  | S _, [] => false
  end.

Definition multibyte_utf8_unicode_size (data : bytes) : outcome Z :=
  match data with
  | [] => Fault assert_failed
  | c :: rest =>
      let n := leading_ones c in
      if n =? 0 then Ret 1
      else if (2 <=? n) && (n <=? 4) then
        if zlen data <? n then Ret 0
        else if trailing_ok (Z.to_nat (n - 1)) rest then Ret n else Ret 0
      else Ret 0
  end.

(** [strchr(set, c)] as a test: the terminator of [set] is found too. *)
Definition strchr_test (set : bytes) (c : byte) : bool :=
  bool_decide (c ∈ set) || bool_decide (c = x00).

(** Decimal digits of [%u] for a byte. *)
Definition digit (n : Z) : byte := byte_of_Z (48 + n).
Definition print_u8 (n : Z) : bytes :=
  if n <? 10 then [digit n]
  else if n <? 100 then [digit (n / 10); digit (n mod 10)]
  else [digit (n / 100); digit (n / 10 mod 10); digit (n mod 10)].

Section json_string.
Context {alloc : Allocator}.

Definition print_not_utf8_code (fuel : nat) (s : cstring) (c : byte) : outcome (Z * cstring) :=
  string_printf fuel s (bs "\\x" ++ print_u8 (byte_val c)).

Definition print_utf8 (fuel : nat) (s : cstring) (data : bytes) : outcome (Z * cstring) :=
  character_size ← multibyte_utf8_unicode_size data;
  if character_size =? 0 then
    '(append_rc, s1) ← print_not_utf8_code fuel s (hd x00 data);
    Ret (if 0 <? append_rc then 1 else 0, s1)
  else
    '(append_rc, s1) ← string_append s (ztake character_size data);
    Ret (if append_rc =? 0 then character_size else -1, s1).

Definition print_json_escaped_character (fuel : nat) (s : cstring) (c : byte)
    : outcome (Z * cstring) :=
  match c with
  | x08 => string_append_string s (bs "\b")
  | x0c => string_append_string s (bs "\f")
  | x0a => string_append_string s (bs "\n")
  | x0d => string_append_string s (bs "\r")
  | x09 => string_append_string s (bs "\t")
  | _ =>
      '(rc, s1) ← print_not_utf8_code fuel s c;
      Ret (if 0 <? rc then 1 else 0, s1)
  end.

(** [data] is the part of the input from [data[i]] on. *)
Fixpoint string_append_json_string (fuel : nat) (s : cstring) (data : bytes)
    : outcome (Z * cstring) :=
  match fuel with
  | O => NoFuel
  | S fuel =>
      match data with
      | [] => Ret (0, s)
      | c :: rest =>
          if strchr_test [x08; x0c; x0a; x0d; x09] c then
            '(rc, s1) ← print_json_escaped_character fuel s c;
            if rc =? 0 then string_append_json_string fuel s1 rest else Ret (1, s1)
          else if strchr_test [dquote; backslash] c then
            '(rc, s1) ← string_append_string s [backslash];
            if negb (rc =? 0) then Ret (1, s1)
            else
              '(rc, s2) ← string_append s1 [c];
              if negb (rc =? 0) then Ret (1, s2)
              else string_append_json_string fuel s2 rest
          else
            '(consumed_utf8, s1) ← print_utf8 fuel s data;
            if consumed_utf8 <? 0 then Ret (1, s1)
            else string_append_json_string fuel s1 (zdrop consumed_utf8 data)
      end
  end.

End json_string.

(** ** Reference: reading back the body of a JSON string *)

Definition unescape_char (e : byte) : option byte :=
  match e with
  | x62 => Some x08
  | x66 => Some x0c
  | x6e => Some x0a
  | x72 => Some x0d
  | x74 => Some x09
  | x22 => Some x22
  | x5c => Some x5c
  | _ => None
  end.

(** [None]: a quote that ends the string, a control character, which JSON does not
    allow in a string, or an escape that JSON does not have among those that stand
    for one byte. *)
Fixpoint json_unescape (l : bytes) : option bytes :=
  match l with
  | [] => Some []
  | x22 :: _ => None
  | x5c :: e :: r => c ← unescape_char e; t ← json_unescape r; Some (c :: t)
  | x5c :: [] => None
  | c :: r => if byte_val c <? 32 then None else t ← json_unescape r; Some (c :: t)
  end.

(** ** Reference: UTF-8, as RFC 3629 has it *)

(** The characters of Unicode: the code points but the surrogates. *)
Definition scalar_value (cp : Z) : Prop := 0 <= cp < 0xd800 \/ 0xe000 <= cp < 0x110000.

Definition utf8_encode (cp : Z) : bytes :=
  if cp <? 0x80 then [byte_of_Z cp]
  else if cp <? 0x800 then [byte_of_Z (0xc0 + cp / 64); byte_of_Z (0x80 + cp mod 64)]
  else if cp <? 0x10000 then
    [byte_of_Z (0xe0 + cp / 4096); byte_of_Z (0x80 + cp / 64 mod 64); byte_of_Z (0x80 + cp mod 64)]
  else
    [byte_of_Z (0xf0 + cp / 262144); byte_of_Z (0x80 + cp / 4096 mod 64);
     byte_of_Z (0x80 + cp / 64 mod 64); byte_of_Z (0x80 + cp mod 64)].

(** The encoding of a character other than NUL. *)
Definition utf8_char (ch : bytes) : Prop :=
  exists cp, scalar_value cp /\ cp <> 0 /\ ch = utf8_encode cp.

(** A control character that has no short escape in JSON. *)
Definition raw_control (cp : Z) : Prop := 0 <= cp < 32 /\ cp ∉ [8; 9; 10; 12; 13].

(** A character that a JSON string can hold, as it is or with a short escape. *)
Definition json_char (ch : bytes) : Prop :=
  exists cp, scalar_value cp /\ (32 <= cp \/ cp ∈ [8; 9; 10; 12; 13]) /\ ch = utf8_encode cp.

Definition escape_char (ch : bytes) : bytes :=
  match ch with
  | [x08] => [backslash; x62]
  | [x0c] => [backslash; x66]
  | [x0a] => [backslash; x6e]
  | [x0d] => [backslash; x72]
  | [x09] => [backslash; x74]
  | [x22] => [backslash; x22]
  | [x5c] => [backslash; x5c]
  | _ => ch
  end.

Definition json_escape (text : list bytes) : bytes := concat (map escape_char text).

(** ** UTF-8 sequences *)

(** A byte a JSON string holds as it is. *)
Definition plain (c : byte) : bool :=
  negb (strchr_test [x08; x0c; x0a; x0d; x09] c) && negb (strchr_test [dquote; backslash] c).

Lemma continuation_plain c : (Z.land (byte_val c) 0xc0 =? 0x80) = true -> plain c = true.
Proof. destruct c; vm_compute; congruence. Qed.

Lemma leading_plain c : leading_ones c <> 0 -> plain c = true.
Proof. destruct c; vm_compute; congruence. Qed.

Lemma json_unescape_plain c r :
  plain c = true -> 32 <= byte_val c -> json_unescape (c :: r) = t ← json_unescape r; Some (c :: t).
Proof.
  intros Hp Hv. apply Z.ltb_ge in Hv. destruct c; (discriminate Hp || discriminate Hv || reflexivity).
Qed.

Lemma json_unescape_plains l r :
  Forall (fun c => plain c = true /\ 32 <= byte_val c) l ->
  json_unescape (l ++ r) = t ← json_unescape r; Some (l ++ t).
Proof.
  induction 1 as [|c l [Hc Hv] _ IH]; cbn [app]; [by destruct (json_unescape r)|].
  rewrite json_unescape_plain, IH by done. by destruct (json_unescape r).
Qed.

(** The bytes of the encodings. *)
Lemma lead_byte_1 z : 0 <= z < 128 -> leading_ones (byte_of_Z z) = 0.
Proof.
  intros H. pose proof (byte_val_of_Z z ltac:(lia)) as E. revert E. generalize (byte_of_Z z).
  intros c <-. revert H. destruct c; vm_compute; intuition congruence.
Qed.

Lemma lead_byte z n :
  (192 <= z < 224 /\ n = 2) \/ (224 <= z < 240 /\ n = 3) \/ (240 <= z < 248 /\ n = 4) ->
  leading_ones (byte_of_Z z) = n /\ plain (byte_of_Z z) = true /\ 32 <= byte_val (byte_of_Z z).
Proof.
  intros H. pose proof (byte_val_of_Z z ltac:(lia)) as E. revert E. generalize (byte_of_Z z).
  intros c <-. destruct H as [[H ->]|[[H ->]|[H ->]]]; revert H; destruct c; vm_compute; intuition congruence.
Qed.

Lemma trailing_byte z : let c := byte_of_Z (0x80 + z mod 64) in
  (Z.land (byte_val c) 0xc0 =? 0x80) = true /\ plain c = true /\ 32 <= byte_val c.
Proof.
  cbn zeta. pose proof (Z.mod_pos_bound z 64 ltac:(lia)) as H.
  pose proof (byte_val_of_Z (0x80 + z mod 64) ltac:(lia)) as E. revert E. generalize (byte_of_Z (0x80 + z mod 64)).
  intros c E. assert (Hc : 128 <= byte_val c < 192) by lia. revert Hc. clear.
  destruct c; vm_compute; intuition congruence.
Qed.

(** How an encoding looks. *)
Lemma utf8_encode_cases cp :
  scalar_value cp ->
  (0 <= cp < 128 /\ utf8_encode cp = [byte_of_Z cp]) \/
  (exists c rest, 128 <= cp /\ utf8_encode cp = c :: rest /\ leading_ones c = 1 + zlen rest /\
    1 <= zlen rest <= 3 /\
    Forall (fun c => (Z.land (byte_val c) 0xc0 =? 0x80) = true) rest /\
    Forall (fun c => plain c = true /\ 32 <= byte_val c) (c :: rest)).
Proof.
  intros H. assert (Hcp : 0 <= cp < 0x110000) by (unfold scalar_value in H; lia). clear H.
  unfold utf8_encode. destruct (cp <? 0x80) eqn:E1; [left; split; [lia|done]|right]. apply Z.ltb_ge in E1.
  assert (Hq : forall k, 0 < k -> 0 <= cp / k) by (intros; apply Z.div_pos; lia).
  destruct (cp <? 0x800) eqn:E2; [|destruct (cp <? 0x10000) eqn:E3].
  - destruct (lead_byte (0xc0 + cp / 64) 2) as (Hl & Hp & Hv).
    { left. split; [|done]. pose proof (Z.div_lt_upper_bound cp 64 32 ltac:(lia) ltac:(lia)).
      pose proof (Hq 64 ltac:(lia)). lia. }
    eexists _, _. split; [done|]. split; [reflexivity|]. rewrite Hl.
    split; [done|]. split; [cbv; split; congruence|].
    split; repeat constructor; try done; apply trailing_byte.
  - destruct (lead_byte (0xe0 + cp / 4096) 3) as (Hl & Hp & Hv).
    { right. left. split; [|done]. pose proof (Z.div_lt_upper_bound cp 4096 16 ltac:(lia) ltac:(lia)).
      pose proof (Hq 4096 ltac:(lia)). lia. }
    eexists _, _. split; [done|]. split; [reflexivity|]. rewrite Hl.
    split; [done|]. split; [cbv; split; congruence|].
    split; repeat constructor; try done; apply trailing_byte.
  - destruct (lead_byte (0xf0 + cp / 262144) 4) as (Hl & Hp & Hv).
    { right. right. split; [|done]. pose proof (Z.div_lt_upper_bound cp 262144 8 ltac:(lia) ltac:(lia)).
      pose proof (Hq 262144 ltac:(lia)). lia. }
    eexists _, _. split; [done|]. split; [reflexivity|]. rewrite Hl.
    split; [done|]. split; [cbv; split; congruence|].
    split; repeat constructor; try done; apply trailing_byte.
Qed.

Lemma json_not_nul cp : 32 <= cp \/ cp ∈ [8; 9; 10; 12; 13] -> cp <> 0.
Proof. rewrite !elem_of_cons, elem_of_nil. lia. Qed.

Lemma json_char_utf8 ch : json_char ch -> utf8_char ch.
Proof. intros (cp & Hs & Hj & ->). exists cp. auto using json_not_nul. Qed.

Lemma json_chars_utf8 text : Forall json_char text -> Forall utf8_char text.
Proof. intros H. eapply list.Forall_impl; [exact H|apply json_char_utf8]. Qed.
#[export] Hint Resolve json_chars_utf8 : n2k.

(** The text of ASCII characters that JSON can hold. *)
Lemma json_ascii (text : bytes) :
  forallb (fun c => (32 <=? byte_val c) && (byte_val c <? 128)) text = true ->
  Forall json_char (map (fun c => [c]) text).
Proof.
  intros H. apply list.Forall_fmap, list.Forall_forall. intros c Hc. rewrite forallb_forall in H.
  specialize (H c (proj1 (list_elem_of_In _ _) Hc)). apply andb_prop in H as [H1 H2].
  exists (byte_val c). unfold scalar_value. split; [lia|]. split; [left; lia|].
  unfold utf8_encode. rewrite H2. by rewrite byte_of_val.
Qed.

Lemma trailing_ok_all l r :
  Forall (fun c => (Z.land (byte_val c) 0xc0 =? 0x80) = true) l -> trailing_ok (length l) (l ++ r) = true.
Proof. induction 1 as [|c l Hc _ IH]; [done|]. cbn. by rewrite Hc. Qed.

(** A character is one ASCII byte, or plain bytes only. *)
Lemma utf8_char_cases ch :
  utf8_char ch ->
  (exists c, ch = [c] /\ c <> x00 /\ leading_ones c = 0) \/
  (Forall (fun c => plain c = true /\ 32 <= byte_val c) ch /\ 2 <= zlen ch).
Proof.
  intros (cp & Hs & H0 & ->).
  destruct (utf8_encode_cases cp Hs) as [[Hr ->]|(c & rest & _ & -> & _ & Hl & _ & Hp)].
  - left. exists (byte_of_Z cp). split; [done|]. split; [|by apply lead_byte_1].
    intros E. apply H0. by rewrite <- (byte_val_of_Z cp), E by lia.
  - right. split; [done|]. rewrite zlen_cons. lia.
Qed.

(** The program knows the size of every character. *)
Lemma utf8_char_size ch r :
  utf8_char ch -> multibyte_utf8_unicode_size (ch ++ r) = Ret (zlen ch).
Proof.
  intros (cp & Hs & _ & ->).
  destruct (utf8_encode_cases cp Hs) as [[Hr ->]|(c & rest & _ & -> & Hl & Hn & Ht & _)];
    cbn [multibyte_utf8_unicode_size app].
  - by rewrite lead_byte_1.
  - rewrite Hl. rewrite !zlen_cons, zlen_app. pose proof (zlen_nonneg r). ztest.
    replace (Z.to_nat (1 + zlen rest - 1)) with (length rest) by (unfold zlen; lia).
    by rewrite trailing_ok_all.
Qed.

Lemma utf8_char_zlen ch : utf8_char ch -> 0 < zlen ch.
Proof.
  intros H. destruct (utf8_char_cases ch H) as [(c & -> & _)|[_ ?]]; [done|lia].
Qed.

Lemma escape_char_plain ch :
  Forall (fun c => plain c = true) ch -> escape_char ch = ch.
Proof.
  destruct ch as [|c [|d rest]]; [done| |].
  - intros H%Forall_inv. destruct c; (discriminate || reflexivity).
  - intros _. by destruct c.
Qed.

Lemma Forall_plain l :
  Forall (fun c => plain c = true /\ 32 <= byte_val c) l -> Forall (fun c => plain c = true) l.
Proof. intros H. eapply list.Forall_impl; [exact H|]. by intros c []. Qed.

(** The reader turns an escaped character back into the character, and refuses a
    control character that was not escaped. *)
Lemma json_unescape_char cp r :
  scalar_value cp -> cp <> 0 ->
  (32 <= cp \/ cp ∈ [8; 9; 10; 12; 13] ->
   json_unescape (escape_char (utf8_encode cp) ++ r) = t ← json_unescape r; Some (utf8_encode cp ++ t)) /\
  (raw_control cp -> json_unescape (escape_char (utf8_encode cp) ++ r) = None).
Proof.
  intros Hs H0. destruct (utf8_encode_cases cp Hs) as [[Hr ->]|(c & rest & Hge & -> & _ & _ & _ & Hp)].
  - rewrite <- (byte_val_of_Z cp) by lia. unfold raw_control. rewrite !elem_of_cons, !elem_of_nil.
    generalize (byte_of_Z cp). intros c.
    destruct c; cbn [escape_char app]; split; intros H;
      try reflexivity; exfalso; revert H; vm_compute; intuition congruence.
  - rewrite escape_char_plain by (by apply Forall_plain). split; [intros _; by apply json_unescape_plains|].
    unfold raw_control. lia.
Qed.

Lemma json_unescape_escape text :
  Forall json_char text -> json_unescape (json_escape text) = Some (concat text).
Proof.
  induction 1 as [|ch text Hch _ IH]; [done|].
  destruct Hch as (cp & Hs & Hj & ->). unfold json_escape in *. cbn [map concat].
  rewrite (proj1 (json_unescape_char cp _ Hs (json_not_nul cp Hj)) Hj). by rewrite IH.
Qed.

Lemma json_unescape_control cps :
  Forall (fun cp => scalar_value cp /\ cp <> 0) cps -> Exists raw_control cps ->
  json_unescape (json_escape (map utf8_encode cps)) = None.
Proof.
  unfold json_escape. induction 1 as [|cp cps [Hs H0] _ IH]; intros H; [inversion H|].
  cbn [map concat]. destruct (json_unescape_char cp (concat (map escape_char (map utf8_encode cps))) Hs H0)
    as [Hgood Hbad].
  apply Exists_cons in H as [H|H]; [by apply Hbad|].
  destruct (decide (32 <= cp \/ cp ∈ [8; 9; 10; 12; 13])) as [Hj|Hj]; [by rewrite Hgood, IH|].
  apply Hbad. unfold raw_control, scalar_value in *. split; [|tauto]. lia.
Qed.

Section json_string_lemmas.
Context {alloc : Allocator}.

(** Two appends in sequence, as the escapes of quote and backslash do. *)
Lemma string_append_twice s l k :
  string_inv s -> str_size s + zlen (l ++ k) <= size_limit ->
  exists rc1 s1 rc2 s2, string_append s l = Ret (rc1, s1) /\ string_append s1 k = Ret (rc2, s2) /\
    string_inv s1 /\ string_inv s2 /\
    (rc1 = 0 -> rc2 = 0 -> contents s2 = contents s ++ l ++ k) /\
    (rc1 <> 0 \/ rc2 <> 0 -> ~ never_fails alloc).
Proof.
  intros Hinv Hlim. rewrite zlen_app in Hlim. zlen_facts.
  pose proof (zlen_contents s Hinv) as Hlen.
  destruct (string_append_spec s l Hinv ltac:(lia)) as [(s1 & H1 & Hi1 & Hc1)|[H1 Hn1]].
  - pose proof (zlen_contents s1 Hi1) as Hlen1. rewrite Hc1, zlen_app in Hlen1.
    destruct (string_append_spec s1 k Hi1 ltac:(lia)) as [(s2 & H2 & Hi2 & Hc2)|[H2 Hn2]].
    + exists 0, s1, 0, s2. split_and!; [done..| |by intros []]. intros _ _.
      by rewrite Hc2, Hc1, app_assoc.
    + exists 0, s1, (-1), s1. by split_and!.
  - destruct (string_append_spec s k Hinv ltac:(lia)) as [(s2 & H2 & Hi2 & Hc2)|[H2 Hn2]].
    + exists (-1), s, 0, s2. by split_and!.
    + exists (-1), s, (-1), s. by split_and!.
Qed.

Lemma escaped_character_append fuel s c :
  c <> x00 -> strchr_test [x08; x0c; x0a; x0d; x09] c = true ->
  print_json_escaped_character fuel s c = string_append s (escape_char [c]).
Proof. destruct c; (discriminate || reflexivity || done). Qed.

(** The control characters of JSON that have a short escape. *)
Lemma json_string_round_control fuel s c rest :
  c <> x00 -> strchr_test [x08; x0c; x0a; x0d; x09] c = true ->
  string_inv s -> str_size s + zlen (escape_char [c]) <= size_limit ->
  exists s', string_inv s' /\
    ((string_append_json_string (S fuel) s (c :: rest) =
        string_append_json_string fuel s' rest /\
      contents s' = contents s ++ escape_char [c]) \/
     string_append_json_string (S fuel) s (c :: rest) = Ret (1, s') /\ ~ never_fails alloc).
Proof.
  intros Hnul E1 Hinv Hlim. cbn [string_append_json_string].
  rewrite E1, escaped_character_append by done.
  destruct (string_append_spec s (escape_char [c]) Hinv Hlim)
    as [(s1 & -> & Hi1 & Hc1)|[-> Hnf]]; cbn [mbind outcome_bind Z.eqb].
  - exists s1. split; [done|]. by left.
  - exists s. split; [done|]. by right.
Qed.

(** The quote and the backslash. *)
Lemma json_string_round_quote fuel s c rest :
  strchr_test [x08; x0c; x0a; x0d; x09] c = false -> strchr_test [dquote; backslash] c = true ->
  string_inv s -> str_size s + zlen (escape_char [c]) <= size_limit ->
  exists s', string_inv s' /\
    ((string_append_json_string (S fuel) s (c :: rest) =
        string_append_json_string fuel s' rest /\
      contents s' = contents s ++ escape_char [c]) \/
     string_append_json_string (S fuel) s (c :: rest) = Ret (1, s') /\ ~ never_fails alloc).
Proof.
  intros E1 E2 Hinv Hlim. cbn [string_append_json_string]. rewrite E1, E2.
  assert (He : escape_char [c] = [backslash] ++ [c])
    by (destruct c; (discriminate || reflexivity)).
  rewrite He in *. unfold string_append_string.
  destruct (string_append_twice s [backslash] [c] Hinv Hlim)
    as (rc1 & s1 & rc2 & s2 & -> & H2 & Hi1 & Hi2 & Hc & Hnf).
  cbn [mbind outcome_bind]. destruct (rc1 =? 0) eqn:R1; cbn [negb].
  2:{ apply Z.eqb_neq in R1. exists s1. split; [done|]. right. auto. }
  rewrite H2. cbn [mbind outcome_bind]. destruct (rc2 =? 0) eqn:R2; cbn [negb].
  2:{ apply Z.eqb_neq in R2. exists s2. split; [done|]. right. auto. }
  apply Z.eqb_eq in R1, R2. exists s2. split; [done|]. left. split; [done|].
  by apply Hc.
Qed.

(** What one round of the loop does on a character: it appends the escaped
    character and goes on after it, or stops with 1. *)
Lemma json_string_round fuel s ch rest :
  utf8_char ch -> string_inv s -> str_size s + zlen (escape_char ch) <= size_limit ->
  exists s', string_inv s' /\
    ((string_append_json_string (S fuel) s (ch ++ rest) =
        string_append_json_string fuel s' rest /\
      contents s' = contents s ++ escape_char ch) \/
     string_append_json_string (S fuel) s (ch ++ rest) = Ret (1, s') /\ ~ never_fails alloc).
Proof.
  intros Hch Hinv Hlim. destruct (plain (hd x00 ch)) eqn:E.
  - assert (He : escape_char ch = ch).
    { apply escape_char_plain. destruct (utf8_char_cases ch Hch) as [(c & -> & _)|[? _]]; [|by apply Forall_plain].
      by constructor. }
    rewrite He in *. pose proof (utf8_char_size ch rest Hch) as Hsz.
    pose proof (utf8_char_zlen ch Hch) as Hpos.
    destruct ch as [|c ch]; [done|]. cbn [hd] in E.
    apply andb_prop in E as [E1 E2]. apply negb_true_iff in E1, E2.
    cbn [string_append_json_string app]. rewrite E1, E2. unfold print_utf8.
    change (c :: ch ++ rest) with ((c :: ch) ++ rest). rewrite Hsz. cbn [mbind outcome_bind].
    ztest. rewrite ztake_app_exact by done.
    destruct (string_append_spec s (c :: ch) Hinv Hlim) as [(s1 & -> & Hi1 & Hc1)|[-> Hnf]];
      cbn [mbind outcome_bind].
    + exists s1. split; [done|]. left. split; [|done]. cbn [Z.eqb]. ztest.
      by rewrite zdrop_app_exact.
    + exists s. split; [done|]. by right.
  - destruct (utf8_char_cases ch Hch) as [(c & -> & Hnul & _)|[Hp Hl2]].
    2:{ destruct Hp as [|? ? []]; [rewrite zlen_nil in Hl2; lia|]. cbn [hd] in E. congruence. }
    cbn [hd] in E. cbn [app]. unfold plain in E.
    destruct (strchr_test [x08; x0c; x0a; x0d; x09] c) eqn:E1.
    + by apply json_string_round_control.
    + apply json_string_round_quote; [done| |done..].
      by destruct (strchr_test [dquote; backslash] c).
Qed.

(** On a text of UTF-8 characters without NUL the loop ends, with 0 after
    writing the escaped text or with 1 when the memory ran out. *)
Lemma json_string_loop text fuel s :
  Forall utf8_char text -> (length text < fuel)%nat -> string_inv s ->
  str_size s + zlen (json_escape text) <= size_limit ->
  exists rc s', string_append_json_string fuel s (concat text) = Ret (rc, s') /\ string_inv s' /\
    ((rc = 0 /\ contents s' = contents s ++ json_escape text) \/ (rc = 1 /\ ~ never_fails alloc)).
Proof.
  intros Htext. revert fuel s.
  induction Htext as [|ch text Hch _ IH]; intros [|fuel] s Hfuel Hinv Hlim; cbn in Hfuel; try lia.
  - exists 0, s. split; [done|]. split; [done|]. left. by rewrite app_nil_r.
  - unfold json_escape in *. cbn [map concat] in *. rewrite zlen_app in Hlim. zlen_facts.
    destruct (json_string_round fuel s ch (concat text) Hch Hinv) as (s1 & Hi1 & H1); [lia|].
    destruct H1 as [[-> Hc1]|[-> ?]].
    + pose proof (zlen_contents s1 Hi1) as Hl. pose proof (zlen_contents s Hinv).
      rewrite Hc1, zlen_app in Hl.
      destruct (IH fuel s1) as (rc & s' & -> & Hi' & Hc'); [lia|done|lia|].
      exists rc, s'. split; [done|]. split; [done|].
      destruct Hc' as [[-> ->]|]; [left|by right]. by rewrite Hc1, app_assoc.
    + exists 1, s1. split; [done|]. split; [done|]. by right.
Qed.
End json_string_lemmas.

(** The loop stops with 1 on a NUL byte, after printing its code. *)
Lemma json_string_nul {alloc : Allocator} fuel s b rest :
  string_inv s -> str_buf s = Some b -> str_size s + 6 <= cap_of (str_size s) ->
  str_size s + 4 <= size_limit ->
  exists s', string_append_json_string (S (S fuel)) s (x00 :: rest) = Ret (1, s') /\
    contents s' = contents s ++ bs "\\x0".
Proof.
  intros Hinv B Hfit Hlim. remember (S fuel) as f eqn:Hf.
  cbn [string_append_json_string print_json_escaped_character strchr_test].
  change (strchr_test _ x00) with true. cbn [mbind]. subst f.
  unfold print_not_utf8_code, string_printf.
  change (bs "\\x" ++ print_u8 (byte_val x00)) with (bs "\\x0").
  destruct (string_printf_fits s b (bs "\\x0") fuel (string_size s)) as (s' & -> & _ & Hc);
    [done|done|change (zlen (bs "\\x0")) with 4; lia..|]. exists s'. by split.
Qed.

(** ** Properties *)

Lemma utf8_chars_length text : Forall utf8_char text -> (length text <= length (concat text))%nat.
Proof.
  induction 1 as [|ch text Hch _ IH]; cbn; [done|]. rewrite length_app.
  pose proof (utf8_char_zlen ch Hch). unfold zlen in *. lia.
Qed.

(** C26: string_append_json_string on the UTF-8 encoding, as RFC 3629 has it, of a text
    of Unicode characters without NUL returns; it returns 0 and has appended a text,
    or returns 1, which needs a failed allocation.  From the text that was appended a
    JSON reader recovers exactly the input if its control characters are among
    \b, \t, \n, \f and \r; the others are copied as they are, and then the reader,
    which allows no control character in a string, refuses the text. *)
Theorem json_string_roundtrip {alloc : Allocator} (cps : list Z) (fuel : nat) (s : cstring)
    (Htext : Forall (fun cp => scalar_value cp /\ cp <> 0) cps) (Hfuel : (length cps < fuel)%nat)
    (Hinv : string_inv s)
    (Hlim : str_size s + zlen (json_escape (map utf8_encode cps)) <= size_limit) :
  exists rc s', string_append_json_string fuel s (concat (map utf8_encode cps)) = Ret (rc, s') /\
    string_inv s' /\
    ((rc = 0 /\ exists e, contents s' = contents s ++ e /\
       (Forall (fun cp => 32 <= cp \/ cp ∈ [8; 9; 10; 12; 13]) cps ->
        json_unescape e = Some (concat (map utf8_encode cps))) /\
       (Exists raw_control cps -> json_unescape e = None)) \/
     (rc = 1 /\ ~ never_fails alloc)).
Proof.
  destruct (json_string_loop (map utf8_encode cps) fuel s) as (rc & s' & H & Hi & Hcase); [|by rewrite length_map|done..|].
  { apply list.Forall_fmap. eapply list.Forall_impl; [exact Htext|]. intros cp [? ?]. by exists cp. }
  exists rc, s'. split; [done|]. split; [done|].
  destruct Hcase as [[-> Hc]|?]; [left|by right]. split; [done|].
  exists (json_escape (map utf8_encode cps)). split; [done|]. split; [|by apply json_unescape_control].
  intros Hj. apply json_unescape_escape. apply list.Forall_fmap.
  eapply list.Forall_impl; [apply list.Forall_and; exact (conj Htext Hj)|].
  intros cp [[? _] ?]. by exists cp.
Qed.

(** a quote, a new line, n with tilde, the euro sign and the letter 10330 of Gothic. *)
Definition demo_cps : list Z := [0x61; 0x22; 0x0a; 0xf1; 0x20ac; 0x10330].

Lemma json_string_roundtrip_witness :
  exists rc s', string_append_json_string 7 N2K_STRING_INITIALIZER
      (bs "a" ++ [x22; x0a; xc3; xb1; xe2; x82; xac; xf0; x90; x8c; xb0]) = Ret (rc, s') /\
    string_inv s' /\
    ((rc = 0 /\ exists e, contents s' = e /\
       json_unescape e = Some (bs "a" ++ [x22; x0a; xc3; xb1; xe2; x82; xac; xf0; x90; x8c; xb0])) \/
     (rc = 1 /\ ~ never_fails total_allocator)).
Proof.
  destruct (json_string_roundtrip demo_cps 7 N2K_STRING_INITIALIZER)
    as (rc & s' & H & Hi & Hcase).
  - repeat constructor; try discriminate; unfold scalar_value; lia.
  - cbn. lia.
  - apply string_init_inv.
  - vm_compute. discriminate.
  - exists rc, s'. split; [exact H|]. split; [exact Hi|].
    destruct Hcase as [[Hrc (e & He & Hu & _)]|Hf]; [left|right; exact Hf].
    split; [exact Hrc|]. exists e. split; [exact He|]. apply Hu.
    apply (bool_decide_unpack (Forall (fun cp => 32 <= cp \/ cp ∈ [8; 9; 10; 12; 13]) demo_cps)).
    vm_compute. exact I.
Defined.

(** A NUL byte in the data makes string_append_json_string print its code
    and then report an error, although nothing failed: the test of the short
    escapes finds the terminator of its own set, and the printing of the code
    returns 1 for success where the caller expects 0. *)
Theorem json_string_nul_fails {alloc : Allocator} (fuel : nat) (s : cstring) (b rest : bytes)
    (Hinv : string_inv s) (Hbuf : str_buf s = Some b)
    (Hroom : str_size s + 6 <= cap_of (str_size s)) (Hlim : str_size s + 4 <= size_limit) :
  exists s', string_append_json_string (S (S fuel)) s (x00 :: rest) = Ret (1, s') /\
    contents s' = contents s ++ bs "\\x0".
Proof. by apply (json_string_nul fuel s b). Qed.

Lemma json_string_nul_fails_witness :
  exists s', string_append_json_string 2 (mkstr (Some (zeros 4096)) 0) [x00; x61] = Ret (1, s').
Proof.
  destruct (json_string_nul_fails 0 (mkstr (Some (zeros 4096)) 0) (zeros 4096) [x61])
    as (s' & H & _).
  - split; cbn; [unfold size_limit; lia|vm_compute; discriminate].
  - reflexivity.
  - vm_compute. discriminate.
  - vm_compute. discriminate.
  - by exists s'.
Defined.
