(* ===== verification/KafkaArray.v ===== *)
(** * Batches of Kafka messages

    util/kafka_message_array.c and .h, and the delivery report callback
    [msg_delivered] of util/kafka.c, which drops the references a batch holds.

    The array lives in a [string] whose bytes are a header followed by the
    messages, one object per [string_append]; the model keeps the byte string
    and the sequence of appended objects.  Once a batch is handed to librdkafka
    the header is a reference counted object of its own: [None] is freed
    memory. *)

From S2P Require Import Prelude CString.

(** librdkafka's topic handles: creation may fail, and a handle has the name it
    was created with. *)
Class Rdkafka := {
  rkt : Type;
  rd_kafka_topic_new : bytes -> option rkt;
  rd_kafka_topic_name : rkt -> bytes;
  topic_name_new : forall name r,
    rd_kafka_topic_new name = Some r -> rd_kafka_topic_name r = name
}.

Inductive rd_kafka_resp_err :=
| ERR_NO_ERROR
| ERR__QUEUE_FULL
| ERR_MSG_SIZE_TOO_LARGE
| ERR__UNKNOWN_PARTITION
| ERR__UNKNOWN_TOPIC
| ERR_OTHER (code : Z).

#[export] Instance rd_kafka_resp_err_eq_dec : EqDecision rd_kafka_resp_err.
Proof. solve_decision. Defined.

(** The fields of [rd_kafka_message_t] the program uses.  [msg_private] says
    whether [_private] points to the header of the batch. *)
Record rd_kafka_message := mkmsg {
  msg_err : rd_kafka_resp_err;
  msg_payload : Z;
  msg_len : Z;
  msg_private : bool
}.

Definition new_msg (payload len : Z) : rd_kafka_message := mkmsg ERR_NO_ERROR payload len false.

(** The bytes of a message whose payload lies in the block at [addr]. *)
Definition msg_bytes (addr : Z) (blk : bytes) (m : rd_kafka_message) : bytes :=
  slice blk (msg_payload m - addr) (msg_payload m - addr + msg_len m).

(** Object representations: the bytes of the initial header and of a message.  A
    header and a message fit the least block of a string (with 64-bit pointers they
    take less than 128 bytes). *)
Class Abi := {
  repr_internal : bytes;
  repr_msg : rd_kafka_message -> bytes;
  sizeof_msg : Z;
  repr_internal_pos : 0 < zlen repr_internal;
  repr_msg_size : forall m, zlen (repr_msg m) = sizeof_msg;
  sizeof_msg_pos : 0 < sizeof_msg;
  first_msg_fits : zlen repr_internal + sizeof_msg <= STRING_MIN_SIZE
}.

Inductive cell :=
| CInternal
| CMsg (m : rd_kafka_message).

(** [ka_payload_buffer] and [ka_count] are the fields of the first header; a
    NULL payload buffer is 0. *)
Record kafka_message_array := mkka {
  ka_str : cstring;
  ka_payload_buffer : Z;
  ka_count : Z;
  ka_cells : list cell
}.

Definition KAFKA_MESSAGE_ARRAY_INITIALIZER : kafka_message_array :=
  mkka N2K_STRING_INITIALIZER 0 0 [].

Definition kafka_msg_array_init : kafka_message_array := KAFKA_MESSAGE_ARRAY_INITIALIZER.

Definition kafka_msg_array_done (a : kafka_message_array) : kafka_message_array :=
  mkka (string_done (ka_str a)) 0 0 [].

Definition kafka_message_array_size (a : kafka_message_array) : Z :=
  if string_size (ka_str a) =? 0 then 0 else ka_count a.

(** The object the cast of the buffer finds: without a block there is no header to
    read, and the assertion on [magic] fails unless the block starts with one.  The
    value are the objects that follow the header. *)
Definition kafka_message_array_internal_cast (cells : list cell) : outcome (list cell) :=
  match cells with
  | [] => Fault bad_access
  | CInternal :: l => Ret l
  | CMsg _ :: _ => Fault assert_failed
  end.

Definition kafka_message_array_get_internal (a : kafka_message_array) : outcome (list cell) :=
  kafka_message_array_internal_cast (ka_cells a).

(** The objects after the first header, read as the array [msgs]; [None] when
    one of them is not a message. *)
Fixpoint cells_msgs (l : list cell) : option (list rd_kafka_message) :=
  match l with
  | [] => Some []
  | CMsg m :: l => ms ← cells_msgs l; Some (m :: ms)
  | CInternal :: _ => None
  end.

Definition ka_msgs (a : kafka_message_array) : outcome (list rd_kafka_message) :=
  l ← kafka_message_array_get_internal a;
  match cells_msgs l with Some ms => Ret ms | None => Fault bad_access end.

Definition msg_add_payload (base : Z) (m : rd_kafka_message) : rd_kafka_message :=
  mkmsg (msg_err m) (wrap64 (msg_payload m + base)) (msg_len m) (msg_private m).

Definition kafka_message_array_set_payload_buffer0 (a : kafka_message_array)
    (payload_buffer : Z) (sum_offset : bool) : outcome kafka_message_array :=
  _ ← kafka_message_array_get_internal a;
  if negb sum_offset
  then Ret (mkka (ka_str a) payload_buffer (ka_count a) (ka_cells a))
  else
    msgs ← ka_msgs a;
    Ret (mkka (ka_str a) payload_buffer (ka_count a)
           (CInternal :: map (fun m => CMsg (msg_add_payload payload_buffer m)) msgs)).

Definition kafka_message_array_set_payload_buffer (a : kafka_message_array)
    (payload_buffer : Z) : outcome kafka_message_array :=
  kafka_message_array_set_payload_buffer0 a payload_buffer false.

Section add.
Context {alloc : Allocator} {abi : Abi}.

Definition kafka_msg_array_add (a : kafka_message_array) (m : rd_kafka_message)
    : outcome (Z * kafka_message_array) :=
  '(create_rc, a1) ←
    (if kafka_message_array_size a =? 0 then
       '(rc, s) ← string_append (ka_str a) repr_internal;
       if rc =? 0
       then Ret (rc, mkka s (if str_size (ka_str a) =? 0 then 0 else ka_payload_buffer a)
                          (if str_size (ka_str a) =? 0 then 0 else ka_count a)
                          (ka_cells a ++ [CInternal]))
       else Ret (rc, mkka s (ka_payload_buffer a) (ka_count a) (ka_cells a))
     else Ret (0, a));
  if negb (create_rc =? 0) then Ret (create_rc, a1)
  else
    '(rc, s) ← string_append (ka_str a1) (repr_msg m);
    if rc =? 0
    then Ret (rc, mkka s (ka_payload_buffer a1) (wrap64 (ka_count a1 + 1))
                       (ka_cells a1 ++ [CMsg m]))
    else Ret (rc, mkka s (ka_payload_buffer a1) (ka_count a1) (ka_cells a1)).

End add.

(** ** Producing a batch *)

Inductive warning_times_pos :=
| LAST_WARNING_TIME__QUEUE_FULL
| LAST_WARNING_TIME__MSG_SIZE_TOO_LARGE
| LAST_WARNING_TIME__UNKNOWN_PARTITION
| LAST_WARNING_TIME__UNKNOWN_TOPIC
| LAST_WARNING_TIME__END.

Definition warning_pos_num (p : warning_times_pos) : nat :=
  match p with
  | LAST_WARNING_TIME__QUEUE_FULL => 0
  | LAST_WARNING_TIME__MSG_SIZE_TOO_LARGE => 1
  | LAST_WARNING_TIME__UNKNOWN_PARTITION => 2
  | LAST_WARNING_TIME__UNKNOWN_TOPIC => 3
  | LAST_WARNING_TIME__END => 4
  end.

Definition kafka_error_to_warning_time_pos (err : rd_kafka_resp_err) : warning_times_pos :=
  match err with
  | ERR__QUEUE_FULL => LAST_WARNING_TIME__QUEUE_FULL
  | ERR_MSG_SIZE_TOO_LARGE => LAST_WARNING_TIME__MSG_SIZE_TOO_LARGE
  | ERR__UNKNOWN_PARTITION => LAST_WARNING_TIME__UNKNOWN_PARTITION
  | ERR__UNKNOWN_TOPIC => LAST_WARNING_TIME__UNKNOWN_TOPIC
  | _ => LAST_WARNING_TIME__END
  end.

(** [produce_error_last_time[LAST_WARNING_TIME__END]]: four timestamps. *)
Abbreviation produce_state := (list Z).

Definition produce_state_init : produce_state := [0; 0; 0; 0].

Definition alert_threshold : Z := 5 * 60.

(** The header of a batch handed to librdkafka. *)
Record karray := mkkarray {
  kr_payload_buffer : Z;
  kr_count : Z;
  kr_msgs : list rd_kafka_message
}.

Definition kafka_message_array_internal_decref (k : option karray) : outcome (option karray) :=
  match k with
  | None => Fault use_after_free
  | Some k =>
      let count := wrap64 (kr_count k - 1) in
      if count =? 0 then Ret None
      else Ret (Some (mkkarray (kr_payload_buffer k) count (kr_msgs k)))
  end.

(** The delivery report of one message of the batch. *)
Definition msg_delivered (m : rd_kafka_message) (k : option karray) : outcome (option karray) :=
  if msg_private m then kafka_message_array_internal_decref k else Ret k.

(** Whether the failure at this position of [state] is logged now, and the
    updated state.  The index test of the code admits the position one past the
    end of the array. *)
Definition warn_decision (state : option produce_state) (pos : nat) (now : Z)
    : outcome (bool * option produce_state) :=
  match state with
  | None => Ret (true, None)
  | Some st =>
      if (pos <=? warning_pos_num LAST_WARNING_TIME__END)%nat then
        match st !! pos with
        | None => Fault bad_access
        | Some last =>
            if now - last <? alert_threshold then Ret (false, Some st)
            else Ret (true, Some (<[pos := now]> st))
        end
      else Ret (true, Some st)
  end.

(** One round of the loop over the failed messages; [None] when the loop
    condition is false.  [now] is the time read in this round; the last
    component are the errors logged so far. *)
Definition produce_round (i msgs_ok messages_in_batch now : Z)
    (k : option karray) (state : option produce_state) (log : list rd_kafka_resp_err)
    : outcome (option (Z * option karray * option produce_state * list rd_kafka_resp_err)) :=
  if negb ((i <? messages_in_batch) && (msgs_ok <? messages_in_batch)) then Ret None
  else
    match k with
    | None => Fault use_after_free
    | Some kr =>
        match kr_msgs kr !! Z.to_nat i with
        | None => Fault bad_access
        | Some m =>
            if bool_decide (msg_err m = ERR_NO_ERROR) then Ret (Some (msgs_ok, k, state, log))
            else
              '(warn, state1) ←
                 warn_decision state
                   (warning_pos_num (kafka_error_to_warning_time_pos (msg_err m))) now;
              k1 ← kafka_message_array_internal_decref k;
              Ret (Some (msgs_ok + 1, k1, state1,
                         if warn : bool then log ++ [msg_err m] else log))
        end
    end.

(** The loop; it makes at most one round per message.  [clock i] is the time
    read in round [i]. *)
Fixpoint produce_failures (n : nat) (i msgs_ok messages_in_batch : Z) (clock : Z -> Z)
    (k : option karray) (state : option produce_state) (log : list rd_kafka_resp_err)
    : outcome (Z * option karray * option produce_state * list rd_kafka_resp_err) :=
  match n with
  | O => Ret (msgs_ok, k, state, log)
  | S n =>
      r ← produce_round i msgs_ok messages_in_batch (clock i) k state log;
      match r with
      | None => Ret (msgs_ok, k, state, log)
      | Some (msgs_ok1, k1, state1, log1) =>
          produce_failures n (i + 1) msgs_ok1 messages_in_batch clock k1 state1 log1
      end
  end.

Definition msg_set_private (m : rd_kafka_message) : rd_kafka_message :=
  mkmsg (msg_err m) (msg_payload m) (msg_len m) true.

Definition msg_set_err (m : rd_kafka_message) (err : rd_kafka_resp_err) : rd_kafka_message :=
  mkmsg err (msg_payload m) (msg_len m) (msg_private m).

(** [rd_kafka_produce_batch] of librdkafka, for the messages of one topic: it sets the
    error of each message and returns how many it queued. *)
Class BatchProducer {rk : Rdkafka} := {
  rd_kafka_produce_batch : rkt -> list rd_kafka_message -> Z * list rd_kafka_resp_err;
  produce_batch_errors : forall r msgs,
    length (rd_kafka_produce_batch r msgs).2 = length msgs;
  produce_batch_queued : forall r msgs,
    (rd_kafka_produce_batch r msgs).1
      = zlen (filter (fun e => e = ERR_NO_ERROR) (rd_kafka_produce_batch r msgs).2)
}.

(** The arguments of a call of [rd_kafka_produce_batch]. *)
Record batch_call {rk : Rdkafka} := mkcall {
  bc_rkt : rkt;
  bc_msgs : list rd_kafka_message
}.
Arguments mkcall {rk} _ _.

(** The call: what it returns, the errors it sets, and its arguments. *)
Definition produce_batch_call {rk : Rdkafka} {producer : BatchProducer} (r : rkt)
    (msgs : list rd_kafka_message) : Z * list rd_kafka_resp_err * batch_call :=
  (rd_kafka_produce_batch r msgs, mkcall r msgs).

(** The topic and the bytes of each message of a call, where the payloads lie in the
    block at [addr]. *)
Definition call_payloads {rk : Rdkafka} (addr : Z) (blk : bytes) (c : batch_call) : list (rkt * bytes) :=
  map (fun m => (bc_rkt c, msg_bytes addr blk m)) (bc_msgs c).

(** Payloads that are all for the topic [r]. *)
Definition for_topic {rk : Rdkafka} (r : rkt) (payloads : list bytes) : list (rkt * bytes) :=
  map (fun payload => (r, payload)) payloads.

(** The first [count] messages of the array [msgs] of a header. *)
Definition first_msgs (count : Z) (msgs : list rd_kafka_message) : outcome (list rd_kafka_message) :=
  if count <=? zlen msgs then Ret (ztake count msgs) else Fault bad_access.

(** The number returned, the array, the batch object if it is still alive, the
    warning state, the logged errors and the calls made to librdkafka. *)
Definition kafka_message_array_produce {rk : Rdkafka} {producer : BatchProducer} (r : rkt)
    (a : kafka_message_array) (state : option produce_state) (clock : Z -> Z)
    : outcome (Z * kafka_message_array * option karray * option produce_state
               * list rd_kafka_resp_err * list batch_call) :=
  if kafka_message_array_size a =? 0
  then Ret (0, kafka_msg_array_done a, None, state, [], [])
  else
    msgs ← ka_msgs a;
    msgs0 ← first_msgs (ka_count a) msgs;
    let steal := negb (ka_payload_buffer a =? 0) in
    let msgs1 := if steal then map msg_set_private msgs0 else msgs0 in
    let a1 := if steal then KAFKA_MESSAGE_ARRAY_INITIALIZER else a in
    let messages_in_batch := ka_count a in
    let '(queued, errs, call) := produce_batch_call r msgs1 in
    let k := Some (mkkarray (ka_payload_buffer a) (ka_count a) (zip_with msg_set_err msgs1 errs)) in
    if queued =? messages_in_batch
    then Ret (queued, kafka_msg_array_done a1, if steal then k else None, state, [], [call])
    else
      '(msgs_ok, k1, state1, log) ←
         produce_failures (length msgs1) 0 queued messages_in_batch clock k state [];
      (* without a payload buffer the header is the buffer of the array *)
      _ ← (if steal then Ret tt
           else match k1 with None => Fault double_free | Some _ => Ret tt end);
      Ret (msgs_ok, kafka_msg_array_done a1, if steal then k1 else None, state1, log, [call]).

(** ** Well-formed arrays *)

Section array_lemmas.
Context {alloc : Allocator} {abi : Abi}.

(** The array holds the messages [ms]. *)
Definition ka_holds (a : kafka_message_array) (ms : list rd_kafka_message) : Prop :=
  string_inv (ka_str a) /\
  match ms with
  | [] => str_size (ka_str a) = 0 /\ ka_cells a = []
  | _ => str_size (ka_str a) = zlen repr_internal + sizeof_msg * zlen ms /\
         ka_cells a = CInternal :: map CMsg ms /\ ka_count a = zlen ms
  end.

Lemma cells_msgs_map ms : cells_msgs (map CMsg ms) = Some ms.
Proof. induction ms as [|m ms IH]; [done|]. cbn. by rewrite IH. Qed.

Lemma ka_holds_size a ms : ka_holds a ms -> kafka_message_array_size a = zlen ms.
Proof.
  intros [_ H]. unfold kafka_message_array_size, string_size. destruct ms as [|m ms].
  - destruct H as [-> _]. done.
  - destruct H as (-> & _ & ->). pose proof repr_internal_pos. pose proof sizeof_msg_pos.
    rewrite (proj2 (Z.eqb_neq _ _)); [done|]. rewrite zlen_cons. zlen_facts. nia.
Qed.

Lemma ka_holds_msgs a m ms : ka_holds a (m :: ms) -> ka_msgs a = Ret (m :: ms).
Proof.
  intros (_ & _ & Hc & _). unfold ka_msgs, kafka_message_array_get_internal. rewrite Hc.
  cbn [kafka_message_array_internal_cast mbind outcome_bind]. by rewrite cells_msgs_map.
Qed.

(** Setting the payload buffer of an array that holds messages. *)
Lemma ka_holds_set_buffer a m ms b sum_offset :
  ka_holds a (m :: ms) -> exists a', kafka_message_array_set_payload_buffer0 a b sum_offset = Ret a' /\
    ka_holds a' (if sum_offset then map (msg_add_payload b) (m :: ms) else m :: ms) /\
    ka_payload_buffer a' = b.
Proof.
  intros Ha. pose proof (ka_holds_msgs _ _ _ Ha) as Hm. destruct Ha as (Hi & Hs & Hc & Hn).
  unfold kafka_message_array_set_payload_buffer0, kafka_message_array_get_internal. rewrite Hc.
  cbn [kafka_message_array_internal_cast mbind outcome_bind]. destruct sum_offset; cbn [negb].
  - rewrite Hm. cbn [mbind outcome_bind]. eexists. split; [done|]. split; [|done]. split; [done|].
    cbn [map ka_str ka_cells ka_count]. rewrite zlen_cons in *. unfold zlen in *. rewrite length_map.
    split_and!; [done| |done]. by rewrite map_map.
  - eexists. split; [done|]. split; [|done]. split_and!; try done.
Qed.

Lemma ka_holds_nil : ka_holds KAFKA_MESSAGE_ARRAY_INITIALIZER [].
Proof. split; [apply string_init_inv|done]. Qed.

(** The bytes an array of [n] messages takes. *)
Definition ka_bytes (n : Z) : Z := zlen repr_internal + sizeof_msg * n.

(** Adding to an array that already has messages appends one object. *)
Lemma add_to_nonempty a m ms x :
  ka_holds a (m :: ms) -> ka_bytes (zlen (m :: ms) + 1) <= size_limit ->
  (exists a', kafka_msg_array_add a x = Ret (0, a') /\ ka_holds a' ((m :: ms) ++ [x]) /\
     ka_payload_buffer a' = ka_payload_buffer a) \/
  (exists a', kafka_msg_array_add a x = Ret (-1, a') /\ ka_holds a' (m :: ms) /\
     ~ never_fails alloc).
Proof.
  intros Ha Hlim. pose proof (ka_holds_size a _ Ha) as Hsz.
  unfold kafka_msg_array_add. rewrite Hsz.
  assert ((zlen (m :: ms) =? 0) = false) as -> by (apply Z.eqb_neq; zlia).
  cbn [mbind outcome_bind]. ztest. pose proof Ha as (Hi & Hs & Hc & Hn).
  assert (Hx : str_size (ka_str a) + zlen (repr_msg x) <= size_limit).
  { rewrite Hs, repr_msg_size. unfold ka_bytes in Hlim. nia. }
  destruct (string_append_spec (ka_str a) (repr_msg x) Hi Hx) as [(s & -> & Hi' & Hc')|[-> Hnf]];
    cbn [mbind outcome_bind]; ztest.
  - left. eexists. split; [done|]. split; [|done]. split; [done|].
    change ((m :: ms) ++ [x]) with (m :: (ms ++ [x])). cbn [ka_str ka_cells ka_count].
    pose proof (zlen_contents _ Hi') as Hl. rewrite Hc', zlen_app in Hl.
    rewrite (zlen_contents _ Hi), Hs, repr_msg_size in Hl.
    unfold ka_bytes, size_limit in Hlim. pose proof sizeof_msg_pos. pose proof repr_internal_pos.
    split_and!.
    + rewrite <- Hl. autorewrite with n2k. lia.
    + rewrite Hc. cbn. by rewrite map_app.
    + rewrite Hn. rewrite wrap64_small; [zlia|]. split; [zlia|]. nia.
  - right. eexists. split; [done|]. split; [|done]. split; [done|]. by split_and!.
Qed.

(** The first message: the block for the header has room for it, so the header is
    never left alone. *)
Lemma add_to_empty a x :
  ka_holds a [] ->
  (exists a', kafka_msg_array_add a x = Ret (0, a') /\ ka_holds a' [x] /\
     ka_payload_buffer a' = 0) \/
  (exists a', kafka_msg_array_add a x = Ret (-1, a') /\ ka_holds a' [] /\ ~ never_fails alloc).
Proof.
  intros Ha. pose proof (ka_holds_size a _ Ha) as Hsz. pose proof Ha as (Hi & Hs & Hc).
  pose proof sizeof_msg_pos. pose proof repr_internal_pos. pose proof first_msg_fits as Hfit.
  unfold kafka_msg_array_add. rewrite Hsz. change (zlen [] =? 0) with true.
  assert (Hh : str_size (ka_str a) + zlen repr_internal <= size_limit)
    by (unfold STRING_MIN_SIZE, size_limit in *; lia).
  destruct (string_append_spec (ka_str a) repr_internal Hi Hh)
    as [(s & -> & Hi1 & Hc1)|[-> Hnf]]; cbn [mbind outcome_bind Z.eqb negb].
  - pose proof (zlen_contents _ Hi1) as Hl. pose proof Hl as Hl1. rewrite Hc1, zlen_app in Hl.
    rewrite (zlen_contents _ Hi), Hs in Hl. rewrite Hs. cbn [Z.eqb ka_str ka_cells ka_count].
    destruct (string_append_room s (repr_msg x) Hi1) as (s2 & -> & Hi2 & Hc2).
    { intros Hb. unfold contents in Hl1. rewrite Hb, zlen_nil in Hl1. lia. }
    { rewrite repr_msg_size. lia. }
    cbn [mbind outcome_bind Z.eqb]. left. eexists. split; [done|]. split; [|done].
    split; [done|]. cbn [ka_str ka_cells ka_count]. rewrite Hc. split_and!; [|done|done].
    pose proof (zlen_contents _ Hi2) as Hl2. rewrite Hc2, zlen_app in Hl2.
    rewrite (zlen_contents _ Hi1), repr_msg_size in Hl2. rewrite <- Hl2. zlia.
  - right. eexists. split; [done|]. by split.
Qed.

Lemma kafka_msg_array_add_spec a ms x :
  ka_holds a ms -> ka_bytes (zlen ms + 1) <= size_limit ->
  (exists a', kafka_msg_array_add a x = Ret (0, a') /\ ka_holds a' (ms ++ [x])) \/
  (exists a', kafka_msg_array_add a x = Ret (-1, a') /\ ka_holds a' ms /\ ~ never_fails alloc).
Proof.
  intros Ha Hlim. destruct ms as [|m ms].
  - destruct (add_to_empty a x Ha) as [(a' & H1 & H2 & _)|?]; [left; by exists a'|by right].
  - destruct (add_to_nonempty a m ms x Ha Hlim) as [(a' & H1 & H2 & _)|?]; [left; by exists a'|by right].
Qed.

(** Adding messages in order, with the code of each call, whatever the codes are (the
    JSON parser only logs a failure and goes on with the next object). *)
Fixpoint add_each (a : kafka_message_array) (ms : list rd_kafka_message)
    : outcome (list Z * kafka_message_array) :=
  match ms with
  | [] => Ret ([], a)
  | m :: ms =>
      '(rc, a1) ← kafka_msg_array_add a m;
      '(rcs, a2) ← add_each a1 ms;
      Ret (rc :: rcs, a2)
  end.

(** The messages whose call returned 0. *)
Fixpoint added (ms : list rd_kafka_message) (rcs : list Z) : list rd_kafka_message :=
  match ms, rcs with
  | m :: ms, rc :: rcs => if rc =? 0 then m :: added ms rcs else added ms rcs
  | _, _ => []
  end.

Lemma ka_bytes_mono a b : a <= b -> ka_bytes a <= ka_bytes b.
Proof. unfold ka_bytes. pose proof sizeof_msg_pos. nia. Qed.

Lemma add_each_holds a ms ms' :
  ka_holds a ms -> ka_bytes (zlen ms + zlen ms') <= size_limit ->
  exists rcs a', add_each a ms' = Ret (rcs, a') /\ ka_holds a' (ms ++ added ms' rcs) /\
    length rcs = length ms' /\ Forall (fun rc => rc = 0 \/ rc = -1 /\ ~ never_fails alloc) rcs.
Proof.
  revert a ms. induction ms' as [|x ms' IH]; intros a ms Ha Hlim.
  { exists [], a. cbn. by rewrite app_nil_r. }
  rewrite zlen_cons in Hlim. zlen_facts. cbn [add_each].
  assert (Hx : ka_bytes (zlen ms + 1) <= size_limit)
    by (etransitivity; [apply ka_bytes_mono|exact Hlim]; lia).
  destruct (kafka_msg_array_add_spec a ms x Ha Hx) as [(a1 & -> & Ha1)|(a1 & -> & Ha1 & Hnf)];
    cbn [mbind outcome_bind].
  - destruct (IH a1 (ms ++ [x]) Ha1) as (rcs & a' & -> & Ha2 & Hlen & Hrc).
    { rewrite zlen_app, zlen_cons, zlen_nil. etransitivity; [apply ka_bytes_mono|exact Hlim]; lia. }
    exists (0 :: rcs), a'. split; [done|]. cbn. rewrite <- app_assoc in Ha2.
    split_and!; [done|lia|]. constructor; [by left|done].
  - destruct (IH a1 ms Ha1) as (rcs & a' & -> & Ha2 & Hlen & Hrc).
    { etransitivity; [apply ka_bytes_mono|exact Hlim]; lia. }
    exists (-1 :: rcs), a'. split; [done|]. cbn. split_and!; [done|lia|]. constructor; [by right|done].
Qed.
End array_lemmas.

(** ** Reference counting while a batch is in flight

    The producer thread runs the rounds of [produce_failures]; at any moment
    the polling thread may run the delivery report of a queued message. *)

Record inflight := mkinflight {
  if_i : Z;
  if_ok : Z;
  if_k : option karray;
  if_state : option produce_state;
  if_log : list rd_kafka_resp_err;
  if_queued : list rd_kafka_message
}.

Definition producer_step (n now : Z) (s : inflight) : outcome inflight :=
  r ← produce_round (if_i s) (if_ok s) n now (if_k s) (if_state s) (if_log s);
  match r with
  | None => Ret s
  | Some (ok, k, st, log) => Ret (mkinflight (if_i s + 1) ok k st log (if_queued s))
  end.

(** The delivery report of the [j]-th message that is still queued. *)
Definition poll_step (j : nat) (s : inflight) : outcome inflight :=
  match if_queued s !! j with
  | None => Ret s
  | Some m =>
      k ← msg_delivered m (if_k s);
      Ret (mkinflight (if_i s) (if_ok s) k (if_state s) (if_log s) (delete j (if_queued s)))
  end.

Inductive actor :=
| Producer (now : Z)
| Poller (j : nat).

Definition actor_step (n : Z) (a : actor) (s : inflight) : outcome inflight :=
  match a with
  | Producer now => producer_step n now s
  | Poller j => poll_step j s
  end.

(** Any interleaving of the two threads. *)
Fixpoint interleave (n : Z) (sched : list actor) (s : inflight) : outcome inflight :=
  match sched with
  | [] => Ret s
  | a :: sched => s' ← actor_step n a s; interleave n sched s'
  end.

Definition failed (m : rd_kafka_message) : bool := negb (bool_decide (msg_err m = ERR_NO_ERROR)).

Definition count_failed (ms : list rd_kafka_message) : Z := zlen (filter (fun m => failed m) ms).

(** The state right after [rd_kafka_produce_batch] returned. *)
Definition inflight_init (payload : Z) (ms : list rd_kafka_message)
    (st : option produce_state) : inflight :=
  mkinflight 0 (zlen (filter (fun m => negb (failed m)) ms))
    (Some (mkkarray payload (zlen ms) ms)) st [] (filter (fun m => negb (failed m)) ms).

(** The producer has left its loop. *)
Definition producer_done (n : Z) (s : inflight) : Prop := n <= if_i s \/ n <= if_ok s.

Definition known_err (m : rd_kafka_message) : Prop :=
  forall code, msg_err m <> ERR_OTHER code.

Definition state_ok (st : option produce_state) : Prop :=
  match st with None => True | Some st => length st = 4%nat end.

Definition failures_left (ms : list rd_kafka_message) (i : Z) : Z :=
  count_failed (zdrop i ms).

(** References still held: one per queued message and one per failed message
    the producer has not reached. *)
Definition refs (ms : list rd_kafka_message) (s : inflight) : Z :=
  zlen (if_queued s) + failures_left ms (if_i s).

Definition inflight_inv (ms : list rd_kafka_message) (s : inflight) : Prop :=
  0 <= if_i s /\ if_ok s + failures_left ms (if_i s) = zlen ms /\
  Forall (fun m => msg_private m = true) (if_queued s) /\ state_ok (if_state s) /\
  0 <= refs ms s <= zlen ms /\
  match if_k s with
  | None => refs ms s = 0
  | Some kr => kr_count kr = refs ms s /\ 0 < refs ms s /\ kr_msgs kr = ms
  end.

Lemma count_failed_cons m ms :
  count_failed (m :: ms) = (if failed m then 1 else 0) + count_failed ms.
Proof.
  unfold count_failed. rewrite filter_cons. destruct (failed m); case_decide; try done; zlia.
Qed.

Lemma count_failed_split ms :
  zlen (filter (fun m => negb (failed m)) ms) + count_failed ms = zlen ms.
Proof.
  induction ms as [|m ms IH]; [done|].
  rewrite count_failed_cons, filter_cons, zlen_cons.
  destruct (failed m); case_decide; cbn in *; try done; rewrite ?zlen_cons; lia.
Qed.

Lemma failures_left_step ms i m :
  0 <= i -> ms !! Z.to_nat i = Some m ->
  failures_left ms i = (if failed m then 1 else 0) + failures_left ms (i + 1).
Proof.
  intros Hi Hm. unfold failures_left, zdrop.
  rewrite (drop_S _ m) by done. rewrite count_failed_cons.
  by replace (Z.to_nat (i + 1)) with (S (Z.to_nat i)) by lia.
Qed.

Lemma failures_left_nonneg ms i : 0 <= failures_left ms i.
Proof. apply zlen_nonneg. Qed.

Lemma zlen_delete {A} (l : list A) j x : l !! j = Some x -> zlen (delete j l) = zlen l - 1.
Proof.
  intros H. unfold zlen. pose proof (length_delete l j ltac:(by eexists)).
  apply lookup_lt_Some in H. lia.
Qed.

Lemma warning_pos_known m :
  failed m = true -> known_err m ->
  (warning_pos_num (kafka_error_to_warning_time_pos (msg_err m)) < 4)%nat.
Proof.
  unfold failed, known_err. intros Hf Hk.
  destruct (msg_err m) as [| | | | |code]; cbn; try lia; [done|]. by destruct (Hk code).
Qed.

Lemma warn_decision_known st m now :
  failed m = true -> known_err m -> state_ok st ->
  exists w st', warn_decision st
      (warning_pos_num (kafka_error_to_warning_time_pos (msg_err m))) now = Ret (w, st') /\
    state_ok st'.
Proof.
  intros Hf Hk Hst. pose proof (warning_pos_known m Hf Hk) as Hpos.
  unfold warn_decision. destruct st as [st|]; [|by eexists _, _].
  cbn in Hst. rewrite (proj2 (Nat.leb_le _ _)) by (cbn; lia).
  destruct (lookup_lt_is_Some_2 st _ ltac:(rewrite Hst; exact Hpos)) as [last ->].
  destruct (_ <? _); eexists _, _; (split; [done|]); cbn; [done|]. by rewrite length_insert.
Qed.

Lemma decref_spec kr :
  0 < kr_count kr < 2 ^ 64 ->
  kafka_message_array_internal_decref (Some kr) =
    Ret (if kr_count kr =? 1 then None
         else Some (mkkarray (kr_payload_buffer kr) (kr_count kr - 1) (kr_msgs kr))).
Proof.
  intros. unfold kafka_message_array_internal_decref. rewrite wrap64_small by lia.
  destruct (kr_count kr =? 1) eqn:E.
  - apply Z.eqb_eq in E. by ztest.
  - apply Z.eqb_neq in E. by ztest.
Qed.

Lemma producer_step_inv ms now s :
  zlen ms < 2 ^ 64 -> Forall known_err ms -> inflight_inv ms s ->
  exists s', producer_step (zlen ms) now s = Ret s' /\ inflight_inv ms s'.
Proof.
  intros Hn Hknown Hinv. pose proof Hinv as (Hi & Hok & Hq & Hst & Hr & Hk).
  unfold producer_step, produce_round.
  destruct ((if_i s <? zlen ms) && (if_ok s <? zlen ms)) eqn:E; cbn [negb].
  2:{ by exists s. }
  apply andb_prop in E as [E1 E2]. apply Z.ltb_lt in E1, E2.
  unfold refs in *. pose proof (failures_left_nonneg ms (if_i s)). zlen_facts.
  destruct (if_k s) as [kr|] eqn:K; [|lia].
  destruct Hk as (Hcount & Hpos & Hms).
  destruct (lookup_lt_is_Some_2 ms (Z.to_nat (if_i s))) as [m Hm]; [unfold zlen in E1; lia|].
  rewrite Hms, Hm. pose proof (failures_left_step ms _ m Hi Hm) as Hstep.
  case_bool_decide as He.
  - cbn. eexists. split; [done|]. unfold failed in Hstep. rewrite bool_decide_true in Hstep by done.
    cbn in Hstep. unfold inflight_inv, refs. cbn. by split_and!; try done; lia.
  - assert (Hf : failed m = true) by (unfold failed; by rewrite bool_decide_false).
    rewrite Hf in Hstep.
    assert (Hkn : known_err m) by (rewrite Forall_lookup in Hknown; by eapply Hknown).
    destruct (warn_decision_known (if_state s) m now Hf Hkn Hst) as (w & st' & -> & Hst').
    cbn [mbind outcome_bind]. rewrite decref_spec by lia. cbn [mbind outcome_bind].
    eexists. split; [done|]. unfold inflight_inv, refs.
    cbn [if_i if_ok if_k if_state if_queued]. split_and!; try done; try lia.
    destruct (kr_count kr =? 1) eqn:E.
    + apply Z.eqb_eq in E. lia.
    + apply Z.eqb_neq in E. cbn [kr_count kr_msgs]. split_and!; lia || done.
Qed.

Lemma poll_step_inv ms j s :
  zlen ms < 2 ^ 64 -> inflight_inv ms s ->
  exists s', poll_step j s = Ret s' /\ inflight_inv ms s'.
Proof.
  intros Hn Hinv. pose proof Hinv as (Hi & Hok & Hq & Hst & Hr & Hk). unfold poll_step.
  destruct (if_queued s !! j) as [m|] eqn:E; [|by exists s].
  assert (Hp : msg_private m = true) by (rewrite Forall_lookup in Hq; by eapply Hq).
  unfold msg_delivered. rewrite Hp. unfold refs in *.
  pose proof (failures_left_nonneg ms (if_i s)). pose proof (zlen_delete _ _ _ E) as Hd.
  pose proof (zlen_nonneg (delete j (if_queued s))).
  destruct (if_k s) as [kr|] eqn:K; [|lia].
  destruct Hk as (Hcount & Hpos & Hms). rewrite decref_spec by lia. cbn [mbind outcome_bind].
  eexists. split; [done|]. unfold inflight_inv, refs.
  cbn [if_i if_ok if_k if_state if_queued]. split_and!; try done; try lia.
  - by apply Forall_delete.
  - destruct (kr_count kr =? 1) eqn:E1.
    + apply Z.eqb_eq in E1. lia.
    + apply Z.eqb_neq in E1. cbn [kr_count kr_msgs]. split_and!; lia || done.
Qed.

Lemma inflight_init_inv payload ms st :
  0 < zlen ms -> Forall (fun m => msg_private m = true) ms -> state_ok st ->
  inflight_inv ms (inflight_init payload ms st).
Proof.
  intros Hpos Hpriv Hst. pose proof (count_failed_split ms) as Hsplit.
  assert (Hl : failures_left ms 0 = count_failed ms) by done.
  unfold inflight_inv, refs, inflight_init. cbn [if_i if_ok if_k if_state if_queued kr_count kr_msgs].
  rewrite Hl. split_and!; try done; try lia.
  rewrite list.Forall_forall in *. intros m [_ Hm]%list_elem_of_filter. by apply Hpriv.
Qed.

Lemma interleave_inv ms sched s :
  zlen ms < 2 ^ 64 -> Forall known_err ms -> inflight_inv ms s ->
  exists s', interleave (zlen ms) sched s = Ret s' /\ inflight_inv ms s'.
Proof.
  intros Hn Hk. revert s. induction sched as [|a sched IH]; intros s Hinv; [by exists s|].
  assert (exists s', actor_step (zlen ms) a s = Ret s' /\ inflight_inv ms s') as (s1 & H1 & Hi1).
  { destruct a; [by apply producer_step_inv|by apply poll_step_inv]. }
  cbn. rewrite H1. cbn. by apply IH.
Qed.

Lemma failures_left_end ms i : zlen ms <= i -> failures_left ms i = 0.
Proof.
  intros. unfold failures_left, count_failed, zdrop. rewrite drop_ge; [done|].
  unfold zlen in *. lia.
Qed.

(** With no failure left, everything is counted and the batch is alive exactly
    while a message is queued. *)
Lemma inflight_end ms s :
  inflight_inv ms s -> failures_left ms (if_i s) = 0 ->
  if_ok s = zlen ms /\ (if_k s = None <-> if_queued s = []) /\ state_ok (if_state s) /\
  match if_k s with
  | None => True
  | Some kr => kr_count kr = zlen (if_queued s) /\ 0 < kr_count kr /\ kr_msgs kr = ms
  end.
Proof.
  intros (_ & Hok & _ & Hst & _ & Hk) Hend. unfold refs in Hk. rewrite Hend in Hok, Hk.
  split; [lia|]. destruct (if_k s) as [kr|].
  - destruct Hk as (Hc & Hpos & Hm). split; [|split; [done|split_and!; [lia..|done]]].
    split; [done|]. intros Hq. rewrite Hq in Hpos. done.
  - split; [|done]. split; [|done]. intros _. apply zlen_zero. lia.
Qed.

(** Run to the end, the loop has counted every message of the batch. *)
Lemma produce_failures_all ms fuel clock s :
  zlen ms < 2 ^ 64 -> Forall known_err ms -> inflight_inv ms s ->
  zlen ms <= if_i s + Z.of_nat fuel ->
  exists k st log,
    produce_failures fuel (if_i s) (if_ok s) (zlen ms) clock (if_k s) (if_state s) (if_log s)
      = Ret (zlen ms, k, st, log) /\
    (k = None <-> if_queued s = []) /\ state_ok st /\
    match k with
    | None => True
    | Some kr => kr_count kr = zlen (if_queued s) /\ 0 < kr_count kr /\ kr_msgs kr = ms
    end.
Proof.
  intros Hn Hkn. revert s. induction fuel as [|fuel IH]; intros s Hinv Hf.
  - destruct (inflight_end ms s Hinv) as (Hok & Hk & Hst & Hkr); [apply failures_left_end; lia|].
    exists (if_k s), (if_state s), (if_log s). cbn [produce_failures]. by rewrite Hok.
  - destruct (producer_step_inv ms (clock (if_i s)) s Hn Hkn Hinv) as (s' & Hs & Hinv').
    cbn [produce_failures]. unfold producer_step in Hs.
    destruct (produce_round _ _ _ _ _ _ _) as [[[[[ok k] st] log]|]| |] eqn:R; try done;
      cbn [mbind outcome_bind] in Hs |- *; injection Hs as <-.
    + apply (IH _ Hinv'). cbn. lia.
    + assert (Hend : failures_left ms (if_i s) = 0).
      { unfold produce_round in R.
        destruct (negb _) eqn:E in R.
        - apply negb_true_iff, andb_false_iff in E as [E|E]; apply Z.ltb_ge in E.
          + by apply failures_left_end.
          + pose proof (failures_left_nonneg ms (if_i s)). destruct Hinv as (_ & Hok & _). lia.
        - destruct (if_k s); [|done]. destruct (_ !! _); [|done].
          case_bool_decide; [done|]. destruct (warn_decision _ _ _) as [[]| |]; try done.
          cbn in R. by destruct (wrap64 _ =? 0). }
      destruct (inflight_end ms s Hinv Hend) as (Hok & Hk & Hst & Hkr).
      exists (if_k s), (if_state s), (if_log s). by rewrite Hok.
Qed.

(** *** Batches after their call *)

(** The messages of a batch that librdkafka took. *)
Definition queued_of (ms : list rd_kafka_message) : list rd_kafka_message :=
  filter (fun m => negb (failed m)) ms.

(** A batch that is left when its call returns: a reference per message taken. *)
Definition batch_ok (k : option karray) : Prop :=
  match k with
  | None => True
  | Some kr => kr_count kr = zlen (queued_of (kr_msgs kr)) /\ 0 < kr_count kr < 2 ^ 64 /\
               Forall (fun m => msg_private m = true) (kr_msgs kr)
  end.

(** Such a batch with the messages whose reports have not come. *)
Abbreviation flight := (option karray * list rd_kafka_message)%type.

Definition new_flight (k : option karray) : list flight :=
  match k with Some kr => [(k, queued_of (kr_msgs kr))] | None => [] end.

(** The delivery report of the [j]-th of them. *)
Definition flight_report (j : nat) (f : flight) : outcome flight :=
  match f.2 !! j with
  | None => Ret f
  | Some m => k ← msg_delivered m f.1; Ret (k, delete j f.2)
  end.

(** The batch is allocated exactly while a report is to come. *)
Definition flight_ok (f : flight) : Prop :=
  Forall (fun m => msg_private m = true) f.2 /\
  match f.1 with
  | None => f.2 = []
  | Some kr => kr_count kr = zlen f.2 /\ 0 < kr_count kr < 2 ^ 64
  end.

Lemma new_flight_ok k : batch_ok k -> Forall flight_ok (new_flight k).
Proof.
  destruct k as [kr|]; [|constructor]. intros (Hc & Hb & Hp). constructor; [|constructor].
  split; [|done]. cbn [snd]. unfold queued_of. rewrite list.Forall_forall in *.
  intros m [_ Hm]%list_elem_of_filter. by apply Hp.
Qed.

Lemma flight_report_ok j f :
  flight_ok f -> exists f', flight_report j f = Ret f' /\ flight_ok f'.
Proof.
  intros [Hp Hk]. unfold flight_report. destruct (f.2 !! j) as [m|] eqn:E; [|by exists f].
  pose proof (zlen_delete f.2 j m E) as Hd. destruct f as [[kr|] p]; cbn [fst snd] in *; [|by subst].
  unfold msg_delivered. rewrite (proj1 (Forall_lookup _ _) Hp j m E).
  rewrite decref_spec by lia. cbn [mbind outcome_bind]. eexists. split; [done|].
  pose proof (Forall_delete _ _ j Hp) as Hp'.
  destruct (kr_count kr =? 1) eqn:E1; split; cbn [fst snd kr_count]; try done.
  - apply zlen_zero. lia.
  - apply Z.eqb_neq in E1. lia.
Qed.

(** Every report that is to come, in order. *)
Fixpoint flight_drain (n : nat) (f : flight) : outcome flight :=
  match n with
  | O => Ret f
  | S n => f1 ← flight_report 0 f; flight_drain n f1
  end.

Lemma flight_ok_freed f : flight_ok f -> f.1 = None <-> f.2 = [].
Proof.
  intros [_ Hk]. destruct f as [[kr|] p]; cbn [fst snd] in *; [|done].
  split; [done|]. intros ->. change (zlen (@nil rd_kafka_message)) with 0 in Hk. lia.
Qed.

Lemma flight_drain_ok f : flight_ok f -> flight_drain (length f.2) f = Ret (None, []).
Proof.
  remember (length f.2) as n eqn:En. revert f En. induction n as [|n IH]; intros [k p] En Hf.
  - destruct p; [|done]. pose proof (proj2 (flight_ok_freed _ Hf) eq_refl) as Hk. cbn in Hk. by subst k.
  - destruct p as [|m p]; [done|]. destruct (flight_report_ok 0 _ Hf) as (f' & Hr & Hf').
    cbn [flight_drain]. rewrite Hr. cbn [mbind outcome_bind]. apply IH; [|done].
    unfold flight_report in Hr. cbn in Hr. destruct (msg_delivered m k); try done. injection Hr as <-.
    cbn in En |- *. lia.
Qed.

Lemma zip_set_err_len ms errs :
  length errs = length ms -> zlen (zip_with msg_set_err ms errs) = zlen ms.
Proof. intros. unfold zlen. rewrite length_zip_with. lia. Qed.

Lemma zip_set_err_queued ms errs :
  length errs = length ms ->
  zlen (filter (fun m => negb (failed m)) (zip_with msg_set_err ms errs))
    = zlen (filter (fun e => e = ERR_NO_ERROR) errs).
Proof.
  revert errs. induction ms as [|m ms IH]; intros [|e errs] Hl; try done.
  cbn [zip_with]. rewrite !filter_cons. injection Hl as Hl. specialize (IH errs Hl).
  assert (Hf : failed (msg_set_err m e) = negb (bool_decide (e = ERR_NO_ERROR))) by done.
  rewrite Hf. case_bool_decide; cbn [negb]; repeat case_decide; try done. zlia.
Qed.

Lemma zip_set_err_private ms errs :
  Forall (fun m => msg_private m = true) (zip_with msg_set_err (map msg_set_private ms) errs).
Proof.
  revert errs. induction ms as [|m ms IH]; intros [|e errs]; cbn; constructor; [done|]. apply IH.
Qed.

Definition known_error (e : rd_kafka_resp_err) : Prop := forall code, e <> ERR_OTHER code.

Lemma zip_set_err_known ms errs :
  Forall known_error errs -> Forall known_err (zip_with msg_set_err ms errs).
Proof.
  intros H. revert ms. induction H; intros [|m ms]; cbn; constructor; [done|]. apply IHForall.
Qed.

Section produce_lemmas.
Context {abi : Abi} {rk : Rdkafka} {producer : BatchProducer}.
Context (r : rkt).

(** The errors librdkafka reports for the messages of an array. *)
Definition batch_errors (ms : list rd_kafka_message) : list rd_kafka_resp_err :=
  (rd_kafka_produce_batch r (map msg_set_private ms)).2.

Lemma first_msgs_all ms : first_msgs (zlen ms) ms = Ret ms.
Proof. unfold first_msgs. rewrite Z.leb_refl. by rewrite ztake_all by lia. Qed.

Lemma ka_count_bound n : 0 <= n -> ka_bytes n <= size_limit -> n < 2 ^ 64.
Proof.
  unfold ka_bytes, size_limit. pose proof sizeof_msg_pos. pose proof repr_internal_pos. nia.
Qed.

(** The batch as it is when [rd_kafka_produce_batch] returns. *)
Definition batch_sent (ms : list rd_kafka_message) : list rd_kafka_message :=
  zip_with msg_set_err (map msg_set_private ms) (batch_errors ms).

Lemma batch_sent_len ms : zlen (batch_sent ms) = zlen ms.
Proof.
  unfold batch_sent, batch_errors.
  rewrite zip_set_err_len by apply produce_batch_errors. unfold zlen. by rewrite length_map.
Qed.

Lemma produce_spec a m ms st clock :
  ka_holds a (m :: ms) -> ka_payload_buffer a <> 0 ->
  Forall known_error (batch_errors (m :: ms)) -> state_ok st ->
  exists k st' log,
    kafka_message_array_produce r a st clock
      = Ret (zlen (m :: ms), KAFKA_MESSAGE_ARRAY_INITIALIZER, k, st', log,
             [mkcall r (map msg_set_private (m :: ms))]) /\ state_ok st' /\
    batch_ok k.
Proof.
  intros Ha Hp Hkn Hst. set (l := m :: ms) in *.
  pose proof (ka_holds_size a l Ha) as Hsize. pose proof Ha as (Hinv & Hs & _ & Hcount).
  unfold kafka_message_array_produce. rewrite Hsize.
  assert (Hpos : 0 < zlen l) by (unfold l; zlia). ztest.
  rewrite (ka_holds_msgs a m ms Ha). cbn [mbind outcome_bind].
  cbn [negb]. rewrite Hcount. fold l. rewrite first_msgs_all. cbn [mbind outcome_bind].
  pose proof (batch_sent_len l) as Hlen.
  pose proof (produce_batch_queued r (map msg_set_private l)) as Hq.
  pose proof (produce_batch_errors r (map msg_set_private l)) as He.
  unfold produce_batch_call, batch_sent, batch_errors in *.
  destruct (rd_kafka_produce_batch r (map msg_set_private l)) as [queued errs]. cbn [fst snd] in *.
  set (sent := zip_with msg_set_err (map msg_set_private l) errs) in *.
  assert (Hok : zlen (queued_of sent) = queued).
  { rewrite Hq. by apply zip_set_err_queued. }
  assert (Hpriv : Forall (fun m => msg_private m = true) sent) by apply zip_set_err_private.
  assert (Hi0 : inflight_inv sent (inflight_init (ka_payload_buffer a) sent st)).
  { apply inflight_init_inv; [lia|done..]. }
  assert (Hb : zlen sent < 2 ^ 64).
  { rewrite Hlen. apply ka_count_bound; [lia|]. unfold ka_bytes. rewrite <- Hs. apply Hinv. }
  destruct (queued =? zlen l) eqn:E.
  { apply Z.eqb_eq in E. rewrite E. eexists _, _, _. split_and!; [done|done|].
    cbn [batch_ok kr_count kr_msgs]. split_and!; lia || done. }
  destruct (produce_failures_all sent (length (map msg_set_private l)) clock _ Hb
    (zip_set_err_known _ _ Hkn) Hi0) as (k & st' & log & Hrun & _ & Hst' & Hk).
  { cbn [if_i inflight_init]. rewrite length_map, Hlen. unfold zlen. lia. }
  cbn [if_i if_ok if_k if_state if_log inflight_init] in Hrun.
  change (filter (fun m => negb (failed m)) sent) with (queued_of sent) in Hrun.
  rewrite Hok, Hlen in Hrun. rewrite Hrun. cbn [mbind outcome_bind].
  eexists _, _, _. split_and!; [done|done|]. destruct k as [kr|]; [|done].
  destruct Hk as (Hc & Hkpos & Hms). cbn [batch_ok]. rewrite Hms.
  pose proof (count_failed_split sent). pose proof (zlen_nonneg (filter failed sent)).
  split_and!; [done|lia| |done].
  cbn [inflight_init if_queued] in Hc. unfold count_failed in *. lia.
Qed.
End produce_lemmas.

(** The first failure of a batch is an error without a timestamp of its own. *)
Lemma produce_failures_oob j i ok n clock kr st log code fuel :
  0 <= i -> i + Z.of_nat j < n -> ok < n -> (j < fuel)%nat -> length st = 4%nat ->
  (forall t m, (t < j)%nat -> kr_msgs kr !! (Z.to_nat i + t)%nat = Some m -> msg_err m = ERR_NO_ERROR) ->
  (forall t, (t < j)%nat -> is_Some (kr_msgs kr !! (Z.to_nat i + t)%nat)) ->
  (exists m, kr_msgs kr !! (Z.to_nat i + j)%nat = Some m /\ msg_err m = ERR_OTHER code) ->
  produce_failures fuel i ok n clock (Some kr) (Some st) log = Fault bad_access.
Proof.
  revert i fuel. induction j as [|j IH]; intros i [|fuel] Hi Hn Hok Hf Hst Hpre Hsome Hbad; try lia.
  all: cbn [produce_failures]; unfold produce_round; ztest.
  - destruct Hbad as (m & Hm & He). rewrite Nat.add_0_r in Hm. rewrite Hm.
    rewrite bool_decide_false by congruence. rewrite He.
    cbn [kafka_error_to_warning_time_pos warning_pos_num warn_decision Nat.leb].
    by rewrite (lookup_ge_None_2 st 4) by lia.
  - destruct (Hsome 0%nat) as [m Hm]; [lia|]. pose proof (Hpre 0%nat m ltac:(lia) Hm) as He.
    rewrite Nat.add_0_r in Hm. rewrite Hm, bool_decide_true by done. cbn [mbind outcome_bind].
    apply IH; try lia; try done.
    + intros t m' Ht Hm'. apply (Hpre (S t)); [lia|]. rewrite <- Hm'. f_equal. lia.
    + intros t Ht. replace (Z.to_nat (i + 1) + t)%nat with (Z.to_nat i + S t)%nat by lia.
      apply Hsome. lia.
    + replace (Z.to_nat (i + 1) + j)%nat with (Z.to_nat i + S j)%nat by lia. done.
Qed.

(** ** Instances for closed examples *)

#[export] Instance abi64 : Abi.
Proof.
  refine {| repr_internal := zeros 24; repr_msg := fun _ => zeros 72; sizeof_msg := 72 |};
    by vm_compute.
Defined.

(** A librdkafka with one topic, whatever the name. *)
#[local] Instance one_topic : Rdkafka := {|
  rkt := unit; rd_kafka_topic_new _ := None; rd_kafka_topic_name _ := [];
  topic_name_new name r H := match H in _ = o return match o with None => True | Some _ => [] = name end with
                             | eq_refl => I end
|}.

(** A librdkafka that decides per message. *)
#[refine] Definition deciding_producer {rk : Rdkafka} (f : rd_kafka_message -> rd_kafka_resp_err)
    : BatchProducer :=
  {| rd_kafka_produce_batch := fun _ msgs =>
       (zlen (filter (fun e => e = ERR_NO_ERROR) (map f msgs)), map f msgs) |}.
Proof.
  - intros r msgs. cbn. by rewrite length_map.
  - done.
Defined.

Definition example_array : kafka_message_array :=
  match add_each KAFKA_MESSAGE_ARRAY_INITIALIZER [new_msg 0 10; new_msg 10 12] with
  | Ret (_, a) => mkka (ka_str a) 4096 (ka_count a) (ka_cells a)
  | _ => KAFKA_MESSAGE_ARRAY_INITIALIZER
  end.

Lemma example_array_holds : ka_holds example_array [new_msg 0 10; new_msg 10 12].
Proof.
  split; [|vm_compute; by split_and!]. vm_compute. split; [split; discriminate|discriminate].
Qed.

(** A machine that has blocks of 4096 bytes and no larger ones. *)
#[refine] Definition page_allocator : Allocator :=
  {| realloc := fun old n => if n <=? 4096 then realloc_zero old n else None |}.
Proof.
  - intros old n new Hn. destruct (n <=? 4096); [by apply realloc_zero_size|done].
  - intros b n new Hn. destruct (n <=? 4096); [by apply realloc_zero_keep|done].
Defined.

(** ** Properties *)

(** C30: the block of a message array is always well typed.  Whatever the allocator
    answers and however many calls failed, after any sequence of additions the block
    is empty or it is a header followed by messages, one for each call that returned
    0, in order; its size and the count of the header agree with them.  So the cast to
    the header succeeds (its magic is there) and setting the payload buffer finds the
    messages and nothing else.  Calls fail only for lack of memory. *)
Theorem array_well_typed {alloc : Allocator} {abi : Abi} (ms : list rd_kafka_message)
    (Hlim : ka_bytes (zlen ms) <= size_limit) :
  exists rcs a, add_each kafka_msg_array_init ms = Ret (rcs, a) /\ length rcs = length ms /\
    Forall (fun rc => rc = 0 \/ rc = -1 /\ ~ never_fails alloc) rcs /\
    kafka_message_array_size a = zlen (added ms rcs) /\
    (added ms rcs = [] -> string_size (ka_str a) = 0) /\
    (added ms rcs <> [] ->
       string_size (ka_str a) = zlen repr_internal + sizeof_msg * zlen (added ms rcs) /\
       kafka_message_array_get_internal a = Ret (map CMsg (added ms rcs)) /\
       forall buffer, exists a', kafka_message_array_set_payload_buffer0 a buffer true = Ret a' /\
         ka_msgs a' = Ret (map (msg_add_payload buffer) (added ms rcs))).
Proof.
  destruct (add_each_holds kafka_msg_array_init [] ms ka_holds_nil Hlim)
    as (rcs & a & Hadd & Ha & Hlen & Hrc). cbn [app] in Ha.
  exists rcs, a. split_and!; try done; [by apply ka_holds_size|..].
  - intros E. rewrite E in Ha. apply Ha.
  - destruct (added ms rcs) as [|m kept]; [done|]. intros _. pose proof Ha as (_ & Hs & Hc & _).
    split_and!; [done|unfold kafka_message_array_get_internal; by rewrite Hc|].
    intros buffer. destruct (ka_holds_set_buffer a m kept buffer true Ha) as (a' & Hset & Ha' & _).
    exists a'. split; [done|]. by apply ka_holds_msgs.
Qed.

(** With blocks of one page the last three of 59 messages are refused. *)
Lemma array_well_typed_witness :
  exists rcs a, add_each (alloc := page_allocator) kafka_msg_array_init (replicate 59 (new_msg 0 10))
      = Ret (rcs, a) /\
    rcs = replicate 56 0 ++ [-1; -1; -1] /\ kafka_message_array_size a = 56.
Proof.
  destruct (array_well_typed (alloc := page_allocator) (replicate 59 (new_msg 0 10)))
    as (rcs & a & H1 & _ & _ & H2 & _); [vm_compute; discriminate|].
  exists rcs, a. split; [exact H1|].
  assert (E : rcs = replicate 56 0 ++ [-1; -1; -1]).
  { change rcs with (rcs, a).1. apply (f_equal (fun o => match o with Ret r => r.1 | _ => [] end)) in H1.
    cbn [fst] in H1 |- *. rewrite <- H1. vm_compute. reflexivity. }
  split; [exact E|]. rewrite H2, E. vm_compute. reflexivity.
Defined.

(** C7: under every interleaving of the producing thread with delivery reports
    a batch is never used after it was freed, and it is freed exactly when no
    queued message and no failed message holds a reference any more. *)
Theorem batch_refcount_safe (payload : Z) (ms : list rd_kafka_message)
    (st : option produce_state) (sched : list actor)
    (Hne : 0 < zlen ms < 2 ^ 64)
    (Hpriv : Forall (fun m => msg_private m = true) ms)
    (Hknown : Forall known_err ms) (Hst : state_ok st) :
  exists s, interleave (zlen ms) sched (inflight_init payload ms st) = Ret s /\
    (if_k s = None <-> (if_queued s = [] /\ failures_left ms (if_i s) = 0)).
Proof.
  destruct (interleave_inv ms sched (inflight_init payload ms st)) as (s & H & Hinv);
    [lia|done|by apply inflight_init_inv; [lia|..]|].
  exists s. split; [done|]. destruct Hinv as (_ & _ & _ & _ & _ & Hk). unfold refs in Hk.
  pose proof (failures_left_nonneg ms (if_i s)). pose proof (zlen_nonneg (if_queued s)).
  destruct (if_k s) as [kr|].
  - split; [done|]. intros [Hq Hl]. rewrite Hq, Hl in Hk. by destruct Hk as (_ & Hk & _).
  - split; [|done]. intros _. split; [apply zlen_zero|]; lia.
Qed.

Lemma batch_refcount_safe_witness :
  exists s, interleave 2 [Poller 0; Producer 7; Producer 8; Producer 9]
    (inflight_init 4096 [mkmsg ERR_NO_ERROR 0 5 true; mkmsg ERR__QUEUE_FULL 5 5 true] None) = Ret s /\
    (if_k s = None <-> (if_queued s = [] /\
       failures_left [mkmsg ERR_NO_ERROR 0 5 true; mkmsg ERR__QUEUE_FULL 5 5 true] (if_i s) = 0)).
Proof.
  apply (batch_refcount_safe 4096
    [mkmsg ERR_NO_ERROR 0 5 true; mkmsg ERR__QUEUE_FULL 5 5 true] None).
  - split; reflexivity.
  - repeat constructor.
  - repeat constructor; discriminate.
  - exact I.
Defined.

(** Kafka_message_array_produce returns the number of messages of the
    array whatever librdkafka refused: its loop counts each failed message as
    sent, so the caller cannot tell a full queue from success. *)
Theorem produce_reports_all_sent {abi : Abi} {rk : Rdkafka} {producer : BatchProducer}
    (r : rkt) (a : kafka_message_array) (m : rd_kafka_message) (ms : list rd_kafka_message)
    (st : option produce_state) (clock : Z -> Z)
    (Ha : ka_holds a (m :: ms)) (Hp : ka_payload_buffer a <> 0)
    (Hknown : Forall known_error (batch_errors r (m :: ms))) (Hst : state_ok st) :
  exists k st' log calls, kafka_message_array_produce r a st clock
    = Ret (zlen (m :: ms), KAFKA_MESSAGE_ARRAY_INITIALIZER, k, st', log, calls).
Proof.
  destruct (produce_spec r a m ms st clock Ha Hp Hknown Hst) as (k & st' & log & H & _).
  by eexists k, st', log, _.
Qed.

Lemma produce_reports_all_sent_witness :
  exists k st' log calls,
    kafka_message_array_produce (rk := one_topic) (producer := deciding_producer (fun _ => ERR__QUEUE_FULL))
      tt example_array (Some produce_state_init) (fun _ => 1000)
    = Ret (2, KAFKA_MESSAGE_ARRAY_INITIALIZER, k, st', log, calls).
Proof.
  apply (produce_reports_all_sent (rk := one_topic) (producer := deciding_producer (fun _ => ERR__QUEUE_FULL))
    tt example_array (new_msg 0 10) [new_msg 10 12]).
  - apply example_array_holds.
  - vm_compute. discriminate.
  - repeat constructor; discriminate.
  - reflexivity.
Defined.

(** A failed message whose error is none of the four with a timestamp
    makes kafka_message_array_produce read the timestamp array one past its
    end. *)
Theorem produce_other_error_out_of_bounds {abi : Abi} {rk : Rdkafka} {producer : BatchProducer}
    (r : rkt) (a : kafka_message_array) (m : rd_kafka_message) (ms : list rd_kafka_message)
    (st : produce_state) (clock : Z -> Z) (j : nat) (code : Z) (rest : list rd_kafka_resp_err)
    (Ha : ka_holds a (m :: ms)) (Hp : ka_payload_buffer a <> 0) (Hst : length st = 4%nat)
    (Herrs : batch_errors r (m :: ms) = replicate j ERR_NO_ERROR ++ ERR_OTHER code :: rest) :
  kafka_message_array_produce r a (Some st) clock = Fault bad_access.
Proof.
  set (l := m :: ms) in *. pose proof (ka_holds_size a l Ha) as Hsize.
  pose proof Ha as (_ & _ & _ & Hcount). unfold kafka_message_array_produce. rewrite Hsize.
  assert (Hpos : 0 < zlen l) by (unfold l; zlia). ztest.
  rewrite (ka_holds_msgs a m ms Ha). cbn [mbind outcome_bind negb]. rewrite Hcount. fold l.
  rewrite first_msgs_all. cbn [mbind outcome_bind].
  pose proof (produce_batch_queued r (map msg_set_private l)) as Hq.
  pose proof (produce_batch_errors r (map msg_set_private l)) as He.
  unfold produce_batch_call, batch_errors in *.
  destruct (rd_kafka_produce_batch r (map msg_set_private l)) as [queued errs]. cbn [fst snd] in *.
  subst errs. rewrite length_app, length_replicate, length_map in He. clearbody l. cbn in He.
  assert (Hlt : queued < zlen l).
  { rewrite Hq. rewrite list.filter_app, zlen_app.
    rewrite filter_cons_False by done. unfold zlen.
    pose proof (length_filter (fun e => e = ERR_NO_ERROR) (replicate j ERR_NO_ERROR)) as H1.
    pose proof (length_filter (fun e => e = ERR_NO_ERROR) rest) as H2.
    rewrite length_replicate in H1. lia. }
  ztest. rewrite (produce_failures_oob j 0 queued (zlen l) clock _ st [] code); [done|..];
    cbn [kr_msgs]; try done; try (rewrite ?length_map; unfold zlen; lia).
  - intros t m' Ht. change (Z.to_nat 0 + t)%nat with t. rewrite lookup_zip_with.
    intros (x & _ & Hx)%bind_Some. apply bind_Some in Hx as (e & Hx & [= <-]).
    rewrite lookup_app_l in Hx by (by rewrite length_replicate).
    by apply lookup_replicate in Hx as [-> _].
  - intros t Ht. change (Z.to_nat 0 + t)%nat with t. apply lookup_lt_is_Some_2.
    rewrite length_zip_with, length_map, length_app, length_replicate. cbn. lia.
  - change (Z.to_nat 0 + j)%nat with j.
    destruct (lookup_lt_is_Some_2 (map msg_set_private l) j) as [x Hx];
      [rewrite length_map; lia|].
    exists (msg_set_err x (ERR_OTHER code)). split; [|done].
    rewrite lookup_zip_with, Hx. cbn. rewrite lookup_app_r by (by rewrite length_replicate).
    by rewrite length_replicate, Nat.sub_diag.
Qed.

Lemma produce_other_error_out_of_bounds_witness :
  kafka_message_array_produce (rk := one_topic) (producer := deciding_producer (fun _ => ERR_OTHER (-195)))
    tt example_array (Some produce_state_init) (fun _ => 1000) = Fault bad_access.
Proof.
  apply (produce_other_error_out_of_bounds
    (rk := one_topic) (producer := deciding_producer (fun _ => ERR_OTHER (-195)))
    tt example_array (new_msg 0 10) [new_msg 10 12] produce_state_init (fun _ => 1000) 0 (-195)
    [ERR_OTHER (-195)]).
  - apply example_array_holds.
  - vm_compute. discriminate.
  - reflexivity.
  - reflexivity.
Defined.
