(* ===== verification/TopicDb.v ===== *)
(** * The topics database

    util/topic_database.c, and decoder/zz_http2k/zz_database.c on top of it.

    Topic handlers live in a heap: a location that is not in the map was freed.
    The hash table of tommyds is the list of the handlers inserted in it, and a
    search compares names as [topics_cmp] does; the LRU list is a list.  The
    parts of [topics_db_get_topic] that run under the lock are one function
    each, so that the interleavings of several threads are sequences of these
    functions. *)

From S2P Require Import Prelude CString KafkaArray.
From stdpp Require Import gmap.
#[local] Open Scope Z_scope.

Definition loc := nat.

Definition topic_live_time_s : Z := 15 * 60.

Section topics.
Context {rk : Rdkafka}.

Record topic_s := mktopic {
  t_rkt : rkt;
  t_refcnt : Z;
  t_timestamp : Z
}.

(** Allocated handlers, the next free location, and how many librdkafka topic
    handles exist. *)
Record world := mkworld {
  w_heap : gmap loc topic_s;
  w_next : loc;
  w_rkts : Z
}.

Record topics_db := mkdb {
  db_table : list loc;
  db_lru : list loc
}.

Definition topics_db_new : topics_db := mkdb [] [].

Definition get_obj (w : world) (l : loc) : outcome topic_s :=
  match w_heap w !! l with Some t => Ret t | None => Fault use_after_free end.

Definition set_obj (w : world) (l : loc) (t : topic_s) : world :=
  mkworld (<[l := t]> (w_heap w)) (w_next w) (w_rkts w).

Definition topics_db_get_rdkafka_topic (w : world) (l : loc) : outcome rkt :=
  t ← get_obj w l; Ret (t_rkt t).

(** At zero the librdkafka handle is destroyed and the handler freed. *)
Definition topic_decref (w : world) (l : loc) : outcome world :=
  t ← get_obj w l;
  let refcnt := wrap64 (t_refcnt t - 1) in
  if refcnt =? 0 then Ret (mkworld (delete l (w_heap w)) (w_next w) (w_rkts w - 1))
  else Ret (set_obj w l (mktopic (t_rkt t) refcnt (t_timestamp t))).

(** [strcmp(rd_kafka_topic_name(topic->rkt), topic_name) == 0]. *)
Definition topics_cmp (t : topic_s) (topic_name : bytes) : bool :=
  bool_decide (rd_kafka_topic_name (t_rkt t) = topic_name).

(** [tommy_hashdyn_search] with [void_topics_cmp]. *)
Fixpoint table_search (w : world) (table : list loc) (name : bytes) : outcome (option loc) :=
  match table with
  | [] => Ret None
  | l :: table =>
      t ← get_obj w l;
      if topics_cmp t name then Ret (Some l) else table_search w table name
  end.

(** [tommy_..._remove_existing]: the node has to be in the container. *)
Definition remove_existing (l : loc) (ls : list loc) : outcome (list loc) :=
  if bool_decide (l ∈ ls) then Ret (filter (fun x => x <> l) ls) else Fault bad_access.

(** A new handler with one reference; [calloc_ok] says whether its memory was
    available.  When it was not, the librdkafka handle is destroyed again. *)
Definition new_topic_s (calloc_ok : bool) (w : world) (topic_name : bytes)
    : option loc * world :=
  match rd_kafka_topic_new topic_name with
  | None => (None, w)
  | Some r =>
      let w1 := mkworld (w_heap w) (w_next w) (w_rkts w + 1) in
      if calloc_ok
      then (Some (w_next w1),
            mkworld (<[w_next w1 := mktopic r 1 0]> (w_heap w1)) (S (w_next w1)) (w_rkts w1))
      else (None, mkworld (w_heap w1) (w_next w1) (w_rkts w1 - 1))
  end.

(** [difftime(age, topic->timestamp) > 0]. *)
Definition node_older_than (t : topic_s) (age : Z) : bool := 0 <? age - t_timestamp t.

Fixpoint purge_nodes (nodes : list loc) (db : topics_db) (w : world) (age_limit : Z)
    : outcome (topics_db * world) :=
  match nodes with
  | [] => Ret (db, w)
  | l :: nodes =>
      t ← get_obj w l;
      if node_older_than t age_limit then
        table ← remove_existing l (db_table db);
        lru ← remove_existing l (db_lru db);
        w1 ← topic_decref w l;
        purge_nodes nodes (mkdb table lru) w1 age_limit
      else purge_nodes nodes db w age_limit
  end.

Definition purge_topics_older_than (db : topics_db) (w : world) (age_limit : Z)
    : outcome (topics_db * world) :=
  purge_nodes (db_lru db) db w age_limit.

(** The code from the label [rkt_found] on. *)
Definition rkt_found (db : topics_db) (w : world) (ret : loc) (now : Z)
    : outcome (topics_db * world) :=
  '(db1, w1) ← purge_topics_older_than db w (now - topic_live_time_s);
  t ← get_obj w1 ret;
  Ret (mkdb (db_table db1) (db_lru db1 ++ [ret]),
       set_obj w1 ret (mktopic (t_rkt t) (wrap64 (t_refcnt t + 1)) now)).

(** The first critical section: [Some] handler, or [None] when one has to be
    created outside of the lock. *)
Definition get_topic_begin (db : topics_db) (w : world) (topic : bytes) (now : Z)
    : outcome (option loc * topics_db * world) :=
  found ← table_search w (db_table db) topic;
  match found with
  | Some ret =>
      lru ← remove_existing ret (db_lru db);
      '(db1, w1) ← rkt_found (mkdb (db_table db) lru) w ret now;
      Ret (Some ret, db1, w1)
  | None => Ret (None, db, w)
  end.

(** The second critical section, with the created handler [new]. *)
Definition get_topic_finish (db : topics_db) (w : world) (topic : bytes) (now : Z) (new : loc)
    : outcome (loc * topics_db * world) :=
  found ← table_search w (db_table db) topic;
  match found with
  | Some aux =>
      w1 ← topic_decref w new;
      lru ← remove_existing aux (db_lru db);
      '(db1, w2) ← rkt_found (mkdb (db_table db) lru) w1 aux now;
      Ret (aux, db1, w2)
  | None =>
      '(db1, w1) ← rkt_found (mkdb (db_table db ++ [new]) (db_lru db)) w new now;
      Ret (new, db1, w1)
  end.

(** The whole function, without other threads in between. *)
Definition topics_db_get_topic (calloc_ok : bool) (db : topics_db) (w : world)
    (topic : bytes) (now : Z) : outcome (option loc * topics_db * world) :=
  '(found, db1, w1) ← get_topic_begin db w topic now;
  match found with
  | Some ret => Ret (Some ret, db1, w1)
  | None =>
      match new_topic_s calloc_ok w1 topic with
      | (None, w2) => Ret (None, db1, w2)
      | (Some new, w2) =>
          '(ret, db2, w3) ← get_topic_finish db1 w2 topic now new;
          Ret (Some ret, db2, w3)
      end
  end.

Fixpoint decref_all (w : world) (ls : list loc) : outcome world :=
  match ls with
  | [] => Ret w
  | l :: ls => w1 ← topic_decref w l; decref_all w1 ls
  end.

Definition topics_db_done (db : topics_db) (w : world) : outcome world :=
  decref_all w (db_table db).

(** zz_database.c: a database whose [topics_db] pointer may be NULL. *)
Definition init_zz_database (calloc_ok : bool) : Z * option topics_db :=
  if calloc_ok then (0, Some topics_db_new) else (1, None).

Definition free_valid_zz_database (db : option topics_db) (w : world) : outcome world :=
  match db with None => Ret w | Some db => topics_db_done db w end.

Definition zz_http2k_database_get_topic (calloc_ok : bool) (db : option topics_db) (w : world)
    (topic : bytes) (now : Z) : outcome (option loc * option topics_db * world) :=
  match db with
  | None => Fault bad_access
  | Some db =>
      '(ret, db1, w1) ← topics_db_get_topic calloc_ok db w topic now;
      Ret (ret, Some db1, w1)
  end.

(** ** Several threads *)

(** What one thread does without being interrupted. *)
Inductive db_action :=
| ActBegin (topic : bytes) (now : Z)
| ActCreate (calloc_ok : bool) (topic : bytes)
| ActFinish (now : Z) (i : nat)
| ActRelease (i : nat).

(** [sys_held]: the references threads hold, with the names they asked for;
    [sys_created]: the handlers created by threads that are between the two
    critical sections, with their names. *)
Record system := mksys {
  sys_db : topics_db;
  sys_world : world;
  sys_held : list (loc * bytes);
  sys_created : list (loc * bytes)
}.

Definition system_init : system := mksys topics_db_new (mkworld ∅ O 0) [] [].

Definition sys_step (a : db_action) (s : system) : outcome system :=
  match a with
  | ActBegin topic now =>
      '(found, db, w) ← get_topic_begin (sys_db s) (sys_world s) topic now;
      Ret (mksys db w
             (match found with Some l => (l, topic) :: sys_held s | None => sys_held s end)
             (sys_created s))
  | ActCreate calloc_ok topic =>
      match new_topic_s calloc_ok (sys_world s) topic with
      | (None, w) => Ret (mksys (sys_db s) w (sys_held s) (sys_created s))
      | (Some l, w) => Ret (mksys (sys_db s) w (sys_held s) ((l, topic) :: sys_created s))
      end
  | ActFinish now i =>
      match sys_created s !! i with
      | None => Ret s
      | Some (new, topic) =>
          '(ret, db, w) ← get_topic_finish (sys_db s) (sys_world s) topic now new;
          Ret (mksys db w ((ret, topic) :: sys_held s) (delete i (sys_created s)))
      end
  | ActRelease i =>
      match sys_held s !! i with
      | None => Ret s
      | Some (l, _) =>
          w ← topic_decref (sys_world s) l;
          Ret (mksys (sys_db s) w (delete i (sys_held s)) (sys_created s))
      end
  end.

Fixpoint sys_run (acts : list db_action) (s : system) : outcome system :=
  match acts with
  | [] => Ret s
  | a :: acts => s' ← sys_step a s; sys_run acts s'
  end.


(** ** Reference counts

    A handler is alive exactly while somebody refers to it, and its counter is
    the number of references; [refs] lists every reference there is. *)

Definition occ (l : loc) (ls : list loc) : Z := zlen (filter (fun x => x = l) ls).

Definition heap_inv (w : world) (refs : list loc) : Prop :=
  (forall l, match w_heap w !! l with
             | Some t => t_refcnt t = occ l refs /\ 0 < t_refcnt t
             | None => occ l refs = 0
             end) /\
  (forall l, is_Some (w_heap w !! l) -> (l < w_next w)%nat) /\
  w_rkts w = Z.of_nat (size (w_heap w)).

(** The handlers alive in [w'] were alive in [w], with the same librdkafka
    handle and timestamp. *)
Definition keeps (w w' : world) : Prop :=
  forall l t', w_heap w' !! l = Some t' ->
    exists t, w_heap w !! l = Some t /\ t_rkt t' = t_rkt t /\ t_timestamp t' = t_timestamp t.

#[export] Instance keeps_preorder : PreOrder keeps.
Proof.
  split.
  - intros w l t H. by exists t.
  - intros w1 w2 w3 H12 H23 l t H.
    destruct (H23 l t H) as (t2 & H2 & E2 & F2). destruct (H12 l t2 H2) as (t1 & H1 & E1 & F1).
    exists t1. by rewrite E2, F2.
Qed.

Lemma occ_cons l x ls : occ l (x :: ls) = (if decide (x = l) then 1 else 0) + occ l ls.
Proof. unfold occ. rewrite filter_cons. case_decide; zlia. Qed.

Lemma occ_app l ls ks : occ l (ls ++ ks) = occ l ls + occ l ks.
Proof. unfold occ. by rewrite list.filter_app, zlen_app. Qed.

Lemma occ_nonneg l ls : 0 <= occ l ls.
Proof. apply zlen_nonneg. Qed.

Lemma occ_le l ls : occ l ls <= zlen ls.
Proof. unfold occ, zlen. pose proof (length_filter (fun x => x = l) ls). lia. Qed.

Lemma occ_elem_of l ls : 0 < occ l ls <-> l ∈ ls.
Proof.
  induction ls as [|x ls IH].
  - split; [done|]. by intros ?%not_elem_of_nil.
  - rewrite occ_cons, elem_of_cons, <- IH. pose proof (occ_nonneg l ls).
    case_decide; subst; split; intros; (lia || by left || (right; lia)).
Qed.

#[export] Instance occ_proper l : Proper ((≡ₚ) ==> eq) (occ l).
Proof. intros ls ks H. unfold occ, zlen. by rewrite H. Qed.

#[export] Instance heap_inv_proper w : Proper ((≡ₚ) ==> iff) (heap_inv w).
Proof.
  intros ls ks H. unfold heap_inv.
  assert (E : forall l, occ l ls = occ l ks) by (intros; by rewrite H).
  assert (forall l, match w_heap w !! l with
      | Some t => t_refcnt t = occ l ls /\ 0 < t_refcnt t | None => occ l ls = 0 end <->
    match w_heap w !! l with
      | Some t => t_refcnt t = occ l ks /\ 0 < t_refcnt t | None => occ l ks = 0 end) as Hm.
  { intros l. by rewrite E. }
  by setoid_rewrite Hm.
Qed.

Lemma heap_inv_live w refs l : heap_inv w refs -> l ∈ refs -> exists t, w_heap w !! l = Some t.
Proof.
  intros (H & _) Hl%occ_elem_of. specialize (H l).
  destruct (w_heap w !! l) as [t|]; [by exists t|lia].
Qed.

Lemma topic_decref_spec w l refs :
  heap_inv w (l :: refs) -> zlen refs < 2 ^ 63 ->
  exists w', topic_decref w l = Ret w' /\ heap_inv w' refs /\ keeps w w' /\ w_next w' = w_next w.
Proof.
  intros Hinv Hb. destruct (heap_inv_live w _ l Hinv) as [t Ht]; [by left|].
  pose proof Hinv as (Hocc & Hnext & Hrk). unfold topic_decref, get_obj. rewrite Ht.
  pose proof (Hocc l) as Hl. rewrite Ht, occ_cons, decide_True in Hl by done.
  destruct Hl as [Hc Hpos]. pose proof (occ_le l refs).
  cbn [mbind outcome_bind]. rewrite wrap64_small by lia.
  assert (Hother : forall x, x <> l -> occ x (l :: refs) = occ x refs).
  { intros x Hx. rewrite occ_cons. by case_decide. }
  destruct (t_refcnt t - 1 =? 0) eqn:E.
  - apply Z.eqb_eq in E. eexists. split; [done|]. split_and!; [| |done].
    + split_and!; cbn.
      * intros x. destruct (decide (l = x)) as [<-|Hx].
        -- rewrite lookup_delete_eq. lia.
        -- rewrite lookup_delete_ne by done. specialize (Hocc x). by rewrite Hother in Hocc.
      * intros x Hx. apply Hnext. by apply lookup_delete_is_Some in Hx as [_ ?].
      * rewrite map_size_delete, Ht, Hrk.
        pose proof (map_size_ne_0_lookup_2 (w_heap w) l (ex_intro _ t Ht)). lia.
    + intros x t' Hx. cbn in Hx. apply lookup_delete_Some in Hx as [_ Hx]. by exists t'.
  - apply Z.eqb_neq in E. eexists. split; [done|]. split_and!; [| |done].
    + split_and!; cbn.
      * intros x. destruct (decide (l = x)) as [<-|Hx].
        -- rewrite lookup_insert_eq. cbn. lia.
        -- rewrite lookup_insert_ne by done. specialize (Hocc x). by rewrite Hother in Hocc.
      * intros x Hx. apply Hnext. destruct (decide (l = x)) as [<-|]; [by eexists|].
        by rewrite lookup_insert_ne in Hx.
      * rewrite map_size_insert, Ht. done.
    + intros x t' Hx. cbn in Hx. destruct (decide (l = x)) as [<-|].
      * rewrite lookup_insert_eq in Hx. injection Hx as <-. by exists t.
      * rewrite lookup_insert_ne in Hx by done. by exists t'.
Qed.

Lemma new_topic_spec calloc_ok w name refs :
  heap_inv w refs ->
  match new_topic_s calloc_ok w name with
  | (None, w') => w' = w
  | (Some l, w') => heap_inv w' (l :: refs) /\ (l ∉ refs) /\ w_heap w !! l = None /\
      exists r, rd_kafka_topic_name r = name /\ w_heap w' = <[l := mktopic r 1 0]> (w_heap w)
  end.
Proof.
  intros (Hocc & Hnext & Hrk). unfold new_topic_s.
  destruct (rd_kafka_topic_new name) as [r|] eqn:R; [|done].
  destruct calloc_ok; cbn.
  2:{ destruct w; cbn. f_equal. lia. }
  assert (Hfree : w_heap w !! w_next w = None).
  { apply eq_None_not_Some. intros H%Hnext. lia. }
  assert (Hz : occ (w_next w) refs = 0) by (specialize (Hocc (w_next w)); by rewrite Hfree in Hocc).
  split_and!; [| |done|].
  - split_and!; cbn.
    + intros x. rewrite occ_cons. destruct (decide (w_next w = x)) as [<-|Hx].
      * rewrite lookup_insert_eq. cbn. rewrite Hz. lia.
      * rewrite lookup_insert_ne by done. apply (Hocc x).
    + intros x Hx. destruct (decide (w_next w = x)) as [<-|]; [lia|].
      rewrite lookup_insert_ne in Hx by done. apply Hnext in Hx. lia.
    + rewrite map_size_insert, Hfree, Hrk. lia.
  - rewrite <- occ_elem_of, Hz. lia.
  - exists r. split; [by apply topic_name_new|done].
Qed.

(** [ATOMIC_OP(add, fetch, &ret->refcnt, 1)] after setting the timestamp. *)
Lemma incref_spec w l refs t now :
  heap_inv w refs -> w_heap w !! l = Some t -> zlen refs < 2 ^ 63 ->
  heap_inv (set_obj w l (mktopic (t_rkt t) (wrap64 (t_refcnt t + 1)) now)) (l :: refs).
Proof.
  intros (Hocc & Hnext & Hrk) Ht Hb. pose proof (Hocc l) as Hl. rewrite Ht in Hl.
  pose proof (occ_le l refs). rewrite wrap64_small by lia. split_and!; cbn.
  - intros x. rewrite occ_cons. destruct (decide (l = x)) as [<-|Hx].
    + rewrite lookup_insert_eq. cbn. lia.
    + rewrite lookup_insert_ne by done. apply (Hocc x).
  - intros x Hx. apply Hnext. destruct (decide (l = x)) as [<-|]; [by eexists|].
    by rewrite lookup_insert_ne in Hx.
  - rewrite map_size_insert, Ht. done.
Qed.

Lemma remove_existing_spec l ls :
  NoDup ls -> l ∈ ls ->
  exists ls', remove_existing l ls = Ret ls' /\ NoDup ls' /\ ls ≡ₚ l :: ls' /\
    forall x, x ∈ ls' <-> x ∈ ls /\ x <> l.
Proof.
  intros Hnd Hl. unfold remove_existing. rewrite bool_decide_true by done.
  eexists. split; [done|]. assert (Hm : forall x, x ∈ filter (fun x => x <> l) ls <-> x ∈ ls /\ x <> l).
  { intros x. rewrite list_elem_of_filter. tauto. }
  split_and!; [by apply NoDup_filter| |done].
  apply NoDup_Permutation; [done|..].
  - constructor; [|by apply NoDup_filter]. rewrite Hm. tauto.
  - intros x. rewrite elem_of_cons, Hm. destruct (decide (x = l)) as [->|]; tauto.
Qed.

Definition older (w : world) (age : Z) (l : loc) : Prop :=
  exists t, w_heap w !! l = Some t /\ node_older_than t age = true.

Lemma older_keeps w w' age l t :
  keeps w w' -> w_heap w' !! l = Some t -> (older w' age l <-> older w age l).
Proof.
  intros Hk Hl. destruct (Hk l t Hl) as (t0 & H0 & _ & Hts). unfold older, node_older_than.
  rewrite Hl, H0. split; intros (t1 & [= <-] & Ho); eexists; (split; [done|]).
  - by rewrite <- Hts.
  - by rewrite Hts.
Qed.

(** The members left by a purge whose first node [l] is removed, or kept. *)
Lemma purged_members (P Q : loc -> Prop) (A A' B nodes : list loc) l :
  (forall x, x ∈ A' <-> x ∈ A /\ x <> l) ->
  (forall x, x ∈ B <-> x ∈ A' /\ ~ (x ∈ nodes /\ Q x)) -> P l ->
  (forall x, x ∈ A' -> Q x <-> P x) ->
  forall x, x ∈ B <-> x ∈ A /\ ~ (x ∈ l :: nodes /\ P x).
Proof.
  intros HA HB Hl HP x. rewrite HB, elem_of_cons. split.
  - intros [Hx Hno]. pose proof (HP x Hx). apply HA in Hx as [Hx Hne]. tauto.
  - intros [Hx Hno]. assert (x <> l) by (intros ->; tauto).
    assert (Hx' : x ∈ A') by (by apply HA). pose proof (HP x Hx'). tauto.
Qed.

Lemma kept_members (P : loc -> Prop) (A B nodes : list loc) l :
  (forall x, x ∈ B <-> x ∈ A /\ ~ (x ∈ nodes /\ P x)) -> ~ P l ->
  forall x, x ∈ B <-> x ∈ A /\ ~ (x ∈ l :: nodes /\ P x).
Proof.
  intros HB Hl x. rewrite HB, elem_of_cons. split; intros [Hx Hno]; (split; [done|]); [|tauto].
  intros [[->|Hxn] Hp]; tauto.
Qed.

Lemma purge_nodes_spec nodes db w age ext :
  NoDup nodes -> NoDup (db_table db) -> NoDup (db_lru db) ->
  nodes ⊆ db_lru db -> db_lru db ⊆ db_table db ->
  heap_inv w (db_table db ++ ext) -> zlen (db_table db ++ ext) < 2 ^ 63 ->
  exists db' w', purge_nodes nodes db w age = Ret (db', w') /\
    heap_inv w' (db_table db' ++ ext) /\ NoDup (db_table db') /\ NoDup (db_lru db') /\
    (forall x, x ∈ db_table db' <-> x ∈ db_table db /\ ~ (x ∈ nodes /\ older w age x)) /\
    (forall x, x ∈ db_lru db' <-> x ∈ db_lru db /\ ~ (x ∈ nodes /\ older w age x)) /\
    keeps w w'.
Proof.
  revert db w. induction nodes as [|l nodes IH]; intros db w Hnd Hndt Hndl Hsub1 Hsub2 Hinv Hb.
  { exists db, w. split_and!; try done; set_solver. }
  apply NoDup_cons in Hnd as [Hl Hnd].
  destruct (heap_inv_live w _ l Hinv) as [t Ht]; [set_solver|].
  cbn [purge_nodes]. unfold get_obj. rewrite Ht. cbn [mbind outcome_bind].
  destruct (node_older_than t age) eqn:Hold.
  - destruct (remove_existing_spec l (db_table db) Hndt) as (table & -> & Hnt & Hpt & Hmt);
      [set_solver|]. cbn [mbind outcome_bind].
    destruct (remove_existing_spec l (db_lru db) Hndl) as (lru & -> & Hnl & Hpl & Hml);
      [set_solver|]. cbn [mbind outcome_bind].
    rewrite Hpt in Hinv. cbn [app] in Hinv.
    assert (Hb' : zlen (table ++ ext) < 2 ^ 63).
    { rewrite zlen_app in *. apply Permutation_length in Hpt. unfold zlen in *. cbn in Hpt. lia. }
    destruct (topic_decref_spec w l (table ++ ext) Hinv Hb') as (w1 & -> & Hinv1 & Hk1 & _).
    cbn [mbind outcome_bind].
    destruct (IH (mkdb table lru) w1) as (db' & w' & -> & Hi' & Hn1 & Hn2 & Hm1 & Hm2 & Hk2);
      cbn [db_table db_lru]; try done.
    { intros x Hx. apply Hml. split; [set_solver|]. by intros ->. }
    { intros x [Hx Hne]%Hml. apply Hmt. split; [by apply Hsub2|done]. }
    cbn [db_table db_lru] in *.
    assert (Hold' : forall x, x ∈ table -> older w1 age x <-> older w age x).
    { intros x Hx. destruct (heap_inv_live w1 _ x Hinv1) as [tx Htx]; [set_solver|].
      by eapply older_keeps. }
    assert (Hlold : older w age l) by (by exists t).
    exists db', w'. split_and!; try done.
    + apply (purged_members (older w age) (older w1 age) _ table); [done..|].
      intros x Hx. by apply Hold'.
    + apply (purged_members (older w age) (older w1 age) _ lru); [done..|].
      intros x [Hx Hne]%Hml. apply Hold', Hmt. split; [by apply Hsub2|done].
    + by transitivity w1.
  - destruct (IH db w) as (db' & w' & -> & Hi' & Hn1 & Hn2 & Hm1 & Hm2 & Hk2); try done.
    { set_solver. }
    assert (Hlnot : ~ older w age l) by (intros (t' & Ht' & Ho); congruence).
    exists db', w'. split_and!; try done.
    + by apply kept_members.
    + by apply kept_members.
Qed.

(** ** The abstract database

    From the outside, the database is a map from topic names to the last time
    they were asked for. *)

Definition lru_touch (name : bytes) (now : Z) (m : gmap bytes Z) : gmap bytes Z :=
  <[name := now]> (filter (fun e => now - topic_live_time_s <= e.2) m).

Definition tname (w : world) (l : loc) : option bytes :=
  (fun t => rd_kafka_topic_name (t_rkt t)) <$> w_heap w !! l.

Lemma tname_rkt w l name : tname w l = Some name ->
  exists r, topics_db_get_rdkafka_topic w l = Ret r /\ rd_kafka_topic_name r = name.
Proof.
  unfold tname, topics_db_get_rdkafka_topic, get_obj. destruct (w_heap w !! l) as [t|]; [|done].
  cbn. intros [= <-]. by eexists.
Qed.

Definition entry (w : world) (l : loc) (name : bytes) (ts : Z) : Prop :=
  exists t, w_heap w !! l = Some t /\ rd_kafka_topic_name (t_rkt t) = name /\ t_timestamp t = ts.

Definition db_abs (w : world) (table : list loc) (m : gmap bytes Z) : Prop :=
  forall name ts, m !! name = Some ts <-> exists l, l ∈ table /\ entry w l name ts.

Definition unique_names (w : world) (table : list loc) : Prop :=
  forall l1 l2, l1 ∈ table -> l2 ∈ table -> tname w l1 = tname w l2 -> l1 = l2.

(** The database is well formed, and [ext] are the references to handlers that
    others have. *)
Definition db_ok (db : topics_db) (w : world) (ext : list loc) : Prop :=
  NoDup (db_table db) /\ db_lru db ≡ₚ db_table db /\
  heap_inv w (db_table db ++ ext) /\ unique_names w (db_table db).

Lemma keeps_tname w w' l : keeps w w' -> is_Some (w_heap w' !! l) -> tname w' l = tname w l.
Proof.
  intros Hk [t Ht]. destruct (Hk l t Ht) as (t0 & H0 & E & _). unfold tname.
  rewrite Ht, H0. cbn. by rewrite E.
Qed.

Lemma entry_tname w l name ts : entry w l name ts -> tname w l = Some name.
Proof. intros (t & Ht & <- & _). unfold tname. by rewrite Ht. Qed.

Lemma db_abs_keeps w w1 table m :
  keeps w w1 -> (forall l, l ∈ table -> is_Some (w_heap w1 !! l)) ->
  db_abs w table m -> db_abs w1 table m.
Proof.
  intros Hk Hlive Habs n ts. rewrite (Habs n ts). apply exist_proper. intros l.
  split; intros [Hl (t & Ht & <- & <-)]; (split; [done|]).
  - destruct (Hlive l Hl) as [t1 Ht1]. destruct (Hk l t1 Ht1) as (t' & Ht' & E & F).
    rewrite Ht in Ht'. injection Ht' as <-. exists t1. by rewrite E, F.
  - destruct (Hk l t Ht) as (t' & Ht' & E & F). exists t'. by rewrite E, F.
Qed.

Lemma table_search_spec w table name refs :
  heap_inv w refs -> table ⊆ refs ->
  exists r, table_search w table name = Ret r /\
    match r with
    | Some l => l ∈ table /\ tname w l = Some name
    | None => forall l, l ∈ table -> tname w l <> Some name
    end.
Proof.
  intros Hinv. induction table as [|l table IH]; intros Hsub.
  { exists None. split; [done|]. by intros l ?%not_elem_of_nil. }
  destruct (heap_inv_live w _ l Hinv) as [t Ht]; [set_solver|].
  destruct IH as (r & Hr & Hspec); [set_solver|].
  assert (Hn : tname w l = Some (rd_kafka_topic_name (t_rkt t))) by (unfold tname; by rewrite Ht).
  cbn [table_search]. unfold get_obj, topics_cmp. rewrite Ht. cbn [mbind outcome_bind].
  case_bool_decide as E.
  - exists (Some l). split; [done|]. split; [by left|]. by rewrite Hn, E.
  - exists r. split; [done|]. destruct r as [l'|].
    + destruct Hspec. split; [by right|done].
    + intros l' [->|]%elem_of_cons; [|by apply Hspec]. rewrite Hn. congruence.
Qed.


(** Purging a table and touching [ret] is [lru_touch] on the abstract map. *)
Lemma touch_abs table table' w w1 ret t now name m w2 :
  unique_names w table -> ret ∈ table' -> tname w ret = Some name ->
  (forall n ts, n <> name -> (m !! n = Some ts <-> exists l, l ∈ table /\ entry w l n ts)) ->
  (forall l, l ∈ table' <->
     l ∈ table /\ ~ (l <> ret /\ older w (now - topic_live_time_s) l)) ->
  keeps w w1 -> (forall l, l ∈ table' -> is_Some (w_heap w1 !! l)) ->
  (forall l, w_heap w2 !! l = if decide (ret = l) then Some t else w_heap w1 !! l) ->
  (forall l, l ∈ table' -> tname w2 l = tname w l) -> t_timestamp t = now ->
  db_abs w2 table' (lru_touch name now m).
Proof.
  intros Huniq Hret Hname Hm Ht' Hk Hlive Hw2 Htn Hts n ts. unfold lru_touch.
  destruct (decide (n = name)) as [->|Hne].
  - rewrite lookup_insert_eq. split.
    + intros [= <-]. exists ret. split; [done|]. specialize (Htn ret Hret).
      unfold tname in Htn at 1. exists t. rewrite Hw2, decide_True in * by done.
      rewrite Hname in Htn. cbn in Htn. split_and!; congruence.
    + intros (l & Hl & He). assert (l = ret) as ->.
      { apply entry_tname in He. rewrite Htn, <- Hname in He by done.
        apply Huniq; [by apply Ht' in Hl as []|by apply Ht' in Hret as []|done]. }
      destruct He as (t' & Ht & _ & <-). rewrite Hw2, decide_True in Ht by done. congruence.
  - rewrite lookup_insert_ne, map_lookup_filter_Some by done. cbn. rewrite Hm by done. split.
    + intros [(l & Hl & He) Hge]. exists l.
      assert (l <> ret) by (intros ->; apply entry_tname in He; congruence).
      destruct He as (t0 & Ht0 & <- & <-).
      assert (Hl' : l ∈ table').
      { apply Ht'. split; [done|]. intros (_ & t1 & Ht1 & Ho). unfold node_older_than in Ho.
        rewrite Ht0 in Ht1. injection Ht1 as <-. lia. }
      split; [done|]. destruct (Hlive l Hl') as [tl Htl].
      destruct (Hk l tl Htl) as (t0' & Ht0' & E & F). rewrite Ht0 in Ht0'. injection Ht0' as <-.
      exists tl. rewrite Hw2, decide_False by done. by rewrite E, F.
    + intros (l & Hl & He).
      assert (l <> ret) by (intros ->; apply entry_tname in He; rewrite Htn in He; congruence).
      destruct He as (tl & Htl & <- & <-). rewrite Hw2, decide_False in Htl by done.
      destruct (Hk l tl Htl) as (t0 & Ht0 & E & F). apply Ht' in Hl as [Hl Hno].
      split; [exists l; split; [done|]; exists t0; by rewrite E, F|].
      rewrite F. destruct (decide (now - topic_live_time_s <= t_timestamp t0)); [done|].
      exfalso. apply Hno. split; [done|]. exists t0. split; [done|]. unfold node_older_than. lia.
Qed.

(** What the code from [rkt_found] on does to a table in which [ret], the
    handler of [name], is not in the LRU list. *)
Lemma rkt_found_spec table lru w ret now name ext m :
  NoDup table -> ret :: lru ≡ₚ table -> heap_inv w (table ++ ext) -> unique_names w table ->
  tname w ret = Some name -> zlen (table ++ ext) < 2 ^ 63 - 1 ->
  (forall n ts, n <> name -> (m !! n = Some ts <-> exists l, l ∈ table /\ entry w l n ts)) ->
  exists db' w', rkt_found (mkdb table lru) w ret now = Ret (db', w') /\
    db_ok db' w' (ret :: ext) /\ db_abs w' (db_table db') (lru_touch name now m) /\
    db_table db' ⊆ table /\ zlen (db_table db') <= zlen table /\
    (forall l, l ∈ db_table db' ++ ret :: ext -> tname w' l = tname w l).
Proof.
  intros Hnd Hperm Hinv Huniq Hname Hb Hm.
  assert (Hnd' : NoDup (ret :: lru)) by (by rewrite Hperm).
  apply NoDup_cons in Hnd' as [Hret Hndl].
  assert (Hret' : ret ∈ table) by (rewrite <- Hperm; by left).
  assert (Hlru : forall x, x ∈ lru <-> x ∈ table /\ x <> ret).
  { intros x. rewrite <- Hperm, elem_of_cons. split; [|tauto].
    intros Hx. split; [by right|]. by intros ->. }
  unfold rkt_found, purge_topics_older_than. cbn [db_lru].
  destruct (purge_nodes_spec lru (mkdb table lru) w (now - topic_live_time_s) ext)
    as ([table' lru'] & w1 & -> & Hinv1 & Hn1 & Hn2 & Hm1 & Hm2 & Hk); cbn [db_table db_lru] in *;
    try done; [by intros x [? _]%Hlru|lia|].
  cbn [mbind outcome_bind].
  assert (Hret1 : ret ∈ table') by (apply Hm1; split; [done|]; by intros [??]).
  assert (Hsub : table' ⊆ table) by (intros x Hx; by apply Hm1 in Hx as []).
  assert (Hlen : zlen table' <= zlen table).
  { unfold zlen. by apply inj_le, submseteq_length, NoDup_submseteq. }
  assert (Hlive : forall l, l ∈ table' ++ ret :: ext -> is_Some (w_heap w1 !! l)).
  { intros l Hl. apply (heap_inv_live w1 _ l Hinv1). rewrite elem_of_app, elem_of_cons in *.
    destruct Hl as [?|[->|?]]; auto. }
  destruct (Hlive ret) as [t Ht]; [apply elem_of_app; by left|].
  unfold get_obj. rewrite Ht. cbn [mbind outcome_bind].
  eexists _, _. split; [reflexivity|]. cbn [db_table db_lru].
  assert (Hinv2 := incref_spec w1 ret _ t now Hinv1 Ht ltac:(zlia)).
  rewrite Permutation_middle in Hinv2.
  set (w2 := set_obj w1 ret _) in *. set (t2 := mktopic _ _ _) in w2.
  assert (Hw2 : forall l, w_heap w2 !! l = if decide (ret = l) then Some t2 else w_heap w1 !! l).
  { intros l. cbn. case_decide; subst; [by rewrite lookup_insert_eq|by rewrite lookup_insert_ne]. }
  assert (Htn : forall l, l ∈ table' ++ ret :: ext -> tname w2 l = tname w l).
  { intros l Hl. rewrite <- (keeps_tname w w1 l Hk) by auto.
    unfold tname. rewrite Hw2. case_decide; subst; [|done]. by rewrite Ht. }
  assert (Htn' : forall l, l ∈ table' -> tname w2 l = tname w l).
  { intros l Hl. apply Htn, elem_of_app. by left. }
  split_and!; try done.
  - split_and!; cbn [db_table db_lru]; try done.
    + apply NoDup_Permutation; [|done|].
      * apply NoDup_app. split_and!; [done| |by apply NoDup_singleton].
        intros x Hx ->%list_elem_of_singleton. by apply Hm2 in Hx as [? _].
      * intros x. rewrite elem_of_app, list_elem_of_singleton, Hm1, Hm2, Hlru.
        destruct (decide (x = ret)) as [->|]; tauto.
    + intros l1 l2 H1 H2 E. rewrite !Htn' in E by done. by apply Huniq; [apply Hsub..|].
  - apply (touch_abs table table' w w1 ret t2 now name m w2); try done.
    + intros l. rewrite Hm1, Hlru. tauto.
    + intros l Hl. apply Hlive, elem_of_app. by left.
Qed.

(** The name of a handler in the table is known to the abstract database. *)
Lemma db_abs_known w table m l name :
  db_abs w table m -> l ∈ table -> tname w l = Some name -> is_Some (m !! name).
Proof.
  intros Habs Hl Hn. unfold tname in Hn. destruct (w_heap w !! l) as [t|] eqn:Ht; [|done].
  exists (t_timestamp t). apply Habs. exists l. split; [done|]. exists t.
  cbn in Hn. split_and!; congruence.
Qed.

Lemma get_topic_begin_spec db w topic now ext m :
  db_ok db w ext -> zlen (db_table db ++ ext) < 2 ^ 63 - 1 -> db_abs w (db_table db) m ->
  exists r db' w', get_topic_begin db w topic now = Ret (r, db', w') /\
    match r with
    | Some ret => is_Some (m !! topic) /\ ret ∈ db_table db /\ tname w' ret = Some topic /\
        db_ok db' w' (ret :: ext) /\ db_abs w' (db_table db') (lru_touch topic now m) /\
        db_table db' ⊆ db_table db /\ zlen (db_table db') <= zlen (db_table db) /\
        (forall l, l ∈ db_table db' ++ ret :: ext -> tname w' l = tname w l)
    | None => m !! topic = None /\ db' = db /\ w' = w
    end.
Proof.
  intros (Hnd & Hperm & Hinv & Huniq) Hb Habs. unfold get_topic_begin.
  destruct (table_search_spec w (db_table db) topic _ Hinv) as (r & -> & Hr); [set_solver|].
  cbn [mbind outcome_bind]. destruct r as [ret|].
  - destruct Hr as [Hret Hname]. destruct (remove_existing_spec ret (db_lru db))
      as (lru & -> & Hnl & Hpl & _); [by rewrite Hperm|by rewrite Hperm|].
    cbn [mbind outcome_bind].
    destruct (rkt_found_spec (db_table db) lru w ret now topic ext m)
      as (db' & w' & -> & Hok & Habs' & Hsub & Hlen & Htn); try done.
    { by rewrite <- Hpl. }
    cbn [mbind outcome_bind]. exists (Some ret), db', w'. split_and!; try done.
    + by apply (db_abs_known w (db_table db) m ret).
    + rewrite Htn; [done|]. apply elem_of_app. right. by left.
  - exists None, db, w. split_and!; try done. apply eq_None_not_Some. intros [ts Hts].
    apply Habs in Hts as (l & Hl & He). apply entry_tname in He. by eapply Hr.
Qed.

(** What [get_topic_finish] does: the handler it returns, the database and the heap. *)
Definition finished (db : topics_db) (w : world) (topic : bytes) (now : Z) (new : loc) (ext : list loc)
    (m : gmap bytes Z) (ret : loc) (db' : topics_db) (w' : world) : Prop :=
  (ret = new \/ ret ∈ db_table db) /\ (m !! topic = None -> ret = new) /\
  tname w' ret = Some topic /\
  db_ok db' w' (ret :: ext) /\ db_abs w' (db_table db') (lru_touch topic now m) /\
  db_table db' ⊆ new :: db_table db /\ zlen (db_table db') <= 1 + zlen (db_table db) /\
  (forall l, l ∈ db_table db' ++ ret :: ext -> tname w' l = tname w l).

(** Another thread has added the topic in between. *)
Lemma finish_known db w topic now new ext m aux :
  db_ok db w (new :: ext) -> zlen (db_table db ++ new :: ext) < 2 ^ 63 - 1 -> db_abs w (db_table db) m ->
  aux ∈ db_table db -> tname w aux = Some topic ->
  exists db' w', (w1 ← topic_decref w new;
      lru ← remove_existing aux (db_lru db);
      '(db', w') ← rkt_found (mkdb (db_table db) lru) w1 aux now;
      Ret (aux, db', w')) = Ret (aux, db', w') /\ finished db w topic now new ext m aux db' w'.
Proof.
  intros (Hnd & Hperm & Hinv & Huniq) Hb Habs Haux Hnaux.
  assert (Hm : is_Some (m !! topic)) by (by apply (db_abs_known w (db_table db) m aux)).
  rewrite <- Permutation_middle in Hinv. rewrite <- Permutation_middle, zlen_cons in Hb.
  destruct (topic_decref_spec w new _ Hinv ltac:(lia)) as (w1 & -> & Hinv1 & Hk & _).
  cbn [mbind outcome_bind]. destruct (remove_existing_spec aux (db_lru db))
    as (lru & -> & Hnl & Hpl & _); [by rewrite Hperm|by rewrite Hperm|].
  cbn [mbind outcome_bind].
  assert (Htn1 : forall l, l ∈ db_table db ++ ext -> tname w1 l = tname w l).
  { intros l Hl. apply keeps_tname; [done|]. by apply (heap_inv_live w1 _ l Hinv1). }
  destruct (rkt_found_spec (db_table db) lru w1 aux now topic ext m)
    as (db' & w' & -> & Hok & Habs' & Hsub & Hlen & Htn); try done.
  { by rewrite <- Hpl. }
  { intros l1 l2 H1 H2. rewrite !Htn1 by (apply elem_of_app; by left). by apply Huniq. }
  { rewrite Htn1; [done|]. apply elem_of_app. by left. }
  { lia. }
  { intros n ts _. apply (db_abs_keeps w w1 (db_table db) m); [done| |done].
    intros l Hl. apply (heap_inv_live w1 _ l Hinv1), elem_of_app. by left. }
  cbn [mbind outcome_bind]. exists db', w'. split; [done|]. unfold finished. split_and!; try done.
  - by right.
  - intros E. destruct Hm as [? Hm]. congruence.
  - rewrite Htn; [rewrite Htn1; [done|]; set_solver|set_solver].
  - set_solver.
  - lia.
  - intros l Hl. rewrite Htn by done. apply Htn1. set_solver.
Qed.

(** The new handler is added. *)
Lemma finish_new db w topic now new ext m :
  db_ok db w (new :: ext) -> new ∉ db_table db -> tname w new = Some topic ->
  zlen (db_table db ++ new :: ext) < 2 ^ 63 - 1 -> db_abs w (db_table db) m ->
  (forall l, l ∈ db_table db -> tname w l <> Some topic) ->
  exists db' w', ('(db', w') ← rkt_found (mkdb (db_table db ++ [new]) (db_lru db)) w new now;
      Ret (new, db', w')) = Ret (new, db', w') /\ finished db w topic now new ext m new db' w'.
Proof.
  intros (Hnd & Hperm & Hinv & Huniq) Hnew Hname Hb Habs Hr.
  assert (Hinv' : heap_inv w ((db_table db ++ [new]) ++ ext)) by (by rewrite <- app_assoc).
  assert (Hunew : forall l, l ∈ db_table db -> tname w l = tname w new -> False).
  { intros l Hl E. apply (Hr l Hl). by rewrite E. }
  destruct (rkt_found_spec (db_table db ++ [new]) (db_lru db) w new now topic ext m)
    as (db' & w' & -> & Hok & Habs' & Hsub & Hlen & Htn); try done.
  { apply NoDup_app. split_and!; [done|set_solver|by apply NoDup_singleton]. }
  { by rewrite Hperm, Permutation_app_comm. }
  { intros l1 l2 [H1| ->%list_elem_of_singleton]%elem_of_app
      [H2| ->%list_elem_of_singleton]%elem_of_app E; [by apply Huniq| | |done].
    - by destruct (Hunew l1).
    - by destruct (Hunew l2). }
  { zlia. }
  { intros n ts Hne. rewrite (Habs n ts). apply exist_proper. intros l.
    rewrite elem_of_app, list_elem_of_singleton. split; [tauto|].
    intros [[?| ->] He]; [done|]. apply entry_tname in He. congruence. }
  cbn [mbind outcome_bind]. exists db', w'. split; [done|]. unfold finished. split_and!; try done.
  - by left.
  - rewrite Htn; [done|]. apply elem_of_app. right. by left.
  - set_solver.
  - zlia.
Qed.

Lemma get_topic_finish_spec db w topic now new ext m :
  db_ok db w (new :: ext) -> new ∉ db_table db -> tname w new = Some topic ->
  zlen (db_table db ++ new :: ext) < 2 ^ 63 - 1 -> db_abs w (db_table db) m ->
  exists ret db' w', get_topic_finish db w topic now new = Ret (ret, db', w') /\
    finished db w topic now new ext m ret db' w'.
Proof.
  intros Hok Hnew Hname Hb Habs. pose proof Hok as (_ & _ & Hinv & _). unfold get_topic_finish.
  destruct (table_search_spec w (db_table db) topic _ Hinv) as (r & -> & Hr); [set_solver|].
  cbn [mbind outcome_bind]. destruct r as [aux|].
  - destruct Hr as [Haux Hnaux].
    destruct (finish_known db w topic now new ext m aux) as (db' & w' & Hd & Hf); try done.
    by exists aux, db', w'.
  - destruct (finish_new db w topic now new ext m) as (db' & w' & Hd & Hf); try done.
    by exists new, db', w'.
Qed.

(** ** Every interleaving *)

Definition sys_refs (s : system) : list loc :=
  db_table (sys_db s) ++ (sys_held s).*1 ++ (sys_created s).*1.

Definition sys_inv (s : system) : Prop :=
  db_ok (sys_db s) (sys_world s) ((sys_held s).*1 ++ (sys_created s).*1) /\
  NoDup (sys_created s).*1 /\
  (forall l name, (l, name) ∈ sys_created s ->
     (l ∉ db_table (sys_db s)) /\ tname (sys_world s) l = Some name) /\
  (forall l name, (l, name) ∈ sys_held s -> tname (sys_world s) l = Some name).

Definition sys_abs (s : system) (m : gmap bytes Z) : Prop :=
  db_abs (sys_world s) (db_table (sys_db s)) m.

(** What an action does to the abstract map. *)
Definition lru_step (a : db_action) (s : system) (m : gmap bytes Z) : gmap bytes Z :=
  match a with
  | ActBegin topic now => match m !! topic with Some _ => lru_touch topic now m | None => m end
  | ActFinish now i =>
      match sys_created s !! i with Some (_, topic) => lru_touch topic now m | None => m end
  | ActCreate _ _ | ActRelease _ => m
  end.

Lemma fst_elem (l : loc) (n : bytes) (ls : list (loc * bytes)) : (l, n) ∈ ls -> l ∈ ls.*1.
Proof. intros H. apply list_elem_of_fmap. by exists (l, n). Qed.

Lemma sys_step_begin s topic now m :
  sys_inv s -> sys_abs s m -> zlen (sys_refs s) < 2 ^ 63 - 1 ->
  exists s', sys_step (ActBegin topic now) s = Ret s' /\ sys_inv s' /\
    sys_abs s' (lru_step (ActBegin topic now) s m) /\ zlen (sys_refs s') <= 1 + zlen (sys_refs s).
Proof.
  intros (Hok & Hnd & Hcr & Hheld) Habs Hb. cbn [sys_step].
  destruct (get_topic_begin_spec (sys_db s) (sys_world s) topic now _ m Hok)
    as (r & db' & w' & -> & Hr); [done|done|].
  cbn [mbind outcome_bind]. eexists. split; [done|]. unfold sys_inv, sys_abs, sys_refs in *.
  cbn [sys_db sys_world sys_held sys_created lru_step]. destruct r as [ret|].
  - destruct Hr as ([ts ->] & Hret & Hnret & Hok' & Habs' & Hsub & Hlen & Htn).
    cbn [fmap list_fmap fst app] in *. split_and!; try done.
    + intros l name Hl. destruct (Hcr l name Hl) as [Hl1 Hl2]. split; [set_solver|].
      rewrite Htn; [done|]. apply fst_elem in Hl. set_solver.
    + intros l name [[= -> ->]|Hl]%elem_of_cons; [done|]. rewrite Htn; [by apply Hheld|].
      apply fst_elem in Hl. set_solver.
    + zlia.
  - destruct Hr as (-> & -> & ->). split_and!; try done. lia.
Qed.

Lemma delete_perm {A} (ls : list A) i x : ls !! i = Some x -> ls ≡ₚ x :: delete i ls.
Proof. apply delete_Permutation. Qed.

Lemma sys_step_finish s now i m :
  sys_inv s -> sys_abs s m -> zlen (sys_refs s) < 2 ^ 63 - 1 ->
  exists s', sys_step (ActFinish now i) s = Ret s' /\ sys_inv s' /\
    sys_abs s' (lru_step (ActFinish now i) s m) /\ zlen (sys_refs s') <= 1 + zlen (sys_refs s).
Proof.
  intros Hinv Habs Hb. cbn [sys_step lru_step].
  destruct (sys_created s !! i) as [[new topic]|] eqn:Ei.
  2:{ exists s. split_and!; try done. lia. }
  destruct Hinv as (Hok & Hnd & Hcr & Hheld).
  pose proof (delete_perm _ _ _ Ei) as Hp. set (rest := delete i (sys_created s)) in *.
  assert (Hp1 : (sys_created s).*1 ≡ₚ new :: rest.*1) by (by rewrite Hp).
  rewrite Hp1 in Hnd. apply NoDup_cons in Hnd as [Hnew Hnd].
  destruct (Hcr new topic) as [Hn1 Hn2]; [by apply list_elem_of_lookup_2 in Ei|].
  assert (Hpe : (sys_held s).*1 ++ (sys_created s).*1 ≡ₚ new :: (sys_held s).*1 ++ rest.*1).
  { rewrite Hp1. by rewrite Permutation_middle. }
  unfold sys_refs in Hb. rewrite Hpe in Hb.
  destruct (get_topic_finish_spec (sys_db s) (sys_world s) topic now new
    ((sys_held s).*1 ++ rest.*1) m) as (ret & db' & w' & -> & Hr & _ & Hnret & Hok' & Habs' & Hsub & Hlen & Htn);
    try done.
  { destruct Hok as (?&?&Hi&?). split_and!; try done. by rewrite <- Hpe. }
  cbn [mbind outcome_bind]. eexists. split; [done|]. unfold sys_inv, sys_abs, sys_refs in *.
  cbn [sys_db sys_world sys_held sys_created lru_step]. cbn [fmap list_fmap fst app] in *.
  split_and!; try done.
  - intros l name Hl. assert (Hl' : (l, name) ∈ sys_created s) by (rewrite Hp; by right).
    destruct (Hcr l name Hl') as [Hl1 Hl2]. apply fst_elem in Hl. split; [set_solver|].
    rewrite Htn; [done|]. set_solver.
  - intros l name [[= -> ->]|Hl]%elem_of_cons; [done|]. rewrite Htn; [by apply Hheld|].
    apply fst_elem in Hl. set_solver.
  - rewrite Hpe. zlia.
Qed.

(** A new handler changes nothing for the database. *)
Lemma new_topic_db ok db w topic ext m l w' :
  db_ok db w ext -> db_abs w (db_table db) m -> new_topic_s ok w topic = (Some l, w') ->
  db_ok db w' (l :: ext) /\ db_abs w' (db_table db) m /\ tname w' l = Some topic /\
  (l ∉ db_table db ++ ext) /\ (forall x, x <> l -> tname w' x = tname w x).
Proof.
  intros (Hnd & Hlru & Hinv & Huniq) Habs E.
  pose proof (new_topic_spec ok w topic _ Hinv) as Hnew. rewrite E in Hnew.
  destruct Hnew as (Hinv' & Hl & Hnone & r & Hr & Hw').
  assert (Hlk : forall x, x <> l -> w_heap w' !! x = w_heap w !! x).
  { intros x Hx. by rewrite Hw', lookup_insert_ne. }
  assert (Htn : forall x, x <> l -> tname w' x = tname w x).
  { intros x Hx. unfold tname. by rewrite Hlk. }
  split_and!; try done.
  - split_and!; try done; [by rewrite <- Permutation_middle|].
    intros l1 l2 H1 H2. rewrite !Htn by set_solver. by apply Huniq.
  - intros name ts. rewrite (Habs name ts). apply exist_proper. intros x. unfold entry.
    split; intros [Hx He]; (split; [done|]); revert He; rewrite Hlk; try done; set_solver.
  - unfold tname. by rewrite Hw', lookup_insert_eq, <- Hr.
Qed.

Lemma sys_step_create s ok topic m :
  sys_inv s -> sys_abs s m ->
  exists s', sys_step (ActCreate ok topic) s = Ret s' /\ sys_inv s' /\ sys_abs s' m /\
    zlen (sys_refs s') <= 1 + zlen (sys_refs s).
Proof.
  intros (Hok & Hnd & Hcr & Hheld) Habs. cbn [sys_step].
  pose proof (new_topic_spec ok (sys_world s) topic _ (proj1 (proj2 (proj2 Hok)))) as Hnone.
  destruct (new_topic_s ok (sys_world s) topic) as [[l|] w'] eqn:E.
  2:{ subst w'. eexists. split; [done|]. split_and!; try done. unfold sys_refs. cbn. lia. }
  clear Hnone. destruct (new_topic_db ok _ _ topic _ m l w' Hok Habs E)
    as (Hok' & Habs' & Hn & Hl & Htn).
  eexists. split; [done|]. unfold sys_inv, sys_abs, sys_refs, db_ok in *.
  cbn [sys_db sys_world sys_held sys_created fmap list_fmap fst app].
  destruct Hok' as (?&?&Hinv'&?). rewrite !elem_of_app in Hl. split_and!; try done.
  - by rewrite <- (Permutation_middle (sys_held s).*1).
  - apply NoDup_cons. split; [tauto|done].
  - intros x name [[= -> ->]|Hx]%elem_of_cons; [split; [tauto|done]|].
    destruct (Hcr x name Hx). rewrite Htn; [done|]. apply fst_elem in Hx. set_solver.
  - intros x name Hx. rewrite Htn; [by apply Hheld|]. apply fst_elem in Hx. set_solver.
  - zlia.
Qed.

Lemma sys_step_release s i m :
  sys_inv s -> sys_abs s m -> zlen (sys_refs s) < 2 ^ 63 - 1 ->
  exists s', sys_step (ActRelease i) s = Ret s' /\ sys_inv s' /\ sys_abs s' m /\
    zlen (sys_refs s') <= zlen (sys_refs s).
Proof.
  intros Hinv Habs Hb. cbn [sys_step]. destruct (sys_held s !! i) as [[l name]|] eqn:Ei.
  2:{ exists s. split_and!; try done; lia. }
  destruct Hinv as (Hok & Hnd & Hcr & Hheld).
  pose proof (delete_perm _ _ _ Ei) as Hp. set (rest := delete i (sys_held s)) in *.
  assert (Hpe : sys_refs s ≡ₚ l :: db_table (sys_db s) ++ rest.*1 ++ (sys_created s).*1).
  { unfold sys_refs. rewrite Hp. cbn. by rewrite <- Permutation_middle. }
  rewrite Hpe in Hb. destruct Hok as (Hndt & Hlru & Hi & Huniq).
  fold (sys_refs s) in Hi. rewrite Hpe in Hi.
  destruct (topic_decref_spec (sys_world s) l _ Hi ltac:(zlia)) as (w' & -> & Hinv' & Hk & _).
  cbn [mbind outcome_bind]. eexists. split; [done|].
  assert (Htn : forall x, x ∈ db_table (sys_db s) ++ rest.*1 ++ (sys_created s).*1 ->
     tname w' x = tname (sys_world s) x).
  { intros x Hx. apply keeps_tname; [done|]. by apply (heap_inv_live w' _ x Hinv'). }
  assert (Hlen : zlen (sys_refs s) = 1 + zlen (db_table (sys_db s) ++ rest.*1 ++ (sys_created s).*1)).
  { by rewrite Hpe, zlen_cons. }
  unfold sys_inv, sys_abs, db_ok in *. cbn [sys_db sys_world sys_held sys_created].
  split_and!; try done.
  - intros l1 l2 H1 H2. rewrite !Htn by set_solver. by apply Huniq.
  - intros x n Hx. destruct (Hcr x n Hx). rewrite Htn; [done|]. apply fst_elem in Hx. set_solver.
  - intros x n Hx. rewrite Htn; [apply Hheld; rewrite Hp; by right|]. apply fst_elem in Hx. set_solver.
  - apply (db_abs_keeps (sys_world s)); [done| |done]. intros x Hx.
    apply (heap_inv_live w' _ x Hinv'). set_solver.
  - unfold sys_refs at 1. cbn. lia.
Qed.

Lemma sys_step_spec a s m :
  sys_inv s -> sys_abs s m -> zlen (sys_refs s) < 2 ^ 63 - 1 ->
  exists s', sys_step a s = Ret s' /\ sys_inv s' /\ sys_abs s' (lru_step a s m) /\
    zlen (sys_refs s') <= 1 + zlen (sys_refs s).
Proof.
  intros Hinv Habs Hb. destruct a as [topic now|ok topic|now i|i].
  - by apply sys_step_begin.
  - by apply sys_step_create.
  - by apply sys_step_finish.
  - destruct (sys_step_release s i m Hinv Habs Hb) as (s' & ? & ? & ? & ?).
    exists s'. split_and!; try done. lia.
Qed.

Lemma system_init_inv : sys_inv system_init /\ sys_abs system_init ∅.
Proof.
  unfold sys_inv, sys_abs, db_ok, heap_inv. cbn.
  split_and!; try done; try (intros ? ? H; by apply not_elem_of_nil in H); try by constructor.
  - intros l H. rewrite lookup_empty in H. by destruct H.
  - intros name ts. rewrite lookup_empty. split; [done|].
    intros (l & Hl & _). by apply not_elem_of_nil in Hl.
Qed.

Lemma system_init_refs : zlen (sys_refs system_init) = 0.
Proof. done. Qed.

Lemma sys_run_spec acts s m :
  sys_inv s -> sys_abs s m -> zlen (sys_refs s) + zlen acts < 2 ^ 63 ->
  exists s' m', sys_run acts s = Ret s' /\ sys_inv s' /\ sys_abs s' m' /\
    zlen (sys_refs s') <= zlen (sys_refs s) + zlen acts.
Proof.
  revert s m. induction acts as [|a acts IH]; intros s m Hinv Habs Hb.
  { exists s, m. split_and!; try done. zlia. }
  cbn [sys_run]. rewrite zlen_cons in *.
  destruct (sys_step_spec a s m Hinv Habs) as (s1 & -> & Hinv1 & Habs1 & Hlen1); [zlia|].
  destruct (IH s1 _ Hinv1 Habs1) as (s' & m' & Hrun & Hinv' & Habs' & Hlen'); [lia|].
  exists s', m'. split_and!; try done. lia.
Qed.

Lemma decref_all_spec w ls refs :
  heap_inv w (ls ++ refs) -> zlen (ls ++ refs) < 2 ^ 63 ->
  exists w', decref_all w ls = Ret w' /\ heap_inv w' refs.
Proof.
  revert w. induction ls as [|l ls IH]; intros w Hinv Hb; [by exists w|].
  cbn [decref_all app] in *. rewrite zlen_cons in Hb.
  destruct (topic_decref_spec w l (ls ++ refs) Hinv ltac:(lia)) as (w1 & -> & Hinv1 & _).
  cbn [mbind outcome_bind]. apply IH; [done|zlia].
Qed.

Lemma heap_inv_nil w : heap_inv w [] -> w_heap w = ∅ /\ w_rkts w = 0.
Proof.
  intros (Hocc & _ & Hrk). assert (E : w_heap w = ∅).
  { apply map_empty. intros l. specialize (Hocc l). destruct (w_heap w !! l) as [t|]; [|done].
    destruct Hocc as [Hc Hp]. change (occ l []) with 0 in Hc. lia. }
  split; [done|]. by rewrite Hrk, E, map_size_empty.
Qed.
(** Releasing a reference that is not one of the table. *)
Lemma db_ok_release db w l ext :
  db_ok db w (l :: ext) -> zlen (db_table db ++ ext) < 2 ^ 63 ->
  exists w', topic_decref w l = Ret w' /\ db_ok db w' ext /\
    (forall x, x ∈ ext -> tname w' x = tname w x) /\
    (forall m, db_abs w (db_table db) m -> db_abs w' (db_table db) m).
Proof.
  intros (Hnd & Hlru & Hinv & Huniq) Hb. rewrite <- Permutation_middle in Hinv.
  destruct (topic_decref_spec w l _ Hinv Hb) as (w' & -> & Hinv' & Hk & _).
  assert (Hlive : forall x, x ∈ db_table db ++ ext -> is_Some (w_heap w' !! x))
    by (intros x Hx; by apply (heap_inv_live w' _ _ Hinv')).
  exists w'. split; [done|]. split_and!; try done.
  - split_and!; try done. intros l1 l2 H1 H2.
    rewrite !(keeps_tname w w') by (try done; apply Hlive; set_solver). by apply Huniq.
  - intros x Hx. apply keeps_tname; [done|]. apply Hlive. set_solver.
  - intros m Habs. apply (db_abs_keeps w w'); [done| |done]. intros x Hx. apply Hlive. set_solver.
Qed.

Lemma topics_db_get_topic_spec calloc_ok db w topic now ext m :
  db_ok db w ext -> db_abs w (db_table db) m -> zlen (db_table db ++ ext) < 2 ^ 63 - 2 ->
  exists r db' w', topics_db_get_topic calloc_ok db w topic now = Ret (r, db', w') /\
    match r with
    | Some l => tname w' l = Some topic /\ (is_Some (m !! topic) -> l ∈ db_table db) /\
        db_ok db' w' (l :: ext) /\ db_abs w' (db_table db') (lru_touch topic now m) /\
        zlen (db_table db') <= 1 + zlen (db_table db) /\
        (forall x, x ∈ ext -> tname w' x = tname w x)
    | None => m !! topic = None /\ (calloc_ok = false \/ rd_kafka_topic_new topic = None) /\
        db' = db /\ w' = w
    end.
Proof.
  intros Hok Habs Hb. unfold topics_db_get_topic.
  destruct (get_topic_begin_spec db w topic now ext m Hok) as (r & db1 & w1 & -> & Hr);
    [lia|done|].
  cbn [mbind outcome_bind]. destruct r as [l|].
  { destruct Hr as (Hm & Hl & Hn & Hok' & Habs' & _ & Hlen & Htn). exists (Some l), db1, w1.
    split_and!; try done; [lia|]. intros x Hx. apply Htn. set_solver. }
  destruct Hr as (Hm & -> & ->).
  destruct (new_topic_s calloc_ok w topic) as [[l|] w2] eqn:E.
  - destruct (new_topic_db calloc_ok db w topic ext m l w2 Hok Habs E)
      as (Hok2 & Habs2 & Hn & Hl & Hother).
    destruct (get_topic_finish_spec db w2 topic now l ext m Hok2)
      as (ret & db3 & w3 & -> & _ & _ & Hn3 & Hok3 & Habs3 & _ & Hlen & Htn); try done;
      [set_solver|zlia|].
    cbn [mbind outcome_bind]. exists (Some ret), db3, w3. split_and!; try done.
    + rewrite Hm. by intros [? ?].
    + intros x Hx. rewrite Htn by set_solver. apply Hother. set_solver.
  - exists None, db, w2. pose proof (new_topic_spec calloc_ok w topic _ (proj1 (proj2 (proj2 Hok)))) as Hs.
    rewrite E in Hs. split_and!; try done.
    unfold new_topic_s in E. destruct (rd_kafka_topic_new topic); [|by right].
    destruct calloc_ok; [done|by left].
Qed.

End topics.

(** ** Properties *)

(** A librdkafka whose topic creation always works. *)
#[local] Instance name_topics : Rdkafka := {|
  rkt := bytes; rd_kafka_topic_new name := Some name; rd_kafka_topic_name r := r;
  topic_name_new name r H := eq_sym (f_equal (fun o => default [] o) H)
|}.

(** C6: whatever the threads do and however their critical sections interleave,
    no handler is used after it was freed or unlinked twice, every handler a
    thread holds is alive and has the name the thread asked for, the LRU list
    and the hash table hold the same handlers, at most one per name, and each
    counter is the number of references to its handler. *)
Theorem topics_db_threads_safe {rk : Rdkafka} (acts : list db_action) :
  zlen acts < 2 ^ 63 -> exists s, sys_run acts system_init = Ret s /\ sys_inv s.
Proof.
  intros Hb. destruct system_init_inv as [Hi Ha].
  destruct (sys_run_spec acts system_init ∅ Hi Ha) as (s & m & Hrun & Hinv & _); [rewrite system_init_refs; lia|].
  by exists s.
Qed.

Lemma topics_db_threads_safe_witness :
  exists s, sys_run [ActBegin (bs "a") 0; ActCreate true (bs "a"); ActCreate true (bs "a");
    ActFinish 0 0; ActFinish 5 0; ActRelease 0; ActBegin (bs "b") 1000; ActCreate true (bs "b");
    ActFinish 1000 0; ActRelease 0; ActRelease 0] system_init = Ret s /\ sys_inv s.
Proof. apply topics_db_threads_safe. vm_compute. reflexivity. Defined.

(** C10: every critical section refines the map from topic names to the last time
    they were asked for: asking for a topic sets its time and removes the topics
    that nobody asked for in the last 15 minutes, and the other steps of the
    threads leave the map as it was. *)
Theorem topics_db_step_refines {rk : Rdkafka} (a : db_action) (s : system) (m : gmap bytes Z) :
  sys_inv s -> sys_abs s m -> zlen (sys_refs s) < 2 ^ 63 - 1 ->
  exists s', sys_step a s = Ret s' /\ sys_inv s' /\ sys_abs s' (lru_step a s m).
Proof.
  intros Hinv Habs Hb.
  destruct (sys_step_spec a s m Hinv Habs Hb) as (s' & ? & ? & ? & _). by exists s'.
Qed.

Lemma topics_db_step_refines_witness :
  exists s', sys_step (ActBegin (bs "a") 7) system_init = Ret s' /\ sys_inv s' /\
    sys_abs s' (lru_step (ActBegin (bs "a") 7) system_init ∅).
Proof.
  destruct system_init_inv as [Hi Ha].
  apply (topics_db_step_refines (ActBegin (bs "a") 7) system_init ∅ Hi Ha). vm_compute. reflexivity.
Defined.

(** C24: without other threads, [topics_db_get_topic] returns a handler with the
    name it was asked for, which is the handler of the table when the topic was
    known, and the database then holds the topic with the current time and the
    other topics of the last 15 minutes; when the topic is unknown and cannot be
    created it returns NULL, and then nothing changed. *)
Theorem topics_db_get_topic_correct {rk : Rdkafka} (calloc_ok : bool) (db : topics_db) (w : world)
    (topic : bytes) (now : Z) (ext : list loc) (m : gmap bytes Z) :
  db_ok db w ext -> db_abs w (db_table db) m -> zlen (db_table db ++ ext) < 2 ^ 63 - 2 ->
  exists r db' w', topics_db_get_topic calloc_ok db w topic now = Ret (r, db', w') /\
    match r with
    | Some l => tname w' l = Some topic /\ (is_Some (m !! topic) -> l ∈ db_table db) /\
        db_ok db' w' (l :: ext) /\ db_abs w' (db_table db') (lru_touch topic now m)
    | None => m !! topic = None /\ (calloc_ok = false \/ rd_kafka_topic_new topic = None) /\
        db' = db /\ w' = w
    end.
Proof.
  intros Hok Habs Hb.
  destruct (topics_db_get_topic_spec calloc_ok db w topic now ext m Hok Habs Hb)
    as (r & db' & w' & H & Hr). exists r, db', w'. split; [done|].
  destruct r; [|done]. destruct Hr as (?&?&?&?&_). by split_and!.
Qed.

Lemma topics_db_get_topic_correct_witness :
  exists r db' w', topics_db_get_topic true topics_db_new (mkworld ∅ O 0) (bs "a") 5
      = Ret (r, db', w') /\
    match r with
    | Some l => tname w' l = Some (bs "a") /\
        (is_Some ((∅ : gmap bytes Z) !! bs "a") -> l ∈ db_table topics_db_new) /\
        db_ok db' w' [l] /\ db_abs w' (db_table db') (lru_touch (bs "a") 5 ∅)
    | None => (∅ : gmap bytes Z) !! bs "a" = None /\
        (true = false \/ rd_kafka_topic_new (bs "a") = None) /\
        db' = topics_db_new /\ w' = mkworld ∅ O 0
    end.
Proof.
  destruct system_init_inv as [[Hok _] Ha].
  apply (topics_db_get_topic_correct true topics_db_new (mkworld ∅ O 0) (bs "a") 5 [] ∅ Hok Ha).
  vm_compute. reflexivity.
Defined.

(** C25: nothing leaks: after any run in which no thread is left inside
    [topics_db_get_topic], closing the database and then releasing the handlers
    threads still hold frees every handler and destroys every librdkafka topic,
    each once. *)
Theorem topics_db_no_leak {rk : Rdkafka} (acts : list db_action) (s : system) :
  zlen acts < 2 ^ 63 -> sys_run acts system_init = Ret s -> sys_created s = [] ->
  exists w1 w2, topics_db_done (sys_db s) (sys_world s) = Ret w1 /\
    decref_all w1 (sys_held s).*1 = Ret w2 /\ w_heap w2 = ∅ /\ w_rkts w2 = 0.
Proof.
  intros Hb Hrun Hcr. destruct system_init_inv as [Hi Ha].
  destruct (sys_run_spec acts system_init ∅ Hi Ha) as (s' & m & Hrun' & Hinv & _ & Hlen); [rewrite system_init_refs; lia|].
  rewrite Hrun in Hrun'. injection Hrun' as <-. destruct Hinv as ((_ & _ & Hinv & _) & _).
  unfold sys_refs in Hlen. rewrite Hcr in Hinv, Hlen. cbn [fmap list_fmap] in Hinv, Hlen.
  rewrite app_nil_r in Hinv, Hlen. rewrite system_init_refs in Hlen.
  destruct (decref_all_spec _ _ _ Hinv) as (w1 & Hw1 & Hinv1); [zlia|].
  rewrite <- (app_nil_r (sys_held s).*1) in Hinv1.
  destruct (decref_all_spec _ _ _ Hinv1) as (w2 & Hw2 & Hinv2); [zlia|].
  exists w1, w2. split_and!; try done; by apply heap_inv_nil.
Qed.

Lemma topics_db_no_leak_witness :
  match sys_run [ActCreate true (bs "a"); ActFinish 0 0] system_init with
  | Ret s => exists w1 w2, topics_db_done (sys_db s) (sys_world s) = Ret w1 /\
      decref_all w1 (sys_held s).*1 = Ret w2 /\ w_heap w2 = ∅ /\ w_rkts w2 = 0
  | _ => False
  end.
Proof.
  destruct (sys_run [ActCreate true (bs "a"); ActFinish 0 0] system_init) as [s| |] eqn:E;
    [|by vm_compute in E..].
  apply (topics_db_no_leak [ActCreate true (bs "a"); ActFinish 0 0] s).
  - vm_compute. reflexivity.
  - exact E.
  - vm_compute in E. by injection E as <-.
Defined.
