(* ===== verification/Pair.v ===== *)
(** * Key/value lists and the decoder interface

    util/pair.c, util/in_addr_list.c and the enumeration of
    decoder/decoder_api.h.  A C string is the list of its bytes before the NUL,
    and a NULL pointer is [None]. *)

From S2P Require Import Prelude.

Inductive decoder_callback_err :=
| DECODER_CALLBACK_OK
| DECODER_CALLBACK_BUFFER_FULL
| DECODER_CALLBACK_INVALID_REQUEST
| DECODER_CALLBACK_UNKNOWN_TOPIC
| DECODER_CALLBACK_UNKNOWN_PARTITION
| DECODER_CALLBACK_MSG_TOO_LARGE
| DECODER_CALLBACK_HTTP_METHOD_NOT_ALLOWED
| DECODER_CALLBACK_RESOURCE_NOT_FOUND
| DECODER_CALLBACK_MEMORY_ERROR
| DECODER_CALLBACK_GENERIC_ERROR.

#[export] Instance decoder_callback_err_eq_dec : EqDecision decoder_callback_err.
Proof. solve_decision. Defined.

(** [0 == strcmp(a, b)]. *)
Definition strcmp0 (a b : bytes) : bool := bool_decide (a = b).

(** [tolower] of the C locale. *)
Definition tolower (c : byte) : byte :=
  if (65 <=? byte_val c) && (byte_val c <=? 90) then byte_of_Z (byte_val c + 32) else c.

(** [0 == strcasecmp(a, b)]. *)
Definition strcasecmp0 (a b : bytes) : bool := bool_decide (map tolower a = map tolower b).

(** [0 == strncmp(a, b, strlen(a))]. *)
Fixpoint strprefix (a b : bytes) : bool :=
  match a, b with
  | [], _ => true
  | x :: a, y :: b => bool_decide (x = y) && strprefix a b
  | _ :: _, [] => false
  end.

Record pair := mkpair { pair_key : bytes; pair_value : option bytes }.

(** [TAILQ_HEAD(, pair)]. *)
Definition keyval_list := list pair.

Definition add_key_value_pair (l : keyval_list) (p : pair) : keyval_list := l ++ [p].

Fixpoint valueof (l : keyval_list) (key : bytes) (key_compare_callback : bytes -> bytes -> bool)
    : option bytes :=
  match l with
  | [] => None
  | p :: l =>
      if key_compare_callback key (pair_key p) then pair_value p
      else valueof l key key_compare_callback
  end.

(** ** Address lists *)

(** The four bytes of [struct in_addr]. *)
Definition in_addr := Z.

Definition in_addr_list_new : list in_addr := [].

Definition in_addr_list_add (l : list in_addr) (addr : in_addr) : list in_addr := addr :: l.

Fixpoint in_addr_list_contains (l : list in_addr) (addr : in_addr) : bool :=
  match l with
  | [] => false
  | n :: l => if addr =? n then true else in_addr_list_contains l addr
  end.

(** The list with its first node removed until none is left. *)
Fixpoint in_addr_list_done (l : list in_addr) : list in_addr :=
  match l with [] => [] | _ :: l => in_addr_list_done l end.

(** ** Lemmas *)

Lemma strprefix_spec a b : strprefix a b = true <-> exists c, b = a ++ c.
Proof.
  revert b. induction a as [|x a IH]; intros b; cbn.
  { split; [by exists b|done]. }
  destruct b as [|y b].
  { split; [done|]. by intros [c ?]. }
  rewrite andb_true_iff, bool_decide_eq_true, IH. split.
  - intros [-> [c ->]]. by exists c.
  - intros [c [= -> ->]]. split; [done|by exists c].
Qed.

Lemma strprefix_drop a b : strprefix a b = true -> b = a ++ zdrop (zlen a) b.
Proof. intros [c ->]%strprefix_spec. by rewrite zdrop_app_exact. Qed.

(** A pair added at the tail is found when no earlier pair has its key. *)
Lemma valueof_add l p key cmp :
  valueof (add_key_value_pair l p) key cmp =
    if existsb (fun q => cmp key (pair_key q)) l then valueof l key cmp
    else if cmp key (pair_key p) then pair_value p else None.
Proof.
  unfold add_key_value_pair. induction l as [|q l IH]; [done|]. cbn.
  destruct (cmp key (pair_key q)); [done|]. apply IH.
Qed.

Lemma in_addr_list_contains_spec l addr :
  in_addr_list_contains l addr = true <-> addr ∈ l.
Proof.
  induction l as [|n l IH]; cbn.
  - split; [done|]. by intros ?%not_elem_of_nil.
  - rewrite elem_of_cons. destruct (addr =? n) eqn:E.
    + apply Z.eqb_eq in E. tauto.
    + apply Z.eqb_neq in E. rewrite IH. tauto.
Qed.

(** An address is reported as blacklisted exactly when it was added to the
    list since it was created. *)
Theorem in_addr_list_correct (added : list in_addr) (addr : in_addr) :
  in_addr_list_contains (fold_left in_addr_list_add added in_addr_list_new) addr = true
    <-> addr ∈ added.
Proof.
  rewrite in_addr_list_contains_spec.
  assert (H : forall l, addr ∈ fold_left in_addr_list_add added l <-> addr ∈ added \/ addr ∈ l).
  { induction added as [|a added IH]; intros l; cbn.
    - split; [by right|]. intros [?%not_elem_of_nil|?]; done.
    - rewrite IH. unfold in_addr_list_add. rewrite !elem_of_cons. tauto. }
  rewrite H. split; [|by left]. by intros [?|?%not_elem_of_nil].
Qed.
