(* ===== verification/File.v ===== *)
(** * Sizes of files

    util/file.c over the stream functions of the C library.  A stream is the
    contents of a regular file and an offset; each call can fail (a pipe has no
    offset, for example), and then it leaves the offset as it was. *)

From S2P Require Import Prelude.

(** ** The C library *)

Record FILE := mkfile { f_data : bytes; f_offset : Z }.

Inductive seek_whence := SEEK_SET | SEEK_END.

(** The offset, or -1. *)
Definition ftello (ok : bool) (fp : FILE) : Z := if ok then f_offset fp else -1.

(** 0 and the stream at its new offset, or -1 and the stream as it was; a negative
    offset is an error. *)
Definition fseeko (ok : bool) (fp : FILE) (offset : Z) (whence : seek_whence) : Z * FILE :=
  let target := match whence with SEEK_SET => offset | SEEK_END => zlen (f_data fp) + offset end in
  if ok && (0 <=? target) then (0, mkfile (f_data fp) target) else (-1, fp).

(** [fread] of [n] bytes: the next ones, if there are so many. *)
Definition fread (fp : FILE) (n : Z) : bytes * FILE :=
  let data := ztake n (zdrop (f_offset fp) (f_data fp)) in
  (data, mkfile (f_data fp) (f_offset fp + zlen data)).

(** ** The program *)

(** Which of the four calls succeed. *)
Record stdio := mkstdio {
  io_ftello : bool;
  io_fseeko_end : bool;
  io_ftello_end : bool;
  io_fseeko_restore : bool
}.

(** The stream is changed through the pointer: the result and the stream. *)
Definition file_size (io : stdio) (fp : FILE) : Z * FILE :=
  let curr_off := ftello (io_ftello io) fp in
  if curr_off =? -1 then (-1, fp)
  else
    let '(seek_end_rc, fp1) := fseeko (io_fseeko_end io) fp 0 SEEK_END in
    if negb (seek_end_rc =? 0) then (-1, fp1)
    else
      let bytes := ftello (io_ftello_end io) fp1 in
      let '(seek_restore_rc, fp2) := fseeko (io_fseeko_restore io) fp1 curr_off SEEK_SET in
      if negb (seek_restore_rc =? 0) then (-1, fp2) else (bytes, fp2).

(** ** Lemmas *)

(** The cases of the four calls. *)
Lemma file_size_cases io data offset :
  0 <= offset ->
  let ok := io_ftello io && io_fseeko_end io && io_ftello_end io && io_fseeko_restore io in
  let '(size, fp) := file_size io (mkfile data offset) in
  size = (if ok then zlen data else -1) /\
  (fp = mkfile data offset \/ io_fseeko_restore io = false /\ fp = mkfile data (zlen data)).
Proof.
  intros Ho. pose proof (zlen_nonneg data) as Hl. destruct io as [[] [] [] []];
    unfold file_size, ftello, fseeko; cbn;
    repeat (ztest; cbn); rewrite ?Z.add_0_r; split_and!; try done; try (by left); try (by right).
Qed.

(** A stream at its start has the length of the file as its size and is still there. *)
Lemma file_size_at_start io data :
  let '(size, fp) := file_size io (mkfile data 0) in
  size <> -1 -> size = zlen data /\ fp = mkfile data 0.
Proof.
  pose proof (file_size_cases io data 0) as H. cbn zeta in H.
  destruct (file_size io _) as [size fp]. destruct H as [-> Hfp]; [lia|].
  destruct io as [[] [] [] []]; cbn in *; try done. intros _. by destruct Hfp as [-> | [? _]].
Qed.

(** ** Properties *)

(** On an open stream [file_size] answers -1, and it does so exactly when a call
    fails, or the length of the file with the stream as it was, so that reading
    that many bytes from the start then gives the whole file.  Only a failure to
    go back leaves the stream at another place, its end. *)
Theorem file_size_correct (io : stdio) (data : bytes) (offset : Z) :
  0 <= offset ->
  let ok := io_ftello io && io_fseeko_end io && io_ftello_end io && io_fseeko_restore io in
  let '(size, fp) := file_size io (mkfile data offset) in
  size = (if ok then zlen data else -1) /\
  (fp = mkfile data offset \/
   io_fseeko_restore io = false /\ fp = mkfile data (zlen data)) /\
  (size <> -1 -> offset = 0 -> fread fp size = (data, mkfile data (zlen data))).
Proof.
  intros Ho. pose proof (file_size_cases io data offset Ho) as H.
  pose proof (file_size_at_start io data) as H0. cbn zeta in H |- *.
  destruct (file_size io (mkfile data offset)) as [size fp] eqn:E.
  destruct H as [Hs Hfp]. split_and!; [done|done|]. intros Hne ->. rewrite E in H0.
  destruct H0 as [-> ->]; [done|]. unfold fread. cbn [f_data f_offset].
  by rewrite zdrop_0, ztake_all by done.
Qed.

Lemma file_size_correct_witness :
  (file_size (mkstdio true true true true) (mkfile (bs "KEY") 0)).1 = 3.
Proof.
  pose proof (file_size_correct (mkstdio true true true true) (bs "KEY") 0) as H.
  cbn zeta in H. destruct (file_size _ _) as [size fp] eqn:E.
  destruct H as [H _]; [lia|]. exact H.
Defined.
