(* ===== verification/Addr.v ===== *)
(** * Addresses

    engine/rb_addr.c, [assert_pton] of engine/global_config.c and the functions of
    the C library they rest on: [inet_ntop] and [inet_pton].  The blacklist of the
    configuration is written with the second, clients are printed with the
    first. *)

From S2P Require Import Prelude Pair.

(** ** The C library *)

(** The bytes of [struct in_addr] in memory; the first octet is the low byte of
    [s_addr] on the little-endian machines the program is built for. *)
Definition octets (a : in_addr) : list Z :=
  [a mod 256; a / 256 mod 256; a / 65536 mod 256; a / 16777216 mod 256].

Definition of_octets (o : list Z) : in_addr :=
  match o with
  | [a; b; c; d] => a + 256 * b + 65536 * c + 16777216 * d
  | _ => 0
  end.

Definition dot : byte := x2e.
Definition colon : byte := x3a.

(** [sprintf("%u.%u.%u.%u")]. *)
Definition inet_ntop4 (a : in_addr) : bytes :=
  match octets a with
  | [a; b; c; d] => print_zu a ++ dot :: print_zu b ++ dot :: print_zu c ++ dot :: print_zu d
  | _ => []
  end.

Definition is_digit (c : byte) : bool := (48 <=? byte_val c) && (byte_val c <=? 57).

(** Four decimal numbers below 256 without leading zeros: the numbers that are
    complete and the one that is being read. *)
Fixpoint pton4 (done : list Z) (cur : option Z) (s : bytes) : option in_addr :=
  match s with
  | [] =>
      match cur with
      | Some v => if bool_decide (length done = 3%nat) then Some (of_octets (done ++ [v])) else None
      | None => None
      end
  | c :: s =>
      if is_digit c then
        match cur with
        | None => if bool_decide (length done < 4)%nat then pton4 done (Some (byte_val c - 48)) s else None
        | Some v =>
            if (v =? 0) || (255 <? 10 * v + (byte_val c - 48)) then None
            else pton4 done (Some (10 * v + (byte_val c - 48))) s
        end
      else if bool_decide (c = dot) then
        match cur with
        | Some v => if bool_decide (length done = 3%nat) then None else pton4 (done ++ [v]) None s
        | None => None
        end
      else None
  end.

(** [inet_pton(AF_INET, s)]: [None] is the result 0, no address was stored. *)
Definition inet_pton4 (s : bytes) : option in_addr := pton4 [] None s.

(** The lower case hexadecimal digits of [%x] for 16 bits. *)
Definition hex_digit (v : Z) : byte := if v <? 10 then byte_of_Z (48 + v) else byte_of_Z (87 + v).

Definition print_hex16 (w : Z) : bytes :=
  (if 4096 <=? w then [hex_digit (w / 4096)] else []) ++
  (if 256 <=? w then [hex_digit (w / 256 mod 16)] else []) ++
  (if 16 <=? w then [hex_digit (w / 16 mod 16)] else []) ++ [hex_digit (w mod 16)].

(** The first longest run of zero words from position [i] on, as its start and
    length; [cur] is the length of the run that ends here. *)
Fixpoint best_run (words : list Z) (i cur : nat) (best : nat * nat) : nat * nat :=
  let best := if bool_decide (best.2 < cur)%nat then ((i - cur)%nat, cur) else best in
  match words with
  | [] => best
  | w :: words => best_run words (S i) (if w =? 0 then S cur else O) best
  end.

(** The words from position [i] on; [base] and [len] are the run written as [::]. *)
Fixpoint ntop6_words (all words : list Z) (i base len : nat) : bytes :=
  match words with
  | [] => if bool_decide (0 < len /\ base + len = 8)%nat then [colon] else []
  | w :: words =>
      if bool_decide (0 < len /\ base <= i < base + len)%nat then
        (if bool_decide (i = base) then [colon] else []) ++ ntop6_words all words (S i) base len
      else
        (if bool_decide (i = 0%nat) then [] else [colon]) ++
        if bool_decide (i = 6%nat /\ base = 0%nat /\
             (len = 6%nat \/ (len = 5%nat /\ all !! 5%nat = Some 65535)))
        then match words with
             | w' :: _ => inet_ntop4 (of_octets [w / 256; w mod 256; w' / 256; w' mod 256])
             | [] => []
             end
        else print_hex16 w ++ ntop6_words all words (S i) base len
  end.

(** The eight 16-bit words of an IPv6 address. *)
Definition inet_ntop6 (words : list Z) : bytes :=
  let '(base, len) := best_run words 0 0 (0%nat, 0%nat) in
  ntop6_words words words 0 base (if bool_decide (len < 2)%nat then 0%nat else len).

Inductive sockaddr :=
| SOCKADDR_IN (sin_addr : in_addr) (sin_port : Z)
| SOCKADDR_IN6 (sin6_addr : list Z) (sin6_port : Z)
| SOCKADDR_OTHER (sa_family : Z).

(** [inet_ntop] answers NULL when the text and its NUL do not fit. *)
Definition inet_ntop (a : sockaddr) (size : Z) : option bytes :=
  match match a with
        | SOCKADDR_IN addr _ => Some (inet_ntop4 addr)
        | SOCKADDR_IN6 words _ => Some (inet_ntop6 words)
        | SOCKADDR_OTHER _ => None
        end with
  | Some text => if zlen text <? size then Some text else None
  | None => None
  end.

(** ** The program *)

Definition sockaddr2str (buf_size : Z) (sockaddr : sockaddr) : option bytes :=
  match sockaddr with
  | SOCKADDR_IN _ _ | SOCKADDR_IN6 _ _ => inet_ntop sockaddr buf_size
  | SOCKADDR_OTHER _ => None
  end.

(** [BUFSIZ], the size of the buffers of the callers. *)
Definition BUFSIZ : Z := 8192.

Definition INET_ADDRSTRLEN : Z := 16.

(** The value of [*dst] after the call, which [inet_pton] leaves as it was when the
    text is not an address: only a negative result, an unknown family, is fatal. *)
Definition assert_pton (src : bytes) (dst : in_addr) : in_addr :=
  match inet_pton4 src with Some a => a | None => dst end.

Example ntop6_loopback : inet_ntop6 [0; 0; 0; 0; 0; 0; 0; 1] = bs "::1".
Proof. reflexivity. Qed.

Example ntop6_runs : inet_ntop6 [8193; 3512; 0; 0; 1; 0; 0; 2571] = bs "2001:db8::1:0:0:a0b".
Proof. reflexivity. Qed.

Example ntop6_mapped : inet_ntop6 [0; 0; 0; 0; 0; 65535; 49320; 513] = bs "::ffff:192.168.2.1".
Proof. reflexivity. Qed.

Example ntop6_tail : inet_ntop6 [65152; 0; 0; 0; 0; 0; 0; 0] = bs "fe80::".
Proof. reflexivity. Qed.

Example pton4_leading_zero : inet_pton4 (bs "10.0.0.01") = None.
Proof. reflexivity. Qed.

(** ** Lemmas *)

(** A boolean test over the values of an octet. *)
Lemma forall_octet (P : Z -> bool) :
  forallb P (map Z.of_nat (seq 0 256)) = true -> forall o, 0 <= o < 256 -> P o = true.
Proof.
  intros H o Ho. rewrite forallb_forall in H. apply H. apply in_map_iff.
  exists (Z.to_nat o). split; [lia|]. apply in_seq. lia.
Qed.

(** The number that a text of digits reads as after [cur]. *)
Fixpoint pton_digits (cur : option Z) (s : bytes) : option (option Z) :=
  match s with
  | [] => Some cur
  | c :: s =>
      if is_digit c then
        match cur with
        | None => pton_digits (Some (byte_val c - 48)) s
        | Some v => if (v =? 0) || (255 <? 10 * v + (byte_val c - 48)) then None
                    else pton_digits (Some (10 * v + (byte_val c - 48))) s
        end
      else None
  end.

Lemma pton4_digits done cur s rest cur' :
  (length done < 4)%nat -> pton_digits cur s = Some cur' ->
  pton4 done cur (s ++ rest) = pton4 done cur' rest.
Proof.
  intros Hd. revert cur. induction s as [|c s IH]; intros cur H; cbn in *; [congruence|].
  destruct (is_digit c); [|discriminate]. destruct cur as [v|].
  - destruct (_ || _); [discriminate|]. by apply IH.
  - rewrite bool_decide_true by done. by apply IH.
Qed.

Lemma octet_digits o : 0 <= o < 256 -> pton_digits None (print_zu o) = Some (Some o).
Proof.
  intros Ho. assert (H := forall_octet
    (fun o => bool_decide (pton_digits None (print_zu o) = Some (Some o))) eq_refl o Ho).
  by apply bool_decide_eq_true in H.
Qed.

Lemma octet_length o : 0 <= o < 256 -> 1 <= zlen (print_zu o) <= 3.
Proof.
  intros Ho. assert (H := forall_octet
    (fun o => (1 <=? zlen (print_zu o)) && (zlen (print_zu o) <=? 3)) eq_refl o Ho).
  apply andb_true_iff in H. lia.
Qed.

Lemma octets_bounds a : Forall (fun o => 0 <= o < 256) (octets a).
Proof. unfold octets. repeat constructor; apply Z.mod_pos_bound; lia. Qed.

Lemma of_octets_octets a : 0 <= a < 2 ^ 32 -> of_octets (octets a) = a.
Proof.
  intros Ha. unfold octets, of_octets.
  assert (E2 : a / 65536 = a / 256 / 256) by (by rewrite Z.div_div by lia).
  assert (E3 : a / 16777216 = a / 256 / 256 / 256) by (by rewrite !Z.div_div by lia).
  rewrite (Z.mod_small (a / 16777216)) by (split; [apply Z.div_pos|apply Z.div_lt_upper_bound]; lia).
  rewrite E3, E2.
  pose proof (Z.div_mod a 256 ltac:(lia)). pose proof (Z.div_mod (a / 256) 256 ltac:(lia)).
  pose proof (Z.div_mod (a / 256 / 256) 256 ltac:(lia)). lia.
Qed.

(** An octet followed by a dot. *)
Lemma pton4_octet_dot done o rest :
  0 <= o < 256 -> (length done < 3)%nat ->
  pton4 done None (print_zu o ++ dot :: rest) = pton4 (done ++ [o]) None rest.
Proof.
  intros Ho Hd. rewrite (pton4_digits _ _ _ _ (Some o)) by (auto using octet_digits with lia).
  cbn. by rewrite bool_decide_true, bool_decide_false by (done || lia).
Qed.

Lemma pton4_octet_end done o :
  0 <= o < 256 -> length done = 3%nat ->
  pton4 done None (print_zu o) = Some (of_octets (done ++ [o])).
Proof.
  intros Ho Hd. rewrite <- (app_nil_r (print_zu o)).
  rewrite (pton4_digits _ _ _ _ (Some o)) by (auto using octet_digits with lia).
  cbn. by rewrite bool_decide_true.
Qed.

Lemma pton_ntop a : 0 <= a < 2 ^ 32 -> inet_pton4 (inet_ntop4 a) = Some a.
Proof.
  intros Ha. pose proof (octets_bounds a) as Hb. unfold octets in Hb.
  repeat (apply list.Forall_cons in Hb as [? Hb]).
  unfold inet_pton4, inet_ntop4, octets.
  rewrite !pton4_octet_dot by (cbn; lia || done).
  rewrite pton4_octet_end by done. f_equal. by apply of_octets_octets.
Qed.

Lemma ntop4_length a : 7 <= zlen (inet_ntop4 a) <= 15.
Proof.
  pose proof (octets_bounds a) as Hb. unfold octets in Hb.
  repeat (apply list.Forall_cons in Hb as [? Hb]).
  unfold inet_ntop4, octets. autorewrite with n2k.
  repeat match goal with H : 0 <= ?o < 256 |- _ => apply octet_length in H end. lia.
Qed.

Lemma sockaddr2str_ipv4 a port size :
  16 <= size -> sockaddr2str size (SOCKADDR_IN a port) = Some (inet_ntop4 a).
Proof. intros Hs. unfold sockaddr2str, inet_ntop. pose proof (ntop4_length a). by ztest. Qed.

#[export] Hint Resolve ntop4_length : n2k.

(** ** Properties *)

(** The text of an IPv4 client is never missing, has 7 to 15 characters and so
    fits the buffers of the callers with its NUL, and is read back to the same
    address by the parser of the blacklist. *)
Theorem sockaddr2str_roundtrip (a : in_addr) (port garbage : Z) (Ha : 0 <= a < 2 ^ 32) :
  exists text, sockaddr2str BUFSIZ (SOCKADDR_IN a port) = Some text /\
    7 <= zlen text <= 15 /\ assert_pton text garbage = a.
Proof.
  exists (inet_ntop4 a). rewrite sockaddr2str_ipv4 by done. unfold assert_pton.
  rewrite pton_ntop by done. auto with n2k.
Qed.

Lemma sockaddr2str_roundtrip_witness :
  exists text, sockaddr2str BUFSIZ (SOCKADDR_IN 56993984 80) = Some text /\
    7 <= zlen text <= 15 /\ assert_pton text 7 = 56993984.
Proof. apply (sockaddr2str_roundtrip 56993984 80 7). lia. Defined.
