(* ===== verification/ZzJson.v ===== *)
(** * The JSON decoder of zz_http2k

    decoder/zz_http2k/zz_http2k_parser_json.c.  yajl is the class [Yajl]: a
    parse call yields the map callbacks it makes, each with the value
    [yajl_get_bytes_consumed] has at that time.  Pointers into the copy of the
    current chunk are addresses; the copy itself is the block at
    [js_in_buffer]. *)

From S2P Require Import Prelude CString JsonString KafkaArray Pair.

Inductive yajl_event :=
| yajl_start_map
| yajl_end_map.

(** Depth after some events that start at [depth]; [None] when a map is closed
    that is not open. *)
Fixpoint nesting (depth : Z) (evs : list (yajl_event * Z)) : option Z :=
  match evs with
  | [] => Some depth
  | (yajl_start_map, _) :: evs => nesting (depth + 1) evs
  | (yajl_end_map, _) :: evs => if depth <=? 0 then None else nesting (depth - 1) evs
  end.

(** Callbacks of a buffer are made at increasing offsets, each after at least
    the byte of its brace. *)
Fixpoint offsets_in (lo hi : Z) (evs : list (yajl_event * Z)) : Prop :=
  match evs with
  | [] => True
  | (_, c) :: evs => lo < c <= hi /\ offsets_in c hi evs
  end.

Definition shift_events (n : Z) (evs : list (yajl_event * Z)) : list (yajl_event * Z) :=
  map (fun e => (e.1, e.2 + n)) evs.

(** yajl with [yajl_allow_multiple_values] and [yajl_allow_trailing_garbage],
    and callbacks that let it go on.  It is a stream parser: a handle keeps how
    deep the text so far is, and a text may come in pieces. *)
Class Yajl := {
  yajl_handle : Type;
  yajl_alloc : option yajl_handle;
  yajl_parse : yajl_handle -> bytes -> list (yajl_event * Z) * bool * yajl_handle;
  yajl_get_error : yajl_handle -> bytes -> bytes;
  yajl_depth : yajl_handle -> Z;
  yajl_alloc_depth : forall h, yajl_alloc = Some h -> yajl_depth h = 0;
  yajl_offsets : forall h b, offsets_in 0 (zlen b) (yajl_parse h b).1.1;
  yajl_nesting : forall h b, exists d, nesting (yajl_depth h) (yajl_parse h b).1.1 = Some d /\
    ((yajl_parse h b).1.2 = true -> yajl_depth (yajl_parse h b).2 = d);
  yajl_stream : forall h a b evs h1,
    yajl_parse h a = (evs, true, h1) ->
    yajl_parse h (a ++ b) =
      let '(evs2, ok, h2) := yajl_parse h1 b in (evs ++ shift_events (zlen a) evs2, ok, h2)
}.

Section json.
Context {alloc : Allocator} {abi : Abi} {yajl : Yajl} {rk : Rdkafka} {producer : BatchProducer}.

(** Address of the buffer of a string, and the topic that
    [topics_db_get_rdkafka_topic] reads in the handler of the session. *)
Context (string_addr : cstring -> Z) (session_rkt : outcome rkt).

Record zz_json_session := mkjs {
  js_handler : yajl_handle;
  js_stack_pos : Z;
  js_in_buffer : Z;
  js_last_open_map : Z;
  js_last_object : cstring
}.

(** The part of [struct zz_session] the JSON decoder works on, the bytes of the
    block at [js_in_buffer], and the messages [zz_parse_end_json_map_split] handed to
    librdkafka: the topic of the call and the bytes of the payload. *)
Record json_ctx := mkjctx {
  jc_json : zz_json_session;
  jc_kafka_msgs : kafka_message_array;
  jc_http_response : cstring;
  jc_block : bytes;
  jc_split_sent : list (rkt * bytes)
}.

Definition set_json (c : json_ctx) (j : zz_json_session) : json_ctx :=
  mkjctx j (jc_kafka_msgs c) (jc_http_response c) (jc_block c) (jc_split_sent c).

Definition set_last_open_map (j : zz_json_session) (p : Z) : zz_json_session :=
  mkjs (js_handler j) (js_stack_pos j) (js_in_buffer j) p (js_last_object j).

Definition set_stack_pos (j : zz_json_session) (n : Z) : zz_json_session :=
  mkjs (js_handler j) n (js_in_buffer j) (js_last_open_map j) (js_last_object j).

Definition set_last_object (j : zz_json_session) (s : cstring) : zz_json_session :=
  mkjs (js_handler j) (js_stack_pos j) (js_in_buffer j) (js_last_open_map j) s.

(** [n] bytes at address [p] of the block [blk] that lies at [base]. *)
Definition read_block (base : Z) (blk : bytes) (p n : Z) : outcome bytes :=
  if (base <=? p) && (0 <=? n) && (p + n <=? base + zlen blk)
  then Ret (ztake n (zdrop (p - base) blk)) else Fault bad_access.

Definition zz_parse_start_json_map (c : json_ctx) (curr_bytes_consumed : Z) : outcome json_ctx :=
  let j := jc_json c in
  let j1 := set_stack_pos j (wrap64 (js_stack_pos j + 1)) in
  if js_stack_pos j =? 0
  then Ret (set_json c (set_last_open_map j1 (js_in_buffer j + curr_bytes_consumed - 1)))
  else Ret (set_json c j1).

Definition zz_parse_generate_rdkafka_message (c : json_ctx) (consumed : Z)
    : outcome rd_kafka_message :=
  let j := jc_json c in
  let end_msg := js_in_buffer j + consumed in
  _ ← c_assert (js_last_open_map j <? end_msg);
  Ret (new_msg (js_last_open_map j) (end_msg - js_last_open_map j)).

(** A failed addition is only logged. *)
Definition zz_parse_end_json_map0 (c : json_ctx) (consumed : Z) : outcome json_ctx :=
  msg ← zz_parse_generate_rdkafka_message c consumed;
  '(_, msgs) ← kafka_msg_array_add (jc_kafka_msgs c) msg;
  Ret (mkjctx (set_last_open_map (jc_json c) 0) msgs (jc_http_response c) (jc_block c)
         (jc_split_sent c)).

(** When librdkafka takes the message it owns the buffer; the string is emptied
    in every case. *)
Definition zz_parse_end_json_map_split (c : json_ctx) (consumed : Z) : outcome json_ctx :=
  let j := jc_json c in
  data ← read_block (js_in_buffer j) (jc_block c) (js_in_buffer j) consumed;
  '(append_rc, last_object) ← string_append (js_last_object j) data;
  if negb (append_rc =? 0)
  then Ret (set_json c (set_last_object j (string_done last_object)))
  else
    r ← session_rkt;
    let '(produce_rc, _, call) := produce_batch_call r
        [new_msg (string_addr last_object) (string_size last_object)] in
    let sent := jc_split_sent c ++ call_payloads (string_addr last_object) (contents last_object) call in
    let last_object := if produce_rc =? 1 then mkstr None (str_size last_object) else last_object in
    Ret (mkjctx (set_last_object j (string_done last_object)) (jc_kafka_msgs c)
           (jc_http_response c) (jc_block c) sent).

Definition zz_parse_end_json_map (c : json_ctx) (consumed : Z) : outcome json_ctx :=
  let j := jc_json c in
  let stack_pos := wrap64 (js_stack_pos j - 1) in
  let c1 := set_json c (set_stack_pos j stack_pos) in
  if negb (stack_pos =? 0) then Ret c1
  else if 0 <? string_size (js_last_object j)
  then zz_parse_end_json_map_split c1 consumed
  else zz_parse_end_json_map0 c1 consumed.

(** The callbacks yajl makes. *)
Fixpoint run_callbacks (evs : list (yajl_event * Z)) (c : json_ctx) : outcome json_ctx :=
  match evs with
  | [] => Ret c
  | (yajl_start_map, consumed) :: evs =>
      c1 ← zz_parse_start_json_map c consumed; run_callbacks evs c1
  | (yajl_end_map, consumed) :: evs =>
      c1 ← zz_parse_end_json_map c consumed; run_callbacks evs c1
  end.

(** The code from the label [err] on, where [buffer] is 0 for NULL. *)
Definition json_buffer_end (c : json_ctx) (buffer : Z) : outcome json_ctx :=
  msgs ← (if negb (kafka_message_array_size (jc_kafka_msgs c) =? 0)
          then kafka_message_array_set_payload_buffer (jc_kafka_msgs c) buffer
          else Ret (jc_kafka_msgs c));
  let j := jc_json c in
  Ret (mkjctx (mkjs (js_handler j) (js_stack_pos j) 0 0 (js_last_object j)) msgs
         (jc_http_response c) [] (jc_split_sent c)).

(** What is saved of an object that is not closed yet. *)
Definition save_open_object (c : json_ctx) (buffer bsize : Z) : outcome cstring :=
  let j := jc_json c in
  if negb (js_last_open_map j =? 0) then
    data ← read_block buffer (jc_block c) (js_last_open_map j)
             (bsize - (js_last_open_map j - buffer));
    '(_, s) ← string_append (js_last_object j) data; Ret s
  else if negb (string_size (js_last_object j) =? 0) then
    '(_, s) ← string_append (js_last_object j) (jc_block c); Ret s
  else Ret (js_last_object j).

(** [mem] is the result of [malloc(bsize)]. *)
Definition process_json_buffer (mem : option Z) (const_buffer : bytes) (c : json_ctx)
    : outcome (decoder_callback_err * json_ctx) :=
  let bsize := zlen const_buffer in
  if bsize =? 0 then Ret (DECODER_CALLBACK_OK, c)
  else
    match mem with
    | None =>
        c1 ← json_buffer_end c 0;
        Ret (DECODER_CALLBACK_MEMORY_ERROR, c1)
    | Some buffer =>
        let j := jc_json c in
        let '(evs, stat, h) := yajl_parse (js_handler j) const_buffer in
        let j1 := mkjs (js_handler j) (js_stack_pos j) buffer (js_last_open_map j)
                    (js_last_object j) in
        c1 ← run_callbacks evs
               (mkjctx j1 (jc_kafka_msgs c) (jc_http_response c) const_buffer (jc_split_sent c));
        let j2 := jc_json c1 in
        let c2 := set_json c1 (mkjs h (js_stack_pos j2) (js_in_buffer j2) (js_last_open_map j2)
                                 (js_last_object j2)) in
        if negb stat then
          '(_, resp) ← string_append (jc_http_response c2) (yajl_get_error h const_buffer);
          c3 ← json_buffer_end (mkjctx (jc_json c2) (jc_kafka_msgs c2) resp (jc_block c2)
                                  (jc_split_sent c2)) buffer;
          Ret (DECODER_CALLBACK_INVALID_REQUEST, c3)
        else
          s ← save_open_object c2 buffer bsize;
          c3 ← json_buffer_end (set_json c2 (set_last_object (jc_json c2) s)) buffer;
          Ret (DECODER_CALLBACK_OK, c3)
    end.

(** What the JSON part of a session owns: the string of the object that is not closed,
    and the handle of yajl if it is allocated; freeing it twice is a fault. *)
Record json_owned := mkjowned { jo_last_object : cstring; jo_yajl_handler : bool }.

Definition yajl_free (o : json_owned) : outcome json_owned :=
  if jo_yajl_handler o then Ret (mkjowned (jo_last_object o) false) else Fault double_free.

Definition free_zz_session_json (o : json_owned) : outcome json_owned :=
  yajl_free (mkjowned (string_done (jo_last_object o)) (jo_yajl_handler o)).

(** [calloc]ed session fields; [None] when yajl gives no handle. *)
Definition new_zz_session_json : option zz_json_session :=
  match yajl_alloc with
  | None => None
  | Some h => Some (mkjs h 0 0 0 N2K_STRING_INITIALIZER)
  end.

End json.

Definition error_message_json {alloc : Allocator} (error_str : cstring)
    (decoder_rc : decoder_callback_err) (messages_queued : Z) : outcome cstring :=
  '(printf_rc, ret) ← string_printf 2 N2K_STRING_INITIALIZER
      (bs "{" ++ [dquote] ++ bs "messages_queued" ++ [dquote] ++ bs ":" ++ print_zu messages_queued);
  ret ← (if (0 <? printf_rc) && negb (bool_decide (decoder_rc = DECODER_CALLBACK_OK)) then
           '(_, ret) ← string_append_string ret
              (bs "," ++ [dquote] ++ bs "json_decoder_error" ++ [dquote] ++ bs ":" ++ [dquote]);
           '(_, ret) ← string_append_json_string (2 + length (contents error_str)) ret
              (contents error_str);
           '(_, ret) ← string_append_string ret [dquote];
           Ret ret
         else Ret ret);
  if 0 <? printf_rc
  then '(_, ret) ← string_append_string ret (bs "}"); Ret ret
  else Ret ret.

(** ** The objects of a text *)

(** The top-level objects the events delimit, in order.  [open] is where the
    current top-level object starts when [depth] is positive. *)
Fixpoint objects_of (text : bytes) (depth open : Z) (evs : list (yajl_event * Z)) : list bytes :=
  match evs with
  | [] => []
  | (yajl_start_map, c) :: evs =>
      objects_of text (depth + 1) (if depth =? 0 then c - 1 else open) evs
  | (yajl_end_map, c) :: evs =>
      if depth =? 1 then slice text open c :: objects_of text 0 open evs
      else objects_of text (depth - 1) open evs
  end.

(** Those of them that start in the chunk too, when the text before it ends at
    [depth]: the first one that ends started before it if an object was open. *)
Definition whole_objects (depth : Z) (objects : list bytes) : list bytes :=
  if 0 <? depth then drop 1 objects else objects.

Fixpoint open_after (depth open : Z) (evs : list (yajl_event * Z)) : Z :=
  match evs with
  | [] => open
  | (yajl_start_map, c) :: evs => open_after (depth + 1) (if depth =? 0 then c - 1 else open) evs
  | (yajl_end_map, c) :: evs => open_after (depth - 1) open evs
  end.

Lemma nesting_app d d1 e1 e2 : nesting d e1 = Some d1 -> nesting d (e1 ++ e2) = nesting d1 e2.
Proof.
  revert d. induction e1 as [|[[|] c] e1 IH]; intros d; cbn; [by intros [= ->]|apply IH|].
  destruct (d <=? 0); [done|apply IH].
Qed.

Lemma nesting_nonneg d d1 evs : 0 <= d -> nesting d evs = Some d1 -> 0 <= d1.
Proof.
  revert d. induction evs as [|[[|] c] evs IH]; intros d Hd; cbn.
  - intros [= <-]. done.
  - apply IH. lia.
  - destruct (d <=? 0) eqn:E; [done|]. apply IH. lia.
Qed.

Lemma nesting_shift d n evs : nesting d (shift_events n evs) = nesting d evs.
Proof.
  revert d. induction evs as [|[[|] c] evs IH]; intros d; cbn; [done|apply IH|].
  destruct (d <=? 0); [done|apply IH].
Qed.

Lemma objects_of_app text d d1 open e1 e2 :
  nesting d e1 = Some d1 ->
  objects_of text d open (e1 ++ e2) =
    objects_of text d open e1 ++ objects_of text d1 (open_after d open e1) e2.
Proof.
  revert d open. induction e1 as [|[[|] c] e1 IH]; intros d open; cbn.
  - by intros [= ->].
  - apply IH.
  - destruct (d <=? 0) eqn:E; [done|]. intros H. destruct (d =? 1) eqn:E1.
    + apply Z.eqb_eq in E1 as ->. cbn in H |- *. by rewrite (IH 0 open H).
    + by rewrite (IH _ open H).
Qed.

Lemma open_after_app d d1 open e1 e2 :
  nesting d e1 = Some d1 ->
  open_after d open (e1 ++ e2) = open_after d1 (open_after d open e1) e2.
Proof.
  revert d open. induction e1 as [|[[|] c] e1 IH]; intros d open; cbn; [by intros [= ->]|apply IH|].
  destruct (d <=? 0); [done|apply IH].
Qed.

Lemma offsets_shift lo hi n evs :
  offsets_in lo hi evs -> offsets_in (lo + n) (hi + n) (shift_events n evs).
Proof.
  revert lo. induction evs as [|[e c] evs IH]; intros lo; cbn; [done|].
  intros [Hc H]. split; [lia|]. by apply IH.
Qed.

(** A later text does not change the objects of what was read. *)
Lemma objects_of_text text rest d d1 open lo evs :
  (0 < d -> 0 <= open) -> 0 <= lo -> nesting d evs = Some d1 -> offsets_in lo (zlen text) evs ->
  objects_of (text ++ rest) d open evs = objects_of text d open evs.
Proof.
  revert d open lo. induction evs as [|[[|] c] evs IH]; intros d open lo Ho Hlo Hn; [done| |];
    cbn in Hn |- *; intros [Hc H].
  - apply (IH _ _ c); try done; [|lia]. destruct (d =? 0) eqn:E; [lia|]. intros ?. apply Ho. lia.
  - destruct (d <=? 0) eqn:Ed; [done|]. destruct (d =? 1) eqn:E.
    + apply Z.eqb_eq in E as ->. rewrite slice_app_left by lia. f_equal.
      apply (IH _ _ c); try done; lia.
    + apply (IH _ _ c); try done; [|lia]. intros ?. apply Ho. lia.
Qed.

Lemma open_after_nonneg hi d d1 open lo evs :
  (0 < d -> 0 <= open) -> 0 <= lo -> nesting d evs = Some d1 -> offsets_in lo hi evs ->
  0 < d1 -> 0 <= open_after d open evs.
Proof.
  revert d open lo. induction evs as [|[[|] c] evs IH]; intros d open lo Ho Hlo Hn.
  { injection Hn as <-. done. }
  - cbn in Hn |- *. intros [Hc H]. apply (IH _ _ c); try done; [|lia].
    destruct (d =? 0) eqn:E; [lia|]. intros ?. apply Ho. lia.
  - cbn in Hn |- *. intros [Hc H]. destruct (d <=? 0) eqn:Ed; [done|].
    apply (IH _ _ c); try done; [|lia]. intros ?. apply Ho. lia.
Qed.

(** ** Decoding a chunk *)

Section json_lemmas.
Context {alloc : Allocator} {abi : Abi} {yajl : Yajl} {rk : Rdkafka} {producer : BatchProducer}.
Context (string_addr : cstring -> Z).

(** Between two chunks, after the text [P] at nesting [d], whose last top-level
    object starts at [open]. *)
Definition json_idle (j : zz_json_session) (P : bytes) (d open : Z) : Prop :=
  js_stack_pos j = d /\ yajl_depth (js_handler j) = d /\ 0 <= d <= zlen P /\
  js_last_open_map j = 0 /\ string_inv (js_last_object j) /\
  (0 < d -> 0 <= open < zlen P) /\
  contents (js_last_object j) = if d =? 0 then [] else zdrop open P.

(** While the chunk at [addr] is parsed, up to its offset [lo]. *)
Definition json_mid (c : json_ctx) (P chunk : bytes) (addr lo d open : Z)
    (ms : list rd_kafka_message) (resp : cstring) (sent : list (rkt * bytes)) : Prop :=
  let j := jc_json c in
  js_stack_pos j = d /\ 0 <= d <= zlen P + lo /\ js_in_buffer j = addr /\ jc_block c = chunk /\
  jc_http_response c = resp /\ jc_split_sent c = sent /\
  string_inv (js_last_object j) /\ ka_holds (jc_kafka_msgs c) ms /\ zlen ms <= lo /\
  (if d =? 0 then js_last_open_map j = 0 /\ contents (js_last_object j) = []
   else if open <? zlen P
   then js_last_open_map j = 0 /\ contents (js_last_object j) = zdrop open P /\ ms = [] /\ 0 <= open
   else js_last_open_map j = addr + (open - zlen P) /\ contents (js_last_object j) = [] /\
        open < zlen P + lo).

Lemma contents_nil_size s : string_inv s -> contents s = [] -> str_size s = 0.
Proof. intros Hi Hc. rewrite <- (zlen_contents s Hi), Hc. done. Qed.

Lemma contents_cons_size s : string_inv s -> contents s <> [] -> 0 < str_size s.
Proof.
  intros Hi Hc. rewrite <- (zlen_contents s Hi). destruct (contents s); [done|]. zlia.
Qed.

Lemma start_map_spec c P chunk addr lo d open ms resp sent x :
  json_mid c P chunk addr lo d open ms resp sent -> lo < x <= zlen chunk ->
  zlen P + zlen chunk < 2 ^ 64 -> 0 <= lo ->
  exists c', zz_parse_start_json_map c x = Ret c' /\
    json_mid c' P chunk addr x (d + 1) (if d =? 0 then zlen P + x - 1 else open) ms resp sent.
Proof.
  intros (Hd & Hdb & Hin & Hblk & Hr & Hs & Hi & Hka & Hms & Hcase) Hx Hb Hlo.
  unfold zz_parse_start_json_map. rewrite Hd, wrap64_small by lia.
  destruct (d =? 0) eqn:E; (eexists; split; [done|]); unfold json_mid;
    cbn [jc_json jc_kafka_msgs jc_http_response jc_block jc_split_sent js_stack_pos js_in_buffer
         js_last_open_map js_last_object set_json set_last_open_map set_stack_pos];
    split_and!; try done; try lia; ztest.
  - destruct Hcase as [Hl Hc]. split_and!; [|done|lia]. rewrite Hin. lia.
  - destruct (open <? zlen P); [done|]. destruct Hcase as (? & ? & ?). split_and!; try done. lia.
Qed.

Hypothesis (Hnf : never_fails alloc).
Context (r : rkt).

Lemma read_block_spec base blk p n :
  base <= p -> 0 <= n -> p + n <= base + zlen blk ->
  read_block base blk p n = Ret (slice blk (p - base) (p - base + n)).
Proof.
  intros. unfold read_block, slice. ztest. do 2 f_equal. lia.
Qed.

(** The end of an object that started in an earlier chunk. *)
Lemma end_map_split_spec c P chunk addr lo open resp sent x :
  json_mid c P chunk addr lo 1 open [] resp sent -> lo < x <= zlen chunk -> 0 <= lo ->
  open < zlen P -> zlen P + zlen chunk <= size_limit ->
  exists c', zz_parse_end_json_map string_addr (Ret r) c x = Ret c' /\
    json_mid c' P chunk addr x 0 open [] resp
      (sent ++ [(r, slice (P ++ chunk) open (zlen P + x))]).
Proof.
  intros (Hd & Hdb & Hin & Hblk & Hr & Hs & Hi & Hka & Hms & Hcase) Hx Hlo Hopen Hlim.
  revert Hcase. cbn [Z.eqb]. ztest. intros (Hl & Hc & _ & Ho).
  assert (Hsz : str_size (js_last_object (jc_json c)) = zlen P - open).
  { rewrite <- (zlen_contents _ Hi), Hc, zlen_zdrop; lia. }
  unfold zz_parse_end_json_map, zz_parse_end_json_map_split. rewrite Hd.
  change (wrap64 (1 - 1)) with 0. unfold string_size.
  cbn [jc_json jc_block set_json set_stack_pos js_in_buffer js_last_object Z.eqb negb]. ztest.
  rewrite Hin, Hblk, read_block_spec by lia. cbn [mbind outcome_bind].
  assert (slice chunk (addr - addr) (addr - addr + x) = ztake x chunk) as ->.
  { unfold slice. by rewrite Z.sub_diag, Z.add_0_l, Z.sub_0_r. }
  destruct (string_append_never_fails (js_last_object (jc_json c)) (ztake x chunk) Hnf Hi)
    as (s' & -> & Hi' & Hc').
  { rewrite zlen_ztake by lia. lia. }
  cbn [mbind outcome_bind Z.eqb negb].
  unfold produce_batch_call. destruct (rd_kafka_produce_batch _ _) as [prc errs].
  eexists. split; [reflexivity|]. unfold json_mid. cbn. split_and!; try done; try lia.
  rewrite Hs. unfold msg_bytes, new_msg, string_size. cbn [msg_payload msg_len].
  rewrite Z.sub_diag, Z.add_0_l, slice_whole by (by rewrite (zlen_contents _ Hi')).
  do 3 f_equal. rewrite Hc', Hc, slice_app_prev; [done|lia|lia].
Qed.

(** The end of an object that started in this chunk. *)
Lemma end_map_here_spec c P chunk addr lo open ms resp sent x :
  json_mid c P chunk addr lo 1 open ms resp sent -> lo < x <= zlen chunk -> 0 <= lo ->
  zlen P <= open -> 0 < addr -> ka_bytes (zlen chunk) <= size_limit ->
  exists c' m, zz_parse_end_json_map string_addr (Ret r) c x = Ret c' /\
    json_mid c' P chunk addr x 0 open (ms ++ [m]) resp sent /\
    msg_bytes addr chunk m = slice (P ++ chunk) open (zlen P + x).
Proof.
  intros (Hd & Hdb & Hin & Hblk & Hr & Hs & Hi & Hka & Hms & Hcase) Hx Hlo Hopen Ha Hkl.
  revert Hcase. cbn [Z.eqb]. ztest. intros (Hl & Hc & Ho).
  unfold zz_parse_end_json_map, zz_parse_end_json_map0, zz_parse_generate_rdkafka_message.
  rewrite Hd. change (wrap64 (1 - 1)) with 0. unfold string_size.
  cbn [jc_json set_json set_stack_pos js_in_buffer js_last_open_map js_last_object jc_kafka_msgs
       Z.eqb negb].
  rewrite (contents_nil_size _ Hi Hc), Hin, Hl. cbn [Z.ltb Z.compare].
  unfold c_assert. ztest. cbn [mbind outcome_bind].
  match goal with |- context [new_msg ?p ?n] => set (m := new_msg p n) end.
  destruct (kafka_msg_array_add_spec (jc_kafka_msgs c) ms m Hka) as [(a' & Hadd & Ha')|(?&?&?&[])];
    [|rewrite Hadd|done].
  { etransitivity; [|exact Hkl]. apply ka_bytes_mono. lia. }
  cbn [mbind outcome_bind]. eexists _, m. split; [reflexivity|]. split.
  - unfold json_mid. cbn. split_and!; try done; try lia. zlia.
  - unfold msg_bytes, m, new_msg. cbn [msg_payload msg_len]. rewrite slice_app_cur by lia.
    f_equal; lia.
Qed.

(** Whether the open object started before the chunk. *)
Definition split_open (P : bytes) (d open : Z) : bool := (0 <? d) && (open <? zlen P).

Lemma end_map_spec c P chunk addr lo d open ms resp sent x :
  json_mid c P chunk addr lo d open ms resp sent -> lo < x <= zlen chunk -> 0 < d -> 0 <= lo ->
  0 < addr -> zlen P + zlen chunk <= size_limit -> ka_bytes (zlen chunk) <= size_limit ->
  exists c' ms' sent', zz_parse_end_json_map string_addr (Ret r) c x = Ret c' /\
    json_mid c' P chunk addr x (d - 1) open ms' resp sent' /\
    let out := if d =? 1 then [slice (P ++ chunk) open (zlen P + x)] else [] in
    sent' = sent ++ (if split_open P d open then for_topic r out else []) /\
    map (msg_bytes addr chunk) ms' =
      map (msg_bytes addr chunk) ms ++ (if split_open P d open then [] else out).
Proof.
  intros Hmid Hx Hpos Hlo Ha Hlim Hkl. destruct (Z.eq_dec d 1) as [->|Hd1].
  - cbn [Z.eqb Pos.eqb Z.sub Z.opp Z.add Z.pos_sub]. destruct (open <? zlen P) eqn:Eo.
    + assert (ms = []) as ->.
      { destruct Hmid as (_&_&_&_&_&_&_&_&_&Hcase). cbn [Z.eqb] in Hcase.
        rewrite Eo in Hcase. tauto. }
      destruct (end_map_split_spec c P chunk addr lo open resp sent x) as (c' & H1 & H2);
        try done; [lia|].
      eexists c', [], _. split; [done|]. split; [exact H2|]. unfold split_open. by rewrite Eo.
    + destruct (end_map_here_spec c P chunk addr lo open ms resp sent x)
        as (c' & m & H1 & H2 & H3); try done; [lia|].
      exists c', (ms ++ [m]), sent. split; [done|]. split; [done|]. unfold split_open.
      rewrite Eo, map_app, app_nil_r. cbn. by rewrite H3.
  - ztest. destruct Hmid as (Hd & Hdb & Hin & Hblk & Hr & Hs & Hi & Hka & Hms & Hcase).
    unfold size_limit in Hlim.
    unfold zz_parse_end_json_map. rewrite Hd, wrap64_small by lia. ztest.
    rewrite (proj2 (Z.eqb_neq d 0)) in Hcase by lia.
    eexists _, ms, sent. split; [done|]. split.
    2:{ cbn [map]. destruct (split_open P d open); by rewrite !app_nil_r. }
    unfold json_mid. cbn. ztest. split_and!; try done; try lia.
    destruct (open <? zlen P); [done|]. destruct Hcase as (? & ? & ?). split_and!; try done. lia.
Qed.

Lemma split_open_start P d open x : 0 < x -> 0 <= d ->
  split_open P (d + 1) (if d =? 0 then zlen P + x - 1 else open) = split_open P d open.
Proof. intros. unfold split_open. destruct (d =? 0) eqn:E; lia. Qed.

Lemma run_callbacks_spec evs c P chunk addr lo d d1 open ms resp sent :
  json_mid c P chunk addr lo d open ms resp sent -> 0 <= lo <= zlen chunk ->
  offsets_in lo (zlen chunk) evs -> nesting d evs = Some d1 ->
  0 < addr -> zlen P + zlen chunk <= size_limit -> ka_bytes (zlen chunk) <= size_limit ->
  exists c' lo' ms' sent', run_callbacks string_addr (Ret r) evs c = Ret c' /\ lo' <= zlen chunk /\
    json_mid c' P chunk addr lo' d1 (open_after d open (shift_events (zlen P) evs)) ms' resp sent' /\
    let out := objects_of (P ++ chunk) d open (shift_events (zlen P) evs) in
    sent' = sent ++ (if split_open P d open then for_topic r (take 1 out) else []) /\
    map (msg_bytes addr chunk) ms' =
      map (msg_bytes addr chunk) ms ++ (if split_open P d open then drop 1 out else out).
Proof.
  intros Hmid Hlo Hoff Hnest Ha Hlim Hkl. revert c lo d open ms sent Hmid Hlo Hoff Hnest.
  induction evs as [|[[|] x] evs IH]; intros c lo d open ms sent Hmid Hlo Hoff Hnest;
    cbn [run_callbacks nesting offsets_in shift_events map fst snd open_after objects_of] in *.
  - injection Hnest as <-. exists c, lo, ms, sent.
    split_and!; try done; try lia; destruct (split_open P d open); by rewrite app_nil_r.
  - destruct Hoff as [Hx Hoff].
    destruct (start_map_spec c P chunk addr lo d open ms resp sent x Hmid Hx)
      as (c1 & -> & Hmid1); [unfold size_limit in Hlim; lia|lia|].
    cbn [mbind outcome_bind]. replace (x + zlen P - 1) with (zlen P + x - 1) by lia.
    destruct (IH c1 x _ _ ms sent Hmid1) as (c' & lo' & ms' & sent' & H1 & H2 & H3 & H4);
      [lia|done|done|].
    pose proof Hmid as (_ & Hdb & _).
    exists c', lo', ms', sent'. split_and!; try done; rewrite <- (split_open_start P d open x) by lia;
      apply H4.
  - destruct Hoff as [Hx Hoff]. destruct (d <=? 0) eqn:Ed; [done|].
    destruct (end_map_spec c P chunk addr lo d open ms resp sent x Hmid Hx)
      as (c1 & ms1 & sent1 & -> & Hmid1 & Hs1 & Hout1); try done; [lia|lia|].
    cbn [mbind outcome_bind].
    destruct (IH c1 x _ _ ms1 sent1 Hmid1) as (c' & lo' & ms' & sent' & H1 & H2 & H3 & H4);
      [lia|done|done|].
    exists c', lo', ms', sent'. split; [done|]. split; [done|]. split; [done|].
    destruct H4 as [-> ->]. rewrite Hs1, Hout1, <- !app_assoc.
    replace (x + zlen P) with (zlen P + x) by lia. unfold split_open. destruct (d =? 1) eqn:E1.
    + apply Z.eqb_eq in E1 as ->. cbn [Z.sub Z.add Z.opp Z.pos_sub Z.ltb Z.compare andb].
      by destruct (open <? zlen P).
    + assert ((0 <? d - 1) = (0 <? d)) as -> by lia. destruct ((0 <? d) && _); by rewrite ?app_nil_r.
Qed.

Lemma json_buffer_end_spec c addr ms :
  ka_holds (jc_kafka_msgs c) ms ->
  exists msgs, json_buffer_end c addr = Ret (mkjctx (mkjs (js_handler (jc_json c))
      (js_stack_pos (jc_json c)) 0 0 (js_last_object (jc_json c))) msgs (jc_http_response c) []
      (jc_split_sent c)) /\
    ka_holds msgs ms /\ (ms <> [] -> ka_payload_buffer msgs = addr).
Proof.
  intros Hka. unfold json_buffer_end. rewrite (ka_holds_size _ _ Hka).
  destruct ms as [|m ms].
  - cbn. by eexists.
  - rewrite zlen_cons. ztest.
    destruct (ka_holds_set_buffer _ _ _ addr false Hka) as (a' & Hset & ? & ?).
    unfold kafka_message_array_set_payload_buffer. rewrite Hset. cbn. by eexists.
Qed.

(** What is kept of an object that goes on in the next chunk. *)
Lemma save_open_object_spec c P chunk addr lo d open ms resp sent h :
  json_mid c P chunk addr lo d open ms resp sent -> lo <= zlen chunk -> 0 < addr ->
  zlen P + zlen chunk <= size_limit -> chunk <> [] ->
  exists s, save_open_object (set_json c (mkjs h (js_stack_pos (jc_json c))
      (js_in_buffer (jc_json c)) (js_last_open_map (jc_json c)) (js_last_object (jc_json c))))
      addr (zlen chunk) = Ret s /\
    string_inv s /\ contents s = (if d =? 0 then [] else zdrop open (P ++ chunk)) /\
    (0 < d -> 0 <= open < zlen (P ++ chunk)).
Proof.
  intros (Hd & Hdb & Hin & Hblk & Hr & Hs & Hi & Hka & Hms & Hcase) Hlo Ha Hlim Hne.
  assert (0 < zlen chunk) by (destruct chunk; [done|]; zlia).
  unfold save_open_object, string_size.
  cbn [jc_json set_json js_last_open_map js_last_object jc_block].
  rewrite zlen_app. destruct (d =? 0) eqn:Ed; [|destruct (open <? zlen P) eqn:Eo].
  - destruct Hcase as [-> Hc]. rewrite (contents_nil_size _ Hi Hc). cbn.
    eexists. split_and!; [reflexivity|done|done|lia].
  - destruct Hcase as (-> & Hc & _ & Ho). cbn [Z.eqb negb].
    assert (Hsz : str_size (js_last_object (jc_json c)) = zlen P - open).
    { rewrite <- (zlen_contents _ Hi), Hc, zlen_zdrop; lia. }
    rewrite Hsz. ztest. rewrite Hblk.
    destruct (string_append_never_fails (js_last_object (jc_json c)) chunk Hnf Hi)
      as (s' & -> & Hi' & Hc'); [lia|].
    cbn [mbind outcome_bind]. eexists. split_and!; [reflexivity|done| |lia].
    rewrite Hc', Hc, zdrop_app_le by lia. done.
  - destruct Hcase as (-> & Hc & Ho). ztest. rewrite Hblk, read_block_spec by lia.
    cbn [mbind outcome_bind]. set (data := slice _ _ _).
    assert (Hdata : data = zdrop (open - zlen P) chunk).
    { unfold data, slice. replace (addr + (open - zlen P) - addr) with (open - zlen P) by lia.
      apply ztake_all. rewrite zlen_zdrop; lia. }
    destruct (string_append_never_fails (js_last_object (jc_json c)) data Hnf Hi)
      as (s' & -> & Hi' & Hc').
    { rewrite (contents_nil_size _ Hi Hc), Hdata, zlen_zdrop; zlia. }
    cbn [mbind outcome_bind]. eexists. split_and!; [reflexivity|done| |zlia].
    rewrite Hc', Hc, Hdata, zdrop_app_ge by lia. done.
Qed.

(** The state in which the callbacks start. *)
Lemma json_idle_mid c P chunk addr d open :
  json_idle (jc_json c) P d open -> ka_holds (jc_kafka_msgs c) [] ->
  json_mid (mkjctx (mkjs (js_handler (jc_json c)) (js_stack_pos (jc_json c)) addr
      (js_last_open_map (jc_json c)) (js_last_object (jc_json c))) (jc_kafka_msgs c)
      (jc_http_response c) chunk (jc_split_sent c))
    P chunk addr 0 d open [] (jc_http_response c) (jc_split_sent c).
Proof.
  intros (Hd & _ & Hdb & Hl & Hi & Ho & Hc) Hka. unfold json_mid. cbn.
  split_and!; try done; try lia. destruct (d =? 0) eqn:E; [done|].
  ztest. split_and!; try done. lia.
Qed.

Lemma process_json_buffer_spec c P chunk addr d open evs stat h :
  json_idle (jc_json c) P d open -> ka_holds (jc_kafka_msgs c) [] ->
  yajl_parse (js_handler (jc_json c)) chunk = (evs, stat, h) -> chunk <> [] -> 0 < addr ->
  zlen P + zlen chunk <= size_limit -> ka_bytes (zlen chunk) <= size_limit ->
  string_inv (jc_http_response c) ->
  str_size (jc_http_response c) + zlen (yajl_get_error h chunk) <= size_limit ->
  exists c' ms, process_json_buffer string_addr (Ret r) (Some addr) chunk c
      = Ret (if stat then DECODER_CALLBACK_OK else DECODER_CALLBACK_INVALID_REQUEST, c') /\
    ka_holds (jc_kafka_msgs c') ms /\ (ms <> [] -> ka_payload_buffer (jc_kafka_msgs c') = addr) /\
    (let out := objects_of (P ++ chunk) d open (shift_events (zlen P) evs) in
     jc_split_sent c' ++ map (fun m => (r, msg_bytes addr chunk m)) ms
       = jc_split_sent c ++ for_topic r out /\
     map (msg_bytes addr chunk) ms = whole_objects d out) /\
    (if stat
     then jc_http_response c' = jc_http_response c /\ js_handler (jc_json c') = h /\
       json_idle (jc_json c') (P ++ chunk) (yajl_depth h)
         (open_after d open (shift_events (zlen P) evs))
     else string_inv (jc_http_response c') /\
       contents (jc_http_response c') = contents (jc_http_response c) ++ yajl_get_error h chunk).
Proof.
  intros Hidle Hka Hparse Hne Ha Hlim Hkl Hri Hrl.
  pose proof (json_idle_mid c P chunk addr d open Hidle Hka) as Hmid.
  destruct Hidle as (Hd & Hdep & _ & _ & _ & Hopen & _).
  pose proof (yajl_offsets (js_handler (jc_json c)) chunk) as Hoff.
  destruct (yajl_nesting (js_handler (jc_json c)) chunk) as (d1 & Hnest & Hd1).
  rewrite Hparse, ?Hdep in *. cbn [fst snd] in *.
  assert (0 < zlen chunk) by (destruct chunk; [done|]; zlia).
  unfold process_json_buffer. rewrite Hparse. ztest.
  destruct (run_callbacks_spec evs _ P chunk addr 0 d d1 open [] _ _ Hmid)
    as (c1 & lo & ms & sent & -> & Hlo & Hmid1 & Hsent & Hwhole); try done; [lia|].
  cbn [mbind outcome_bind map app jc_split_sent] in Hsent, Hwhole |- *.
  assert (Hsp : split_open P d open = (0 <? d)) by (unfold split_open; destruct (0 <? d) eqn:?; [|done]; lia).
  rewrite Hsp in Hsent, Hwhole.
  assert (Hout : sent ++ map (fun m => (r, msg_bytes addr chunk m)) ms = jc_split_sent c ++
    for_topic r (objects_of (P ++ chunk) d open (shift_events (zlen P) evs))).
  { rewrite <- (map_map (msg_bytes addr chunk) (fun payload => (r, payload))), Hwhole, Hsent, <- app_assoc. f_equal.
    destruct (0 <? d); [|done]. unfold for_topic. by rewrite <- map_app, take_drop. }
  clear Hsent. pose proof Hmid1 as
    (Hp1 & Hb1 & _ & _ & Hr1 & Hs1 & Hi1 & Hka1 & _). destruct stat; cbn [negb].
  - destruct (save_open_object_spec c1 P chunk addr lo d1 _ ms _ sent h Hmid1)
      as (s & -> & Hsi & Hsc & Hso); try done.
    cbn [mbind outcome_bind].
    match goal with |- context [json_buffer_end ?c2 addr] =>
      destruct (json_buffer_end_spec c2 addr ms Hka1) as (msgs & -> & Hka2 & Hpb) end.
    cbn [mbind outcome_bind]. eexists _, ms. split; [reflexivity|]. cbn. split_and!; try done.
    + by rewrite Hs1.
    + rewrite (Hd1 eq_refl). unfold json_idle. cbn.
      split_and!; try done; try lia. rewrite zlen_app. lia.
  - destruct (string_append_never_fails (jc_http_response c) (yajl_get_error h chunk) Hnf Hri Hrl)
      as (resp & Happ & Hri' & Hrc'). cbn [jc_http_response set_json]. rewrite Hr1.
    cbn [jc_http_response]. rewrite Happ. cbn [mbind outcome_bind].
    match goal with |- context [json_buffer_end ?c2 addr] =>
      destruct (json_buffer_end_spec c2 addr ms Hka1) as (msgs & -> & Hka2 & Hpb) end.
    cbn [mbind outcome_bind]. eexists _, ms. split; [reflexivity|]. cbn. split_and!; try done.
    by rewrite Hs1.
Qed.
End json_lemmas.

(** ** The error report *)

Lemma error_message_json_spec {alloc : Allocator} s text rc n :
  never_fails alloc -> string_inv s -> contents s = concat text -> Forall utf8_char text ->
  zlen (json_escape text) <= size_limit - 8192 ->
  exists ret, error_message_json s rc n = Ret ret /\ string_inv ret /\
    contents ret =
      bs "{" ++ [dquote] ++ bs "messages_queued" ++ [dquote] ++ bs ":" ++ print_zu n ++
      (if decide (rc = DECODER_CALLBACK_OK) then []
       else bs "," ++ [dquote] ++ bs "json_decoder_error" ++ [dquote] ++ bs ":" ++ [dquote] ++
            json_escape text ++ [dquote]) ++
      bs "}".
Proof.
  intros Hnf Hi Hc Htext Hlim. unfold error_message_json, string_append_string, size_limit in *.
  pose proof (print_zu_length n) as Hn.
  match goal with |- context [string_printf _ _ ?t] => set (head := t) end.
  assert (Hhead : 0 < zlen head <= 39).
  { unfold head. rewrite !zlen_app. zlen_lits. zlia. }
  pose proof (string_printf_initial head 0 ltac:(lia)) as Hp.
  destruct (Hnf None 4096) as [b Hb]. rewrite Hb in Hp. destruct Hp as (r1 & -> & Hi1 & Hc1).
  cbn [mbind outcome_bind]. ztest.
  case_bool_decide as Hrc; cbn [negb].
  - cbn [mbind outcome_bind].
    destruct (string_append_contents r1 (bs "}") head Hnf Hi1 Hc1) as (r2 & -> & Hi2 & Hc2).
    { unfold size_limit. zlen_lits. lia. }
    cbn [mbind outcome_bind]. exists r2. split; [done|]. split; [done|].
    rewrite Hc2, decide_True by done. unfold head. by rewrite <- !app_assoc.
  - match goal with |- context [string_append r1 ?t] => set (key := t) end.
    assert (Hkey : zlen key = 23) by done.
    destruct (string_append_contents r1 key head Hnf Hi1 Hc1) as (r2 & -> & Hi2 & Hc2).
    { unfold size_limit. lia. }
    cbn [mbind outcome_bind]. rewrite Hc. pose proof (zlen_contents _ Hi2) as Hs2.
    rewrite Hc2, zlen_app in Hs2. pose proof (utf8_chars_length text Htext).
    destruct (json_string_loop text (2 + length (concat text)) r2 Htext)
      as (rc3 & r3 & -> & Hi3 & Hcase); [lia|done|unfold size_limit; lia|].
    destruct Hcase as [[-> Hc3]|[_ []]]; [|done]. rewrite Hc2 in Hc3. cbn [mbind outcome_bind].
    destruct (string_append_contents r3 [dquote] _ Hnf Hi3 Hc3) as (r4 & -> & Hi4 & Hc4).
    { unfold size_limit. zlia. }
    cbn [mbind outcome_bind].
    destruct (string_append_contents r4 (bs "}") _ Hnf Hi4 Hc4) as (r5 & -> & Hi5 & Hc5).
    { unfold size_limit. zlen_lits. zlia. }
    cbn [mbind outcome_bind]. exists r5. split; [done|]. split; [done|].
    rewrite Hc5, decide_False by done. unfold head, key. by rewrite <- !app_assoc.
Qed.

(** ** A yajl for witnesses

    It reports every brace, and rejects a brace that closes nothing. *)

Fixpoint brace_scan (depth pos : Z) (text : bytes) : list (yajl_event * Z) * bool * Z :=
  match text with
  | [] => ([], true, depth)
  | c :: text =>
      if bool_decide (c = x7b) then
        let '(evs, ok, d) := brace_scan (depth + 1) (pos + 1) text in
        ((yajl_start_map, pos + 1) :: evs, ok, d)
      else if bool_decide (c = x7d) then
        if depth <=? 0 then ([], false, depth)
        else let '(evs, ok, d) := brace_scan (depth - 1) (pos + 1) text in
             ((yajl_end_map, pos + 1) :: evs, ok, d)
      else brace_scan depth (pos + 1) text
  end.

Lemma brace_offsets text depth pos :
  offsets_in pos (pos + zlen text) (brace_scan depth pos text).1.1.
Proof.
  assert (Hmono : forall evs lo lo' hi hi', lo' <= lo -> hi <= hi' ->
    offsets_in lo hi evs -> offsets_in lo' hi' evs).
  { induction evs as [|[e c] evs IH]; cbn; [done|]. intros lo lo' hi hi' ? ? [? H]. split; [lia|].
    by apply (IH c c hi hi'). }
  revert depth pos. induction text as [|c text IH]; intros depth pos; [done|].
  cbn [brace_scan]. pose proof (zlen_nonneg text). rewrite zlen_cons.
  destruct (bool_decide (c = x7b)); [|destruct (bool_decide (c = x7d))].
  - specialize (IH (depth + 1) (pos + 1)). destruct (brace_scan _ _ text) as [[evs ok] d].
    cbn in *. split; [lia|]. eapply Hmono; [..|exact IH]; lia.
  - destruct (depth <=? 0); [done|]. specialize (IH (depth - 1) (pos + 1)).
    destruct (brace_scan _ _ text) as [[evs ok] d]. cbn in *. split; [lia|].
    eapply Hmono; [..|exact IH]; lia.
  - specialize (IH depth (pos + 1)). eapply Hmono; [..|exact IH]; lia.
Qed.

Lemma brace_nesting text depth pos :
  exists d, nesting depth (brace_scan depth pos text).1.1 = Some d /\
    ((brace_scan depth pos text).1.2 = true -> (brace_scan depth pos text).2 = d).
Proof.
  revert depth pos. induction text as [|c text IH]; intros depth pos; [by exists depth|].
  cbn [brace_scan]. destruct (bool_decide (c = x7b)); [|destruct (bool_decide (c = x7d))].
  - destruct (IH (depth + 1) (pos + 1)) as (d & H1 & H2). exists d.
    destruct (brace_scan _ _ text) as [[evs ok] d']. done.
  - destruct (depth <=? 0) eqn:E; [by exists depth|].
    destruct (IH (depth - 1) (pos + 1)) as (d & H1 & H2). exists d.
    destruct (brace_scan _ _ text) as [[evs ok] d']. cbn in *. by rewrite E.
  - apply IH.
Qed.

Lemma brace_shift text depth pos n :
  brace_scan depth (pos + n) text =
    let '(evs, ok, d) := brace_scan depth pos text in (shift_events n evs, ok, d).
Proof.
  revert depth pos. induction text as [|c text IH]; intros depth pos; [done|].
  cbn [brace_scan]. replace (pos + n + 1) with (pos + 1 + n) by lia. rewrite !IH.
  destruct (bool_decide (c = x7b)); [|destruct (bool_decide (c = x7d))].
  - by destruct (brace_scan _ _ text) as [[evs ok] d].
  - destruct (depth <=? 0); [done|]. by destruct (brace_scan _ _ text) as [[evs ok] d].
  - done.
Qed.

Lemma brace_stream a b depth pos evs d1 :
  brace_scan depth pos a = (evs, true, d1) ->
  brace_scan depth pos (a ++ b) =
    let '(evs2, ok, d2) := brace_scan d1 (pos + zlen a) b in (evs ++ evs2, ok, d2).
Proof.
  revert depth pos evs. induction a as [|c a IH]; intros depth pos evs; cbn [brace_scan app].
  { intros [= <- <-]. rewrite zlen_nil, Z.add_0_r. by destruct (brace_scan _ _ b) as [[??]?]. }
  rewrite zlen_cons, Z.add_assoc.
  destruct (bool_decide (c = x7b)); [|destruct (bool_decide (c = x7d)); [destruct (depth <=? 0); [done|]|]].
  - destruct (brace_scan (depth + 1) _ a) as [[evs' ok'] d'] eqn:E. intros [= <- -> ->].
    rewrite (IH _ _ _ E). by destruct (brace_scan _ _ b) as [[??]?].
  - destruct (brace_scan (depth - 1) _ a) as [[evs' ok'] d'] eqn:E. intros [= <- -> ->].
    rewrite (IH _ _ _ E). by destruct (brace_scan _ _ b) as [[??]?].
  - apply IH.
Qed.

#[refine] Definition brace_yajl : Yajl := {|
  yajl_handle := Z;
  yajl_alloc := Some 0;
  yajl_parse depth text := brace_scan depth 0 text;
  yajl_get_error _ _ := bs "parse error";
  yajl_depth depth := depth
|}.
Proof.
  - by intros h [= <-].
  - intros h b. apply (brace_offsets b h 0).
  - intros h b. apply brace_nesting.
  - intros h a b evs h1 H. rewrite (brace_stream a b h 0 evs h1 H), Z.add_0_l.
    rewrite <- (Z.add_0_l (zlen a)) at 1. rewrite brace_shift.
    by destruct (brace_scan h1 0 b) as [[??]?].
Defined.

(** ** Properties *)

(** With memory available the report of an error is the JSON object with the
    number of messages queued and the decoder's error text, escaped so that a
    JSON reader recovers it. *)
Theorem error_message_json_correct {alloc : Allocator} (s : cstring) (text : list bytes)
    (rc : decoder_callback_err) (n : Z) :
  never_fails alloc -> string_inv s -> contents s = concat text -> Forall json_char text ->
  zlen (json_escape text) <= size_limit - 8192 -> rc <> DECODER_CALLBACK_OK -> 0 <= n < 2 ^ 64 ->
  exists ret digits e, error_message_json s rc n = Ret ret /\ string_inv ret /\
    contents ret =
      bs "{" ++ [dquote] ++ bs "messages_queued" ++ [dquote] ++ bs ":" ++ digits ++
      bs "," ++ [dquote] ++ bs "json_decoder_error" ++ [dquote] ++ bs ":" ++ [dquote] ++
      e ++ [dquote] ++ bs "}" /\
    read_decimal digits = n /\ json_unescape e = Some (contents s).
Proof.
  intros Hnf Hi Hc Ht Hlim Hrc Hn.
  destruct (error_message_json_spec s text rc n Hnf Hi Hc (json_chars_utf8 text Ht) Hlim) as (ret & H1 & H2 & H3).
  exists ret, (print_zu n), (json_escape text). split_and!; try done.
  - rewrite H3, decide_False by done. by rewrite <- !app_assoc.
  - apply print_zu_read. lia.
  - rewrite Hc. by apply json_unescape_escape.
Qed.

Lemma error_message_json_correct_witness :
  exists ret digits e, error_message_json N2K_STRING_INITIALIZER DECODER_CALLBACK_INVALID_REQUEST 3
      = Ret ret /\ string_inv ret /\
    contents ret =
      bs "{" ++ [dquote] ++ bs "messages_queued" ++ [dquote] ++ bs ":" ++ digits ++
      bs "," ++ [dquote] ++ bs "json_decoder_error" ++ [dquote] ++ bs ":" ++ [dquote] ++
      e ++ [dquote] ++ bs "}" /\
    read_decimal digits = 3 /\ json_unescape e = Some (contents N2K_STRING_INITIALIZER).
Proof.
  apply (error_message_json_correct N2K_STRING_INITIALIZER []).
  - exact total_never_fails.
  - exact string_init_inv.
  - reflexivity.
  - constructor.
  - vm_compute. discriminate.
  - discriminate.
  - lia.
Defined.
