(* ===== verification/ZzXml.v ===== *)
(** * The XML decoder of zz_http2k

    decoder/zz_http2k/zz_http2k_parser_xml.c: expat's callbacks drive a JSON
    generator of yajl whose output is collected in a string; each XML document
    becomes one message.

    expat is the class [Expat]: a parse call yields the callbacks it would make
    and how it ends.  The generator is the class [YajlGen]: a call yields a
    status and the pieces it prints. *)

From S2P Require Import Prelude CString KafkaArray Pair.

(** ** Status codes *)

Inductive yajl_gen_status :=
| yajl_gen_status_ok
| yajl_gen_keys_must_be_strings
| yajl_max_depth_exceeded
| yajl_gen_in_error_state
| yajl_gen_generation_complete
| yajl_gen_invalid_number
| yajl_gen_no_buf
| yajl_gen_invalid_string
| yajl_gen_other_status.

#[export] Instance yajl_gen_status_eq_dec : EqDecision yajl_gen_status.
Proof. solve_decision. Defined.

Inductive XML_Error :=
| XML_ERROR_NONE
| XML_ERROR_NO_MEMORY
| XML_ERROR_SYNTAX
| XML_ERROR_NO_ELEMENTS
| XML_ERROR_INVALID_TOKEN
| XML_ERROR_UNCLOSED_TOKEN
| XML_ERROR_PARTIAL_CHAR
| XML_ERROR_TAG_MISMATCH
| XML_ERROR_DUPLICATE_ATTRIBUTE
| XML_ERROR_JUNK_AFTER_DOC_ELEMENT
| XML_ERROR_PARAM_ENTITY_REF
| XML_ERROR_UNDEFINED_ENTITY
| XML_ERROR_RECURSIVE_ENTITY_REF
| XML_ERROR_ASYNC_ENTITY
| XML_ERROR_BAD_CHAR_REF
| XML_ERROR_BINARY_ENTITY_REF
| XML_ERROR_ATTRIBUTE_EXTERNAL_ENTITY_REF
| XML_ERROR_MISPLACED_XML_PI
| XML_ERROR_UNKNOWN_ENCODING
| XML_ERROR_INCORRECT_ENCODING
| XML_ERROR_UNCLOSED_CDATA_SECTION
| XML_ERROR_EXTERNAL_ENTITY_HANDLING
| XML_ERROR_NOT_STANDALONE
| XML_ERROR_UNEXPECTED_STATE
| XML_ERROR_ENTITY_DECLARED_IN_PE
| XML_ERROR_FEATURE_REQUIRES_XML_DTD
| XML_ERROR_CANT_CHANGE_FEATURE_ONCE_PARSING
| XML_ERROR_UNBOUND_PREFIX
| XML_ERROR_UNDECLARING_PREFIX
| XML_ERROR_INCOMPLETE_PE
| XML_ERROR_XML_DECL
| XML_ERROR_TEXT_DECL
| XML_ERROR_PUBLICID
| XML_ERROR_SUSPENDED
| XML_ERROR_NOT_SUSPENDED
| XML_ERROR_ABORTED
| XML_ERROR_FINISHED
| XML_ERROR_SUSPEND_PE
| XML_ERROR_RESERVED_PREFIX_XML
| XML_ERROR_RESERVED_PREFIX_XMLNS
| XML_ERROR_RESERVED_NAMESPACE_URI
| XML_ERROR_INVALID_ARGUMENT
| XML_ERROR_OTHER.

#[export] Instance XML_Error_eq_dec : EqDecision XML_Error.
Proof. solve_decision. Defined.

Record code_str := mkcode { cs_err : bytes; cs_err_code : decoder_callback_err }.

(** [XML_ErrorString] of expat. *)
Class ExpatStrings := { XML_ErrorString : XML_Error -> bytes }.

Definition expat_err2codestr `{ExpatStrings} (xml_err : XML_Error) : code_str :=
  mkcode (XML_ErrorString xml_err)
    match xml_err with
    | XML_ERROR_NONE => DECODER_CALLBACK_OK
    | XML_ERROR_NO_MEMORY => DECODER_CALLBACK_MEMORY_ERROR
    | XML_ERROR_SUSPENDED | XML_ERROR_ABORTED | XML_ERROR_FINISHED
    | XML_ERROR_SUSPEND_PE | XML_ERROR_INVALID_ARGUMENT | XML_ERROR_OTHER =>
        DECODER_CALLBACK_GENERIC_ERROR
    | _ => DECODER_CALLBACK_INVALID_REQUEST
    end.

Definition yajl_gen_err2codestr (s : yajl_gen_status) : code_str :=
  match s with
  | yajl_gen_status_ok => mkcode (bs "No error") DECODER_CALLBACK_OK
  | yajl_gen_keys_must_be_strings =>
      mkcode (bs "Must generate a string here") DECODER_CALLBACK_GENERIC_ERROR
  | yajl_max_depth_exceeded =>
      mkcode (bs "JSON max depth (%d) exceeded") DECODER_CALLBACK_INVALID_REQUEST
  | yajl_gen_in_error_state =>
      mkcode (bs "Trying to generate in an error state") DECODER_CALLBACK_GENERIC_ERROR
  | yajl_gen_generation_complete =>
      mkcode (bs "Trying to generate over a complete JSON document")
        DECODER_CALLBACK_GENERIC_ERROR
  | yajl_gen_invalid_number =>
      mkcode (bs "Invalid double on yajl_gen") DECODER_CALLBACK_GENERIC_ERROR
  | yajl_gen_no_buf =>
      mkcode (bs "Trying to generate with no buffer") DECODER_CALLBACK_GENERIC_ERROR
  | yajl_gen_invalid_string =>
      mkcode (bs "Trying to generate an invalid utf-8 string") DECODER_CALLBACK_INVALID_REQUEST
  | yajl_gen_other_status => mkcode (bs "Unknown error") DECODER_CALLBACK_GENERIC_ERROR
  end.

(** ** The stack of booleans *)

Definition CHAR_BIT : Z := 8.

Definition stack_bytes : Z := 2 * 128 / CHAR_BIT.

(** The bytes of [stack_boolean_info] as unsigned numbers. *)
Abbreviation bit_vector := (list Z).

Definition bit_test (v : bit_vector) (bit_position : Z) : outcome bool :=
  match v !! Z.to_nat (bit_position / CHAR_BIT) with
  | Some b => Ret (negb (Z.land b (Z.shiftl 1 (bit_position mod CHAR_BIT)) =? 0))
  | None => Fault bad_access
  end.

Definition bit_update (f : Z -> Z -> Z) (v : bit_vector) (bit_position : Z) : outcome bit_vector :=
  match v !! Z.to_nat (bit_position / CHAR_BIT) with
  | Some b =>
      Ret (<[Z.to_nat (bit_position / CHAR_BIT) :=
              f b (Z.shiftl 1 (bit_position mod CHAR_BIT))]> v)
  | None => Fault bad_access
  end.

Definition bit_set : bit_vector -> Z -> outcome bit_vector := bit_update Z.lor.

Definition bit_clear : bit_vector -> Z -> outcome bit_vector :=
  bit_update (fun b mask => Z.land b (Z.lnot mask)).

Definition text_printed_bit_from_frame (stack_position : Z) : Z := stack_position * 2.

Definition children_printed_bit_from_frame (stack_position : Z) : Z := stack_position * 2 + 1.

Definition set_current_stack_text_printed (v : bit_vector) (p : Z) : outcome bit_vector :=
  bit_set v (text_printed_bit_from_frame p).

Definition clear_current_stack_text_printed (v : bit_vector) (p : Z) : outcome bit_vector :=
  bit_clear v (text_printed_bit_from_frame p).

Definition test_current_stack_text_printed (v : bit_vector) (p : Z) : outcome bool :=
  bit_test v (text_printed_bit_from_frame p).

Definition set_current_stack_children_printed (v : bit_vector) (p : Z) : outcome bit_vector :=
  bit_set v (children_printed_bit_from_frame p).

Definition clear_current_stack_children_printed (v : bit_vector) (p : Z) : outcome bit_vector :=
  bit_clear v (children_printed_bit_from_frame p).

Definition test_current_stack_children_printed (v : bit_vector) (p : Z) : outcome bool :=
  bit_test v (children_printed_bit_from_frame p).

(** ** The generator *)

Inductive gen_token :=
| GMapOpen
| GMapClose
| GArrayOpen
| GArrayClose
| GString (s : bytes).

(** [gen_call g t] is the status of the call, the texts it hands to the print
    callback and the generator after it.  [gen_depth] counts the open maps and
    arrays; yajl allows less than [YAJL_MAX_DEPTH] of them.  A string is printed
    after what its place needs, quoted and escaped byte by byte. *)
Class YajlGen := {
  yajl_gen : Type;
  yajl_gen_alloc : yajl_gen;
  gen_call : yajl_gen -> gen_token -> yajl_gen_status * list bytes * yajl_gen;
  yajl_gen_reset : yajl_gen -> yajl_gen;
  gen_depth : yajl_gen -> Z;
  gen_prefix : yajl_gen -> bytes;
  gen_escape : bytes -> bytes;
  gen_depth_alloc : gen_depth yajl_gen_alloc = 0;
  gen_depth_reset : forall g, gen_depth (yajl_gen_reset g) = 0;
  gen_depth_call : forall g t out g', gen_call g t = (yajl_gen_status_ok, out, g') ->
    gen_depth g' = gen_depth g + match t with
                                 | GMapOpen | GArrayOpen => 1
                                 | GMapClose | GArrayClose => -1
                                 | GString _ => 0
                                 end;
  gen_depth_max : forall g t out g', gen_call g t = (yajl_gen_status_ok, out, g') ->
    gen_depth g' < 128;
  gen_string_text : forall g s out g', gen_call g (GString s) = (yajl_gen_status_ok, out, g') ->
    concat out = gen_prefix g ++ [dquote] ++ gen_escape s ++ [dquote];
  gen_string_state : forall g s s',
    (gen_call g (GString s)).1.1 = (gen_call g (GString s')).1.1 /\
    (gen_call g (GString s)).2 = (gen_call g (GString s')).2;
  gen_prefix_reset : forall g, gen_prefix (yajl_gen_reset g) = [];
  gen_string_reset : forall g s,
    (gen_call (yajl_gen_reset g) (GString s)).1.1 = yajl_gen_status_ok;
  gen_escape_app : forall a b, gen_escape (a ++ b) = gen_escape a ++ gen_escape b
}.

(** ** The parser *)

(** Callbacks of expat. *)
Inductive xml_event :=
| XStart (el : bytes) (attr : list (bytes * bytes))
| XEnd (el : bytes)
| XText (text : bytes).

(** What [XML_GetErrorCode], [XML_GetCurrentLineNumber],
    [XML_GetCurrentColumnNumber] and [XML_GetCurrentByteIndex] return. *)
Record xml_position := mkpos {
  xp_err : XML_Error;
  xp_line : Z;
  xp_column : Z;
  xp_index : Z
}.

(** A callback, the position reported while it runs, the byte index reported
    after the parser was stopped in it, and whether it is still made when the
    parser was stopped in the callback before it. *)
Record xml_callback := mkcb {
  cb_event : xml_event;
  cb_position : xml_position;
  cb_stop_index : Z;
  cb_late : bool
}.

Inductive XML_Status := XML_STATUS_OK | XML_STATUS_ERROR | XML_STATUS_SUSPENDED.

#[export] Instance XML_Status_eq_dec : EqDecision XML_Status.
Proof. solve_decision. Defined.

(** [XML_Parse] of a parser that is not stopped: the callbacks, the status and
    position at the end, and the parser afterwards. *)
Class Expat := {
  XML_Parser : Type;
  XML_ParserCreate : option XML_Parser;
  XML_Parse : XML_Parser -> bytes -> list xml_callback * XML_Status * xml_position * XML_Parser;
  XML_ParserReset : XML_Parser -> XML_Parser
}.

(** ** The session *)

Definition NO_JSON_LAST_OPEN_MAP : Z := -1.

Section xml.
Context {alloc : Allocator} {abi : Abi} {gen : YajlGen} {strings : ExpatStrings}.

(** The XML part of [struct zz_session] with the fields the two decoders share;
    [xc_pos] is what expat reports now and [xc_stopped] whether [XML_StopParser]
    was called. *)
Record xml_ctx := mkxc {
  xc_buf : cstring;
  xc_last_open_map : Z;
  xc_stack_pos : Z;
  xc_bits : bit_vector;
  xc_gen : yajl_gen;
  xc_rc : decoder_callback_err;
  xc_response : cstring;
  xc_msgs : kafka_message_array;
  xc_pos : xml_position;
  xc_stopped : bool
}.

Definition set_buf (c : xml_ctx) (s : cstring) : xml_ctx :=
  mkxc s (xc_last_open_map c) (xc_stack_pos c) (xc_bits c) (xc_gen c) (xc_rc c) (xc_response c)
    (xc_msgs c) (xc_pos c) (xc_stopped c).

Definition set_open_map (c : xml_ctx) (n : Z) : xml_ctx :=
  mkxc (xc_buf c) n (xc_stack_pos c) (xc_bits c) (xc_gen c) (xc_rc c) (xc_response c)
    (xc_msgs c) (xc_pos c) (xc_stopped c).

Definition set_xml_stack_pos (c : xml_ctx) (n : Z) : xml_ctx :=
  mkxc (xc_buf c) (xc_last_open_map c) n (xc_bits c) (xc_gen c) (xc_rc c) (xc_response c)
    (xc_msgs c) (xc_pos c) (xc_stopped c).

Definition set_bits (c : xml_ctx) (v : bit_vector) : xml_ctx :=
  mkxc (xc_buf c) (xc_last_open_map c) (xc_stack_pos c) v (xc_gen c) (xc_rc c) (xc_response c)
    (xc_msgs c) (xc_pos c) (xc_stopped c).

Definition set_gen (c : xml_ctx) (g : yajl_gen) : xml_ctx :=
  mkxc (xc_buf c) (xc_last_open_map c) (xc_stack_pos c) (xc_bits c) g (xc_rc c) (xc_response c)
    (xc_msgs c) (xc_pos c) (xc_stopped c).

Definition set_rc (c : xml_ctx) (rc : decoder_callback_err) : xml_ctx :=
  mkxc (xc_buf c) (xc_last_open_map c) (xc_stack_pos c) (xc_bits c) (xc_gen c) rc (xc_response c)
    (xc_msgs c) (xc_pos c) (xc_stopped c).

Definition set_response (c : xml_ctx) (s : cstring) : xml_ctx :=
  mkxc (xc_buf c) (xc_last_open_map c) (xc_stack_pos c) (xc_bits c) (xc_gen c) (xc_rc c) s
    (xc_msgs c) (xc_pos c) (xc_stopped c).

Definition set_msgs (c : xml_ctx) (a : kafka_message_array) : xml_ctx :=
  mkxc (xc_buf c) (xc_last_open_map c) (xc_stack_pos c) (xc_bits c) (xc_gen c) (xc_rc c)
    (xc_response c) a (xc_pos c) (xc_stopped c).

Definition set_pos (c : xml_ctx) (p : xml_position) : xml_ctx :=
  mkxc (xc_buf c) (xc_last_open_map c) (xc_stack_pos c) (xc_bits c) (xc_gen c) (xc_rc c)
    (xc_response c) (xc_msgs c) p (xc_stopped c).

Definition set_stopped (c : xml_ctx) (b : bool) : xml_ctx :=
  mkxc (xc_buf c) (xc_last_open_map c) (xc_stack_pos c) (xc_bits c) (xc_gen c) (xc_rc c)
    (xc_response c) (xc_msgs c) (xc_pos c) b.

(** The digits of [%ld]. *)
Definition print_ld (n : Z) : bytes := if n <? 0 then bs "-" ++ print_zu (- n) else print_zu n.

Record xml_parser_err := mkerr {
  error_text : bytes;
  xml_error_text : bytes;
  json_text : bytes;
  return_code : decoder_callback_err
}.

Definition xml_error_text_of (errors : xml_parser_err) (p : xml_position) : bytes :=
  bs "<errors><error><what>" ++ error_text errors ++
  bs "</what><json><detail>" ++ json_text errors ++
  bs "</<detail></json><input_parser><detail>" ++ xml_error_text errors ++
  bs "</detail><line>" ++ print_zu (xp_line p) ++
  bs "</line><column>" ++ print_zu (xp_column p) ++
  bs "</column><byte>" ++ print_ld (xp_index p) ++
  bs "</byte></input_parser></error></errors>".

(** Two rounds are enough for [string_printf] to return, if it ever does. *)
Definition queue_xml_error0 (c : xml_ctx) (errors : xml_parser_err) : outcome xml_ctx :=
  let c1 := set_rc c (return_code errors) in
  '(string_printf_rc, response) ← string_printf 2 (xc_response c1)
                                    (xml_error_text_of errors (xc_pos c1));
  let c2 := set_response c1 response in
  if string_printf_rc <? 0 then Ret c2 else Ret (set_stopped c2 true).

Definition queue_xml_error (c : xml_ctx) (text : bytes) (status : yajl_gen_status)
    : outcome xml_ctx :=
  let yajl_rc := yajl_gen_err2codestr status in
  let xml_rc := expat_err2codestr (xp_err (xc_pos c)) in
  queue_xml_error0 c
    (mkerr text (cs_err xml_rc) (cs_err yajl_rc)
       (if bool_decide (cs_err_code yajl_rc <> DECODER_CALLBACK_OK)
        then cs_err_code yajl_rc else cs_err_code xml_rc)).

Definition yajl_print_callback (c : xml_ctx) (str : bytes) : outcome xml_ctx :=
  '(append_rc, s) ← string_append (xc_buf c) str;
  let c1 := set_buf c s in
  if negb (append_rc =? 0)
  then queue_xml_error c1 (bs "Unable to append JSON text (OOM?)") yajl_gen_status_ok
  else Ret c1.

Fixpoint print_all (c : xml_ctx) (out : list bytes) : outcome xml_ctx :=
  match out with
  | [] => Ret c
  | str :: out => c1 ← yajl_print_callback c str; print_all c1 out
  end.

Definition yajl_gen_do (c : xml_ctx) (t : gen_token) : outcome (yajl_gen_status * xml_ctx) :=
  let '(st, out, g) := gen_call (xc_gen c) t in
  c1 ← print_all c out;
  Ret (st, set_gen c1 g).

(** The handlers go to their label [err] with a text and a status. *)
Inductive gen_result :=
| GenOk (c : xml_ctx)
| GenErr (c : xml_ctx) (what : bytes) (st : yajl_gen_status).

Definition gen_then (m : outcome gen_result) (k : xml_ctx -> outcome gen_result)
    : outcome gen_result :=
  r ← m; match r with GenOk c => k c | GenErr c what st => Ret (GenErr c what st) end.

(** [GEN_OR_GOTO_ERR] of a function that makes the calls [ts] up to the first
    error. *)
Fixpoint gen_or_goto_err (err_str : bytes) (ts : list gen_token) (c : xml_ctx)
    : outcome gen_result :=
  match ts with
  | [] => Ret (GenOk c)
  | t :: ts =>
      '(st, c1) ← yajl_gen_do c t;
      if bool_decide (st = yajl_gen_status_ok) then gen_or_goto_err err_str ts c1
      else Ret (GenErr c1 err_str st)
  end.

Definition yajl_gen_key_strlen_value (key value : bytes) : list gen_token :=
  [GString key; GString value].

Definition yajl_gen_key_value_strlen (key value : bytes) : list gen_token :=
  yajl_gen_key_strlen_value key value.

(** The loop over the attributes; [first] says whether this is the first. *)
Fixpoint gen_attributes (first : bool) (attr : list (bytes * bytes)) (c : xml_ctx)
    : outcome gen_result :=
  match attr with
  | [] => Ret (GenOk c)
  | (name, value) :: attr =>
      gen_then
        (if first then
           gen_then (gen_or_goto_err (bs "Can't gen JSON attributes key")
                       [GString (bs "attributes")] c)
             (gen_or_goto_err (bs "Can't gen JSON attributes open brace") [GMapOpen])
         else Ret (GenOk c)) (fun c1 =>
      gen_then (gen_or_goto_err (bs "Can't gen JSON attribute key + val")
                  (yajl_gen_key_value_strlen name value) c1) (fun c2 =>
      gen_then
        (match attr with
         | [] => gen_or_goto_err (bs "Can't gen JSON close brace") [GMapClose] c2
         | _ => Ret (GenOk c2)
         end) (fun c3 =>
      gen_attributes false attr c3)))
  end.

(** The part before the new object: where the document starts, or the place of
    the child in its parent. *)
Definition start_place (c : xml_ctx) : outcome gen_result :=
  if xc_stack_pos c =? 0 then Ret (GenOk (set_open_map c (string_size (xc_buf c))))
  else
    printed ← test_current_stack_children_printed (xc_bits c) (xc_stack_pos c);
    if negb printed then
      gen_then (gen_or_goto_err (bs "Can't gen JSON children key") [GString (bs "children")] c)
        (fun c1 =>
      gen_then (gen_or_goto_err (bs "Can't gen JSON child array open bracket") [GArrayOpen] c1)
        (fun c2 =>
      v ← set_current_stack_children_printed (xc_bits c2) (xc_stack_pos c2);
      Ret (GenOk (set_bits c2 v))))
    else gen_or_goto_err (bs "Can't gen JSON child array close brace") [GMapClose] c.

Definition start_object (el : bytes) (attr : list (bytes * bytes)) (c : xml_ctx)
    : outcome gen_result :=
  let c1 := set_xml_stack_pos c (wrap64 (xc_stack_pos c + 1)) in
  v1 ← clear_current_stack_text_printed (xc_bits c1) (xc_stack_pos c1);
  v2 ← clear_current_stack_children_printed v1 (xc_stack_pos c1);
  gen_then (gen_or_goto_err (bs "Can't gen JSON object open brace") [GMapOpen] (set_bits c1 v2))
    (fun c2 =>
  gen_then (gen_or_goto_err (bs "Can't gen JSON text")
              (yajl_gen_key_value_strlen (bs "tag") el) c2)
    (gen_attributes true attr)).

(** The end of a handler that queues the error of its label [err]. *)
Definition handler_end (m : outcome gen_result) : outcome xml_ctx :=
  r ← m;
  match r with
  | GenOk c => Ret c
  | GenErr c what st =>
      c1 ← queue_xml_error c what st;
      Ret (set_open_map c1 NO_JSON_LAST_OPEN_MAP)
  end.

Definition zz_parse_start_xml_element (c : xml_ctx) (el : bytes) (attr : list (bytes * bytes))
    : outcome xml_ctx :=
  if 0 <? string_size (xc_response c) then Ret c
  else handler_end (gen_then (start_place c) (start_object el attr)).

(** The document is complete: its text becomes a message and the parser stops. *)
Definition end_document (c : xml_ctx) : outcome xml_ctx :=
  let buf_siz := string_size (xc_buf c) in
  _ ← c_assert (0 <=? xc_last_open_map c);
  _ ← c_assert (xc_last_open_map c <? buf_siz);
  '(add_rc, msgs) ← kafka_msg_array_add (xc_msgs c)
                      (new_msg (xc_last_open_map c) (buf_siz - xc_last_open_map c));
  let c1 := set_gen (set_open_map (set_msgs c msgs) NO_JSON_LAST_OPEN_MAP)
              (yajl_gen_reset (xc_gen c)) in
  c2 ← (if negb (add_rc =? 0)
        then queue_xml_error c1 (bs "Couldn't add kafka message (OOM?)") yajl_gen_status_ok
        else Ret c1);
  Ret (set_stopped c2 true).

Definition zz_parse_end_xml_element (c : xml_ctx) : outcome xml_ctx :=
  if 0 <? string_size (xc_response c) then Ret c
  else
    printed ← test_current_stack_children_printed (xc_bits c) (xc_stack_pos c);
    handler_end
      (gen_then
         (if printed : bool then
            gen_then (gen_or_goto_err (bs "Can't gen child JSON close key") [GMapClose] c)
              (gen_or_goto_err (bs "Can't gen JSON child array close bracket") [GArrayClose])
          else Ret (GenOk c)) (fun c1 =>
       let c2 := set_xml_stack_pos c1 (wrap64 (xc_stack_pos c1 - 1)) in
       if 0 <? xc_stack_pos c2 then Ret (GenOk c2)
       else
         gen_then (gen_or_goto_err (bs "Can't gen child JSON close key") [GMapClose] c2)
           (fun c3 => c4 ← end_document c3; Ret (GenOk c4)))).

(** [temp_ok] says whether the temporary generator of the thread could be
    allocated; it is reset and cleared before each use. *)
Definition zz_parse_xml_character_data (temp_ok : bool) (c : xml_ctx) (text : bytes)
    : outcome xml_ctx :=
  let p := xc_stack_pos c in
  text_printed ← test_current_stack_text_printed (xc_bits c) p;
  if negb text_printed then
    children ← test_current_stack_children_printed (xc_bits c) p;
    let key := if children : bool then bs "tail" else bs "text" in
    r ← gen_or_goto_err (bs "Can't gen JSON attribute key + val in XML tag text")
          (yajl_gen_key_strlen_value key text) c;
    match r with
    | GenErr c1 what _ => queue_xml_error c1 what yajl_gen_status_ok
    | GenOk c1 =>
        v ← set_current_stack_text_printed (xc_bits c1) p;
        Ret (set_bits c1 v)
    end
  else if negb temp_ok then
    queue_xml_error c (bs "Can't allocate temporary JSON generator (OOM?)") yajl_gen_status_ok
  else
    let '(st, out, _) := gen_call (yajl_gen_reset yajl_gen_alloc) (GString text) in
    if negb (bool_decide (st = yajl_gen_status_ok)) then
      queue_xml_error c (bs "Can't generate XML text in JSON string") yajl_gen_status_ok
    else
      s1 ← string_pop_back (xc_buf c);
      '(_, s2) ← string_append s1 (zdrop 1 (concat out));
      Ret (set_buf c s2).

Definition handle_event (temp_ok : bool) (c : xml_ctx) (e : xml_event) : outcome xml_ctx :=
  match e with
  | XStart el attr => zz_parse_start_xml_element c el attr
  | XEnd _ => zz_parse_end_xml_element c
  | XText text => zz_parse_xml_character_data temp_ok c text
  end.

(** expat makes the callbacks until one of them stops it; [idx] is the byte
    index it reports then. *)
Fixpoint run_handlers (temp_ok : bool) (cbs : list xml_callback) (idx : Z) (c : xml_ctx)
    : outcome (xml_ctx * Z) :=
  match cbs with
  | [] => Ret (c, idx)
  | cb :: cbs =>
      if xc_stopped c && negb (cb_late cb) then Ret (c, idx)
      else
        c1 ← handle_event temp_ok (set_pos c (cb_position cb)) (cb_event cb);
        run_handlers temp_ok cbs (if xc_stopped c then idx else cb_stop_index cb) c1
  end.

Context {expat : Expat}.

(** One call of [XML_Parse]: status, parser and context; a stopped parser ends
    with [XML_ERROR_ABORTED]. *)
Definition xml_parse (temp_ok : bool) (p : XML_Parser) (buffer : bytes) (c : xml_ctx)
    : outcome (XML_Status * XML_Parser * xml_ctx) :=
  let '(cbs, stat, pos, p1) := XML_Parse p buffer in
  '(c1, idx) ← run_handlers temp_ok cbs 0 (set_stopped c false);
  if xc_stopped c1
  then Ret (XML_STATUS_ERROR, p1,
            set_pos c1 (mkpos XML_ERROR_ABORTED (xp_line (xc_pos c1)) (xp_column (xc_pos c1)) idx))
  else Ret (stat, p1, set_pos c1 pos).

(** [zz_reset_xml_handler]; the user data and the handlers it installs are those
    [run_handlers] applies. *)
Definition zz_reset_xml_handler (xml_parser : XML_Parser) (do_parser_status_reset : bool)
    : XML_Parser :=
  if do_parser_status_reset then XML_ParserReset xml_parser else xml_parser.

(** The loop over the documents of a buffer. *)
Fixpoint process_xml_loop (fuel : nat) (temp_ok : bool) (p : XML_Parser) (buffer : bytes)
    (c : xml_ctx) : outcome (XML_Parser * xml_ctx) :=
  if negb ((0 <? zlen buffer) && (string_size (xc_response c) =? 0)) then Ret (p, c)
  else
    match fuel with
    | O => NoFuel
    | S fuel =>
        '(stat, p1, c1) ← xml_parse temp_ok p buffer c;
        let code := xp_err (xc_pos c1) in
        let true_error :=
          match stat with
          | XML_STATUS_SUSPENDED => bool_decide (str_buf (xc_response c1) <> None)
          | XML_STATUS_OK => false
          | XML_STATUS_ERROR =>
              bool_decide (code <> XML_ERROR_JUNK_AFTER_DOC_ELEMENT) &&
              bool_decide (code <> XML_ERROR_ABORTED)
          end in
        if bool_decide (stat = XML_STATUS_OK) then Ret (p1, c1)
        else if true_error : bool then
          c2 ← queue_xml_error c1 (bs "Error parsing XML") yajl_gen_status_ok;
          Ret (p1, c2)
        else
          let offset := xp_index (xc_pos c1) in
          if (offset <=? 0) && (string_size (xc_response c1) =? 0) then
            c2 ← queue_xml_error c1 (bs "Can't get parse offset") yajl_gen_status_ok;
            Ret (p1, c2)
          else
            _ ← c_assert (wrap64 offset <=? zlen buffer);
            process_xml_loop fuel temp_ok (zz_reset_xml_handler p1 true) (zdrop offset buffer) c1
    end.

(** Address of the buffer of a string. *)
Context (string_addr : cstring -> Z).

(** The last component is the string whose buffer the messages refer to. *)
Definition process_xml_buffer (temp_ok : bool) (p : XML_Parser) (buffer : bytes) (c : xml_ctx)
    : outcome (decoder_callback_err * XML_Parser * xml_ctx * cstring) :=
  '(p1, c1) ← process_xml_loop (S (length buffer)) temp_ok p buffer c;
  msgs ← (if negb (kafka_message_array_size (xc_msgs c1) =? 0)
          then kafka_message_array_set_payload_buffer0 (xc_msgs c1) (string_addr (xc_buf c1)) true
          else Ret (xc_msgs c1));
  let c2 := set_buf (set_msgs c1 msgs) N2K_STRING_INITIALIZER in
  Ret (xc_rc c2, p1, c2, xc_buf c1).

(** The two objects a session owns, and whether each is allocated; freeing one twice
    is a fault. *)
Record xml_handles := mkhandles { xh_expat_handler : bool; xh_yajl_gen : bool }.

Definition XML_ParserFree (h : xml_handles) : outcome xml_handles :=
  if xh_expat_handler h then Ret (mkhandles false (xh_yajl_gen h)) else Fault double_free.

Definition yajl_gen_free (h : xml_handles) : outcome xml_handles :=
  if xh_yajl_gen h then Ret (mkhandles (xh_expat_handler h) false) else Fault double_free.

Definition free_zz_session_xml (h : xml_handles) : outcome xml_handles :=
  h1 ← yajl_gen_free h;
  XML_ParserFree h1.

(** A new session, with the [calloc]ed fields; the result of the allocation of
    the generator is [gen_ok]. *)
Definition new_zz_session_xml (gen_ok : bool) : outcome (option (XML_Parser * xml_ctx)) :=
  match XML_ParserCreate with
  | None => Ret None
  | Some p =>
      let p1 := zz_reset_xml_handler p false in
      let h := mkhandles true gen_ok in
      if negb (xh_yajl_gen h) then
        h1 ← XML_ParserFree h;
        _ ← XML_ParserFree h1;
        Ret None
      else
        Ret (Some (p1, mkxc N2K_STRING_INITIALIZER NO_JSON_LAST_OPEN_MAP 0
                        (replicate (Z.to_nat stack_bytes) 0) yajl_gen_alloc DECODER_CALLBACK_OK
                        N2K_STRING_INITIALIZER KAFKA_MESSAGE_ARRAY_INITIALIZER
                        (mkpos XML_ERROR_NONE 0 0 0) false))
  end.

Definition xml_error_message (error_str : cstring) (decoder_rc : decoder_callback_err)
    (messages_queued : Z) : outcome cstring :=
  '(_, ret) ← string_printf 2 N2K_STRING_INITIALIZER
    (bs "<result><messages_queued>" ++ print_zu messages_queued ++ bs "</messages_queued>" ++
     (if bool_decide (decoder_rc = DECODER_CALLBACK_OK) then [] else contents error_str) ++
     bs "</result>");
  Ret ret.

End xml.

(** ** The stack of booleans as a set of bits *)

Definition bit (v : bit_vector) (i : Z) : bool :=
  Z.testbit (default 0 (v !! Z.to_nat (i / 8))) (i mod 8).

Definition in_vector (v : bit_vector) (i : Z) : Prop := 0 <= i < 8 * zlen v.

Lemma mask_test b k : 0 <= k -> negb (Z.land b (Z.shiftl 1 k) =? 0) = Z.testbit b k.
Proof.
  intros Hk. assert (E : Z.land b (Z.shiftl 1 k) = if Z.testbit b k then Z.shiftl 1 k else 0).
  { apply Z.bits_inj'. intros n Hn. rewrite Z.land_spec, Z.shiftl_1_l, Z.pow2_bits_eqb by lia.
    destruct (Z.eqb_spec k n) as [->|Hne].
    - destruct (Z.testbit b n) eqn:T; [|by rewrite Z.bits_0].
      by rewrite Z.pow2_bits_true by lia.
    - destruct (Z.testbit b k); rewrite ?Z.bits_0, ?Z.pow2_bits_false by lia; apply andb_false_r. }
  rewrite E, Z.shiftl_1_l. destruct (Z.testbit b k); [|done].
  rewrite (proj2 (Z.eqb_neq _ _)); [done|]. pose proof (Z.pow_pos_nonneg 2 k). lia.
Qed.

Lemma in_vector_lookup v i :
  in_vector v i -> exists b, v !! Z.to_nat (i / 8) = Some b.
Proof.
  intros [H1 H2]. unfold zlen in H2. apply lookup_lt_is_Some.
  assert (i / 8 < Z.of_nat (length v)) by (apply Z.div_lt_upper_bound; lia).
  assert (0 <= i / 8) by (apply Z.div_pos; lia). lia.
Qed.

Lemma bit_test_spec v i : in_vector v i -> bit_test v i = Ret (bit v i).
Proof.
  intros Hi. destruct (in_vector_lookup v i Hi) as [b Hb].
  unfold bit_test, bit, CHAR_BIT. rewrite Hb. cbn [default from_option].
  rewrite mask_test; [done|]. apply Z.mod_pos_bound. lia.
Qed.

(** Updating a bit changes this bit only. *)
Lemma bit_update_spec f r v i :
  (forall b k n, 0 <= k -> 0 <= n ->
     Z.testbit (f b (Z.shiftl 1 k)) n = if n =? k then r else Z.testbit b n) ->
  in_vector v i ->
  exists v', bit_update f v i = Ret v' /\ zlen v' = zlen v /\
    forall j, 0 <= j -> bit v' j = if j =? i then r else bit v j.
Proof.
  intros Hf Hi. destruct (in_vector_lookup v i Hi) as [b Hb].
  unfold bit_update, CHAR_BIT. rewrite Hb. eexists. split; [done|]. split.
  { unfold zlen. by rewrite length_insert. }
  intros j Hj. unfold bit. destruct Hi as [Hi0 _].
  pose proof (Z.mod_pos_bound i 8 ltac:(lia)). pose proof (Z.mod_pos_bound j 8 ltac:(lia)).
  pose proof (Z.div_mod i 8 ltac:(lia)). pose proof (Z.div_mod j 8 ltac:(lia)).
  assert (0 <= i / 8) by (apply Z.div_pos; lia). assert (0 <= j / 8) by (apply Z.div_pos; lia).
  destruct (decide (i / 8 = j / 8)) as [E|E].
  - rewrite <- E, list_lookup_insert_eq by (by apply lookup_lt_Some in Hb).
    cbn [default from_option]. cbn [default from_option id]. rewrite Hf, Hb by lia. cbn [default from_option id].
    destruct (Z.eqb_spec (j mod 8) (i mod 8)), (Z.eqb_spec j i); try done; exfalso; lia.
  - rewrite list_lookup_insert_ne by lia. destruct (Z.eqb_spec j i) as [->|]; done.
Qed.

Lemma bit_set_spec v i :
  in_vector v i -> exists v', bit_set v i = Ret v' /\ zlen v' = zlen v /\
    forall j, 0 <= j -> bit v' j = if j =? i then true else bit v j.
Proof.
  apply bit_update_spec. intros b k n Hk Hn. rewrite Z.lor_spec, Z.shiftl_1_l, Z.pow2_bits_eqb by lia.
  destruct (Z.eqb_spec n k) as [->|]; [by rewrite Z.eqb_refl, orb_true_r|].
  rewrite (proj2 (Z.eqb_neq k n)) by lia. apply orb_false_r.
Qed.

Lemma bit_clear_spec v i :
  in_vector v i -> exists v', bit_clear v i = Ret v' /\ zlen v' = zlen v /\
    forall j, 0 <= j -> bit v' j = if j =? i then false else bit v j.
Proof.
  apply bit_update_spec. intros b k n Hk Hn.
  rewrite Z.land_spec, Z.lnot_spec, Z.shiftl_1_l, Z.pow2_bits_eqb by lia.
  destruct (Z.eqb_spec n k) as [->|]; [by rewrite Z.eqb_refl, andb_false_r|].
  rewrite (proj2 (Z.eqb_neq k n)) by lia. apply andb_true_r.
Qed.

(** ** What the documentation promises

    README.md of the decoder: the root element is the root object, with the
    keys [tag], [attributes], [text] and [children], and text after an element
    is the [tail] of its object. *)

Inductive json :=
| JString (s : bytes)
| JObject (members : list (bytes * json))
| JArray (values : list json).

Fixpoint json_tokens (j : json) : list gen_token :=
  match j with
  | JString s => [GString s]
  | JObject members =>
      [GMapOpen] ++ flat_map (fun m => GString m.1 :: json_tokens m.2) members ++ [GMapClose]
  | JArray values => [GArrayOpen] ++ flat_map json_tokens values ++ [GArrayClose]
  end.

(** An element with its attributes, the pieces of text before its first child,
    and its children, each with the pieces of text after it. *)
Inductive xml_tree :=
| Elem (tag : bytes) (attrs : list (bytes * bytes)) (text : list bytes)
    (children : list (xml_tree * list bytes)).

Definition text_member (key : bytes) (pieces : list bytes) : list (bytes * json) :=
  match pieces with [] => [] | _ => [(key, JString (concat pieces))] end.

Definition attrs_member (attrs : list (bytes * bytes)) : list (bytes * json) :=
  match attrs with
  | [] => []
  | _ => [(bs "attributes", JObject (map (fun a => (a.1, JString a.2)) attrs))]
  end.

Definition children_member (values : list json) : list (bytes * json) :=
  match values with [] => [] | _ => [(bs "children", JArray values)] end.

Fixpoint xml_members (t : xml_tree) : list (bytes * json) :=
  match t with
  | Elem tag attrs text children =>
      [(bs "tag", JString tag)] ++ attrs_member attrs ++ text_member (bs "text") text ++
      children_member
        (map (fun ct => JObject (xml_members ct.1 ++ text_member (bs "tail") ct.2)) children)
  end.

Definition json_of_xml (t : xml_tree) : json := JObject (xml_members t).

(** The callbacks expat makes for a document. *)
Fixpoint xml_events (t : xml_tree) : list xml_event :=
  match t with
  | Elem tag attrs text children =>
      [XStart tag attrs] ++ map XText text ++
      flat_map (fun ct => xml_events ct.1 ++ map XText ct.2) children ++ [XEnd tag]
  end.

Definition has_text (pieces : list bytes) : nat := match pieces with [] => 0 | _ => 1 end.

(** Each element has one run of text: before its children or after one of them. *)
Fixpoint single_text (t : xml_tree) : bool :=
  match t with
  | Elem _ _ text children =>
      (has_text text + list_sum (map (fun ct => has_text ct.2) children) <=? 1)%nat &&
      forallb (fun ct => single_text ct.1) children
  end.

Fixpoint height (t : xml_tree) : nat :=
  match t with
  | Elem _ _ _ children => S (fold_right (fun ct n => Nat.max (height ct.1) n) 0%nat children)
  end.

Lemma xml_tree_ind' (P : xml_tree -> Prop) :
  (forall tag attrs text children, Forall (fun ct => P ct.1) children ->
     P (Elem tag attrs text children)) ->
  forall t, P t.
Proof.
  intros H. fix IH 1. intros [tag attrs text children]. apply H.
  induction children as [|[c tl] children IHc]; constructor; [apply IH|apply IHc].
Qed.

(** ** Handlers that succeed *)

Section xml_lemmas.
Context {alloc : Allocator} {abi : Abi} {gen : YajlGen} {strings : ExpatStrings}.
Hypothesis (Hnf : never_fails alloc).

(** The texts printed by calls that all succeed. *)
Fixpoint gen_run (g : yajl_gen) (ts : list gen_token) : option (bytes * yajl_gen) :=
  match ts with
  | [] => Some ([], g)
  | t :: ts =>
      match gen_call g t with
      | (yajl_gen_status_ok, out, g1) =>
          match gen_run g1 ts with
          | Some (out2, g2) => Some (concat out ++ out2, g2)
          | None => None
          end
      | _ => None
      end
  end.

Lemma gen_run_app g ts ts' out g' :
  gen_run g (ts ++ ts') = Some (out, g') <->
  exists out1 g1 out2, gen_run g ts = Some (out1, g1) /\ gen_run g1 ts' = Some (out2, g') /\
    out = out1 ++ out2.
Proof.
  revert g out. induction ts as [|t ts IH]; intros g out; cbn [gen_run app].
  { split; [intros H; by exists [], g, out|]. by intros (? & ? & ? & [= <- <-] & ? & ->). }
  destruct (gen_call g t) as [[[] o] g1]; try (split; [done|by intros (?&?&?&?&?)]).
  destruct (gen_run g1 (ts ++ ts')) as [[o2 g2]|] eqn:E.
  - split.
    + intros [= <- <-]. apply IH in E as (out1 & g3 & out2 & H1 & H2 & ->). rewrite H1.
      eexists _, g3, out2. split_and!; [done|done|]. by rewrite app_assoc.
    + destruct (gen_run g1 ts) as [[o3 g3]|] eqn:E3; [|by intros (?&?&?&?&?)].
      intros (? & ? & out2 & [= <- <-] & H2 & ->).
      assert (Some (o2, g2) = Some (o3 ++ out2, g')) as [= -> ->].
      { rewrite <- E. apply IH. by exists o3, g3, out2. }
      by rewrite app_assoc.
  - split; [done|]. destruct (gen_run g1 ts) as [[o3 g3]|] eqn:E3; [|by intros (?&?&?&?&?)].
    intros (? & ? & out2 & [= <- <-] & H2 & ->).
    assert (None = Some (o3 ++ out2, g')) as Hx; [|done].
    rewrite <- E. apply IH. by exists o3, g3, out2.
Qed.

Lemma print_all_spec out c :
  string_inv (xc_buf c) -> str_size (xc_buf c) + zlen (concat out) <= size_limit ->
  exists s, print_all c out = Ret (set_buf c s) /\ string_inv s /\
    contents s = contents (xc_buf c) ++ concat out.
Proof.
  revert c. induction out as [|str out IH]; intros c Hi Hlim.
  { exists (xc_buf c). split_and!; [by destruct c|done|by rewrite app_nil_r]. }
  cbn [print_all concat] in *. rewrite zlen_app in Hlim. zlen_facts. unfold yajl_print_callback.
  destruct (string_append_never_fails (xc_buf c) str Hnf Hi) as (s1 & -> & Hi1 & Hc1); [lia|].
  cbn [mbind outcome_bind Z.eqb negb].
  assert (Hs1 : str_size s1 = str_size (xc_buf c) + zlen str).
  { by rewrite <- (zlen_contents _ Hi1), Hc1, zlen_app, (zlen_contents _ Hi). }
  destruct (IH (set_buf c s1)) as (s & -> & Hi2 & Hc2); [done|cbn; lia|].
  exists s. split_and!; [done|done|]. rewrite Hc2. cbn. by rewrite Hc1, app_assoc.
Qed.

(** [GEN_OR_GOTO_ERR] of calls that succeed prints what they print. *)
Lemma gen_or_goto_err_spec what ts c out g' :
  string_inv (xc_buf c) -> gen_run (xc_gen c) ts = Some (out, g') ->
  str_size (xc_buf c) + zlen out <= size_limit ->
  exists s, gen_or_goto_err what ts c = Ret (GenOk (set_gen (set_buf c s) g')) /\
    string_inv s /\ contents s = contents (xc_buf c) ++ out.
Proof.
  revert c out. induction ts as [|t ts IH]; intros c out Hi Hrun Hlim; cbn [gen_run] in Hrun.
  { injection Hrun as <- <-. exists (xc_buf c).
    split_and!; [by destruct c|done|by rewrite app_nil_r]. }
  cbn [gen_or_goto_err]. unfold yajl_gen_do.
  destruct (gen_call (xc_gen c) t) as [[st o] g1]; destruct st; try done.
  destruct (gen_run g1 ts) as [[out2 g2]|] eqn:E; [|done]. injection Hrun as <- <-.
  rewrite zlen_app in Hlim. zlen_facts.
  destruct (print_all_spec o c Hi) as (s1 & -> & Hi1 & Hc1); [lia|].
  cbn [mbind outcome_bind]. rewrite bool_decide_true by done.
  assert (Hs1 : str_size s1 = str_size (xc_buf c) + zlen (concat o)).
  { by rewrite <- (zlen_contents _ Hi1), Hc1, zlen_app, (zlen_contents _ Hi). }
  destruct (IH (set_gen (set_buf c s1) g1) out2) as (s & -> & Hi2 & Hc2); [done..|cbn; lia|].
  exists s. split_and!; [done|done|]. rewrite Hc2. cbn. by rewrite Hc1, app_assoc.
Qed.

(** [m] makes the calls [ts] and nothing else. *)
Definition prints (m : xml_ctx -> outcome gen_result) (ts : list gen_token) : Prop :=
  forall c out g', string_inv (xc_buf c) -> gen_run (xc_gen c) ts = Some (out, g') ->
    str_size (xc_buf c) + zlen out <= size_limit ->
    exists s, m c = Ret (GenOk (set_gen (set_buf c s) g')) /\ string_inv s /\
      contents s = contents (xc_buf c) ++ out.

Lemma prints_err what ts : prints (gen_or_goto_err what ts) ts.
Proof. intros c out g'. apply gen_or_goto_err_spec. Qed.

Lemma prints_ret : prints (fun c => Ret (GenOk c)) [].
Proof.
  intros c out g' Hi [= <- <-] _. exists (xc_buf c). rewrite app_nil_r. by destruct c.
Qed.

Lemma prints_then m k ts ts' :
  prints m ts -> prints k ts' -> prints (fun c => gen_then (m c) k) (ts ++ ts').
Proof.
  intros Hm Hk c out g' Hi Hrun Hlim.
  apply gen_run_app in Hrun as (out1 & g1 & out2 & H1 & H2 & ->).
  rewrite zlen_app in Hlim. zlen_facts.
  destruct (Hm c out1 g1 Hi H1) as (s1 & E1 & Hi1 & Hc1); [lia|].
  assert (Hs1 : str_size s1 = str_size (xc_buf c) + zlen out1).
  { by rewrite <- (zlen_contents _ Hi1), Hc1, zlen_app, (zlen_contents _ Hi). }
  destruct (Hk (set_gen (set_buf c s1) g1) out2 g') as (s2 & E2 & Hi2 & Hc2); [done..|cbn; lia|].
  exists s2. unfold gen_then. rewrite E1. cbn [mbind outcome_bind]. rewrite E2.
  split_and!; [done|done|]. rewrite Hc2. cbn. by rewrite Hc1, app_assoc.
Qed.

Definition member_tokens (ms : list (bytes * json)) : list gen_token :=
  flat_map (fun m => GString m.1 :: json_tokens m.2) ms.

Definition attr_members (attrs : list (bytes * bytes)) : list (bytes * json) :=
  map (fun a => (a.1, JString a.2)) attrs.

(** One attribute and what follows it. *)
Lemma prints_attribute name value attrs :
  (attrs <> [] -> prints (gen_attributes false attrs)
                    (member_tokens (attr_members attrs) ++ [GMapClose])) ->
  prints (fun c1 => gen_then (gen_or_goto_err (bs "Can't gen JSON attribute key + val")
                  (yajl_gen_key_value_strlen name value) c1) (fun c2 =>
      gen_then
        (match attrs with
         | [] => gen_or_goto_err (bs "Can't gen JSON close brace") [GMapClose] c2
         | _ => Ret (GenOk c2)
         end) (fun c3 => gen_attributes false attrs c3)))
    (member_tokens (attr_members ((name, value) :: attrs)) ++ [GMapClose]).
Proof.
  intros IH.
  change (member_tokens (attr_members ((name, value) :: attrs)) ++ [GMapClose]) with
    ([GString name; GString value] ++ (member_tokens (attr_members attrs) ++ [GMapClose])).
  apply prints_then; [apply prints_err|]. destruct attrs as [|a attrs].
  - apply (prints_then _ _ [GMapClose] []); [apply prints_err|apply prints_ret].
  - apply (prints_then (fun c => Ret (GenOk c)) _ []); [apply prints_ret|]. by apply IH.
Qed.

Lemma prints_attributes_rest attrs :
  attrs <> [] ->
  prints (gen_attributes false attrs) (member_tokens (attr_members attrs) ++ [GMapClose]).
Proof.
  induction attrs as [|[name value] attrs IH]; [done|]. intros _. cbn [gen_attributes].
  apply (prints_then (fun c => Ret (GenOk c)) _ []); [apply prints_ret|].
  by apply prints_attribute.
Qed.

Lemma prints_attributes attrs :
  prints (gen_attributes true attrs) (member_tokens (attrs_member attrs)).
Proof.
  destruct attrs as [|[name value] attrs]; [apply prints_ret|]. cbn [gen_attributes].
  assert (member_tokens (attrs_member ((name, value) :: attrs)) =
    [GString (bs "attributes"); GMapOpen] ++
    (member_tokens (attr_members ((name, value) :: attrs)) ++ [GMapClose])) as ->.
  { unfold attrs_member, member_tokens at 1. cbn [flat_map]. by rewrite app_nil_r. }
  apply prints_then.
  { apply (prints_then _ _ [GString (bs "attributes")] [GMapOpen]); apply prints_err. }
  apply prints_attribute. apply prints_attributes_rest.
Qed.

Section handlers.
Context (rc : decoder_callback_err) (resp : cstring) (msgs : kafka_message_array).
Hypothesis (Hresp : str_size resp = 0).

(** The fields the handlers change while nothing fails. *)
Definition xat (s : cstring) (lom p : Z) (v : bit_vector) (g : yajl_gen) (pos : xml_position)
    : xml_ctx := mkxc s lom p v g rc resp msgs pos false.

(** [2 * 128] bits. *)
Definition stack_ok (v : bit_vector) (p : Z) : Prop := zlen v = 32 /\ 0 <= p < 126.

Definition text_bit (v : bit_vector) (p : Z) : bool := bit v (text_printed_bit_from_frame p).
Definition children_bit (v : bit_vector) (p : Z) : bool := bit v (children_printed_bit_from_frame p).

Lemma stack_in_vector v p i : stack_ok v p -> 0 <= i <= 2 * p + 3 -> in_vector v i.
Proof. intros [Hv Hp] Hi. unfold in_vector. lia. Qed.

Ltac bits_simpl := unfold text_printed_bit_from_frame, children_printed_bit_from_frame.

(** Printing in a state. *)
Lemma prints_xat m ts s lom p v g pos out g' :
  prints m ts -> string_inv s -> gen_run g ts = Some (out, g') ->
  str_size s + zlen out <= size_limit ->
  exists s', m (xat s lom p v g pos) = Ret (GenOk (xat s' lom p v g' pos)) /\ string_inv s' /\
    contents s' = contents s ++ out /\ str_size s' = str_size s + zlen out.
Proof.
  intros Hm Hi Hrun Hlim.
  destruct (Hm (xat s lom p v g pos) out g' Hi Hrun Hlim) as (s' & -> & Hi' & Hc').
  exists s'. split_and!; [done..|]. cbn in Hc'.
  by rewrite <- (zlen_contents _ Hi'), Hc', zlen_app, (zlen_contents _ Hi).
Qed.

Definition lead_tokens (p : Z) (v : bit_vector) : list gen_token :=
  if p =? 0 then [] else if children_bit v p then [GMapClose]
  else [GString (bs "children"); GArrayOpen].

Lemma start_place_spec s lom p v g pos out g' :
  string_inv s -> stack_ok v p -> gen_run g (lead_tokens p v) = Some (out, g') ->
  str_size s + zlen out <= size_limit ->
  exists s' v', start_place (xat s lom p v g pos)
      = Ret (GenOk (xat s' (if p =? 0 then str_size s else lom) p v' g' pos)) /\
    string_inv s' /\ contents s' = contents s ++ out /\ str_size s' = str_size s + zlen out /\
    zlen v' = 32 /\
    forall j, 0 <= j -> bit v' j =
      if (j =? 2 * p + 1) && (0 <? p) then true else bit v j.
Proof.
  intros Hi Hst Hrun Hlim. unfold start_place, lead_tokens in *. cbn [xat xc_stack_pos xc_bits].
  destruct Hst as [Hv Hp] eqn:Est. destruct (p =? 0) eqn:E0.
  { injection Hrun as <- <-. exists s, v. rewrite app_nil_r, zlen_nil.
    split_and!; try done; try lia. intros j Hj. ztest. by rewrite andb_false_r. }
  unfold test_current_stack_children_printed.
  rewrite bit_test_spec by (eapply stack_in_vector; [done|]; bits_simpl; lia).
  cbn [mbind outcome_bind]. unfold children_bit in Hrun.
  destruct (bit v (children_printed_bit_from_frame p)) eqn:Eb; cbn [negb].
  - destruct (prints_xat _ _ s lom p v g pos out g'
      (prints_err (bs "Can't gen JSON child array close brace") [GMapClose]) Hi Hrun Hlim)
      as (s' & -> & ? & ? & ?).
    exists s', v. split_and!; try done. intros j Hj. destruct (j =? 2 * p + 1) eqn:Ej; [|done].
    assert (j = 2 * p + 1) as -> by lia. ztest. revert Eb. bits_simpl. intros <-. f_equal. lia.
  - apply (gen_run_app _ [GString (bs "children")] [GArrayOpen]) in Hrun
      as (o1 & g1 & o2 & R1 & R2 & ->). rewrite zlen_app in Hlim. zlen_facts.
    destruct (prints_xat _ _ s lom p v g pos o1 g1
      (prints_err (bs "Can't gen JSON children key") _) Hi R1) as (s1 & E1 & Hi1 & Hc1 & Hz1); [lia|].
    unfold gen_then at 1. rewrite E1. cbn [mbind outcome_bind].
    destruct (prints_xat _ _ s1 lom p v g1 pos o2 g'
      (prints_err (bs "Can't gen JSON child array open bracket") _) Hi1 R2)
      as (s2 & E2 & Hi2 & Hc2 & Hz2); [lia|].
    unfold gen_then. rewrite E2. cbn [mbind outcome_bind xat xc_bits xc_stack_pos].
    destruct (bit_set_spec v (children_printed_bit_from_frame p)) as (v' & Hset & Hv' & Hbits).
    { eapply stack_in_vector; [done|]. bits_simpl. lia. }
    unfold set_current_stack_children_printed. rewrite Hset. cbn [mbind outcome_bind].
    exists s2, v'. rewrite zlen_app. split_and!; try done; try lia.
    + by rewrite Hc2, Hc1, app_assoc.
    + intros j Hj. rewrite Hbits by done. bits_simpl. replace (p * 2 + 1) with (2 * p + 1) by lia.
      destruct (j =? 2 * p + 1); [|done]. by ztest.
Qed.

Definition head_tokens (tag : bytes) (attrs : list (bytes * bytes)) : list gen_token :=
  [GMapOpen; GString (bs "tag"); GString tag] ++ member_tokens (attrs_member attrs).

Lemma start_object_spec s lom p v g pos tag attrs out g' :
  string_inv s -> stack_ok v p -> gen_run g (head_tokens tag attrs) = Some (out, g') ->
  str_size s + zlen out <= size_limit ->
  exists s' v', start_object tag attrs (xat s lom p v g pos)
      = Ret (GenOk (xat s' lom (p + 1) v' g' pos)) /\
    string_inv s' /\ contents s' = contents s ++ out /\ zlen v' = 32 /\
    text_bit v' (p + 1) = false /\ children_bit v' (p + 1) = false /\
    forall j, 0 <= j < 2 * (p + 1) -> bit v' j = bit v j.
Proof.
  intros Hi Hst Hrun Hlim. unfold start_object. cbv zeta.
  cbn [xat xc_stack_pos xc_bits set_xml_stack_pos]. rewrite wrap64_small by (destruct Hst; lia).
  destruct (bit_clear_spec v (text_printed_bit_from_frame (p + 1))) as (v1 & Hc1 & Hv1 & Hb1).
  { eapply stack_in_vector; [done|]. bits_simpl. destruct Hst. lia. }
  unfold clear_current_stack_text_printed. rewrite Hc1. cbn [mbind outcome_bind].
  destruct (bit_clear_spec v1 (children_printed_bit_from_frame (p + 1))) as (v2 & Hc2 & Hv2 & Hb2).
  { apply (stack_in_vector v1 p); [destruct Hst; split; [lia|done]|]. bits_simpl.
    destruct Hst. lia. }
  unfold clear_current_stack_children_printed. rewrite Hc2. cbn [mbind outcome_bind set_bits].
  assert (Hp : prints (fun c1 => gen_then (gen_or_goto_err (bs "Can't gen JSON object open brace")
      [GMapOpen] c1) (fun c2 => gen_then (gen_or_goto_err (bs "Can't gen JSON text")
      (yajl_gen_key_value_strlen (bs "tag") tag) c2) (gen_attributes true attrs)))
      ([GMapOpen] ++ ([GString (bs "tag"); GString tag] ++ member_tokens (attrs_member attrs)))).
  { apply prints_then; [apply prints_err|]. apply prints_then; [apply prints_err|].
    apply prints_attributes. }
  destruct (prints_xat _ _ s lom (p + 1) v2 g pos out g' Hp Hi Hrun Hlim)
    as (s' & Heq & Hi' & Hc' & _). exists s', v2. split; [exact Heq|].
  destruct Hst as [Hv Hpb]. unfold text_bit, children_bit. split_and!; try done; [lia|..].
  - rewrite Hb2, Hb1 by (bits_simpl; lia). rewrite Z.eqb_refl. by destruct (_ =? _).
  - rewrite Hb2 by (bits_simpl; lia). by rewrite Z.eqb_refl.
  - intros j Hj. rewrite Hb2, Hb1 by lia. bits_simpl. by ztest.
Qed.

Lemma start_element_spec s lom p v g pos tag attrs out g' :
  string_inv s -> stack_ok v p ->
  gen_run g (lead_tokens p v ++ head_tokens tag attrs) = Some (out, g') ->
  str_size s + zlen out <= size_limit ->
  exists s' v', zz_parse_start_xml_element (xat s lom p v g pos) tag attrs
      = Ret (xat s' (if p =? 0 then str_size s else lom) (p + 1) v' g' pos) /\
    string_inv s' /\ contents s' = contents s ++ out /\ zlen v' = 32 /\
    text_bit v' (p + 1) = false /\ children_bit v' (p + 1) = false /\
    forall j, 0 <= j < 2 * (p + 1) ->
      bit v' j = if (j =? 2 * p + 1) && (0 <? p) then true else bit v j.
Proof.
  intros Hi Hst Hrun Hlim. apply gen_run_app in Hrun as (o1 & g1 & o2 & R1 & R2 & ->).
  rewrite zlen_app in Hlim. zlen_facts.
  destruct (start_place_spec s lom p v g pos o1 g1 Hi Hst R1)
    as (s1 & v1 & E1 & Hi1 & Hc1 & Hz1 & Hv1 & Hb1); [lia|].
  destruct (start_object_spec s1 (if p =? 0 then str_size s else lom) p v1 g1 pos tag attrs o2 g' Hi1)
    as (s2 & v2 & E2 & Hi2 & Hc2 & Hv2 & Ht2 & Hch2 & Hb2); [|done|lia|].
  { destruct Hst. by split. }
  unfold zz_parse_start_xml_element, string_size. cbn [xat xc_response]. rewrite Hresp.
  cbn [Z.ltb Z.compare]. fold (xat s lom p v g pos). unfold gen_then. rewrite E1.
  cbn [mbind outcome_bind]. rewrite E2. cbn [handler_end mbind outcome_bind].
  exists s2, v2. split_and!; try done.
  - by rewrite Hc2, Hc1, app_assoc.
  - intros j Hj. rewrite Hb2 by done. apply Hb1. lia.
Qed.

Lemma end_element_spec s lom p v g pos out g' :
  string_inv s -> stack_ok v p -> 1 < p ->
  gen_run g (if children_bit v p then [GMapClose; GArrayClose] else []) = Some (out, g') ->
  str_size s + zlen out <= size_limit ->
  exists s', zz_parse_end_xml_element (xat s lom p v g pos) = Ret (xat s' lom (p - 1) v g' pos) /\
    string_inv s' /\ contents s' = contents s ++ out.
Proof.
  intros Hi Hst Hp Hrun Hlim. unfold zz_parse_end_xml_element, string_size.
  cbn [xat xc_response xc_bits xc_stack_pos]. rewrite Hresp. cbn [Z.ltb Z.compare].
  unfold test_current_stack_children_printed.
  rewrite bit_test_spec by (eapply stack_in_vector; [done|]; bits_simpl; lia).
  cbn [mbind outcome_bind]. unfold children_bit in Hrun.
  assert (Hm : prints (fun c : xml_ctx => if bit v (children_printed_bit_from_frame p) then
       gen_then (gen_or_goto_err (bs "Can't gen child JSON close key") [GMapClose] c)
         (gen_or_goto_err (bs "Can't gen JSON child array close bracket") [GArrayClose])
     else Ret (GenOk c))
     (if bit v (children_printed_bit_from_frame p) then [GMapClose; GArrayClose] else [])).
  { destruct (bit v _); [|apply prints_ret].
    apply (prints_then _ _ [GMapClose] [GArrayClose]); apply prints_err. }
  destruct (prints_xat _ _ s lom p v g pos out g' Hm Hi Hrun Hlim)
    as (s' & Heq & Hi' & Hc' & _).
  fold (xat s lom p v g pos). unfold gen_then at 1. rewrite Heq.
  cbn [mbind outcome_bind xat xc_stack_pos set_xml_stack_pos].
  rewrite wrap64_small by (destruct Hst; lia). ztest.
  cbn [handler_end mbind outcome_bind]. by exists s'.
Qed.

Definition text_key (v : bit_vector) (p : Z) : bytes :=
  if children_bit v p then bs "tail" else bs "text".

Lemma text_first_spec s lom p v g pos t out g' :
  string_inv s -> stack_ok v p -> text_bit v p = false ->
  gen_run g [GString (text_key v p); GString t] = Some (out, g') ->
  str_size s + zlen out <= size_limit ->
  exists s' v', zz_parse_xml_character_data true (xat s lom p v g pos) t
      = Ret (xat s' lom p v' g' pos) /\
    string_inv s' /\ contents s' = contents s ++ out /\ zlen v' = 32 /\
    forall j, 0 <= j -> bit v' j = if j =? 2 * p then true else bit v j.
Proof.
  intros Hi Hst Htb Hrun Hlim. unfold zz_parse_xml_character_data. cbv zeta.
  cbn [xat xc_stack_pos xc_bits]. unfold test_current_stack_text_printed.
  assert (Hin : in_vector v (text_printed_bit_from_frame p)).
  { eapply stack_in_vector; [done|]. bits_simpl. destruct Hst. lia. }
  rewrite bit_test_spec by done. unfold text_bit in Htb. rewrite Htb.
  cbn [mbind outcome_bind negb]. unfold test_current_stack_children_printed.
  rewrite bit_test_spec by (eapply stack_in_vector; [done|]; bits_simpl; destruct Hst; lia).
  cbn [mbind outcome_bind]. fold (children_bit v p) (text_key v p) (xat s lom p v g pos).
  destruct (prints_xat _ _ s lom p v g pos out g'
    (prints_err (bs "Can't gen JSON attribute key + val in XML tag text") _) Hi Hrun Hlim)
    as (s' & Heq & Hi' & Hc' & _).
  unfold yajl_gen_key_strlen_value. rewrite Heq. cbn [mbind outcome_bind xat xc_bits].
  destruct (bit_set_spec v _ Hin) as (v' & Hset & Hv' & Hbits).
  unfold set_current_stack_text_printed. rewrite Hset. cbn [mbind outcome_bind].
  exists s', v'. destruct Hst as [Hv _]. split_and!; try done; [lia|].
  intros j Hj. rewrite Hbits by done. bits_simpl. by rewrite Z.mul_comm.
Qed.

Lemma temp_gen_text t :
  exists out g, gen_call (yajl_gen_reset yajl_gen_alloc) (GString t)
      = (yajl_gen_status_ok, out, g) /\ concat out = [dquote] ++ gen_escape t ++ [dquote].
Proof.
  pose proof (gen_string_reset yajl_gen_alloc t) as Hst.
  destruct (gen_call _ (GString t)) as [[st out] g] eqn:E. cbn in Hst. subst st.
  exists out, g. split; [done|]. rewrite (gen_string_text _ _ _ _ E), gen_prefix_reset. done.
Qed.

(** A later piece of text goes in front of the closing quote. *)
Lemma text_more_spec s lom p v g pos t l :
  string_inv s -> stack_ok v p -> text_bit v p = true -> contents s = l ++ [dquote] ->
  str_size s + zlen (gen_escape t) <= size_limit ->
  exists s', zz_parse_xml_character_data true (xat s lom p v g pos) t
      = Ret (xat s' lom p v g pos) /\
    string_inv s' /\ contents s' = l ++ gen_escape t ++ [dquote].
Proof.
  intros Hi Hst Htb Hc Hlim. unfold zz_parse_xml_character_data. cbv zeta.
  cbn [xat xc_stack_pos xc_bits xc_buf]. unfold test_current_stack_text_printed.
  rewrite bit_test_spec by (eapply stack_in_vector; [done|]; bits_simpl; destruct Hst; lia).
  unfold text_bit in Htb. rewrite Htb. cbn [mbind outcome_bind negb].
  destruct (temp_gen_text t) as (out & g2 & -> & Hout). rewrite bool_decide_true by done.
  cbn [negb]. pose proof (zlen_contents _ Hi) as Hz. rewrite Hc, zlen_app in Hz.
  change (zlen [dquote]) with 1 in Hz. zlen_facts.
  destruct (string_pop_back_spec s Hi) as (s1 & -> & Hi1 & Hc1); [lia|].
  cbn [mbind outcome_bind].
  assert (Hc1' : contents s1 = l) by (rewrite Hc1, Hc; apply ztake_app_exact; lia).
  assert (zdrop 1 (concat out) = gen_escape t ++ [dquote]) as ->.
  { by rewrite Hout, zdrop_app_exact. }
  destruct (string_append_contents s1 (gen_escape t ++ [dquote]) l Hnf Hi1 Hc1')
    as (s2 & -> & Hi2 & Hc2).
  { rewrite zlen_app. change (zlen [dquote]) with 1. lia. }
  cbn [mbind outcome_bind]. by exists s2.
Qed.

(** Make callbacks one after the other, none after a stop. *)
Fixpoint handle_all (cbs : list xml_callback) (c : xml_ctx) : outcome xml_ctx :=
  match cbs with
  | [] => Ret c
  | cb :: cbs =>
      _ ← c_assert (negb (xc_stopped c));
      c1 ← handle_event true (set_pos c (cb_position cb)) (cb_event cb); handle_all cbs c1
  end.

Lemma handle_all_app cbs cbs' c :
  handle_all (cbs ++ cbs') c = c1 ← handle_all cbs c; handle_all cbs' c1.
Proof.
  revert c. induction cbs as [|cb cbs IH]; intros c; [done|]. cbn [handle_all app].
  destruct (c_assert _); cbn [mbind outcome_bind]; [|done..].
  destruct (handle_event true _ _); cbn [mbind outcome_bind]; [|done..]. apply IH.
Qed.

(** Inside of a document: the text before it is still in the buffer. *)
Definition midway (base : bytes) (c : xml_ctx) : Prop :=
  exists s lom p v g pos, c = xat s lom p v g pos /\ string_inv s /\ base `prefix_of` contents s.

(** Before each of the callbacks. *)
Definition midway_all (base : bytes) (cbs : list xml_callback) (c : xml_ctx) : Prop :=
  forall pre cb post, cbs = pre ++ cb :: post ->
    exists c1, handle_all pre c = Ret c1 /\ midway base c1.

Lemma midway_xat base s lom p v g pos :
  string_inv s -> base `prefix_of` contents s -> midway base (xat s lom p v g pos).
Proof. intros Hi Hb. by exists s, lom, p, v, g, pos. Qed.

Lemma midway_nil base c : midway_all base [] c.
Proof. by intros [|??] ? ?. Qed.

Lemma midway_one base cb c : midway base c -> midway_all base [cb] c.
Proof. intros Hc [|? [|??]] ? ? [= -> <-]. by exists c. Qed.

Lemma midway_app base cbs cbs' c c1 :
  midway_all base cbs c -> handle_all cbs c = Ret c1 -> midway_all base cbs' c1 ->
  midway_all base (cbs ++ cbs') c.
Proof.
  intros H1 Hc H2 pre cb post E. apply app_eq_app in E as (mid & [[-> E]|[-> E]]).
  - destruct mid as [|cb' mid].
    + destruct (H2 [] cb post) as (c2 & Hc2 & Hm); [exact (eq_sym E)|]. injection Hc2 as <-.
      rewrite app_nil_r in Hc. by exists c1.
    + injection E as <- E. destruct (H1 pre cb mid eq_refl) as (c2 & ? & ?). by exists c2.
  - destruct (H2 mid cb post E) as (c2 & Hc2 & Hm). exists c2. by rewrite handle_all_app, Hc.
Qed.

Lemma midway_cons base cb cbs c c1 :
  midway base c -> handle_all [cb] c = Ret c1 -> midway_all base cbs c1 -> midway_all base (cb :: cbs) c.
Proof. intros. by eapply (midway_app base [cb]); [apply midway_one| |]. Qed.

Lemma text_rest_spec pieces cbs s lom p v g pos l :
  map cb_event cbs = map XText pieces ->
  string_inv s -> stack_ok v p -> text_bit v p = true -> contents s = l ++ [dquote] ->
  str_size s + zlen (gen_escape (concat pieces)) <= size_limit ->
  exists s' pos', handle_all cbs (xat s lom p v g pos) = Ret (xat s' lom p v g pos') /\
    string_inv s' /\ contents s' = l ++ gen_escape (concat pieces) ++ [dquote] /\
    forall base, base `prefix_of` l -> midway_all base cbs (xat s lom p v g pos).
Proof.
  revert cbs s l pos. induction pieces as [|t pieces IH]; intros [|cb cbs] s l pos; try done.
  - intros _ Hi Hst Htb Hc Hlim. exists s, pos. cbn.
    split_and!; [done..| |intros; apply midway_nil].
    pose proof (gen_escape_app [] []) as He. apply (f_equal length) in He.
    rewrite length_app in He. cbn in He. destruct (gen_escape []); [done|cbn in He; lia].
  - intros [= Hcb Hcbs] Hi Hst Htb Hc Hlim. cbn [handle_all concat] in *. rewrite Hcb.
    cbn [handle_event xat xc_stopped negb c_assert mbind outcome_bind]. rewrite gen_escape_app, zlen_app in Hlim. zlen_facts.
    destruct (text_more_spec s lom p v g (cb_position cb) t l Hi Hst Htb Hc)
      as (s1 & E1 & Hi1 & Hc1); [lia|].
    unfold set_pos. cbn [xat xc_buf xc_last_open_map xc_stack_pos xc_bits xc_gen xc_rc xc_response
      xc_msgs xc_stopped]. fold (xat s lom p v g (cb_position cb)). rewrite E1.
    cbn [mbind outcome_bind].
    destruct (IH cbs s1 (l ++ gen_escape t) (cb_position cb) Hcbs Hi1 Hst Htb)
      as (s' & pos' & E' & Hi' & Hc' & Hm').
    { by rewrite Hc1, app_assoc. }
    { rewrite <- (zlen_contents _ Hi1), Hc1, !zlen_app. rewrite <- (zlen_contents _ Hi), Hc, zlen_app in Hlim.
      lia. }
    exists s', pos'. split_and!; [done..| |].
    + by rewrite Hc', gen_escape_app, <- !app_assoc.
    + intros base Hb. eapply midway_cons; [apply midway_xat; [done|]| |].
      * rewrite Hc. by apply prefix_app_r.
      * cbn [handle_all]. rewrite Hcb. cbn [handle_event xat xc_stopped negb c_assert mbind outcome_bind].
        unfold set_pos. cbn [xat xc_buf xc_last_open_map xc_stack_pos xc_bits xc_gen xc_rc xc_response
          xc_msgs xc_stopped]. fold (xat s lom p v g (cb_position cb)). rewrite E1. reflexivity.
      * apply Hm'. by apply prefix_app_r.
Qed.

Lemma gen_run_text g key t u out g' :
  gen_run g [GString key; GString (t ++ u)] = Some (out, g') ->
  exists l, out = l ++ gen_escape u ++ [dquote] /\
    gen_run g [GString key; GString t] = Some (l ++ [dquote], g').
Proof.
  cbn [gen_run]. destruct (gen_call g (GString key)) as [[[] o1] g1]; try done.
  destruct (gen_string_state g1 (t ++ u) t) as [Hst Hg].
  destruct (gen_call g1 (GString (t ++ u))) as [[st o2] g2] eqn:E2; destruct st; try done.
  destruct (gen_call g1 (GString t)) as [[st' o3] g3] eqn:E3. cbn in Hst, Hg. subst st' g3.
  intros [= <- <-].
  rewrite (gen_string_text _ _ _ _ E2), (gen_string_text _ _ _ _ E3), gen_escape_app, !app_nil_r.
  exists (concat o1 ++ gen_prefix g1 ++ [dquote] ++ gen_escape t). by rewrite <- !app_assoc.
Qed.

(** A run of text, in as many pieces as expat likes. *)
Lemma text_spec pieces cbs s lom p v g pos out g' :
  map cb_event cbs = map XText pieces ->
  string_inv s -> stack_ok v p -> (pieces <> [] -> text_bit v p = false) ->
  gen_run g (member_tokens (text_member (text_key v p) pieces)) = Some (out, g') ->
  str_size s + zlen out <= size_limit ->
  exists s' v' pos', handle_all cbs (xat s lom p v g pos) = Ret (xat s' lom p v' g' pos') /\
    string_inv s' /\ contents s' = contents s ++ out /\ zlen v' = 32 /\
    (forall j, 0 <= j -> bit v' j =
      if (j =? 2 * p) && (0 <? Z.of_nat (has_text pieces)) then true else bit v j) /\
    forall base, base `prefix_of` contents s -> midway_all base cbs (xat s lom p v g pos).
Proof.
  intros Hcbs Hi Hst Htb Hrun Hlim. destruct pieces as [|t pieces].
  { destruct cbs; [|done]. injection Hrun as <- <-. destruct Hst. exists s, v, pos.
    rewrite app_nil_r. split_and!; try done; [|intros; apply midway_nil].
    intros j Hj. by rewrite andb_false_r. }
  destruct cbs as [|cb cbs]; [done|]. injection Hcbs as Hcb Hcbs.
  cbn [text_member member_tokens flat_map json_tokens concat fst snd app] in Hrun.
  apply gen_run_text in Hrun as (l & -> & Hrun). autorewrite with n2k in Hlim. zlen_facts.
  destruct (text_first_spec s lom p v g (cb_position cb) t (l ++ [dquote]) g' Hi Hst)
    as (s1 & v1 & E1 & Hi1 & Hc1 & Hv1 & Hb1); [by apply Htb|done|zlia|].
  assert (H1 : handle_all [cb] (xat s lom p v g pos) = Ret (xat s1 lom p v1 g' (cb_position cb))).
  { cbn [handle_all]. rewrite Hcb. cbn [handle_event xat xc_stopped negb c_assert mbind outcome_bind].
    unfold set_pos. cbn [xat xc_buf xc_last_open_map xc_stack_pos xc_bits xc_gen xc_rc xc_response
      xc_msgs xc_stopped]. fold (xat s lom p v g (cb_position cb)). rewrite E1. reflexivity. }
  rewrite app_assoc in Hc1. destruct Hst as [Hv Hp].
  destruct (text_rest_spec pieces cbs s1 lom p v1 g' (cb_position cb) (contents s ++ l) Hcbs Hi1)
    as (s' & pos' & E' & Hi' & Hc' & Hm'); [by split| |done| |].
  { unfold text_bit. bits_simpl. rewrite Hb1 by lia. by ztest. }
  { rewrite <- (zlen_contents _ Hi1), Hc1, !zlen_app, (zlen_contents _ Hi). zlia. }
  exists s', v1, pos'. split_and!; try done.
  - change (cb :: cbs) with ([cb] ++ cbs). by rewrite handle_all_app, H1.
  - by rewrite Hc', <- app_assoc.
  - intros j Hj. rewrite Hb1 by done. by rewrite andb_true_r.
  - intros base Hb. eapply midway_cons; [by apply midway_xat|exact H1|]. apply Hm'. by apply prefix_app_r.
Qed.

(** The calls for an element, up to the brace that closes its object. *)
Definition open_tokens (t : xml_tree) : list gen_token := GMapOpen :: member_tokens (xml_members t).

Fixpoint children_tokens (first : bool) (cts : list (xml_tree * list bytes)) : list gen_token :=
  match cts with
  | [] => []
  | ct :: cts =>
      (if first then [GString (bs "children"); GArrayOpen] else [GMapClose]) ++
      open_tokens ct.1 ++ member_tokens (text_member (bs "tail") ct.2) ++ children_tokens false cts
  end.

Definition close_tokens (cts : list (xml_tree * list bytes)) : list gen_token :=
  match cts with [] => [] | _ => [GMapClose; GArrayClose] end.

Lemma member_tokens_app a b : member_tokens (a ++ b) = member_tokens a ++ member_tokens b.
Proof. apply flat_map_app. Qed.

Lemma json_tokens_object ms : json_tokens (JObject ms) = [GMapOpen] ++ member_tokens ms ++ [GMapClose].
Proof. reflexivity. Qed.

Lemma children_tokens_close cts :
  member_tokens (children_member
    (map (fun ct => JObject (xml_members ct.1 ++ text_member (bs "tail") ct.2)) cts)) =
  children_tokens true cts ++ close_tokens cts.
Proof.
  destruct cts as [|ct cts]; [done|].
  assert (H : forall ct' cts',
    flat_map json_tokens
      (map (fun ct => JObject (xml_members ct.1 ++ text_member (bs "tail") ct.2)) (ct' :: cts'))
      ++ [GArrayClose] =
    open_tokens ct'.1 ++ member_tokens (text_member (bs "tail") ct'.2) ++
      children_tokens false cts' ++ [GMapClose; GArrayClose]).
  { intros ct' cts'. revert ct'. induction cts' as [|c2 cts' IH]; intros ct'.
    - cbn [map flat_map children_tokens app]. rewrite json_tokens_object, member_tokens_app.
      rewrite app_nil_r. unfold open_tokens. rewrite <- !app_assoc. done.
    - cbn [map]. cbn [flat_map]. rewrite <- app_assoc. cbn [map flat_map] in IH. rewrite IH.
      rewrite json_tokens_object, member_tokens_app. unfold open_tokens at 2.
      cbn [children_tokens]. rewrite <- !app_assoc. done. }
  transitivity ([GString (bs "children")] ++ ([GArrayOpen] ++
    flat_map json_tokens (map (fun ct => JObject (xml_members ct.1 ++ text_member (bs "tail") ct.2))
      (ct :: cts)) ++ [GArrayClose]) ++ []); [reflexivity|].
  rewrite app_nil_r, H. cbn [children_tokens close_tokens]. by rewrite <- !app_assoc.
Qed.

Lemma open_tokens_elem tag attrs text cts :
  open_tokens (Elem tag attrs text cts) =
  head_tokens tag attrs ++ (member_tokens (text_member (bs "text") text) ++ children_tokens true cts)
  ++ close_tokens cts.
Proof.
  unfold open_tokens, head_tokens. cbn [xml_members].
  rewrite !member_tokens_app, children_tokens_close. rewrite <- !app_assoc. done.
Qed.

(** The callbacks of [t] below an open element print the calls of [t]; the
    brace of [t] stays open. *)
Definition tree_runs (t : xml_tree) : Prop :=
  forall cbs s lom p v g pos out g',
    map cb_event cbs = xml_events t -> single_text t = true ->
    string_inv s -> zlen v = 32 -> 1 <= p -> p + Z.of_nat (height t) < 126 ->
    gen_run g (lead_tokens p v ++ open_tokens t) = Some (out, g') ->
    str_size s + zlen out <= size_limit ->
    exists s' v' pos', handle_all cbs (xat s lom p v g pos) = Ret (xat s' lom p v' g' pos') /\
      string_inv s' /\ contents s' = contents s ++ out /\ zlen v' = 32 /\
      (forall j, 0 <= j < 2 * (p + 1) -> bit v' j = if j =? 2 * p + 1 then true else bit v j) /\
      forall base, base `prefix_of` contents s -> midway_all base cbs (xat s lom p v g pos).

Definition tails (cts : list (xml_tree * list bytes)) : nat :=
  list_sum (map (fun ct => has_text ct.2) cts).

Definition child_events (cts : list (xml_tree * list bytes)) : list xml_event :=
  flat_map (fun ct => xml_events ct.1 ++ map XText ct.2) cts.

Lemma grow_size s s' out :
  string_inv s -> string_inv s' -> contents s' = contents s ++ out ->
  str_size s' = str_size s + zlen out.
Proof.
  intros Hi Hi' Hc. by rewrite <- (zlen_contents _ Hi'), Hc, zlen_app, (zlen_contents _ Hi).
Qed.

Lemma children_run cts : Forall (fun ct => tree_runs ct.1) cts ->
  forall cbs s lom p v g pos out g',
    map cb_event cbs = child_events cts -> forallb (fun ct => single_text ct.1) cts = true ->
    (tails cts + (if text_bit v p then 1 else 0) <= 1)%nat ->
    string_inv s -> zlen v = 32 -> 1 <= p ->
    p + Z.of_nat (fold_right (fun ct n => Nat.max (height ct.1) n) 0%nat cts) < 126 ->
    gen_run g (children_tokens (negb (children_bit v p)) cts) = Some (out, g') ->
    str_size s + zlen out <= size_limit ->
    exists s' v' pos', handle_all cbs (xat s lom p v g pos) = Ret (xat s' lom p v' g' pos') /\
      string_inv s' /\ contents s' = contents s ++ out /\ zlen v' = 32 /\
      (forall j, 0 <= j < 2 * p -> bit v' j = bit v j) /\
      children_bit v' p = match cts with [] => children_bit v p | _ => true end /\
      forall base, base `prefix_of` contents s -> midway_all base cbs (xat s lom p v g pos).
Proof.
  induction 1 as [|[t tl] cts Ht Hcts IH]; intros cbs s lom p v g pos out g'
    Hcbs Hsingle Htails Hi Hv Hp Hh Hrun Hlim.
  { destruct cbs; [|done]. injection Hrun as <- <-. exists s, v, pos. rewrite app_nil_r.
    split_and!; try done. intros. apply midway_nil. }
  cbn [fst] in Ht. cbn [child_events flat_map fst snd] in Hcbs. cbn [forallb fst] in Hsingle.
  apply andb_true_iff in Hsingle as [Hs1 Hs2]. cbn [fold_right fst] in Hh. rewrite Nat2Z.inj_max in Hh.
  change (has_text tl + tails cts + (if text_bit v p then 1 else 0) <= 1)%nat in Htails.
  apply map_eq_app in Hcbs as (cb1 & cb3 & -> & H12 & H3).
  apply map_eq_app in H12 as (cb1' & cb2 & -> & H1 & H2).
  cbn [children_tokens fst snd] in Hrun.
  assert (Hlead : lead_tokens p v =
    if negb (children_bit v p) then [GString (bs "children"); GArrayOpen] else [GMapClose]).
  { unfold lead_tokens. ztest. by destruct (children_bit v p). }
  rewrite <- Hlead, app_assoc in Hrun.
  apply gen_run_app in Hrun as (o1 & g1 & orest & R1 & Rrest & ->).
  apply gen_run_app in Rrest as (o2 & g2 & o3 & R2 & R3 & ->).
  rewrite !zlen_app in Hlim. zlen_facts.
  destruct (Ht cb1' s lom p v g pos o1 g1 H1 Hs1 Hi Hv Hp) as (s1 & v1 & pos1 & E1 & Hi1 & Hc1 & Hv1 & Hb1 & Hm1);
    [lia|done|lia|]. pose proof (grow_size _ _ _ Hi Hi1 Hc1) as Hz1.
  assert (Hch1 : children_bit v1 p = true).
  { unfold children_bit. bits_simpl. rewrite Hb1 by lia. by ztest. }
  assert (Htb1 : text_bit v1 p = text_bit v p).
  { unfold text_bit. bits_simpl. rewrite Hb1 by lia. by ztest. }
  destruct (text_spec tl cb2 s1 lom p v1 g1 pos1 o2 g2 H2 Hi1)
    as (s2 & v2 & pos2 & E2 & Hi2 & Hc2 & Hv2 & Hb2 & Hm2); [split; lia| | |lia|].
  { intros Htl. rewrite Htb1. destruct (text_bit v p), tl; try done. cbn in Htails. lia. }
  { unfold text_key. by rewrite Hch1. }
  pose proof (grow_size _ _ _ Hi1 Hi2 Hc2) as Hz2.
  assert (Hch2 : children_bit v2 p = true).
  { unfold children_bit. bits_simpl. rewrite Hb2 by lia. ztest. exact Hch1. }
  destruct (IH cb3 s2 lom p v2 g2 pos2 o3 g' H3 Hs2) as (s3 & v3 & pos3 & E3 & Hi3 & Hc3 & Hv3 & Hb3 & Hch3 & Hm3);
    try done; [|lia|by rewrite Hch2|lia|].
  { unfold text_bit. bits_simpl. rewrite Hb2 by lia. rewrite (Z.mul_comm p 2), Z.eqb_refl.
    cbn [andb]. unfold text_bit in Htb1, Htails. revert Htb1 Htails. bits_simpl.
    rewrite (Z.mul_comm p 2). intros -> Htails. destruct tl, (bit v (2 * p));
      cbn [has_text] in *; ztest; lia. }
  exists s3, v3, pos3. rewrite !handle_all_app, E1. cbn [mbind outcome_bind]. rewrite E2.
  cbn [mbind outcome_bind]. split_and!; try done.
  - by rewrite Hc3, Hc2, Hc1, <- !app_assoc.
  - intros j Hj. rewrite Hb3, Hb2, Hb1 by lia. by ztest.
  - rewrite Hch3. by destruct cts.
  - intros base Hb. eapply midway_app; [|by rewrite handle_all_app, E1|].
    + eapply midway_app; [by apply Hm1|exact E1|]. apply Hm2. rewrite Hc1. by apply prefix_app_r.
    + apply Hm3. rewrite Hc2, Hc1. by do 2 apply prefix_app_r.
Qed.

(** Text and children of an element whose start was handled. *)
Lemma inner_run text cts : Forall (fun ct => tree_runs ct.1) cts ->
  forall cbs s lom p v g pos out g',
    map cb_event cbs = map XText text ++ child_events cts ->
    forallb (fun ct => single_text ct.1) cts = true -> (has_text text + tails cts <= 1)%nat ->
    text_bit v p = false -> children_bit v p = false ->
    string_inv s -> zlen v = 32 -> 1 <= p ->
    p + Z.of_nat (fold_right (fun ct n => Nat.max (height ct.1) n) 0%nat cts) < 126 ->
    gen_run g (member_tokens (text_member (bs "text") text) ++ children_tokens true cts)
      = Some (out, g') ->
    str_size s + zlen out <= size_limit ->
    exists s' v' pos', handle_all cbs (xat s lom p v g pos) = Ret (xat s' lom p v' g' pos') /\
      string_inv s' /\ contents s' = contents s ++ out /\ zlen v' = 32 /\
      (forall j, 0 <= j < 2 * p -> bit v' j = bit v j) /\
      children_bit v' p = match cts with [] => false | _ => true end /\
      forall base, base `prefix_of` contents s -> midway_all base cbs (xat s lom p v g pos).
Proof.
  intros Hcts cbs s lom p v g pos out g' Hcbs Hsingle Htexts Htb Hch Hi Hv Hp Hh Hrun Hlim.
  apply map_eq_app in Hcbs as (cb1 & cb2 & -> & H1 & H2).
  apply gen_run_app in Hrun as (o1 & g1 & o2 & R1 & R2 & ->). rewrite zlen_app in Hlim. zlen_facts.
  destruct (text_spec text cb1 s lom p v g pos o1 g1 H1 Hi)
    as (s1 & v1 & pos1 & E1 & Hi1 & Hc1 & Hv1 & Hb1 & Hm1);
    [split; lia|done|unfold text_key; by rewrite Hch|lia|].
  pose proof (grow_size _ _ _ Hi Hi1 Hc1) as Hz1.
  assert (Hch1 : children_bit v1 p = false).
  { rewrite <- Hch. unfold children_bit. bits_simpl. rewrite Hb1 by lia. by ztest. }
  destruct (children_run cts Hcts cb2 s1 lom p v1 g1 pos1 o2 g' H2 Hsingle)
    as (s2 & v2 & pos2 & E2 & Hi2 & Hc2 & Hv2 & Hb2 & Hch2 & Hm2); try done; [|by rewrite Hch1|lia|].
  { revert Htb. unfold text_bit. bits_simpl. intros Htb. rewrite Hb1 by lia.
    rewrite (Z.mul_comm 2 p), Z.eqb_refl, Htb. cbn [andb]. revert Htexts. clear.
    destruct text; cbn [has_text]; ztest; lia. }
  exists s2, v2, pos2. rewrite handle_all_app, E1. cbn [mbind outcome_bind].
  split_and!; try done.
  - by rewrite Hc2, Hc1, <- app_assoc.
  - intros j Hj. rewrite Hb2, Hb1 by lia. by ztest.
  - rewrite Hch2. by destruct cts.
  - intros base Hb. eapply midway_app; [by apply Hm1|exact E1|]. apply Hm2. rewrite Hc1. by apply prefix_app_r.
Qed.

Lemma handle_one cb e c :
  cb_event cb = e -> xc_stopped c = false ->
  handle_all [cb] c = handle_event true (set_pos c (cb_position cb)) e.
Proof. intros <- H. cbn. rewrite H. cbn. by destruct (handle_event _ _ _). Qed.

Lemma set_pos_xat s lom p v g pos pos' : set_pos (xat s lom p v g pos) pos' = xat s lom p v g pos'.
Proof. reflexivity. Qed.

Lemma single_text_elem tag attrs text cts :
  single_text (Elem tag attrs text cts) = true ->
  (has_text text + tails cts <= 1)%nat /\ forallb (fun ct => single_text ct.1) cts = true.
Proof. cbn [single_text]. intros [H%Nat.leb_le ?]%andb_true_iff. done. Qed.

Lemma tree_runs_all t : tree_runs t.
Proof.
  induction t as [tag attrs text cts IH] using xml_tree_ind'.
  intros cbs s lom p v g pos out g' Hcbs [Htexts Hsingle]%single_text_elem Hi Hv Hp Hh Hrun Hlim.
  cbn [xml_events] in Hcbs. cbn [height] in Hh.
  apply map_eq_app in Hcbs as (cb1 & cbr & -> & H1 & Hr).
  rewrite app_assoc in Hr. apply map_eq_app in Hr as (cb2 & cb3 & -> & H2 & H3).
  destruct cb1 as [|cb1 [|? ?]]; try done. injection H1 as H1.
  destruct cb3 as [|cb3 [|? ?]]; try done. injection H3 as H3.
  rewrite open_tokens_elem, !app_assoc in Hrun. rewrite <- (app_assoc _ _ (children_tokens _ _)) in Hrun.
  apply gen_run_app in Hrun as (o12 & g2 & o3 & R12 & R3 & ->).
  apply gen_run_app in R12 as (o1 & g1 & o2 & R1 & R2 & ->).
  rewrite !zlen_app in Hlim. zlen_facts.
  destruct (start_element_spec s lom p v g (cb_position cb1) tag attrs o1 g1 Hi)
    as (s1 & v1 & E1 & Hi1 & Hc1 & Hv1 & Ht1 & Hch1 & Hb1); [split; lia|done|lia|].
  pose proof (grow_size _ _ _ Hi Hi1 Hc1) as Hz1. rewrite (proj2 (Z.eqb_neq p 0)) in E1 by lia.
  destruct (inner_run text cts IH cb2 s1 lom (p + 1) v1 g1 (cb_position cb1) o2 g2 H2 Hsingle Htexts
    Ht1 Hch1 Hi1 Hv1) as (s2 & v2 & pos2 & E2 & Hi2 & Hc2 & Hv2 & Hb2 & Hch2 & Hm2); [lia|lia|done|lia|].
  pose proof (grow_size _ _ _ Hi1 Hi2 Hc2) as Hz2.
  destruct (end_element_spec s2 lom (p + 1) v2 g2 (cb_position cb3) o3 g' Hi2)
    as (s3 & E3 & Hi3 & Hc3); [split; lia|lia|rewrite Hch2; by destruct cts|lia|].
  exists s3, v2, (cb_position cb3).
  assert (F1 : handle_all [cb1] (xat s lom p v g pos) = Ret (xat s1 lom (p + 1) v1 g1 (cb_position cb1))).
  { rewrite (handle_one _ _ _ H1) by done. cbn [handle_event]. by rewrite set_pos_xat, E1. }
  rewrite !handle_all_app, F1.
  cbn [mbind outcome_bind]. rewrite handle_all_app, E2. cbn [mbind outcome_bind].
  rewrite (handle_one _ _ _ H3) by done. cbn [handle_event]. rewrite set_pos_xat, E3.
  replace (p + 1 - 1) with p by lia. split_and!; try done.
  - by rewrite Hc3, Hc2, Hc1, <- !app_assoc.
  - intros j Hj. rewrite Hb2, Hb1 by lia. replace (0 <? p) with true by lia. by rewrite andb_true_r.
  - intros base Hb. eapply midway_cons; [by apply midway_xat|exact F1|].
    assert (Hb1' : base `prefix_of` contents s1) by (rewrite Hc1; by apply prefix_app_r).
    eapply midway_app; [by apply Hm2|exact E2|]. apply midway_one, midway_xat; [done|].
    rewrite Hc2. by apply prefix_app_r.
Qed.

(** The end of the root element completes the document. *)
Lemma end_root_spec s lom v g pos out g' ms :
  string_inv s -> zlen v = 32 -> 0 <= lom < str_size s + zlen out ->
  gen_run g ((if children_bit v 1 then [GMapClose; GArrayClose] else []) ++ [GMapClose])
    = Some (out, g') ->
  str_size s + zlen out <= size_limit ->
  ka_holds msgs ms -> ka_bytes (zlen ms + 1) <= size_limit ->
  exists s' msgs', zz_parse_end_xml_element (xat s lom 1 v g pos)
      = Ret (mkxc s' NO_JSON_LAST_OPEN_MAP 0 v (yajl_gen_reset g') rc resp msgs' pos true) /\
    string_inv s' /\ contents s' = contents s ++ out /\
    ka_holds msgs' (ms ++ [new_msg lom (str_size s + zlen out - lom)]).
Proof.
  intros Hi Hv Hlom Hrun Hlim Hka Hkb. unfold zz_parse_end_xml_element, string_size.
  cbn [xat xc_response xc_bits xc_stack_pos]. rewrite Hresp. cbn [Z.ltb Z.compare].
  unfold test_current_stack_children_printed.
  rewrite bit_test_spec by (unfold in_vector; bits_simpl; lia).
  cbn [mbind outcome_bind]. unfold children_bit in Hrun.
  apply gen_run_app in Hrun as (o1 & g1 & o2 & R1 & R2 & ->).
  rewrite zlen_app in Hlim, Hlom. zlen_facts.
  assert (Hm : prints (fun c : xml_ctx => if bit v (children_printed_bit_from_frame 1) then
       gen_then (gen_or_goto_err (bs "Can't gen child JSON close key") [GMapClose] c)
         (gen_or_goto_err (bs "Can't gen JSON child array close bracket") [GArrayClose])
     else Ret (GenOk c))
     (if bit v (children_printed_bit_from_frame 1) then [GMapClose; GArrayClose] else [])).
  { destruct (bit v _); [|apply prints_ret].
    apply (prints_then _ _ [GMapClose] [GArrayClose]); apply prints_err. }
  destruct (prints_xat _ _ s lom 1 v g pos o1 g1 Hm Hi R1) as (s1 & E1 & Hi1 & Hc1 & Hz1); [lia|].
  fold (xat s lom 1 v g pos). unfold gen_then at 1. rewrite E1.
  cbn [mbind outcome_bind xat xc_stack_pos set_xml_stack_pos].
  change (wrap64 (1 - 1)) with 0. cbn [Z.ltb Z.compare].
  fold (xat s1 lom 0 v g1 pos).
  destruct (prints_xat _ _ s1 lom 0 v g1 pos o2 g'
    (prints_err (bs "Can't gen child JSON close key") [GMapClose]) Hi1 R2)
    as (s2 & E2 & Hi2 & Hc2 & Hz2); [lia|].
  unfold set_xml_stack_pos. cbn [xat xc_buf xc_last_open_map xc_bits xc_gen xc_rc xc_response xc_msgs
    xc_pos xc_stopped]. fold (xat s1 lom 0 v g1 pos).
  unfold gen_then. rewrite E2. cbn [mbind outcome_bind]. unfold end_document, c_assert, string_size.
  cbn [xat xc_buf xc_last_open_map xc_msgs xc_gen]. ztest. cbn [mbind outcome_bind].
  assert (str_size s2 - lom = str_size s + zlen (o1 ++ o2) - lom) as -> by (rewrite zlen_app; lia).
  destruct (kafka_msg_array_add_spec msgs ms (new_msg lom (str_size s + zlen (o1 ++ o2) - lom)) Hka Hkb)
    as [(msgs' & -> & Hka')|(?&?&?&[])]; [|done].
  cbn [mbind outcome_bind Z.eqb negb handler_end]. exists s2, msgs'. split_and!; try done.
  by rewrite Hc2, Hc1, app_assoc.
Qed.

Lemma gen_run_string_pos g ts s ts' out g' :
  gen_run g (ts ++ GString s :: ts') = Some (out, g') -> 0 < zlen out.
Proof.
  intros (o1 & g1 & o2 & _ & R2 & ->)%gen_run_app. cbn [gen_run] in R2.
  destruct (gen_call g1 (GString s)) as [[st o] g2] eqn:E; destruct st; try done.
  destruct (gen_run g2 ts') as [[o3 g3]|]; [|done]. injection R2 as <- <-.
  rewrite (gen_string_text _ _ _ _ E). zlia.
Qed.

Lemma document_run t cbs s lom v g pos out g' ms :
  map cb_event cbs = xml_events t -> single_text t = true ->
  string_inv s -> zlen v = 32 -> Z.of_nat (height t) < 125 ->
  gen_run g (json_tokens (json_of_xml t)) = Some (out, g') ->
  str_size s + zlen out <= size_limit ->
  ka_holds msgs ms -> ka_bytes (zlen ms + 1) <= size_limit ->
  exists s' v' msgs' pos', handle_all cbs (xat s lom 0 v g pos)
      = Ret (mkxc s' NO_JSON_LAST_OPEN_MAP 0 v' (yajl_gen_reset g') rc resp msgs' pos' true) /\
    string_inv s' /\ contents s' = contents s ++ out /\ zlen v' = 32 /\
    ka_holds msgs' (ms ++ [new_msg (str_size s) (zlen out)]) /\
    midway_all (contents s) cbs (xat s lom 0 v g pos).
Proof.
  destruct t as [tag attrs text cts].
  intros Hcbs [Htexts Hsingle]%single_text_elem Hi Hv Hh Hrun Hlim Hka Hkb.
  cbn [xml_events] in Hcbs. cbn [height] in Hh.
  apply map_eq_app in Hcbs as (cb1 & cbr & -> & H1 & Hr).
  rewrite app_assoc in Hr. apply map_eq_app in Hr as (cb2 & cb3 & -> & H2 & H3).
  destruct cb1 as [|cb1 [|? ?]]; try done. injection H1 as H1.
  destruct cb3 as [|cb3 [|? ?]]; try done. injection H3 as H3.
  assert (Hpos : 0 < zlen out).
  { apply (gen_run_string_pos g [GMapOpen] (bs "tag") _ out g' Hrun). }
  change (json_tokens (json_of_xml (Elem tag attrs text cts))) with
    (open_tokens (Elem tag attrs text cts) ++ [GMapClose]) in Hrun.
  rewrite open_tokens_elem, <- !app_assoc in Hrun. rewrite (app_assoc _ _ (close_tokens _ ++ _)) in Hrun.
  apply gen_run_app in Hrun as (o1 & g1 & o23 & R1 & R23 & ->).
  apply gen_run_app in R23 as (o2 & g2 & o3 & R2 & R3 & ->).
  rewrite !zlen_app in Hlim, Hpos. zlen_facts.
  destruct (start_element_spec s lom 0 v g (cb_position cb1) tag attrs o1 g1 Hi)
    as (s1 & v1 & E1 & Hi1 & Hc1 & Hv1 & Ht1 & Hch1 & Hb1); [split; lia|done|lia|].
  pose proof (grow_size _ _ _ Hi Hi1 Hc1) as Hz1. cbn [Z.eqb] in E1.
  destruct (inner_run text cts) with (cbs := cb2) (s := s1) (lom := str_size s) (p := 1) (v := v1)
    (g := g1) (pos := cb_position cb1) (out := o2) (g' := g2)
    as (s2 & v2 & pos2 & E2 & Hi2 & Hc2 & Hv2 & Hb2 & Hch2 & Hm2); try done; [|lia|lia|].
  { apply list.Forall_forall. intros ct _. apply tree_runs_all. }
  pose proof (grow_size _ _ _ Hi1 Hi2 Hc2) as Hz2.
  destruct (end_root_spec s2 (str_size s) v2 g2 (cb_position cb3) o3 g' ms Hi2 Hv2)
    as (s3 & msgs' & E3 & Hi3 & Hc3 & Hka3); try done.
  { destruct Hi. lia. }
  { rewrite Hch2. by destruct cts. }
  { lia. }
  exists s3, v2, msgs', (cb_position cb3).
  assert (F1 : handle_all [cb1] (xat s lom 0 v g pos) = Ret (xat s1 (str_size s) 1 v1 g1 (cb_position cb1))).
  { rewrite (handle_one _ _ _ H1) by done. cbn [handle_event]. by rewrite set_pos_xat, E1. }
  rewrite !handle_all_app, F1. cbn [mbind outcome_bind]. rewrite handle_all_app, E2.
  cbn [mbind outcome_bind]. rewrite (handle_one _ _ _ H3) by done. cbn [handle_event].
  rewrite set_pos_xat, E3. split_and!; try done.
  - by rewrite Hc3, Hc2, Hc1, <- !app_assoc.
  - rewrite !zlen_app. replace (zlen o1 + (zlen o2 + zlen o3)) with (str_size s2 + zlen o3 - str_size s)
      by lia. done.
  - eapply midway_cons; [by apply midway_xat|exact F1|].
    assert (Hb1' : contents s `prefix_of` contents s1) by (rewrite Hc1; by apply prefix_app_r).
    eapply midway_app; [by apply Hm2|exact E2|]. apply midway_one, midway_xat; [done|].
    rewrite Hc2. by apply prefix_app_r.
Qed.
End handlers.

Lemma run_handlers_all cbs rest idx c c' :
  handle_all cbs c = Ret c' ->
  run_handlers true (cbs ++ rest) idx c =
    run_handlers true rest (match list.last cbs with Some cb => cb_stop_index cb | None => idx end) c'.
Proof.
  revert c idx. induction cbs as [|cb cbs IH]; intros c idx H.
  { by injection H as ->. }
  cbn [handle_all] in H. inv_bind H. cbn [app run_handlers].
  destruct (xc_stopped c); [done|]. cbn [andb negb].
  apply bind_Ret_inv in Hk as (c1 & H1 & H2). rewrite H1. cbn [mbind outcome_bind].
  rewrite (IH c1 _ H2), last_cons. by destruct (list.last cbs).
Qed.

Context {expat : Expat}.

(** What expat finds in a buffer: documents one after the other, each read by a
    parser that was reset after the one before, and then nothing more; the last
    argument is the parser afterwards.  The byte index reported at the end of a
    document is where it ends. *)
Inductive documents : XML_Parser -> bytes -> list xml_tree -> XML_Parser -> Prop :=
| docs_end p : documents p [] [] p
| docs_blank p buffer pos p1 :
    XML_Parse p buffer = ([], XML_STATUS_OK, pos, p1) -> buffer <> [] -> documents p buffer [] p1
| docs_next p buffer cbs rest st pos p1 t ts cb p' :
    XML_Parse p buffer = (cbs ++ rest, st, pos, p1) ->
    map cb_event cbs = xml_events t -> list.last cbs = Some cb ->
    match rest with [] => true | r :: _ => negb (cb_late r) end = true ->
    0 < cb_stop_index cb <= zlen buffer ->
    documents (XML_ParserReset p1) (zdrop (cb_stop_index cb) buffer) ts p' ->
    documents p buffer (t :: ts) p'.

(** A generator that is at the start of a document. *)
Definition fresh_gen (g : yajl_gen) : Prop := g = yajl_gen_alloc \/ exists g0, g = yajl_gen_reset g0.

(** The generator can print the document, as the text [text]. *)
Definition generates (t : xml_tree) (text : bytes) : Prop :=
  forall g, fresh_gen g -> exists g', gen_run g (json_tokens (json_of_xml t)) = Some (text, g').

(** The messages of consecutive texts, the first at [off]. *)
Fixpoint text_msgs (off : Z) (texts : list bytes) : list rd_kafka_message :=
  match texts with
  | [] => []
  | text :: texts => new_msg off (zlen text) :: text_msgs (off + zlen text) texts
  end.

(** A session that has not failed, between two documents. *)
Record xml_idle (c : xml_ctx) (ms : list rd_kafka_message) : Prop := {
  xi_buf : string_inv (xc_buf c);
  xi_pos : xc_stack_pos c = 0;
  xi_bits : zlen (xc_bits c) = 32;
  xi_gen : fresh_gen (xc_gen c);
  xi_response : str_size (xc_response c) = 0;
  xi_msgs : ka_holds (xc_msgs c) ms
}.

Lemma xml_parse_document p buffer cbs rest st pos p1 t cb c ms text :
  XML_Parse p buffer = (cbs ++ rest, st, pos, p1) ->
  map cb_event cbs = xml_events t -> list.last cbs = Some cb ->
  match rest with [] => true | r :: _ => negb (cb_late r) end = true ->
  single_text t = true -> Z.of_nat (height t) < 125 -> generates t text -> xml_idle c ms ->
  str_size (xc_buf c) + zlen text <= size_limit -> ka_bytes (zlen ms + 1) <= size_limit ->
  exists c', xml_parse true p buffer c = Ret (XML_STATUS_ERROR, p1, c') /\
    xp_err (xc_pos c') = XML_ERROR_ABORTED /\ xp_index (xc_pos c') = cb_stop_index cb /\
    xml_idle c' (ms ++ [new_msg (str_size (xc_buf c)) (zlen text)]) /\
    contents (xc_buf c') = contents (xc_buf c) ++ text /\ xc_rc c' = xc_rc c /\
    xc_response c' = xc_response c.
Proof.
  intros Hparse Hcbs Hlast Hlate Hst Hh Hgen [Hi Hp Hb Hg Hr Hka] Hlim Hkb.
  destruct (Hgen (xc_gen c) Hg) as (g' & Hrun).
  destruct (document_run (xc_rc c) (xc_response c) (xc_msgs c) Hr t cbs (xc_buf c)
    (xc_last_open_map c) (xc_bits c) (xc_gen c) (xc_pos c) text g' ms)
    as (s' & v' & msgs' & pos' & Hall & Hi' & Hc' & Hv' & Hka' & _); try done.
  unfold xml_parse. rewrite Hparse.
  assert (set_stopped c false = xat (xc_rc c) (xc_response c) (xc_msgs c) (xc_buf c)
    (xc_last_open_map c) 0 (xc_bits c) (xc_gen c) (xc_pos c)) as ->.
  { unfold xat, set_stopped. by rewrite Hp. }
  rewrite (run_handlers_all _ _ _ _ _ Hall), Hlast.
  assert (run_handlers true rest (cb_stop_index cb) (mkxc s' NO_JSON_LAST_OPEN_MAP 0 v'
      (yajl_gen_reset g') (xc_rc c) (xc_response c) msgs' pos' true) =
    Ret (mkxc s' NO_JSON_LAST_OPEN_MAP 0 v' (yajl_gen_reset g') (xc_rc c) (xc_response c) msgs' pos'
      true, cb_stop_index cb)) as ->.
  { destruct rest as [|r rest]; [done|]. cbn [run_handlers xc_stopped]. by rewrite Hlate. }
  cbn [mbind outcome_bind xc_stopped]. eexists. split; [reflexivity|]. cbn.
  split_and!; try done. split; try done. cbn. right. by exists g'.
Qed.

(** The round of the loop for a whole document. *)
Lemma process_xml_loop_next fuel p buffer cbs rest st pos p1 t cb c ms text :
  XML_Parse p buffer = (cbs ++ rest, st, pos, p1) ->
  map cb_event cbs = xml_events t -> list.last cbs = Some cb ->
  match rest with [] => true | r :: _ => negb (cb_late r) end = true ->
  0 < cb_stop_index cb <= zlen buffer -> zlen buffer < 2 ^ 64 ->
  single_text t = true -> Z.of_nat (height t) < 125 -> generates t text -> xml_idle c ms ->
  str_size (xc_buf c) + zlen text <= size_limit -> ka_bytes (zlen ms + 1) <= size_limit ->
  exists c1, process_xml_loop (S fuel) true p buffer c
      = process_xml_loop fuel true (XML_ParserReset p1) (zdrop (cb_stop_index cb) buffer) c1 /\
    xml_idle c1 (ms ++ [new_msg (str_size (xc_buf c)) (zlen text)]) /\
    contents (xc_buf c1) = contents (xc_buf c) ++ text /\ xc_rc c1 = xc_rc c /\
    xc_response c1 = xc_response c /\ str_size (xc_buf c1) = str_size (xc_buf c) + zlen text.
Proof.
  intros Hparse Hcbs Hlast Hlate Hidx Hlen Hst Hh Hgen Hidle Hlim Hkb.
  destruct (xml_parse_document p buffer cbs rest st pos p1 t cb c ms text)
    as (c1 & E1 & Herr & Hix & Hidle1 & Hc1 & Hrc1 & Hresp1); try done.
  exists c1. cbn [process_xml_loop]. unfold string_size in *.
  rewrite (xi_response _ _ Hidle). ztest. rewrite E1. cbn [mbind outcome_bind].
  rewrite Herr, Hix, Hresp1, (xi_response _ _ Hidle). ztest. rewrite wrap64_small by lia.
  unfold c_assert. ztest. cbn [mbind outcome_bind bool_decide]. split_and!; try done.
  exact (grow_size _ _ _ (xi_buf _ _ Hidle) (xi_buf _ _ Hidle1) Hc1).
Qed.

Lemma process_xml_loop_spec p buffer ts p' : documents p buffer ts p' ->
  forall texts fuel c ms,
    Forall2 generates ts texts ->
    Forall (fun t => single_text t = true /\ Z.of_nat (height t) < 125) ts ->
    xml_idle c ms -> (length buffer < fuel)%nat ->
    str_size (xc_buf c) + zlen (concat texts) <= size_limit ->
    ka_bytes (zlen ms + zlen ts) <= size_limit ->
    zlen buffer < 2 ^ 64 ->
    exists c', process_xml_loop fuel true p buffer c = Ret (p', c') /\
      xml_idle c' (ms ++ text_msgs (str_size (xc_buf c)) texts) /\
      contents (xc_buf c') = contents (xc_buf c) ++ concat texts /\ xc_rc c' = xc_rc c /\
      xc_response c' = xc_response c.
Proof.
  induction 1 as [p|p buffer pos p1 Hparse Hne|p buffer cbs rest st pos p1 t ts cb p' Hparse Hcbs Hlast Hlate
    Hidx Hdocs IH]; intros texts fuel c ms Htexts Hts Hidle Hfuel Hlim Hkb Hlen.
  - apply Forall2_nil_inv_l in Htexts as ->. destruct fuel; [lia|]. exists c. cbn.
    by rewrite !app_nil_r.
  - apply Forall2_nil_inv_l in Htexts as ->. cbn [text_msgs concat]. rewrite !app_nil_r.
    pose proof Hidle as [Hi Hp Hb Hg Hr Hka]. destruct fuel as [|fuel]; [lia|].
    cbn [process_xml_loop]. unfold string_size. rewrite Hr. cbn [Z.eqb].
    assert (0 < zlen buffer) by (destruct buffer; [done|]; zlia). ztest. unfold xml_parse.
    rewrite Hparse. cbn. eexists. by split_and!.
  - apply Forall2_cons_inv_l in Htexts as (text & texts' & Hgen & Htexts & ->).
    apply list.Forall_cons in Hts as [[Hst Hh] Hts]. rewrite zlen_cons in Hkb.
    cbn [concat] in Hlim |- *. rewrite zlen_app in Hlim. zlen_facts.
    destruct fuel as [|fuel]; [lia|].
    destruct (process_xml_loop_next fuel p buffer cbs rest st pos p1 t cb c ms text)
      as (c1 & E1 & Hidle1 & Hc1 & Hrc1 & Hresp1 & Hz1); try done; [lia| |].
    { etransitivity; [|exact Hkb]. apply ka_bytes_mono. lia. }
    destruct (IH texts' fuel c1 _ Htexts Hts Hidle1) as (c' & E' & Hidle' & Hc' & Hrc' & Hresp').
    { unfold zdrop. rewrite length_drop. unfold zlen in Hidx. lia. }
    { lia. }
    { autorewrite with n2k. by replace (zlen ms + (1 + 0) + zlen ts) with (zlen ms + (1 + zlen ts))
        by lia. }
    { rewrite zlen_zdrop; lia. }
    exists c'. rewrite E1. split_and!; try done.
    + cbn [text_msgs]. by rewrite <- Hz1, <- app_assoc in *.
    + by rewrite Hc', Hc1, app_assoc.
    + by rewrite Hrc', Hrc1.
    + by rewrite Hresp', Hresp1.
Qed.

(** ** Malformed documents *)

(** expat stops at an error inside of a document; its callbacks are those of the start
    of a document, whose translation would be [text]. *)
Definition breaks (p : XML_Parser) (buffer : bytes) (pos : xml_position) (text : bytes) : Prop :=
  exists cbs p1 t e es, XML_Parse p buffer = (cbs, XML_STATUS_ERROR, pos, p1) /\
    map cb_event cbs ++ e :: es = xml_events t /\ single_text t = true /\
    Z.of_nat (height t) < 125 /\ generates t text.

(** Documents one after the other, and then one that is malformed. *)
Inductive broken_documents : XML_Parser -> bytes -> list xml_tree -> xml_position -> bytes -> Prop :=
| broken_here p buffer pos text :
    buffer <> [] -> breaks p buffer pos text -> broken_documents p buffer [] pos text
| broken_next p buffer cbs rest st pos1 p1 t ts cb pos text :
    XML_Parse p buffer = (cbs ++ rest, st, pos1, p1) ->
    map cb_event cbs = xml_events t -> list.last cbs = Some cb ->
    match rest with [] => true | r :: _ => negb (cb_late r) end = true ->
    0 < cb_stop_index cb <= zlen buffer ->
    broken_documents (XML_ParserReset p1) (zdrop (cb_stop_index cb) buffer) ts pos text ->
    broken_documents p buffer (t :: ts) pos text.

(** The callbacks before the error leave the messages, and the texts they are in. *)
Lemma xml_parse_breaks p buffer pos text c ms :
  breaks p buffer pos text -> xml_idle c ms ->
  str_size (xc_buf c) + zlen text <= size_limit -> ka_bytes (zlen ms + 1) <= size_limit ->
  exists p1 c', xml_parse true p buffer c = Ret (XML_STATUS_ERROR, p1, c') /\
    xc_pos c' = pos /\ xc_rc c' = xc_rc c /\ xc_response c' = xc_response c /\ xc_msgs c' = xc_msgs c /\
    contents (xc_buf c) `prefix_of` contents (xc_buf c').
Proof.
  intros (cbs & p1 & t & e & es & Hparse & Hcbs & Hst & Hh & Hgen) [Hi Hp Hb Hg Hr Hka] Hlim Hkb.
  destruct (Hgen (xc_gen c) Hg) as (g' & Hrun).
  destruct (document_run (xc_rc c) (xc_response c) (xc_msgs c) Hr t
    (cbs ++ mkcb e pos 0 false :: map (fun e => mkcb e pos 0 false) es) (xc_buf c)
    (xc_last_open_map c) (xc_bits c) (xc_gen c) (xc_pos c) text g' ms)
    as (s' & v' & msgs' & pos' & _ & _ & _ & _ & _ & Hmid); try done.
  { rewrite map_app. cbn [map cb_event]. by rewrite map_map, map_id. }
  destruct (Hmid cbs _ _ eq_refl) as (c1 & Hall & s1 & lom1 & sp1 & v1 & g1 & pos1 & -> & _ & Hpre).
  unfold xml_parse. rewrite Hparse.
  assert (set_stopped c false = xat (xc_rc c) (xc_response c) (xc_msgs c) (xc_buf c)
    (xc_last_open_map c) 0 (xc_bits c) (xc_gen c) (xc_pos c)) as ->.
  { unfold xat, set_stopped. by rewrite Hp. }
  pose proof (run_handlers_all cbs [] 0 _ _ Hall) as E. rewrite app_nil_r in E. rewrite E.
  cbn [run_handlers mbind outcome_bind xat xc_stopped]. by eexists _, _.
Qed.

(** The report of an error that expat finds. *)
Definition xml_error_report (pos : xml_position) : bytes :=
  xml_error_text_of (mkerr (bs "Error parsing XML") (XML_ErrorString (xp_err pos)) (bs "No error")
    DECODER_CALLBACK_INVALID_REQUEST) pos.

(** The client is to blame for it, and its report fits one block. *)
Definition syntax_error (pos : xml_position) : Prop :=
  cs_err_code (expat_err2codestr (xp_err pos)) = DECODER_CALLBACK_INVALID_REQUEST /\
  xp_err pos <> XML_ERROR_JUNK_AFTER_DOC_ELEMENT /\ zlen (xml_error_report pos) <= 4000.

Lemma queue_syntax_error c :
  syntax_error (xc_pos c) -> xc_response c = N2K_STRING_INITIALIZER ->
  exists r, queue_xml_error c (bs "Error parsing XML") yajl_gen_status_ok
      = Ret (set_stopped (set_response (set_rc c DECODER_CALLBACK_INVALID_REQUEST) r) true) /\
    string_inv r /\ contents r = xml_error_report (xc_pos c).
Proof.
  intros (Hcode & _ & Hlim) Hr. unfold queue_xml_error.
  rewrite bool_decide_false by (by intros []). rewrite Hcode. unfold queue_xml_error0.
  cbn [return_code set_rc xc_response xc_pos]. rewrite Hr.
  match goal with |- context [string_printf 2 _ ?t] => change t with (xml_error_report (xc_pos c)) end.
  pose proof (string_printf_initial (xml_error_report (xc_pos c)) 0 ltac:(lia)) as Hp.
  destruct (Hnf None 4096) as [b Hb]. rewrite Hb in Hp. destruct Hp as (r & -> & Hi & Hc).
  cbn [mbind outcome_bind]. zlen_facts. ztest. by exists r.
Qed.

(** The documents before the malformed one become messages, and then the loop ends. *)
Lemma process_xml_loop_broken p buffer ts pos text : broken_documents p buffer ts pos text ->
  syntax_error pos ->
  forall texts fuel c ms,
    Forall2 generates ts texts ->
    Forall (fun t => single_text t = true /\ Z.of_nat (height t) < 125) ts ->
    xml_idle c ms -> xc_response c = N2K_STRING_INITIALIZER -> (length buffer < fuel)%nat ->
    str_size (xc_buf c) + zlen (concat texts) + zlen text <= size_limit ->
    ka_bytes (zlen ms + zlen ts + 1) <= size_limit ->
    zlen buffer < 2 ^ 64 ->
    exists p' c', process_xml_loop fuel true p buffer c = Ret (p', c') /\
      ka_holds (xc_msgs c') (ms ++ text_msgs (str_size (xc_buf c)) texts) /\
      contents (xc_buf c) ++ concat texts `prefix_of` contents (xc_buf c') /\
      xc_rc c' = DECODER_CALLBACK_INVALID_REQUEST /\
      string_inv (xc_response c') /\ contents (xc_response c') = xml_error_report pos.
Proof.
  intros Hbroken Herr. induction Hbroken as [p buffer pos text Hne Hbr|p buffer cbs rest st pos1 p1 t ts cb
    pos text Hparse Hcbs Hlast Hlate Hidx _ IH]; intros texts fuel c ms Htexts Hts Hidle Hr Hfuel Hlim Hkb Hlen.
  - apply Forall2_nil_inv_l in Htexts as ->. cbn [concat text_msgs] in *. rewrite !app_nil_r.
    change (zlen (@nil byte)) with 0 in Hlim. change (zlen (@nil xml_tree)) with 0 in Hkb.
    destruct (xml_parse_breaks p buffer pos text c ms Hbr Hidle)
      as (p1 & c1 & E1 & Hpos & Hrc & Hresp & Hmsgs & Hpre); [lia|by rewrite Z.add_0_r in Hkb|].
    destruct (queue_syntax_error c1) as (r & Hq & Hir & Hcr); [by rewrite Hpos|by rewrite Hresp|].
    exists p1. eexists. destruct fuel as [|fuel]; [lia|]. cbn [process_xml_loop]. unfold string_size.
    rewrite (xi_response _ _ Hidle). assert (0 < zlen buffer) by (destruct buffer; [done|]; zlia). ztest.
    rewrite E1. cbn [mbind outcome_bind]. rewrite Hpos.
    rewrite (bool_decide_false (XML_STATUS_ERROR = XML_STATUS_OK)) by done.
    destruct Herr as (Hcode & Hjunk & _). rewrite bool_decide_true by done.
    rewrite bool_decide_true by (by intros Ea; rewrite Ea in Hcode). cbn [andb]. rewrite Hq.
    split; [reflexivity|]. cbn. rewrite Hmsgs, <- Hpos. split_and!; try done. apply Hidle.
  - apply Forall2_cons_inv_l in Htexts as (text1 & texts' & Hgen & Htexts & ->).
    apply list.Forall_cons in Hts as [[Hst Hh] Hts]. rewrite zlen_cons in Hkb.
    cbn [concat] in Hlim |- *. rewrite zlen_app in Hlim. zlen_facts.
    destruct fuel as [|fuel]; [lia|].
    destruct (process_xml_loop_next fuel p buffer cbs rest st pos1 p1 t cb c ms text1)
      as (c1 & E1 & Hidle1 & Hc1 & Hrc1 & Hresp1 & Hz1); try done; [lia| |].
    { etransitivity; [|exact Hkb]. apply ka_bytes_mono. lia. }
    destruct (IH Herr texts' fuel c1 _ Htexts Hts Hidle1) as (p' & c' & E' & Hka' & Hpre & Hrest).
    { by rewrite Hresp1. }
    { unfold zdrop. rewrite length_drop. unfold zlen in Hidx. lia. }
    { lia. }
    { autorewrite with n2k. by replace (zlen ms + (1 + 0) + zlen ts + 1) with (zlen ms + (1 + zlen ts) + 1)
        by lia. }
    { rewrite zlen_zdrop; lia. }
    exists p', c'. rewrite E1. split_and!; try done; try apply Hrest.
    + cbn [text_msgs]. by rewrite <- Hz1, <- app_assoc in *.
    + by rewrite app_assoc, <- Hc1.
Qed.
End xml_lemmas.

(** ** A generator for witnesses *)

Inductive gen_frame :=
| FMapKey (first : bool)
| FMapVal
| FArray (first : bool).

(** The open maps and arrays, and whether a document was completed. *)
Record plain_gen := mkplain { pg_stack : list gen_frame; pg_complete : bool }.

Definition plain_prefix (g : plain_gen) : bytes :=
  match pg_stack g with
  | FMapKey false :: _ | FArray false :: _ => bs ","
  | FMapVal :: _ => bs ":"
  | _ => []
  end.

Definition plain_value (stack : list gen_frame) : plain_gen :=
  match stack with
  | [] => mkplain [] true
  | FMapKey _ :: stack => mkplain (FMapVal :: stack) false
  | FMapVal :: stack => mkplain (FMapKey false :: stack) false
  | FArray _ :: stack => mkplain (FArray false :: stack) false
  end.

Definition plain_escape (s : bytes) : bytes :=
  flat_map (fun c => if bool_decide (c = dquote \/ c = backslash) then [backslash; c]
                     else if bool_decide (c = x0a) then [backslash; x6e] else [c]) s.

Definition plain_open (g : plain_gen) (brace : byte) (frame : gen_frame)
    : yajl_gen_status * list bytes * plain_gen :=
  match pg_stack g with
  | FMapKey _ :: _ => (yajl_gen_keys_must_be_strings, [], g)
  | stack =>
      if 127 <=? zlen stack then (yajl_max_depth_exceeded, [], g)
      else (yajl_gen_status_ok, [plain_prefix g; [brace]],
            mkplain (frame :: pg_stack (plain_value stack)) false)
  end.

Definition plain_call (g : plain_gen) (t : gen_token)
    : yajl_gen_status * list bytes * plain_gen :=
  if pg_complete g then (yajl_gen_generation_complete, [], g)
  else if 128 <=? zlen (pg_stack g) then (yajl_gen_in_error_state, [], g)
  else
    match t with
    | GString s =>
        (yajl_gen_status_ok, [plain_prefix g; [dquote]; plain_escape s; [dquote]],
         plain_value (pg_stack g))
    | GMapOpen => plain_open g x7b (FMapKey true)
    | GArrayOpen => plain_open g x5b (FArray true)
    | GMapClose =>
        match pg_stack g with
        | FMapKey _ :: [] => (yajl_gen_status_ok, [[x7d]], mkplain [] true)
        | FMapKey _ :: stack => (yajl_gen_status_ok, [[x7d]], mkplain stack false)
        | _ => (yajl_gen_in_error_state, [], g)
        end
    | GArrayClose =>
        match pg_stack g with
        | FArray _ :: [] => (yajl_gen_status_ok, [[x5d]], mkplain [] true)
        | FArray _ :: stack => (yajl_gen_status_ok, [[x5d]], mkplain stack false)
        | _ => (yajl_gen_in_error_state, [], g)
        end
    end.

Lemma plain_value_depth stack : zlen (pg_stack (plain_value stack)) = zlen stack.
Proof. by destruct stack as [|[]]. Qed.

Lemma plain_call_depth g t out g' :
  plain_call g t = (yajl_gen_status_ok, out, g') ->
  zlen (pg_stack g') = zlen (pg_stack g) + match t with
    | GMapOpen | GArrayOpen => 1 | GMapClose | GArrayClose => -1 | GString _ => 0 end /\
  zlen (pg_stack g') < 128.
Proof.
  unfold plain_call. destruct (pg_complete g); [done|].
  destruct (128 <=? zlen (pg_stack g)) eqn:E; [done|]. apply Z.leb_gt in E.
  assert (Hopen : forall brace frame, plain_open g brace frame = (yajl_gen_status_ok, out, g') ->
    zlen (pg_stack g') = zlen (pg_stack g) + 1 /\ zlen (pg_stack g') < 128).
  { intros brace frame. unfold plain_open.
    destruct (pg_stack g) as [|[] stack] eqn:Es; try done;
      (destruct (127 <=? zlen _) eqn:E2; [done|]; intros [= <- <-]; cbn;
       zlia). }
  destruct t; try apply Hopen.
  - destruct (pg_stack g) as [|[] [|f stack]]; try done; intros [= <- <-]; cbn; zlia.
  - destruct (pg_stack g) as [|[] [|f stack]]; try done; intros [= <- <-]; cbn; zlia.
  - intros [= <- <-]. rewrite plain_value_depth. lia.
Qed.

#[refine, export] Instance plain_yajl_gen : YajlGen := {|
  yajl_gen := plain_gen;
  yajl_gen_alloc := mkplain [] false;
  gen_call := plain_call;
  yajl_gen_reset _ := mkplain [] false;
  gen_depth g := zlen (pg_stack g);
  gen_prefix := plain_prefix;
  gen_escape := plain_escape
|}.
Proof.
  - done.
  - done.
  - intros g t out g' H. by apply (plain_call_depth g t out g').
  - intros g t out g' H. by apply (plain_call_depth g t out g').
  - intros g s out g'. unfold plain_call. destruct (pg_complete g); [done|].
    destruct (128 <=? _); [done|]. intros [= <- <-]. done.
  - intros g s s'. unfold plain_call. destruct (pg_complete g); [done|].
    by destruct (128 <=? zlen (pg_stack g)).
  - done.
  - done.
  - intros a b. apply flat_map_app.
Defined.

(** An expat that follows a script: what it makes of each buffer; its state are
    the buffers it was given since the last reset. *)
Definition scripted_expat (script : list bytes -> list xml_callback * XML_Status * xml_position)
    : Expat := {|
  XML_Parser := list bytes;
  XML_ParserCreate := Some [];
  XML_Parse seen buffer :=
    let '(cbs, st, pos) := script (seen ++ [buffer]) in (cbs, st, pos, seen ++ [buffer]);
  XML_ParserReset _ := []
|}.

Definition no_pos : xml_position := mkpos XML_ERROR_NONE 1 0 0.

(** Callbacks of a document that ends at byte [idx]. *)
Definition callbacks_at (idx : Z) (evs : list xml_event) : list xml_callback :=
  map (fun e => mkcb e no_pos idx false) evs.

#[export] Instance no_strings : ExpatStrings := {| XML_ErrorString _ := bs "error" |}.

Definition new_xml_ctx {gen : YajlGen} : xml_ctx :=
  mkxc N2K_STRING_INITIALIZER NO_JSON_LAST_OPEN_MAP 0 (replicate 32 0) yajl_gen_alloc
    DECODER_CALLBACK_OK N2K_STRING_INITIALIZER KAFKA_MESSAGE_ARRAY_INITIALIZER
    (mkpos XML_ERROR_NONE 0 0 0) false.

Lemma new_xml_ctx_idle `{abi : Abi, gen : YajlGen} : xml_idle new_xml_ctx [].
Proof.
  split; try done. by left.
Qed.

Lemma text_msgs_bytes base pre texts junk :
  0 <= base -> base + zlen pre + zlen (concat texts) < 2 ^ 64 ->
  map (msg_bytes base (pre ++ concat texts ++ junk))
    (map (msg_add_payload base) (text_msgs (zlen pre) texts)) = texts.
Proof.
  intros Hb. revert pre. induction texts as [|text texts IH]; intros pre Hlim; [done|].
  cbn [concat text_msgs map] in *. rewrite zlen_app in Hlim. zlen_facts. f_equal.
  - unfold msg_bytes, msg_add_payload, new_msg. cbn [msg_payload msg_len].
    rewrite wrap64_small by lia. replace (zlen pre + base - base) with (zlen pre) by lia.
    unfold slice. rewrite zdrop_app_exact by done.
    replace (zlen pre + zlen text - zlen pre) with (zlen text) by lia. by rewrite <- app_assoc, ztake_app_exact.
  - rewrite <- app_assoc, app_assoc. rewrite <- (zlen_app pre text). apply IH. rewrite zlen_app. lia.
Qed.

(** A buffer of whole documents, for a session between two buffers. *)
Lemma process_xml_buffer_spec {alloc : Allocator} {abi : Abi} {gen : YajlGen}
    {strings : ExpatStrings} {expat : Expat} (string_addr : cstring -> Z) p buffer ts p' texts c :
  never_fails alloc -> documents p buffer ts p' -> Forall2 generates ts texts ->
  Forall (fun t => single_text t = true /\ Z.of_nat (height t) < 125) ts ->
  zlen (concat texts) <= size_limit -> ka_bytes (zlen ts) <= size_limit -> zlen buffer < 2 ^ 64 ->
  (forall s, 0 <= string_addr s < 2 ^ 63) ->
  xml_idle c [] -> xc_buf c = N2K_STRING_INITIALIZER ->
  exists c' s msgs, process_xml_buffer string_addr true p buffer c = Ret (xc_rc c, p', c', s) /\
    contents s = concat texts /\ ka_holds (xc_msgs c') msgs /\
    (msgs <> [] -> ka_payload_buffer (xc_msgs c') = string_addr s) /\
    map (msg_bytes (string_addr s) (contents s)) msgs = texts /\
    xml_idle c' msgs /\ xc_buf c' = N2K_STRING_INITIALIZER /\ xc_rc c' = xc_rc c /\
    xc_response c' = xc_response c.
Proof.
  intros Hnf Hdocs Hgen Hts Hlim Hkb Hlen Haddr Hc0 Hbuf. unfold process_xml_buffer.
  destruct (process_xml_loop_spec Hnf p buffer ts p' Hdocs texts (S (length buffer)) c []
    Hgen Hts Hc0) as (c1 & -> & Hidle & Hc & Hrc & Hresp); try done; [lia|by rewrite Hbuf|].
  rewrite Hbuf in Hidle, Hc. cbn [mbind outcome_bind].
  change (contents N2K_STRING_INITIALIZER) with (@nil byte) in Hc.
  change (str_size N2K_STRING_INITIALIZER) with (zlen (@nil byte)) in Hidle. cbn [app] in Hc, Hidle.
  pose proof (xi_msgs _ _ Hidle) as Hka. rewrite (ka_holds_size _ _ Hka).
  pose proof (Haddr (xc_buf c1)) as Ha. unfold size_limit in Hlim.
  pose proof (text_msgs_bytes (string_addr (xc_buf c1)) [] texts []) as Hbytes. cbn [app] in Hbytes.
  rewrite app_nil_r in Hbytes.
  destruct Hidle as [Hi Hp Hb Hg Hr _].
  destruct texts as [|text texts].
  - cbn. eexists _, (xc_buf c1), []. split; [by rewrite Hrc|]. by split_and!.
  - cbn [text_msgs] in Hka |- *. rewrite zlen_cons. ztest.
    destruct (ka_holds_set_buffer _ _ _ (string_addr (xc_buf c1)) true Hka) as (a' & -> & Hka' & Hpb).
    cbn [mbind outcome_bind].
    eexists _, (xc_buf c1), (map (msg_add_payload (string_addr (xc_buf c1)))
      (text_msgs (zlen (@nil byte)) (text :: texts))).
    split; [cbn [xc_rc set_buf set_msgs]; by rewrite Hrc|].
    split_and!; try done. rewrite Hc. apply Hbytes; [lia|]. rewrite zlen_nil. lia.
Qed.

(** A buffer with a malformed document. *)
Lemma process_xml_buffer_broken {alloc : Allocator} {abi : Abi} {gen : YajlGen}
    {strings : ExpatStrings} {expat : Expat} (string_addr : cstring -> Z) p buffer ts pos text texts c :
  never_fails alloc -> broken_documents p buffer ts pos text -> syntax_error pos ->
  Forall2 generates ts texts ->
  Forall (fun t => single_text t = true /\ Z.of_nat (height t) < 125) ts ->
  zlen (concat texts) + zlen text <= size_limit -> ka_bytes (zlen ts + 1) <= size_limit ->
  zlen buffer < 2 ^ 64 -> (forall s, 0 <= string_addr s < 2 ^ 63) ->
  xml_idle c [] -> xc_buf c = N2K_STRING_INITIALIZER -> xc_response c = N2K_STRING_INITIALIZER ->
  exists p' c' s msgs, process_xml_buffer string_addr true p buffer c
      = Ret (DECODER_CALLBACK_INVALID_REQUEST, p', c', s) /\
    ka_holds (xc_msgs c') msgs /\ (msgs <> [] -> ka_payload_buffer (xc_msgs c') = string_addr s) /\
    map (msg_bytes (string_addr s) (contents s)) msgs = texts /\
    string_inv (xc_response c') /\ contents (xc_response c') = xml_error_report pos.
Proof.
  intros Hnf Hdocs Herr Hgen Hts Hlim Hkb Hlen Haddr Hc0 Hbuf Hr. unfold process_xml_buffer.
  destruct (process_xml_loop_broken Hnf p buffer ts pos text Hdocs Herr texts (S (length buffer)) c []
    Hgen Hts Hc0 Hr) as (p' & c1 & -> & Hka & [junk Hc] & Hrc & Hri & Hrep); try done; [lia|by rewrite Hbuf|].
  rewrite Hbuf in Hka, Hc. cbn [mbind outcome_bind].
  change (contents N2K_STRING_INITIALIZER) with (@nil byte) in Hc.
  change (str_size N2K_STRING_INITIALIZER) with (zlen (@nil byte)) in Hka. cbn [app] in Hc, Hka.
  rewrite (ka_holds_size _ _ Hka).
  pose proof (Haddr (xc_buf c1)) as Ha. unfold size_limit in Hlim.
  pose proof (text_msgs_bytes (string_addr (xc_buf c1)) [] texts junk) as Hbytes. cbn [app] in Hbytes.
  exists p'. destruct texts as [|text1 texts].
  - cbn. eexists _, (xc_buf c1), []. split; [by rewrite Hrc|]. by split_and!.
  - cbn [text_msgs] in Hka |- *. rewrite zlen_cons. ztest.
    destruct (ka_holds_set_buffer _ _ _ (string_addr (xc_buf c1)) true Hka) as (a' & -> & Hka' & Hpb).
    cbn [mbind outcome_bind].
    eexists _, (xc_buf c1), (map (msg_add_payload (string_addr (xc_buf c1)))
      (text_msgs (zlen (@nil byte)) (text1 :: texts))).
    split; [cbn [xc_rc set_buf set_msgs]; by rewrite Hrc|]. zlen_facts.
    split_and!; try done. rewrite Hc. apply Hbytes; [lia|]. rewrite zlen_nil. lia.
Qed.

(** ** Properties *)

(** C9: the documents of a buffer become one Kafka message each, in order; the
    message of a document is what the generator prints for the JSON object the
    documentation gives for it, also when expat delivers a text in several pieces.
    This is for buffers with whole documents, one after the other, in which each
    element has at most one run of text, its own or one after a child (a second one
    is written in the wrong place, [xml_second_text_misplaced]), and elements are
    less than 125 deep, what the bits of the context and the generator hold; for
    texts that the generator takes and that fit the limits of the string and of the
    array of messages; and when no allocation fails. *)
Theorem xml_documents_messages {alloc : Allocator} {abi : Abi} {gen : YajlGen}
    {strings : ExpatStrings} {expat : Expat} (string_addr : cstring -> Z)
    (p p' : XML_Parser) (buffer : bytes) (ts : list xml_tree) (texts : list bytes) :
  never_fails alloc -> documents p buffer ts p' -> Forall2 generates ts texts ->
  Forall (fun t => single_text t = true /\ Z.of_nat (height t) < 125) ts ->
  zlen (concat texts) <= size_limit -> ka_bytes (zlen ts) <= size_limit -> zlen buffer < 2 ^ 64 ->
  (forall s, 0 <= string_addr s < 2 ^ 63) ->
  exists c' s msgs, process_xml_buffer string_addr true p buffer new_xml_ctx
      = Ret (DECODER_CALLBACK_OK, p', c', s) /\
    contents s = concat texts /\ ka_holds (xc_msgs c') msgs /\
    map (msg_bytes (string_addr s) (contents s)) msgs = texts.
Proof.
  intros Hnf Hdocs Hgen Hts Hlim Hkb Hlen Haddr.
  destruct (process_xml_buffer_spec string_addr p buffer ts p' texts new_xml_ctx)
    as (c' & s & msgs & H1 & H2 & H3 & _ & H4 & _); try done; [apply new_xml_ctx_idle|].
  by exists c', s, msgs.
Qed.

Definition readme_tree : xml_tree :=
  Elem (bs "root") [] []
    [(Elem (bs "child1") [(bs "a", bs "r")] [bs "t1"] [], [bs "tt"]);
     (Elem (bs "child2") [] [bs "t"; bs "2"] [], [])].

Definition readme_buffer : bytes := bs "<root><child1 a=r>t1</child1>tt<child2>t2</child2></root>".

Definition readme_json : bytes :=
  jbs "{'tag':'root','children':[{'tag':'child1','attributes':{'a':'r'},'text':'t1','tail':'tt'},{'tag':'child2','text':'t2'}]}".

Definition readme_expat : Expat := scripted_expat (fun _ =>
  (callbacks_at (zlen readme_buffer) (xml_events readme_tree), XML_STATUS_OK, no_pos)).

Lemma xml_documents_messages_witness :
  exists c' s msgs, @process_xml_buffer _ _ _ _ readme_expat (fun _ => 4096) true [] readme_buffer
      new_xml_ctx = Ret (DECODER_CALLBACK_OK, [], c', s) /\
    contents s = concat [readme_json] /\ ka_holds (xc_msgs c') msgs /\
    map (msg_bytes 4096 (contents s)) msgs = [readme_json].
Proof.
  apply (@xml_documents_messages total_allocator abi64 plain_yajl_gen no_strings readme_expat
    (fun _ => 4096) [] [] readme_buffer [readme_tree] [readme_json]).
  - exact total_never_fails.
  - refine (@docs_next readme_expat [] readme_buffer
      (callbacks_at (zlen readme_buffer) (xml_events readme_tree)) [] XML_STATUS_OK no_pos
      [readme_buffer] readme_tree [] (mkcb (XEnd (bs "root")) no_pos (zlen readme_buffer) false)
      [] _ _ _ _ _ _); try reflexivity.
    + split; [reflexivity|]. vm_compute. discriminate.
    + apply docs_end.
  - constructor; [|constructor]. intros g [->|[g0 ->]]; (eexists; vm_compute; reflexivity).
  - constructor; [|constructor]. split; [reflexivity|]. vm_compute. reflexivity.
  - vm_compute. discriminate.
  - vm_compute. discriminate.
  - vm_compute. reflexivity.
  - intros _. lia.
Defined.

(** An element with a second run of text loses it: in
    [<a>NL<b/>NL</a>] the second newline ends up inside the tag name of the
    child [b], where the documentation asks for a [tail]. *)
Theorem xml_second_text_misplaced :
  let t := Elem (bs "a") [] [[x0a]] [(Elem (bs "b") [] [] [], [[x0a]])] in
  match handle_all (callbacks_at 0 (xml_events t)) new_xml_ctx with
  | Ret c =>
      str_size (xc_response c) = 0 /\
      contents (xc_buf c) = jbs "{'tag':'a','text':'\n','children':[{'tag':'b\n'}]}"
  | _ => False
  end /\
  generates t (jbs "{'tag':'a','text':'\n','children':[{'tag':'b','tail':'\n'}]}").
Proof.
  cbv zeta. split; [vm_compute; by split|].
  intros g [->|[g0 ->]]; (eexists; vm_compute; reflexivity).
Qed.

(** A document in two buffers, with the byte index counted from its start. *)
Definition split_expat : Expat := scripted_expat (fun seen =>
  match seen with
  | [_] => (callbacks_at 3 [XStart (bs "a") []], XML_STATUS_OK, no_pos)
  | _ => (callbacks_at 7 [XEnd (bs "a")], XML_STATUS_OK, no_pos)
  end).

(** A document that comes in two buffers, the second one shorter than it, stops a
    process built with assertions: at its end the parser reports the byte index from
    the start of the document, which is past the end of the second buffer. *)
Example xml_split_document_asserts :
  match @process_xml_buffer _ _ _ _ split_expat (fun _ => 4096) true [] (bs "<a>") new_xml_ctx with
  | Ret (rc, p, c, _) =>
      rc = DECODER_CALLBACK_OK /\
      match @process_xml_buffer _ _ _ _ split_expat (fun _ => 4096) true p (bs "</a>") c with
      | Fault f => f = assert_failed
      | _ => False
      end
  | _ => False
  end.
Proof. vm_compute. by split. Qed.
