(* ===== verification/ZzSession.v ===== *)
(** * Sessions of the zz_http2k decoder

    decoder/zz_http2k/zz_http2k_parser.c creates a session for a request: it
    finds the topic in the URL, asks the topics database for its handler and
    picks the JSON or the XML decoder by the content type.
    decoder/zz_http2k/zz_http2k_decoder.c decodes each chunk of the body and
    hands the messages to librdkafka. *)

From S2P Require Import Prelude CString KafkaArray TopicDb Pair JsonString ZzJson ZzXml.
From stdpp Require Import gmap.
#[local] Open Scope Z_scope.

(** ** Topic and content type of a request *)

(** [strcspn(s, reject)]. *)
Fixpoint strcspn (s reject : bytes) : Z :=
  match s with
  | [] => 0
  | c :: s => if bool_decide (c ∈ reject) then 0 else 1 + strcspn s reject
  end.

Definition url_specials : bytes := bs ";/?:@=&".
Definition valid_prefix_str : bytes := bs "/v1/data/".

(** The topic of a URL; [None] is the return code -1. *)
Definition extract_url_topic (url : option bytes) : outcome (option bytes) :=
  match url with
  | None => Fault assert_failed
  | Some url =>
      if negb (strprefix valid_prefix_str url) then Ret None
      else
        let topic := zdrop (zlen valid_prefix_str) url in
        let topic_size := strcspn topic url_specials in
        if topic_size =? 0 then Ret None else Ret (Some (ztake topic_size topic))
  end.

Definition is_xml_content_type (content_type : option bytes) : bool :=
  match content_type with
  | None => false
  | Some content_type =>
      let content_type_len := zlen content_type in
      if content_type_len <? zlen (bs "xml") then false
      else strcasecmp0 (zdrop (content_type_len - zlen (bs "xml")) content_type) (bs "xml")
  end.

(** [uuid_topic]: the topic, after the client and an underscore if there is a
    client. *)
Definition uuid_topic (client_uuid : option bytes) (topic : bytes) : bytes :=
  match client_uuid with
  | Some client_uuid => client_uuid ++ bs "_" ++ topic
  | None => topic
  end.

(** ** Sessions *)

Section session.
Context {alloc : Allocator} {abi : Abi} {yajl : Yajl} {gen : YajlGen} {strings : ExpatStrings}
  {expat : Expat} {rk : Rdkafka} {producer : BatchProducer}.
Context (string_addr : cstring -> Z).

(** The union of [struct zz_session]; the shared fields of an [xml_ctx] are
    taken from the session. *)
Inductive zz_union :=
| UJson (j : zz_json_session)
| UXml (p : XML_Parser) (x : xml_ctx).

(** [ss_handed] are the messages handed to librdkafka in this session: of each call of
    [rd_kafka_produce_batch] the topic and the bytes of its messages. *)
Record zz_session := mksess {
  ss_union : zz_union;
  ss_topic_handler : loc;
  ss_kafka_msgs : kafka_message_array;
  ss_last_warning : option produce_state;
  ss_http_response : cstring;
  ss_handed : list (rkt * bytes)
}.

(** What the environment decides while a session is created: the time, and
    whether memory was available for the topic handler and the generator. *)
Record new_env := mkenv { ne_now : Z; ne_topic_ok : bool; ne_gen_ok : bool }.

Definition new_zz_session (env : new_env) (zz_db : option topics_db) (w : world)
    (msg_vars : keyval_list) : outcome (option zz_session * option topics_db * world) :=
  let url := valueof msg_vars (bs "D-HTTP-URI") strcmp0 in
  topic ← extract_url_topic url;
  match topic with
  | None => Ret (None, zz_db, w)
  | Some topic =>
      let client_uuid := valueof msg_vars (bs "X-Consumer-ID") strcasecmp0 in
      '(handler, db1, w1) ← zz_http2k_database_get_topic (ne_topic_ok env) zz_db w
                              (uuid_topic client_uuid topic) (ne_now env);
      match handler with
      | None => Ret (None, db1, w1)
      | Some handler =>
          let content_type := valueof msg_vars (bs "Content-type") strcasecmp0 in
          union ← (if is_xml_content_type content_type then
                     r ← new_zz_session_xml (ne_gen_ok env);
                     Ret (match r with Some (p, x) => Some (UXml p x) | None => None end)
                   else Ret (match new_zz_session_json with
                             | Some j => Some (UJson j) | None => None end));
          match union with
          | None => w2 ← topic_decref w1 handler; Ret (None, db1, w2)
          | Some u =>
              Ret (Some (mksess u handler KAFKA_MESSAGE_ARRAY_INITIALIZER
                           (Some produce_state_init) N2K_STRING_INITIALIZER []), db1, w1)
          end
      end
  end.

(** What a session owns besides its reference to the topic: the string of the answer
    and the objects of its parser. *)
Inductive parser_owned :=
| OwnJson (o : json_owned)
| OwnXml (h : xml_handles).

Record owned := mkowned { ow_http_response : cstring; ow_parser : parser_owned }.

(** A session that was created has all the objects of its parser. *)
Definition session_owned (s : zz_session) : owned :=
  mkowned (ss_http_response s)
    match ss_union s with
    | UJson j => OwnJson (mkjowned (js_last_object j) true)
    | UXml _ _ => OwnXml (mkhandles true true)
    end.

(** How many objects that is: blocks of strings, handles of yajl and of expat. *)
Definition string_blocks (s : cstring) : Z := match str_buf s with Some _ => 1 | None => 0 end.

Definition owned_objects (o : owned) : Z :=
  string_blocks (ow_http_response o) +
  match ow_parser o with
  | OwnJson j => string_blocks (jo_last_object j) + (if jo_yajl_handler j then 1 else 0)
  | OwnXml h => (if xh_expat_handler h then 1 else 0) + (if xh_yajl_gen h then 1 else 0)
  end.

(** [sess->free_session]. *)
Definition free_session (p : parser_owned) : outcome parser_owned :=
  match p with
  | OwnJson j => j1 ← free_zz_session_json j; Ret (OwnJson j1)
  | OwnXml h => h1 ← free_zz_session_xml h; Ret (OwnXml h1)
  end.

(** The end of a session: the first component is what the structure still owns, which
    nobody can release any more once its memory is gone. *)
Definition free_zz_session (s : zz_session) (w : world) : outcome (owned * world) :=
  let o := session_owned s in
  let http_response := string_done (ow_http_response o) in
  parser ← free_session (ow_parser o);
  w1 ← topic_decref w (ss_topic_handler s);
  Ret (mkowned http_response parser, w1).

(** A live session can be freed, and nothing it owned is left. *)
Lemma free_zz_session_spec s w w1 :
  topic_decref w (ss_topic_handler s) = Ret w1 ->
  exists o, free_zz_session s w = Ret (o, w1) /\ owned_objects o = 0.
Proof.
  intros Hd. unfold free_zz_session, session_owned. destruct (ss_union s); cbn; rewrite Hd;
    by eexists.
Qed.

(** The memory of a decode call: the result of [malloc] for the copy of the
    chunk, whether the temporary generator exists, and the clock. *)
Record decode_env := mkdenv { de_mem : option Z; de_temp_ok : bool; de_clock : Z -> Z }.

(** [session->process_buffer]: the code, the session, and the block the
    payloads of its messages lie in. *)
Definition process_buffer (env : decode_env) (w : world) (buffer : bytes) (s : zz_session)
    : outcome (decoder_callback_err * zz_session * Z * bytes) :=
  match ss_union s with
  | UJson j =>
      '(rc, c) ← process_json_buffer string_addr
                   (topics_db_get_rdkafka_topic w (ss_topic_handler s)) (de_mem env) buffer
                   (mkjctx j (ss_kafka_msgs s) (ss_http_response s) [] (ss_handed s));
      Ret (rc, mksess (UJson (jc_json c)) (ss_topic_handler s) (jc_kafka_msgs c)
                 (ss_last_warning s) (jc_http_response c) (jc_split_sent c),
           default 0 (de_mem env), buffer)
  | UXml p x =>
      '(rc, p1, c, buf) ← process_xml_buffer string_addr (de_temp_ok env) p buffer
                            (set_response (set_msgs x (ss_kafka_msgs s)) (ss_http_response s));
      Ret (rc, mksess (UXml p1 c) (ss_topic_handler s) (xc_msgs c) (ss_last_warning s)
                 (xc_response c) (ss_handed s),
           string_addr buf, contents buf)
  end.

Definition error_message (s : zz_session) (process_err : decoder_callback_err) (sent : Z)
    : outcome cstring :=
  match ss_union s with
  | UJson _ => error_message_json (ss_http_response s) process_err sent
  | UXml _ _ => xml_error_message (ss_http_response s) process_err sent
  end.

(** The result of a decode call: the code, the response if one is given, the
    session, and the batch librdkafka still refers to. *)
Record decode_result := mkres {
  zd_rc : decoder_callback_err;
  zd_response : option bytes;
  zd_session : zz_session;
  zd_batch : option karray
}.

Definition set_sess_msgs (s : zz_session) (a : kafka_message_array) : zz_session :=
  mksess (ss_union s) (ss_topic_handler s) a (ss_last_warning s) (ss_http_response s) (ss_handed s).

(** Count the messages of the call and produce them for the topic of the session. *)
Definition zz_produce (env : decode_env) (w : world) (base : Z) (block : bytes) (s : zz_session)
    : outcome (Z * Z * zz_session * option karray) :=
  let kafka_messages_count := kafka_message_array_size (ss_kafka_msgs s) in
  '(kafka_messages_sent, st, batch, calls) ←
    (if negb (kafka_messages_count =? 0) then
       r ← topics_db_get_rdkafka_topic w (ss_topic_handler s);
       '(sent, _, k, st, _, calls) ← kafka_message_array_produce r (ss_kafka_msgs s)
                                       (ss_last_warning s) (de_clock env);
       Ret (sent, st, k, calls)
     else Ret (0, ss_last_warning s, None, []));
  Ret (kafka_messages_count, kafka_messages_sent,
       mksess (ss_union s) (ss_topic_handler s) KAFKA_MESSAGE_ARRAY_INITIALIZER st
         (ss_http_response s)
         (ss_handed s ++ concat (map (call_payloads base block) calls)),
       batch).

Definition zz_decode (env : decode_env) (w : world) (buffer : option bytes) (props : keyval_list)
    (session : zz_session) : outcome decode_result :=
  let http_method := valueof props (bs "D-HTTP-method") strcmp0 in
  if match http_method with Some m => negb (strcmp0 (bs "POST") m) | None => false end
  then Ret (mkres DECODER_CALLBACK_HTTP_METHOD_NOT_ALLOWED None session None)
  else
    match buffer with
    | None => Fault assert_failed
    | Some buffer =>
        '(process_err, s1, base, block) ←
           process_buffer env w buffer (set_sess_msgs session kafka_msg_array_init);
        '(count, sent, s2, batch) ← zz_produce env w base block s1;
        if negb (bool_decide (process_err = DECODER_CALLBACK_OK)) || negb (count =? sent) then
          let rc := if negb (bool_decide (process_err = DECODER_CALLBACK_OK)) then process_err
                    else DECODER_CALLBACK_BUFFER_FULL in
          full_error ← error_message s2 process_err sent;
          let response := if 0 <? string_size full_error then full_error
                          else ss_http_response s2 in
          let s3 := mksess (ss_union s2) (ss_topic_handler s2) (ss_kafka_msgs s2)
                      (ss_last_warning s2) response (ss_handed s2) in
          Ret (mkres rc (Some (contents response)) s3 batch)
        else Ret (mkres DECODER_CALLBACK_OK None s2 batch)
    end.

End session.

Definition zz_name : bytes := bs "zz_http2k".

Definition size_align_to (size alignment : Z) : Z :=
  if size mod alignment =? 0 then size else wrap64 ((size / alignment + 1) * alignment).

(** [sizeof_session] is [sizeof(struct zz_session)]. *)
Definition zz_session_size (sizeof_session : Z) : Z := size_align_to sizeof_session 16.

Definition zz_decoder_init (calloc_ok : bool) : Z * option topics_db :=
  let '(rc, db) := init_zz_database calloc_ok in
  if negb (rc =? 0) then (-1, db) else (0, db).

Definition zz_decoder_done {rk : Rdkafka} (db : option topics_db) (w : world) : outcome world :=
  free_valid_zz_database db w.

(** ** A body in chunks *)

Section stream.
Context {alloc : Allocator} {abi : Abi} {yajl : Yajl} {gen : YajlGen} {strings : ExpatStrings}
  {expat : Expat} {rk : Rdkafka} {producer : BatchProducer}.
Context (string_addr : cstring -> Z) (props : keyval_list) (w : world).

(** Decode chunk after chunk; the codes of the calls and the session. *)
Fixpoint decode_all (chunks : list (decode_env * bytes)) (s : zz_session)
    : outcome (list decoder_callback_err * zz_session) :=
  match chunks with
  | [] => Ret ([], s)
  | (env, chunk) :: chunks =>
      r ← zz_decode string_addr env w (Some chunk) props s;
      '(codes, s') ← decode_all chunks (zd_session r);
      Ret (zd_rc r :: codes, s')
  end.

(** yajl accepts every chunk. *)
Fixpoint parse_chunks (h : yajl_handle) (chunks : list bytes) : option yajl_handle :=
  match chunks with
  | [] => Some h
  | chunk :: chunks =>
      match yajl_parse h chunk with
      | (_, true, h1) => parse_chunks h1 chunks
      | _ => None
      end
  end.

(** The objects that end in each chunk of a text that goes on after [P], at depth
    [d] and with an object that started at [open]. *)
Fixpoint json_outs (h : yajl_handle) (P : bytes) (d open : Z) (chunks : list bytes)
    : list (list bytes) :=
  match chunks with
  | [] => []
  | chunk :: chunks =>
      let '(evs, _, h1) := yajl_parse h chunk in
      objects_of (P ++ chunk) d open (shift_events (zlen P) evs) ::
      json_outs h1 (P ++ chunk) (yajl_depth h1) (open_after d open (shift_events (zlen P) evs)) chunks
  end.

(** The topic of the session. *)
Context (r : rkt).
Hypothesis (Hnf : never_fails alloc).
Hypothesis (Hknown : forall r ms, Forall known_error (batch_errors r ms)).
Hypothesis (Hpost : match valueof props (bs "D-HTTP-method") strcmp0 with
                    | Some m => negb (strcmp0 (bs "POST") m) | None => false end = false).
Hypothesis (Herr : forall h b, zlen (yajl_get_error h b) <= size_limit).

(** Producing a batch whose payload buffer is set empties the array and hands
    over the payloads. *)
Lemma zz_produce_spec env base block s ms :
  ka_holds (ss_kafka_msgs s) ms -> (ms <> [] -> ka_payload_buffer (ss_kafka_msgs s) <> 0) ->
  state_ok (ss_last_warning s) -> topics_db_get_rdkafka_topic w (ss_topic_handler s) = Ret r ->
  exists st batch, zz_produce env w base block s
      = Ret (zlen ms, zlen ms, mksess (ss_union s) (ss_topic_handler s)
               KAFKA_MESSAGE_ARRAY_INITIALIZER st (ss_http_response s)
               (ss_handed s ++ map (fun m => (r, msg_bytes base block m)) ms), batch) /\
    state_ok st /\ batch_ok batch.
Proof.
  intros Hka Hpb Hst Hr. unfold zz_produce. rewrite (ka_holds_size _ _ Hka).
  destruct ms as [|m ms].
  - cbn. by eexists _, _.
  - rewrite zlen_cons. ztest. rewrite Hr. cbn [mbind outcome_bind].
    destruct (produce_spec r (ss_kafka_msgs s) m ms (ss_last_warning s) (de_clock env) Hka)
      as (k & st & log & Hp & Hst' & Hbatch); [by apply Hpb|apply Hknown|done|].
    rewrite Hp. cbn [mbind outcome_bind concat map]. exists st, k. unfold call_payloads.
    cbn [bc_rkt bc_msgs map]. rewrite app_nil_r, map_map, zlen_cons. done.
Qed.

(** A session of the JSON decoder after the text [P]. *)
Definition json_session_ok (s : zz_session) (j : zz_json_session) (P : bytes) (d open : Z) : Prop :=
  ss_union s = UJson j /\ json_idle j P d open /\ str_size (ss_http_response s) = 0 /\
  string_inv (ss_http_response s) /\ state_ok (ss_last_warning s).

Lemma decode_json_chunk env addr chunk s j P d open evs h :
  json_session_ok s j P d open -> de_mem env = Some addr -> 0 < addr -> chunk <> [] ->
  yajl_parse (js_handler j) chunk = (evs, true, h) ->
  zlen P + zlen chunk <= size_limit -> ka_bytes (zlen chunk) <= size_limit ->
  topics_db_get_rdkafka_topic w (ss_topic_handler s) = Ret r ->
  exists s' j' batch, zz_decode string_addr env w (Some chunk) props s
      = Ret (mkres DECODER_CALLBACK_OK None s' batch) /\
    json_session_ok s' j' (P ++ chunk) (yajl_depth h) (open_after d open (shift_events (zlen P) evs)) /\
    js_handler j' = h /\ batch_ok batch /\ ss_topic_handler s' = ss_topic_handler s /\
    ss_handed s' = ss_handed s ++
      for_topic r (objects_of (P ++ chunk) d open (shift_events (zlen P) evs)).
Proof.
  intros (Hu & Hidle & Hrs & Hri & Hst) Hmem Ha Hne Hparse Hlim Hkl Hr.
  unfold zz_decode. rewrite Hpost. unfold process_buffer, set_sess_msgs.
  cbn [ss_union ss_kafka_msgs ss_http_response ss_handed ss_topic_handler]. rewrite Hu, Hmem, Hr.
  destruct (process_json_buffer_spec string_addr Hnf r
    (mkjctx j kafka_msg_array_init (ss_http_response s) [] (ss_handed s)) P chunk addr d open evs true h)
    as (c' & ms & Hproc & Hka & Hpb & (Hout & _) & Hresp & Hh & Hidle'); try done.
  { cbn [jc_http_response]. rewrite Hrs. apply Herr. }
  rewrite Hproc. cbn [mbind outcome_bind].
  match goal with |- context [zz_produce env w ?b ?blk ?s1] =>
    destruct (zz_produce_spec env b blk s1 ms) as (st & batch & -> & Hst' & Hbatch) end; try done.
  { cbn [ss_kafka_msgs]. intros Hms. rewrite (Hpb Hms). lia. }
  cbn [mbind outcome_bind]. rewrite bool_decide_true, Z.eqb_refl by done. cbn [negb orb].
  eexists _, (jc_json c'), batch. split; [reflexivity|].
  cbn [ss_union ss_http_response ss_last_warning ss_handed default from_option].
  split_and!; try done. unfold json_session_ok.
  cbn [ss_union ss_http_response ss_last_warning]. rewrite Hresp. by split_and!.
Qed.

(** The report of a body that yajl refuses, with the number of messages of the chunk
    and the escaped text of the parser. *)
Definition json_error_report (n : Z) (e : bytes) : bytes :=
  bs "{" ++ [dquote] ++ bs "messages_queued" ++ [dquote] ++ bs ":" ++ print_zu n ++
  bs "," ++ [dquote] ++ bs "json_decoder_error" ++ [dquote] ++ bs ":" ++ [dquote] ++ e ++ [dquote] ++ bs "}".

Lemma decode_json_error env addr chunk s j P d open evs h text :
  json_session_ok s j P d open -> de_mem env = Some addr -> 0 < addr -> chunk <> [] ->
  yajl_parse (js_handler j) chunk = (evs, false, h) ->
  yajl_get_error h chunk = concat text -> Forall utf8_char text ->
  zlen (json_escape text) <= size_limit - 8192 -> zlen (concat text) <= size_limit ->
  zlen P + zlen chunk <= size_limit -> ka_bytes (zlen chunk) <= size_limit ->
  topics_db_get_rdkafka_topic w (ss_topic_handler s) = Ret r ->
  let out := objects_of (P ++ chunk) d open (shift_events (zlen P) evs) in
  exists s' batch, zz_decode string_addr env w (Some chunk) props s
      = Ret (mkres DECODER_CALLBACK_INVALID_REQUEST
               (Some (json_error_report (zlen (whole_objects d out)) (json_escape text))) s' batch) /\
    batch_ok batch /\ ss_topic_handler s' = ss_topic_handler s /\
    ss_handed s' = ss_handed s ++ for_topic r out.
Proof.
  intros (Hu & Hidle & Hrs & Hri & Hst) Hmem Ha Hne Hparse Htext Hutf Hesc Hcl Hlim Hkl Hr out.
  assert (Hr0 : contents (ss_http_response s) = []).
  { apply zlen_zero. by rewrite (zlen_contents _ Hri). }
  unfold zz_decode. rewrite Hpost. unfold process_buffer, set_sess_msgs.
  cbn [ss_union ss_kafka_msgs ss_http_response ss_handed ss_topic_handler]. rewrite Hu, Hmem, Hr.
  destruct (process_json_buffer_spec string_addr Hnf r
    (mkjctx j kafka_msg_array_init (ss_http_response s) [] (ss_handed s)) P chunk addr d open evs
    false h) as (c' & ms & Hproc & Hka & Hpb & (Hout & Hwhole) & Hrci & Hrc); try done.
  { cbn [jc_http_response]. rewrite Hrs, Htext. lia. }
  assert (Hcount : zlen ms = zlen (whole_objects d out)).
  { unfold out. rewrite <- Hwhole. unfold zlen. by rewrite length_map. }
  rewrite Hproc. cbn [mbind outcome_bind].
  match goal with |- context [zz_produce env w ?b ?blk ?s1] =>
    destruct (zz_produce_spec env b blk s1 ms) as (st & batch & -> & Hst' & Hbatch) end; try done.
  { cbn [ss_kafka_msgs]. intros Hms. rewrite (Hpb Hms). lia. }
  cbn [mbind outcome_bind]. rewrite bool_decide_false by done. cbn [negb orb].
  unfold error_message. cbn [ss_union ss_http_response].
  cbn [jc_http_response] in Hrc. rewrite Hr0, Htext in Hrc. cbn [app] in Hrc.
  destruct (error_message_json_spec (jc_http_response c') text DECODER_CALLBACK_INVALID_REQUEST
    (zlen ms) Hnf Hrci Hrc Hutf Hesc) as (ret & -> & Hreti & Hretc).
  cbn [mbind outcome_bind]. rewrite decide_False in Hretc by done.
  assert (Hsz : 0 < string_size ret).
  { unfold string_size. rewrite <- (zlen_contents _ Hreti), Hretc. zlia. }
  ztest. eexists _, batch. split.
  { rewrite Hretc, Hcount. unfold json_error_report. rewrite <- !app_assoc. reflexivity. }
  cbn [ss_handed ss_topic_handler default from_option]. by split_and!.
Qed.

Lemma shift_shift a b evs : shift_events a (shift_events b evs) = shift_events (b + a) evs.
Proof.
  unfold shift_events. rewrite map_map. apply map_ext. intros [e c]. cbn. f_equal. lia.
Qed.

Lemma shift_0 evs : shift_events 0 evs = evs.
Proof.
  unfold shift_events. rewrite <- (map_id evs) at 2. apply map_ext. intros [e c]. cbn.
  by rewrite Z.add_0_r.
Qed.

Lemma shift_app n a b : shift_events n (a ++ b) = shift_events n a ++ shift_events n b.
Proof. apply map_app. Qed.

(** The events of a text that is parsed in chunks. *)
Lemma parse_chunks_whole chunks h h' :
  parse_chunks h chunks = Some h' -> chunks <> [] ->
  exists evs, yajl_parse h (concat chunks) = (evs, true, h').
Proof.
  revert h. induction chunks as [|chunk chunks IH]; intros h H Hne; [done|].
  cbn [parse_chunks concat] in *. destruct (yajl_parse h chunk) as [[evs ok] h1] eqn:E.
  destruct ok; [|done]. destruct chunks as [|c2 chunks].
  - injection H as <-. cbn. rewrite app_nil_r. by exists evs.
  - destruct (IH h1 H) as (evs2 & E2); [done|].
    rewrite (yajl_stream h chunk _ evs h1 E), E2. by eexists.
Qed.

(** The objects of a text are those of a chunk of it and those of the rest. *)
Lemma objects_split h chunk rest P d open evs h1 evs2 :
  yajl_parse h chunk = (evs, true, h1) -> yajl_depth h = d -> (0 < d -> 0 <= open) ->
  objects_of (P ++ chunk) d open (shift_events (zlen P) evs) ++
    objects_of ((P ++ chunk) ++ rest) (yajl_depth h1) (open_after d open (shift_events (zlen P) evs))
      (shift_events (zlen (P ++ chunk)) evs2) =
  objects_of (P ++ chunk ++ rest) d open (shift_events (zlen P) (evs ++ shift_events (zlen chunk) evs2)) /\
  (0 < yajl_depth h1 -> 0 <= open_after d open (shift_events (zlen P) evs)).
Proof.
  intros E Hdep Hopen. destruct (yajl_nesting h chunk) as (d1 & Hn & Hd1). rewrite E in Hn, Hd1.
  cbn [fst snd] in Hn, Hd1. rewrite Hdep in Hn. specialize (Hd1 eq_refl).
  pose proof (yajl_offsets h chunk) as Hoff. rewrite E in Hoff. cbn [fst] in Hoff.
  apply (offsets_shift 0 (zlen chunk) (zlen P)) in Hoff. rewrite Z.add_0_l in Hoff. zlen_facts.
  split.
  - rewrite shift_app, shift_shift, (objects_of_app _ d d1) by (by rewrite nesting_shift).
    rewrite Hd1, zlen_app, (Z.add_comm (zlen chunk)), <- !app_assoc. f_equal.
    rewrite (app_assoc P chunk). symmetry. apply (objects_of_text _ _ _ d1 _ (zlen P)); try done.
    + by rewrite nesting_shift.
    + by rewrite zlen_app, (Z.add_comm (zlen P)).
  - rewrite Hd1. eapply (open_after_nonneg _ d d1 open (zlen P)); try done. by rewrite nesting_shift.
Qed.

(** The objects that end in the chunks are those of the whole text, also when yajl
    refuses the last chunk. *)
Lemma json_outs_objects chunks last h P d open h1 :
  parse_chunks h chunks = Some h1 -> yajl_depth h = d -> (0 < d -> 0 <= open) ->
  exists evs, yajl_parse h (concat (chunks ++ [last]))
      = (evs, (yajl_parse h1 last).1.2, (yajl_parse h1 last).2) /\
    concat (json_outs h P d open (chunks ++ [last])) =
      objects_of (P ++ concat (chunks ++ [last])) d open (shift_events (zlen P) evs).
Proof.
  revert h P d open. induction chunks as [|chunk chunks IH]; intros h P d open Hp Hd Ho;
    cbn [parse_chunks app concat json_outs] in *.
  - injection Hp as ->. destruct (yajl_parse h1 last) as [[evs ok] h2] eqn:E. exists evs.
    cbn [concat]. rewrite !app_nil_r. by rewrite E.
  - destruct (yajl_parse h chunk) as [[evs ok] h2] eqn:E. destruct ok; [|done].
    destruct (objects_split h chunk (concat (chunks ++ [last])) P d open evs h2 []) as [_ Hopen]; try done.
    destruct (IH h2 (P ++ chunk) (yajl_depth h2) (open_after d open (shift_events (zlen P) evs)))
      as (evs2 & E2 & Houts); try done.
    exists (evs ++ shift_events (zlen chunk) evs2). rewrite (yajl_stream _ _ _ _ _ E), E2.
    split; [done|]. cbn [concat]. rewrite Houts. by apply (objects_split h chunk).
Qed.

Lemma decode_all_json chunks s j P d open h' :
  json_session_ok s j P d open -> parse_chunks (js_handler j) (map snd chunks) = Some h' ->
  chunks <> [] ->
  Forall (fun ec => (exists addr, de_mem ec.1 = Some addr /\ 0 < addr) /\ ec.2 <> [] /\
                    ka_bytes (zlen ec.2) <= size_limit) chunks ->
  zlen P + zlen (concat (map snd chunks)) <= size_limit ->
  topics_db_get_rdkafka_topic w (ss_topic_handler s) = Ret r ->
  exists evs s', yajl_parse (js_handler j) (concat (map snd chunks)) = (evs, true, h') /\
    decode_all chunks s = Ret (replicate (length chunks) DECODER_CALLBACK_OK, s') /\
    ss_handed s' = ss_handed s ++
      for_topic r (objects_of (P ++ concat (map snd chunks)) d open (shift_events (zlen P) evs)).
Proof.
  revert s j P d open. induction chunks as [|[env chunk] chunks IH];
    intros s j P d open Hok Hparse Hne Hall Hlim Hr; [done|].
  apply list.Forall_cons in Hall as [((addr & Hmem & Ha) & Hcne & Hkl) Hall]. cbn [fst snd] in *.
  cbn [map snd concat parse_chunks length replicate decode_all] in *.
  rewrite zlen_app in Hlim.
  destruct (yajl_parse (js_handler j) chunk) as [[evs ok] h1] eqn:E. destruct ok; [|done].
  zlen_facts.
  destruct (decode_json_chunk env addr chunk s j P d open evs h1 Hok Hmem Ha Hcne E)
    as (s1 & j1 & batch & -> & Hok1 & Hh1 & _ & Hl1 & Hhand1); [lia|done|done|].
  cbn [mbind outcome_bind zd_session zd_rc].
  destruct chunks as [|c2 chunks].
  { injection Hparse as <-. cbn [map concat decode_all mbind outcome_bind]. exists evs, s1.
    rewrite !app_nil_r. by split_and!. }
  destruct (IH s1 j1 (P ++ chunk) _ _ Hok1) as (evs2 & s' & E2 & Hrun & Hhand); try done.
  { by rewrite Hh1. }
  { rewrite zlen_app. lia. }
  { by rewrite Hl1. }
  rewrite Hrun. cbn [mbind outcome_bind]. exists (evs ++ shift_events (zlen chunk) evs2), s'.
  rewrite Hh1 in E2. rewrite (yajl_stream _ _ _ _ _ E), E2. split_and!; [done|done|].
  rewrite Hhand, Hhand1, <- (app_assoc (ss_handed s)). f_equal.
  unfold for_topic. rewrite <- map_app. f_equal.
  pose proof Hok as (_ & (_ & Hdep & _ & _ & _ & Hopen & _) & _).
  apply (objects_split (js_handler j)); try done. intros ?. apply Hopen. lia.
Qed.

(** A session of the XML decoder between two chunks of whole documents. *)
Definition xml_session_ok (s : zz_session) (p : XML_Parser) : Prop :=
  exists x, ss_union s = UXml p x /\
    (forall ka, ka_holds ka [] -> xml_idle (set_response (set_msgs x ka) (ss_http_response s)) []) /\
    xc_buf x = N2K_STRING_INITIALIZER /\ xc_rc x = DECODER_CALLBACK_OK /\
    ss_http_response s = N2K_STRING_INITIALIZER /\ state_ok (ss_last_warning s).

Lemma new_xml_session_ok s p :
  ss_union s = UXml p new_xml_ctx -> ss_http_response s = N2K_STRING_INITIALIZER ->
  ss_last_warning s = Some produce_state_init -> xml_session_ok s p.
Proof.
  intros Hu Hr Hw. exists new_xml_ctx. split_and!; try done.
  - intros ka Hka. rewrite Hr. split; try done. by left.
  - by rewrite Hw.
Qed.

(** Every document of a chunk is handed over as the text of its JSON translation. *)
Lemma decode_xml_chunk env chunk s p p' ts texts :
  xml_session_ok s p -> de_temp_ok env = true -> documents p chunk ts p' ->
  Forall2 generates ts texts ->
  Forall (fun t => single_text t = true /\ Z.of_nat (height t) < 125) ts ->
  zlen (concat texts) <= size_limit -> ka_bytes (zlen ts) <= size_limit -> zlen chunk < 2 ^ 64 ->
  (forall s, 0 < string_addr s < 2 ^ 63) ->
  topics_db_get_rdkafka_topic w (ss_topic_handler s) = Ret r ->
  exists s' batch, zz_decode string_addr env w (Some chunk) props s
      = Ret (mkres DECODER_CALLBACK_OK None s' batch) /\
    xml_session_ok s' p' /\ batch_ok batch /\ ss_topic_handler s' = ss_topic_handler s /\
    ss_handed s' = ss_handed s ++ for_topic r texts.
Proof.
  intros (x & Hu & Hidle & Hbuf & Hrc & Hresp & Hst) Htemp Hdocs Hgen Hts Hlim Hkb Hlen Haddr Hr.
  unfold zz_decode. rewrite Hpost. unfold process_buffer, set_sess_msgs.
  cbn [ss_union ss_kafka_msgs ss_http_response ss_handed]. rewrite Hu, Htemp.
  specialize (Hidle kafka_msg_array_init ka_holds_nil).
  destruct (process_xml_buffer_spec string_addr p chunk ts p' texts
    (set_response (set_msgs x kafka_msg_array_init) (ss_http_response s)))
    as (c' & buf & msgs & -> & Hcont & Hka & Hpb & Hmsgs & Hidle' & Hbuf' & Hrc' & Hresp'); try done.
  { intros b. specialize (Haddr b). lia. }
  cbn [mbind outcome_bind]. cbn [xc_rc set_response set_msgs] in Hrc' |- *. rewrite Hrc.
  match goal with |- context [zz_produce env w ?b ?blk ?s1] =>
    destruct (zz_produce_spec env b blk s1 msgs) as (st & batch & -> & Hst' & Hbatch) end; try done.
  { cbn [ss_kafka_msgs]. intros Hms. rewrite (Hpb Hms). pose proof (Haddr buf). lia. }
  cbn [mbind outcome_bind]. rewrite bool_decide_true, Z.eqb_refl by done. cbn [negb orb].
  eexists _, batch. split; [reflexivity|]. cbn [ss_topic_handler ss_handed].
  rewrite <- Hmsgs. unfold for_topic. rewrite map_map.
  split_and!; try done. exists c'. cbn [ss_union ss_http_response ss_last_warning].
  split_and!; try done; [|by rewrite Hrc', Hrc|by rewrite Hresp'].
  intros ka Hk. destruct Hidle' as [Hi Hp Hb Hg Hre _]. by split.
Qed.

(** The answer to a body that expat refuses, with the number of messages of the chunk
    and the report of the error. *)
Definition xml_result (n : Z) (report : bytes) : bytes :=
  bs "<result><messages_queued>" ++ print_zu n ++ bs "</messages_queued>" ++ report ++ bs "</result>".

(** A chunk with a malformed document: those before it are handed over. *)
Lemma decode_xml_error env chunk s p ts pos text texts :
  xml_session_ok s p -> de_temp_ok env = true -> broken_documents p chunk ts pos text -> syntax_error pos ->
  Forall2 generates ts texts ->
  Forall (fun t => single_text t = true /\ Z.of_nat (height t) < 125) ts ->
  zlen (concat texts) + zlen text <= size_limit -> ka_bytes (zlen ts + 1) <= size_limit ->
  zlen chunk < 2 ^ 64 -> (forall s, 0 < string_addr s < 2 ^ 63) ->
  topics_db_get_rdkafka_topic w (ss_topic_handler s) = Ret r ->
  exists s' batch, zz_decode string_addr env w (Some chunk) props s
      = Ret (mkres DECODER_CALLBACK_INVALID_REQUEST
               (Some (xml_result (zlen texts) (xml_error_report pos))) s' batch) /\
    batch_ok batch /\ ss_topic_handler s' = ss_topic_handler s /\
    ss_handed s' = ss_handed s ++ for_topic r texts.
Proof.
  intros (x & Hu & Hidle & Hbuf & Hrc & Hresp & Hst) Htemp Hdocs Herr' Hgen Hts Hlim Hkb Hlen Haddr Hr.
  unfold zz_decode. rewrite Hpost. unfold process_buffer, set_sess_msgs.
  cbn [ss_union ss_kafka_msgs ss_http_response ss_handed]. rewrite Hu, Htemp.
  specialize (Hidle kafka_msg_array_init ka_holds_nil).
  destruct (process_xml_buffer_broken string_addr p chunk ts pos text texts
    (set_response (set_msgs x kafka_msg_array_init) (ss_http_response s)))
    as (p' & c' & buf & msgs & -> & Hka & Hpb & Hmsgs & Hri & Hrep); try done.
  { intros b. specialize (Haddr b). lia. }
  cbn [mbind outcome_bind].
  match goal with |- context [zz_produce env w ?b ?blk ?s1] =>
    destruct (zz_produce_spec env b blk s1 msgs) as (st & batch & -> & Hst' & Hbatch) end; try done.
  { cbn [ss_kafka_msgs]. intros Hms. rewrite (Hpb Hms). pose proof (Haddr buf). lia. }
  cbn [mbind outcome_bind]. rewrite bool_decide_false by done. cbn [negb orb].
  unfold error_message. cbn [ss_union ss_http_response]. unfold xml_error_message.
  rewrite bool_decide_false, Hrep by done.
  destruct Herr' as (_ & _ & Hshort). pose proof (print_zu_length (zlen msgs)) as Hn.
  match goal with |- context [string_printf 2 _ ?t] => set (full := t) end.
  assert (Hfull : 0 < zlen full <= 4094).
  { unfold full. rewrite !zlen_app. zlen_lits. zlen_facts. lia. }
  pose proof (string_printf_initial full 0 ltac:(lia)) as Hp.
  destruct (Hnf None 4096) as [b Hb]. rewrite Hb in Hp. destruct Hp as (ret & -> & Hreti & Hretc).
  cbn [mbind outcome_bind]. assert (Hsz : 0 < string_size ret).
  { unfold string_size. rewrite <- (zlen_contents _ Hreti), Hretc. lia. }
  ztest. eexists _, batch. split.
  { rewrite Hretc. unfold full, xml_result. rewrite <- Hmsgs.
    unfold zlen at 2. rewrite length_map. reflexivity. }
  cbn [ss_handed ss_topic_handler default from_option]. rewrite <- Hmsgs. unfold for_topic.
  rewrite map_map. by split_and!.
Qed.
End stream.

(** ** The topic of a request *)

Lemma strcspn_spec s reject :
  0 <= strcspn s reject <= zlen s /\
  Forall (fun c => c ∉ reject) (ztake (strcspn s reject) s) /\
  match zdrop (strcspn s reject) s with [] => True | c :: _ => c ∈ reject end.
Proof.
  induction s as [|c s IH]; cbn [strcspn].
  { split_and!; [done..|by constructor|done]. }
  rewrite zlen_cons. pose proof (zlen_nonneg s). case_bool_decide as E.
  - split_and!; [lia..|by constructor|done].
  - destruct IH as (Hb & Hf & Hd). unfold ztake, zdrop in *.
    replace (Z.to_nat (1 + strcspn s reject)) with (S (Z.to_nat (strcspn s reject))) by lia.
    cbn [take drop]. split_and!; [lia..|by constructor|done].
Qed.

Lemma extract_url_topic_spec url topic :
  extract_url_topic (Some url) = Ret (Some topic) <->
  exists rest, url = valid_prefix_str ++ topic ++ rest /\ topic <> [] /\
    Forall (fun c => c ∉ url_specials) topic /\
    match rest with [] => True | c :: _ => c ∈ url_specials end.
Proof.
  unfold extract_url_topic. destruct (strprefix valid_prefix_str url) eqn:Hp; cbn [negb].
  2:{ split; [done|]. intros (rest & -> & _).
      assert (strprefix valid_prefix_str (valid_prefix_str ++ topic ++ rest) = true)
        by (apply strprefix_spec; by eexists). congruence. }
  apply strprefix_spec in Hp as (tail & ->). rewrite zdrop_app_exact by done.
  destruct (strcspn_spec tail url_specials) as (Hb & Hf & Hd).
  set (n := strcspn tail url_specials) in *. split.
  - destruct (n =? 0) eqn:E; [done|]. apply Z.eqb_neq in E. intros [= <-].
    exists (zdrop n tail). split_and!; try done.
    + by rewrite ztake_zdrop.
    + intros H. apply (f_equal zlen) in H. rewrite zlen_ztake in H by lia. by rewrite zlen_nil in H.
  - intros (rest & Htail & Hne & Htopic & Hrest). apply app_inv_head in Htail. subst tail.
    assert (Hn : n = zlen topic).
    { clear - Htopic Hrest. subst n. induction Htopic as [|c topic Hc _ IH]; cbn [strcspn app].
      - destruct rest; [done|]. cbn. by rewrite bool_decide_true.
      - rewrite bool_decide_false by done. rewrite IH, zlen_cons. done. }
    rewrite Hn. assert (0 < zlen topic) by (destruct topic; [done|]; zlia). ztest.
    by rewrite ztake_app_exact.
Qed.

(** ** Properties *)

(** C4: a body of JSON values that comes in any number of chunks is delivered
    object by object: every call of [zz_decode] returns OK and the payloads
    handed to librdkafka in the session are exactly the top-level objects of the
    whole body, in order and each once, wherever the chunks cut it, in calls of
    [rd_kafka_produce_batch] for the topic of the session's handler. *)
Theorem json_objects_delivered {alloc : Allocator} {abi : Abi} {yajl : Yajl} {gen : YajlGen}
    {strings : ExpatStrings} {expat : Expat} {rk : Rdkafka} {producer : BatchProducer}
    (string_addr : cstring -> Z) (props : keyval_list) (w : world) (r : rkt) (s : zz_session)
    (j : zz_json_session) (chunks : list (decode_env * bytes)) (h' : yajl_handle) :
  never_fails alloc -> (forall r ms, Forall known_error (batch_errors r ms)) ->
  valueof props (bs "D-HTTP-method") strcmp0 = Some (bs "POST") ->
  (forall h b, zlen (yajl_get_error h b) <= size_limit) ->
  new_zz_session_json = Some j -> ss_union s = UJson j -> ss_handed s = [] ->
  ss_http_response s = N2K_STRING_INITIALIZER -> ss_last_warning s = Some produce_state_init ->
  topics_db_get_rdkafka_topic w (ss_topic_handler s) = Ret r ->
  parse_chunks (js_handler j) (map snd chunks) = Some h' -> chunks <> [] ->
  Forall (fun ec => (exists addr, de_mem ec.1 = Some addr /\ 0 < addr) /\ ec.2 <> [] /\
                    ka_bytes (zlen ec.2) <= size_limit) chunks ->
  zlen (concat (map snd chunks)) <= size_limit ->
  exists s' evs, decode_all string_addr props w chunks s
      = Ret (replicate (length chunks) DECODER_CALLBACK_OK, s') /\
    yajl_parse (js_handler j) (concat (map snd chunks)) = (evs, true, h') /\
    ss_handed s' = for_topic r (objects_of (concat (map snd chunks)) 0 0 evs).
Proof.
  intros Hnf Hknown Hpost Herr Hnew Hu Hh Hr Hw Hrk Hparse Hne Hall Hlim.
  unfold new_zz_session_json in Hnew. destruct yajl_alloc as [h|] eqn:Ha; [|done].
  injection Hnew as <-.
  destruct (decode_all_json string_addr props w r Hnf Hknown) with (chunks := chunks) (s := s)
    (j := mkjs h 0 0 0 N2K_STRING_INITIALIZER) (P := @nil byte) (d := 0) (open := 0) (h' := h')
    as (evs & s' & E & Hrun & Hhand); try done.
  - by rewrite Hpost.
  - split_and!; [done|..]; rewrite ?Hr, ?Hw; try done; try apply string_init_inv.
    split_and!; try done. by apply yajl_alloc_depth.
  - exists s', evs. split_and!; try done. rewrite Hhand, Hh. cbn [app].
    change (zlen (@nil byte)) with 0; by rewrite shift_0.
Qed.

#[local] Existing Instance brace_yajl.
#[local] Existing Instance readme_expat.

Definition json_chunk_env : decode_env := mkdenv (Some 4096) true (fun _ => 0).

Definition brace_start : @yajl_handle brace_yajl := 0.

Definition brace_json : zz_json_session := mkjs brace_start 0 0 0 N2K_STRING_INITIALIZER.

#[local] Instance named_topics : Rdkafka := {|
  rkt := bytes; rd_kafka_topic_new name := Some name; rd_kafka_topic_name r := r;
  topic_name_new name r H := eq_sym (f_equal (fun o => default [] o) H)
|}.
#[local] Instance accepting_producer : BatchProducer := deciding_producer (fun _ => ERR_NO_ERROR).

(** A handler for the topic top. *)
Definition one_handler : world := mkworld {[ O := mktopic (bs "top") 1 0 ]} 1%nat 1.

Definition new_json_sess : zz_session :=
  mksess (UJson brace_json) O KAFKA_MESSAGE_ARRAY_INITIALIZER (Some produce_state_init)
    N2K_STRING_INITIALIZER [].

Definition post_props : keyval_list := [mkpair (bs "D-HTTP-method") (Some (bs "POST"))].

Lemma accepting_known r ms : Forall known_error (batch_errors r ms).
Proof.
  unfold batch_errors. cbn. induction (map msg_set_private ms) as [|m l IH]; constructor; [|done].
  done.
Qed.

Definition cut_body : list (decode_env * bytes) :=
  [(json_chunk_env, bs "{a}{b"); (json_chunk_env, bs ":{c"); (json_chunk_env, bs "}}{d}")].

Lemma json_objects_delivered_witness :
  exists s' evs, decode_all (fun _ => 64) post_props one_handler cut_body new_json_sess
      = Ret (replicate 3 DECODER_CALLBACK_OK, s') /\
    yajl_parse (js_handler brace_json) (concat (map snd cut_body)) = (evs, true, brace_start) /\
    ss_handed s' = for_topic (bs "top") (objects_of (concat (map snd cut_body)) 0 0 evs).
Proof.
  apply (json_objects_delivered (fun _ => 64) post_props one_handler (bs "top") new_json_sess brace_json
    cut_body brace_start).
  - exact total_never_fails.
  - exact accepting_known.
  - reflexivity.
  - intros h b. vm_compute. discriminate.
  - reflexivity.
  - reflexivity.
  - reflexivity.
  - reflexivity.
  - reflexivity.
  - reflexivity.
  - vm_compute. reflexivity.
  - discriminate.
  - repeat constructor; try discriminate; try (by exists 4096); vm_compute; discriminate.
  - vm_compute. discriminate.
Defined.

(** The three objects of the witness, by evaluation. *)
Example cut_body_objects :
  objects_of (concat (map snd cut_body)) 0 0 (brace_scan 0 0 (concat (map snd cut_body))).1.1
  = [bs "{a}"; bs "{b:{c}}"; bs "{d}"].
Proof. vm_compute. reflexivity. Qed.

(** C13: a POST whose JSON is malformed is answered with INVALID_REQUEST and a
    JSON report with the text of the parser, escaped so that a JSON reader gets it back,
    and the number of messages; all the objects that end in the chunk before the error
    are handed to librdkafka, for the topic of the session.  The number is exactly that
    of the objects that start and end in this chunk: an object that an earlier chunk
    started is handed over too, in a call of its own, and not counted.  The text of
    the parser is UTF-8 without control characters other than those that JSON has a
    short escape for, it and the body fit the limits of the program, and no
    allocation fails. *)
Theorem json_error_reported {alloc : Allocator} {abi : Abi} {yajl : Yajl} {gen : YajlGen}
    {strings : ExpatStrings} {expat : Expat} {rk : Rdkafka} {producer : BatchProducer}
    (string_addr : cstring -> Z) (props : keyval_list) (w : world) (r : rkt) (env : decode_env)
    (addr : Z) (chunk : bytes) (s : zz_session) (j : zz_json_session) (P : bytes) (d open : Z)
    (evs : list (yajl_event * Z)) (h : yajl_handle) (text : list bytes) :
  never_fails alloc -> (forall r ms, Forall known_error (batch_errors r ms)) ->
  valueof props (bs "D-HTTP-method") strcmp0 = Some (bs "POST") ->
  ss_union s = UJson j -> json_idle j P d open ->
  ss_http_response s = N2K_STRING_INITIALIZER -> state_ok (ss_last_warning s) ->
  de_mem env = Some addr -> 0 < addr -> chunk <> [] ->
  yajl_parse (js_handler j) chunk = (evs, false, h) ->
  yajl_get_error h chunk = concat text -> Forall json_char text ->
  zlen (json_escape text) <= size_limit - 8192 -> zlen (concat text) <= size_limit ->
  zlen P + zlen chunk <= size_limit -> ka_bytes (zlen chunk) <= size_limit ->
  topics_db_get_rdkafka_topic w (ss_topic_handler s) = Ret r ->
  let objects := objects_of (P ++ chunk) d open (shift_events (zlen P) evs) in
  let n := zlen (if 0 <? d then drop 1 objects else objects) in
  exists s' batch e, zz_decode string_addr env w (Some chunk) props s
      = Ret (mkres DECODER_CALLBACK_INVALID_REQUEST
               (Some (bs "{" ++ [dquote] ++ bs "messages_queued" ++ [dquote] ++ bs ":" ++ print_zu n ++
                      bs "," ++ [dquote] ++ bs "json_decoder_error" ++ [dquote] ++ bs ":" ++
                      [dquote] ++ e ++ [dquote] ++ bs "}")) s' batch) /\
    json_unescape e = Some (yajl_get_error h chunk) /\
    ss_handed s' = ss_handed s ++ for_topic r objects.
Proof.
  intros Hnf Hknown Hpost Hu Hidle Hr Hst Hmem Ha Hne Hparse Htext Hutf Hesc Hcl Hlim Hkl Hrk objects n.
  destruct (decode_json_error string_addr props w r Hnf Hknown) with (env := env) (addr := addr)
    (chunk := chunk) (s := s) (j := j) (P := P) (d := d) (open := open) (evs := evs) (h := h) (text := text)
    as (s' & batch & Hd & _ & _ & Hh); try done.
  - by rewrite Hpost.
  - split_and!; rewrite ?Hr; try done; apply string_init_inv.
  - by apply json_chars_utf8.
  - exists s', batch, (json_escape text). split_and!; try done.
    rewrite Htext. by apply json_unescape_escape.
Qed.

(** A chunk that ends an object of the chunk before it, has two whole ones and then
    closes an object that is not open. *)
Definition broken_body : bytes := bs "a}{b}{c}}".

Definition open_json : zz_json_session := mkjs (1 : @yajl_handle brace_yajl) 1 0 0 (mkstr (Some (bs "{" ++ zeros 4095)) 1).

Definition open_sess : zz_session :=
  mksess (UJson open_json) O KAFKA_MESSAGE_ARRAY_INITIALIZER (Some produce_state_init)
    N2K_STRING_INITIALIZER [].

Lemma json_error_reported_witness :
  exists s' batch e, zz_decode (fun _ => 64) json_chunk_env one_handler (Some broken_body) post_props open_sess
      = Ret (mkres DECODER_CALLBACK_INVALID_REQUEST
               (Some (bs "{" ++ [dquote] ++ bs "messages_queued" ++ [dquote] ++ bs ":" ++ print_zu 2 ++
                      bs "," ++ [dquote] ++ bs "json_decoder_error" ++ [dquote] ++ bs ":" ++
                      [dquote] ++ e ++ [dquote] ++ bs "}")) s' batch) /\
    json_unescape e = Some (bs "parse error") /\
    ss_handed s' = [(bs "top", bs "{a}"); (bs "top", bs "{b}"); (bs "top", bs "{c}")].
Proof.
  apply (json_error_reported (fun _ => 64) post_props one_handler (bs "top") json_chunk_env 4096 broken_body
    open_sess open_json (bs "{") 1 0
    [(yajl_end_map, 2); (yajl_start_map, 3); (yajl_end_map, 5); (yajl_start_map, 6); (yajl_end_map, 8)]
    brace_start (map (fun c => [c]) (bs "parse error"))).
  - exact total_never_fails.
  - exact accepting_known.
  - reflexivity.
  - reflexivity.
  - split_and!; done.
  - reflexivity.
  - reflexivity.
  - reflexivity.
  - lia.
  - discriminate.
  - vm_compute. reflexivity.
  - vm_compute. reflexivity.
  - apply json_ascii. reflexivity.
  - vm_compute. discriminate.
  - vm_compute. discriminate.
  - vm_compute. discriminate.
  - vm_compute. discriminate.
  - reflexivity.
Defined.

(** The specification of [new_zz_session]. *)
Lemma new_zz_session_spec {alloc : Allocator} {abi : Abi} {yajl : Yajl} {gen : YajlGen}
    {strings : ExpatStrings} {expat : Expat} {rk : Rdkafka} {producer : BatchProducer}
    (env : new_env) (db : topics_db) (w : world) (msg_vars : keyval_list) (url : bytes)
    (ext : list loc) (m : gmap bytes Z) :
  valueof msg_vars (bs "D-HTTP-URI") strcmp0 = Some url -> ne_gen_ok env = true ->
  db_ok db w ext -> db_abs w (db_table db) m -> zlen (db_table db ++ ext) < 2 ^ 63 - 2 ->
  exists r db' w', new_zz_session env (Some db) w msg_vars = Ret (r, Some db', w') /\
    match r with
    | Some s => exists topic rest,
        url = valid_prefix_str ++ topic ++ rest /\ topic <> [] /\
        Forall (fun c => c ∉ url_specials) topic /\
        match rest with [] => True | c :: _ => c ∈ url_specials end /\
        tname w' (ss_topic_handler s) =
          Some (uuid_topic (valueof msg_vars (bs "X-Consumer-ID") strcasecmp0) topic) /\
        (match ss_union s with UXml _ _ => true | UJson _ => false end =
           is_xml_content_type (valueof msg_vars (bs "Content-type") strcasecmp0)) /\
        db_ok db' w' (ss_topic_handler s :: ext) /\
        (zlen (db_table db') <= 1 + zlen (db_table db) /\ ss_handed s = [] /\
         ss_http_response s = N2K_STRING_INITIALIZER /\
         ss_last_warning s = Some produce_state_init /\
         match ss_union s with
         | UJson j => new_zz_session_json = Some j
         | UXml p x => XML_ParserCreate = Some p /\ x = new_xml_ctx
         end /\
         (exists m', db_abs w' (db_table db') m') /\ (forall x, x ∈ ext -> tname w' x = tname w x))
    | None => db_ok db' w' ext /\ (extract_url_topic (Some url) = Ret None \/ ne_topic_ok env = false \/
        (exists name, rd_kafka_topic_new name = None) \/
        if is_xml_content_type (valueof msg_vars (bs "Content-type") strcasecmp0)
        then XML_ParserCreate = None else new_zz_session_json = None)
    end.
Proof.
  intros Hurl Hgen Hok Habs Hb. unfold new_zz_session. rewrite Hurl.
  destruct (extract_url_topic (Some url)) as [[topic|]|f|] eqn:E; cbn [mbind outcome_bind].
  2:{ exists None, db, w. auto. }
  2:{ unfold extract_url_topic in E. destruct (negb _); [done|]. by destruct (_ =? 0). }
  2:{ unfold extract_url_topic in E. destruct (negb _); [done|]. by destruct (_ =? 0). }
  apply extract_url_topic_spec in E as (rest & Eurl & Hne & Hf & Hrest).
  unfold zz_http2k_database_get_topic.
  destruct (topics_db_get_topic_spec (ne_topic_ok env) db w
    (uuid_topic (valueof msg_vars (bs "X-Consumer-ID") strcasecmp0) topic) (ne_now env) ext m Hok Habs Hb)
    as (r & db1 & w1 & -> & Hr). cbn [mbind outcome_bind]. destruct r as [l|].
  2:{ destruct Hr as (_ & Hr & -> & ->). exists None, db, w. split; [done|]. split; [done|].
      destruct Hr as [Hr|Hr]; [by right; left|]. right; right; left. by eexists. }
  destruct Hr as (Hname & _ & Hok1 & Habs1 & Hlen & Hkeep).
  assert (Hdec : exists w2, topic_decref w1 l = Ret w2 /\ db_ok db1 w2 ext).
  { destruct (db_ok_release db1 w1 l ext Hok1) as (w2 & H1 & H2 & _); [zlia|]. by exists w2. }
  destruct Hdec as (w2 & Hdec & Hok2).
  set (ct := valueof msg_vars (bs "Content-type") strcasecmp0).
  destruct (is_xml_content_type ct) eqn:Ex.
  - unfold new_zz_session_xml. rewrite Hgen. destruct XML_ParserCreate as [p|]; cbn [mbind outcome_bind].
    + eexists _, db1, w1. split; [reflexivity|]. exists topic, rest. split_and!; try done. by eexists.
    + rewrite Hdec. eexists None, db1, w2. split; [done|]. split; [done|]. by do 3 right.
  - cbn [mbind outcome_bind]. destruct new_zz_session_json as [j|]; cbn [mbind outcome_bind].
    + eexists _, db1, w1. split; [reflexivity|]. exists topic, rest. split_and!; try done. by eexists.
    + rewrite Hdec. eexists None, db1, w2. split; [done|]. split; [done|]. by do 3 right.
Qed.

(** C14: a session is created for exactly the URLs [/v1/data/<topic>], where the
    topic is not empty and ends at the first special character.  Its topic is
    the handler of [<X-Consumer-ID>_<topic>], or of [<topic>] without that
    header, its decoder is XML exactly when the content type ends with xml, and
    the database holds one more reference to the handler; a session that cannot
    be created keeps no reference, and the reason is a wrong URL, a topic
    librdkafka refuses or a failed allocation. *)
Theorem new_session_topic {alloc : Allocator} {abi : Abi} {yajl : Yajl} {gen : YajlGen}
    {strings : ExpatStrings} {expat : Expat} {rk : Rdkafka} {producer : BatchProducer}
    (env : new_env) (db : topics_db) (w : world) (msg_vars : keyval_list) (url : bytes)
    (ext : list loc) (m : gmap bytes Z) :
  valueof msg_vars (bs "D-HTTP-URI") strcmp0 = Some url -> ne_gen_ok env = true ->
  db_ok db w ext -> db_abs w (db_table db) m -> zlen (db_table db ++ ext) < 2 ^ 63 - 2 ->
  exists r db' w', new_zz_session env (Some db) w msg_vars = Ret (r, Some db', w') /\
    match r with
    | Some s => exists topic rest,
        url = valid_prefix_str ++ topic ++ rest /\ topic <> [] /\
        Forall (fun c => c ∉ url_specials) topic /\
        match rest with [] => True | c :: _ => c ∈ url_specials end /\
        tname w' (ss_topic_handler s) =
          Some (uuid_topic (valueof msg_vars (bs "X-Consumer-ID") strcasecmp0) topic) /\
        (match ss_union s with UXml _ _ => true | UJson _ => false end =
           is_xml_content_type (valueof msg_vars (bs "Content-type") strcasecmp0)) /\
        db_ok db' w' (ss_topic_handler s :: ext)
    | None => db_ok db' w' ext /\ (extract_url_topic (Some url) = Ret None \/ ne_topic_ok env = false \/
        (exists name, rd_kafka_topic_new name = None) \/
        if is_xml_content_type (valueof msg_vars (bs "Content-type") strcasecmp0)
        then XML_ParserCreate = None else new_zz_session_json = None)
    end.
Proof.
  intros Hurl Hgen Hok Habs Hb.
  destruct (new_zz_session_spec env db w msg_vars url ext m Hurl Hgen Hok Habs Hb)
    as (r & db' & w' & Hn & Hr). exists r, db', w'. split; [done|].
  destruct r as [s|]; [|done].
  destruct Hr as (topic & rest & H1 & H2 & H3 & H4 & H5 & H6 & H7 & _).
  exists topic, rest. by split_and!.
Qed.

Definition data_vars : keyval_list :=
  [mkpair (bs "D-HTTP-URI") (Some (bs "/v1/data/top?x=1"));
   mkpair (bs "x-consumer-id") (Some (bs "abc"));
   mkpair (bs "Content-Type") (Some (bs "text/XML"))].

Lemma new_session_topic_witness :
  exists r db' w', new_zz_session (mkenv 5 true true) (Some topics_db_new) (mkworld ∅ O 0) data_vars
      = Ret (r, Some db', w') /\
    match r with
    | Some s => exists topic rest,
        bs "/v1/data/top?x=1" = valid_prefix_str ++ topic ++ rest /\ topic <> [] /\
        Forall (fun c => c ∉ url_specials) topic /\
        match rest with [] => True | c :: _ => c ∈ url_specials end /\
        tname w' (ss_topic_handler s) =
          Some (uuid_topic (valueof data_vars (bs "X-Consumer-ID") strcasecmp0) topic) /\
        (match ss_union s with UXml _ _ => true | UJson _ => false end =
           is_xml_content_type (valueof data_vars (bs "Content-type") strcasecmp0)) /\
        db_ok db' w' [ss_topic_handler s]
    | None => db_ok db' w' [] /\
       (extract_url_topic (Some (bs "/v1/data/top?x=1")) = Ret None \/ true = false \/
        (exists name, rd_kafka_topic_new name = None) \/
        if is_xml_content_type (valueof data_vars (bs "Content-type") strcasecmp0)
        then XML_ParserCreate = None else new_zz_session_json = None)
    end.
Proof.
  destruct system_init_inv as [[Hok _] Ha].
  apply (new_session_topic (mkenv 5 true true) topics_db_new (mkworld ∅ O 0) data_vars
    (bs "/v1/data/top?x=1") [] ∅).
  - vm_compute. reflexivity.
  - reflexivity.
  - exact Hok.
  - exact Ha.
  - vm_compute. reflexivity.
Defined.

(** The size of a session given to the listener is the least multiple of the
    alignment that holds the structure. *)
Theorem size_align_to_correct (size alignment : Z) :
  0 < alignment -> 0 <= size -> size + alignment < 2 ^ 64 ->
  size <= size_align_to size alignment < size + alignment /\
  size_align_to size alignment mod alignment = 0.
Proof.
  intros Ha Hs Hb. unfold size_align_to.
  pose proof (Z.div_mod size alignment ltac:(lia)) as Hd.
  pose proof (Z.mod_pos_bound size alignment Ha) as Hm.
  destruct (size mod alignment =? 0) eqn:E.
  - apply Z.eqb_eq in E. split; [lia|done].
  - apply Z.eqb_neq in E.
    assert ((size / alignment + 1) * alignment = size - size mod alignment + alignment) as Hv by nia.
    rewrite wrap64_small by lia. split; [lia|]. apply Z.mod_mul. lia.
Qed.

Lemma size_align_to_correct_witness :
  100 <= size_align_to 100 16 < 100 + 16 /\ size_align_to 100 16 mod 16 = 0.
Proof. apply size_align_to_correct; lia. Defined.
