(* ===== verification/HttpAuth.v ===== *)
(** * HTTP basic authentication

    listener/http/http_auth.c: the password file is reduced to a block of
    entries, and users are looked up in that block.  The block is a list of
    bytes; the string at an address ends at the first NUL. *)

From S2P Require Import Prelude Pair File.

Definition colon_char : byte := x3a.
Definition newline : byte := x0a.

Definition plain_hashing_callback_prefix : bytes := bs ":{PLAIN}".

(** Offset of the first [c]. *)
Fixpoint strchr (s : bytes) (c : byte) : option Z :=
  match s with
  | [] => None
  | x :: s => if bool_decide (x = c) then Some 0
              else match strchr s c with Some n => Some (1 + n) | None => None end
  end.

(** Offset of the first [c], or of the end. *)
Definition strchrnul (s : bytes) (c : byte) : Z := default (zlen s) (strchr s c).

(** The string at offset [i] of a block. *)
Definition string_at (mem : bytes) (i : Z) : outcome bytes :=
  match strchr (zdrop i mem) x00 with
  | Some n => Ret (ztake n (zdrop i mem))
  | None => Fault bad_access
  end.

(** The assertion looks at the provided password. *)
Definition plain_hashing_callback (provided_password htfile_password : bytes) : outcome bool :=
  _ ← c_assert (strprefix plain_hashing_callback_prefix provided_password);
  Ret (strcmp0 (zdrop (zlen plain_hashing_callback_prefix) htfile_password) provided_password).

(** Offsets of the colon, if there is one, and of the end of the entry. *)
Definition tokenize_user_pass_line (line : bytes) : option Z * Z :=
  match strchr line colon_char with
  | None => (None, zlen line)
  | Some colon => (Some colon, colon + strchrnul (zdrop colon line) newline)
  end.

Definition password_hashing_callback (colon : bytes) : option (bytes -> bytes -> outcome bool) :=
  if strprefix plain_hashing_callback_prefix colon then Some plain_hashing_callback else None.

(** Overwrite the block from [off] on. *)
Definition write_at (mem : bytes) (off : Z) (data : bytes) : outcome bytes :=
  if (0 <=? off) && (off + zlen data <=? zlen mem)
  then Ret (ztake off mem ++ data ++ zdrop (off + zlen data) mem) else Fault bad_access.

(** The loop over the lines [getline] returns; [rc] and [written] are its
    counters and [dst] the destination, of which [dst_size] bytes may be used. *)
Fixpoint extract_lines (lines : list bytes) (dst : bytes) (dst_size rc written : Z)
    : outcome (Z * bytes) :=
  match lines with
  | [] => Ret (rc, dst)
  | line :: lines =>
      match tokenize_user_pass_line line with
      | (None, _) => extract_lines lines dst dst_size rc written
      | (Some colon, endptr) =>
          match password_hashing_callback (zdrop colon line) with
          | None => extract_lines lines dst dst_size rc written
          | Some _ =>
              let entry_len := endptr + 1 in
              if written + entry_len <? dst_size then
                dst1 ← write_at dst written (ztake (entry_len - 1) line);
                dst2 ← write_at dst1 (written + entry_len) [x00];
                extract_lines lines dst2 dst_size (rc + entry_len) (written + entry_len)
              else extract_lines lines dst dst_size (rc + entry_len) written
          end
      end
  end.

Definition http_auth_extract_data0 (lines : list bytes) (dst : bytes) (dst_size : Z)
    : outcome (Z * bytes) :=
  extract_lines lines dst dst_size 0 0.

(** The value of [unlikely(x)], that is [!!(x)]: 0 or 1.  The code compares it with
    0, so a failure of [ftello] is only noticed when it goes back. *)
Definition unlikely_value (x : Z) : Z := if x =? 0 then 0 else 1.

(** The stream [src] is left at its offset when the result is not -1; [lines] are its
    lines from there. *)
Definition http_auth_extract_data (io : stdio) (src : FILE) (lines : list bytes) (dst : bytes)
    (dst_size : Z) : outcome (Z * bytes) :=
  let curr_off := ftello (io_ftello io) src in
  if unlikely_value curr_off <? 0 then Ret (-1, dst)
  else
    '(rc, dst1) ← http_auth_extract_data0 lines dst dst_size;
    let '(fseeko_rc, _) := fseeko (io_fseeko_restore io) src curr_off SEEK_SET in
    Ret (if negb (fseeko_rc =? 0) then -1 else rc, dst1).

(** How http_config.c loads the file: a first pass for the size, a block with
    one more byte from [calloc], and a second pass for the data. *)
Definition htpasswd_size (io : stdio) (src : FILE) (lines : list bytes) : outcome Z :=
  '(rc, _) ← http_auth_extract_data io src lines [] 0;
  Ret (if rc <? 0 then 0 else rc).

(** With a size of 1, as in its only call, the count is the number of bytes. *)
Definition htpasswd_fread (io : stdio) (src : FILE) (lines : list bytes) (dst : bytes) (count : Z)
    : outcome (Z * bytes) :=
  '(data_read, dst1) ← http_auth_extract_data io src lines dst count;
  Ret (if data_read <? 0 then 0 else data_read, dst1).

(** Both passes over a stream that can go back to its start. *)
Definition htpasswd_load (lines : list bytes) : outcome bytes :=
  let io := mkstdio true true true true in
  let src := mkfile (concat lines) 0 in
  size ← htpasswd_size io src lines;
  '(_, dst) ← htpasswd_fread io src lines (replicate (Z.to_nat (size + 1)) x00) size;
  Ret dst.

Fixpoint authenticate_loop (fuel : nat) (user password mem : bytes) (cursor : Z) : outcome bool :=
  match fuel with
  | O => NoFuel
  | S fuel =>
      match zdrop cursor mem with
      | [] => Fault bad_access
      | c :: _ =>
          if bool_decide (c = newline) then Ret false
          else
            s ← string_at mem cursor;
            let end_of_line := cursor + strchrnul s newline in
            match strchr s colon_char with
            | None => Fault assert_failed
            | Some colon =>
                if negb (colon =? zlen user)
                then authenticate_loop fuel user password mem end_of_line
                else if strprefix user s then
                  match password_hashing_callback (zdrop colon s) with
                  | None => Fault bad_access
                  | Some cb => cb password (zdrop colon s)
                  end
                else authenticate_loop fuel user password mem cursor
            end
      end
  end.

Definition http_authenticate (fuel : nat) (user password db : bytes) : outcome bool :=
  authenticate_loop fuel user password db 0.

(** ** Lemmas *)

Lemma strchr_bound s c n : strchr s c = Some n -> 0 <= n < zlen s.
Proof.
  revert n. induction s as [|x s IH]; intros n; cbn; [done|]. rewrite zlen_cons.
  pose proof (zlen_nonneg s). case_bool_decide; [intros [= <-]; lia|].
  destruct (strchr s c) as [k|]; [|done]. intros [= <-]. specialize (IH k eq_refl). lia.
Qed.

Lemma strchr_app_l s t c : (forall n, strchr s c <> Some n) ->
  strchr (s ++ t) c = match strchr t c with Some n => Some (zlen s + n) | None => None end.
Proof.
  induction s as [|x s IH]; intros H; cbn.
  { destruct (strchr t c); [|done]. f_equal. }
  cbn in H. case_bool_decide; [by destruct (H 0)|]. rewrite IH.
  - destruct (strchr t c); [|done]. rewrite zlen_cons. f_equal. lia.
  - intros n E. by destruct (H (1 + n)); rewrite E.
Qed.

Lemma strchr_first (l t : bytes) c : Forall (fun x => x <> c) l ->
  strchr (l ++ c :: t) c = Some (zlen l).
Proof.
  intros Hl. rewrite strchr_app_l.
  - cbn. rewrite bool_decide_true by done. f_equal. lia.
  - intros n. induction Hl as [|x l Hx _ IHl] in n |- *; cbn; [done|].
    rewrite bool_decide_false by done. destruct (strchr l c) as [k|] eqn:Ek; [|done].
    exfalso. by apply (IHl k).
Qed.

(** An entry of the password file, without its end of line. *)
Definition is_entry (e : bytes) : Prop :=
  exists user pw, e = user ++ plain_hashing_callback_prefix ++ pw
    /\ Forall (fun c => c <> colon_char) user /\ Forall (fun c => c <> newline) e.

Lemma entry_tokens e : is_entry e ->
  exists colon, tokenize_user_pass_line (e ++ [newline]) = (Some colon, zlen e)
    /\ is_Some (password_hashing_callback (zdrop colon (e ++ [newline]))).
Proof.
  intros (user & pw & -> & Hu & Hn). exists (zlen user).
  unfold tokenize_user_pass_line.
  change plain_hashing_callback_prefix with (colon_char :: bs "{PLAIN}") in *.
  rewrite <- !app_assoc. cbn [app]. rewrite strchr_first by done.
  rewrite zdrop_app_exact by done.
  apply list.Forall_app in Hn as [Hun Hn].
  split.
  - do 2 f_equal. unfold strchrnul.
    change (colon_char :: bs "{PLAIN}" ++ pw ++ [newline])
      with ((colon_char :: bs "{PLAIN}" ++ pw) ++ newline :: []).
    rewrite strchr_first by done. cbn [default]. by rewrite zlen_app.
  - unfold password_hashing_callback.
    replace (strprefix _ _) with true; [done|]. symmetry. apply strprefix_spec. by eexists.
Qed.

Lemma extract_entry e lines dst dst_size rc written : is_entry e ->
  extract_lines ((e ++ [newline]) :: lines) dst dst_size rc written =
    if written + (zlen e + 1) <? dst_size then
      dst1 ← write_at dst written e;
      dst2 ← write_at dst1 (written + (zlen e + 1)) [x00];
      extract_lines lines dst2 dst_size (rc + (zlen e + 1)) (written + (zlen e + 1))
    else extract_lines lines dst dst_size (rc + (zlen e + 1)) written.
Proof.
  intros He. destruct (entry_tokens e He) as (colon & Ht & [cb Hcb]).
  cbn [extract_lines]. rewrite Ht, Hcb.
  by replace (zlen e + 1 - 1) with (zlen e) by lia; rewrite ztake_app_exact.
Qed.

(** The block one entry makes. *)
Definition block (e : bytes) : bytes := e ++ [x00].

Definition zero_block (n : Z) : bytes := replicate (Z.to_nat n) x00.

Lemma zlen_zero_block n : 0 <= n -> zlen (zero_block n) = n.
Proof. intros. unfold zero_block, zlen. rewrite length_replicate. lia. Qed.

Lemma zero_block_app a b : 0 <= a -> 0 <= b -> zero_block (a + b) = zero_block a ++ zero_block b.
Proof. intros. unfold zero_block. by rewrite Z2Nat.inj_add, replicate_add by lia. Qed.

Lemma write_zero_block d e n : 0 <= n ->
  write_at (d ++ zero_block (zlen e + n)) (zlen d) e = Ret (d ++ e ++ zero_block n).
Proof.
  intros. pose proof (zlen_nonneg d). pose proof (zlen_nonneg e). unfold write_at.
  rewrite zlen_app, zlen_zero_block by lia.
  replace ((0 <=? zlen d) && (zlen d + zlen e <=? zlen d + (zlen e + n))) with true by lia.
  rewrite ztake_app_exact by done. rewrite zdrop_app_ge by lia.
  rewrite zero_block_app by lia. rewrite zdrop_app_exact; [done|].
  rewrite zlen_zero_block; lia.
Qed.

Lemma extract_size es rc : Forall is_entry es ->
  extract_lines (map (fun e => e ++ [newline]) es) [] 0 rc 0
  = Ret (rc + zlen (concat (map block es)), []).
Proof.
  intros H. revert rc. induction H as [|e es He _ IH]; intros rc; cbn [map concat].
  { change (zlen []) with 0. by rewrite Z.add_0_r. }
  rewrite extract_entry by done. pose proof (zlen_nonneg e).
  replace (0 + (zlen e + 1) <? 0) with false by lia. rewrite IH.
  unfold block. rewrite !zlen_app. change (zlen [x00]) with 1.
  do 2 f_equal. lia.
Qed.

Lemma extract_copies es tail d rc n k dst_size : Forall is_entry es -> 0 < n <= k ->
  dst_size = zlen d + zlen (concat (map block es)) + n ->
  extract_lines (map (fun e => e ++ [newline]) es ++ tail)
    (d ++ zero_block (zlen (concat (map block es)) + k)) dst_size rc (zlen d)
  = extract_lines tail (d ++ concat (map block es) ++ zero_block k) dst_size
      (rc + zlen (concat (map block es))) (zlen d + zlen (concat (map block es))).
Proof.
  intros H. revert d rc. induction H as [|e es He _ IH]; intros d rc Hn Hsize; cbn [map concat app].
  { change (zlen []) with 0. by rewrite !Z.add_0_l, !Z.add_0_r. }
  rewrite extract_entry by done. cbn [map concat] in Hsize.
  pose proof (zlen_nonneg e). pose proof (zlen_nonneg d).
  set (r := concat (map block es)) in *. pose proof (zlen_nonneg r).
  assert (Hb : zlen (block e ++ r) = zlen e + 1 + zlen r)
    by (unfold block; rewrite !zlen_app; done).
  rewrite Hb in *. replace (zlen d + (zlen e + 1) <? dst_size) with true by lia.
  replace (zlen e + 1 + zlen r + k) with (zlen e + (1 + (zlen r + k))) by lia.
  rewrite write_zero_block by lia. cbn [mbind outcome_bind].
  rewrite zero_block_app by lia.
  replace (d ++ e ++ zero_block 1 ++ zero_block (zlen r + k)) with ((d ++ block e) ++ zero_block (zlen r + k))
    by (unfold block; rewrite <- !app_assoc; done).
  assert (Hd : zlen (d ++ block e) = zlen d + (zlen e + 1)) by (unfold block; rewrite !zlen_app; done).
  rewrite <- Hd. replace (zlen r + k) with (zlen [x00] + (zlen r + k - 1)) at 1
    by (unfold zlen at 1; cbn; lia).
  rewrite write_zero_block by lia. cbn [mbind outcome_bind].
  replace ((d ++ block e) ++ [x00] ++ zero_block (zlen r + k - 1))
    with ((d ++ block e) ++ zero_block (zlen r + k)).
  2:{ replace (zlen r + k) with (1 + (zlen r + k - 1)) at 1 by lia. by rewrite zero_block_app by lia. }
  rewrite IH by lia. f_equal; [by rewrite <- !app_assoc|lia..].
Qed.

(** On a stream that can go back, the wrapper adds nothing. *)
Lemma http_auth_extract_data_ok io data lines dst dst_size :
  io_ftello io = true -> io_fseeko_restore io = true ->
  http_auth_extract_data io (mkfile data 0) lines dst dst_size
  = http_auth_extract_data0 lines dst dst_size.
Proof.
  intros Ht Hr. unfold http_auth_extract_data, ftello, fseeko. rewrite Ht, Hr. cbn.
  by destruct (http_auth_extract_data0 lines dst dst_size) as [[rc d]| |].
Qed.

Lemma htpasswd_load_entries es e : Forall is_entry (es ++ [e]) ->
  htpasswd_load (map (fun e => e ++ [newline]) (es ++ [e]))
  = Ret (concat (map block es) ++ zero_block (zlen e + 2)).
Proof.
  intros H. unfold htpasswd_load. cbn zeta. unfold htpasswd_size.
  rewrite http_auth_extract_data_ok by done. unfold http_auth_extract_data0.
  rewrite extract_size by done. cbn [mbind outcome_bind].
  rewrite !map_app, !concat_app. cbn [map concat]. rewrite !app_nil_r.
  apply list.Forall_app in H as [Hes He]. apply list.Forall_cons in He as [He _].
  rewrite zlen_app. set (r := concat (map block es)) in *.
  assert (Hb : zlen (block e) = zlen e + 1) by (unfold block; rewrite zlen_app; done).
  rewrite Hb. pose proof (zlen_nonneg e). pose proof (zlen_nonneg r).
  replace (0 + (zlen r + (zlen e + 1)) <? 0) with false by lia.
  unfold htpasswd_fread. rewrite http_auth_extract_data_ok by done. unfold http_auth_extract_data0.
  fold (zero_block (0 + (zlen r + (zlen e + 1)) + 1)).
  replace (zero_block (0 + (zlen r + (zlen e + 1)) + 1)) with ([] ++ zero_block (zlen r + (zlen e + 2)))
    by (cbn [app]; f_equal; lia).
  pose proof (extract_copies es [e ++ [newline]] [] 0 (zlen e + 1) (zlen e + 2)
    (0 + (zlen r + (zlen e + 1))) Hes ltac:(lia)) as Hcopy.
  change (zlen []) with 0 in Hcopy. fold r in Hcopy. rewrite Hcopy by lia.
  rewrite extract_entry by done.
  replace (0 + zlen r + (zlen e + 1) <? 0 + (zlen r + (zlen e + 1))) with false by lia.
  done.
Qed.

(** ** Properties *)

(** When assertions are compiled in, a password is only accepted if it starts with the
    marker [:{PLAIN}] of the password file, because the assertion tests the provided
    password instead of the stored one: no ordinary password authenticates. *)
Theorem http_authenticate_needs_marker (fuel : nat) (user password db : bytes) :
  http_authenticate fuel user password db = Ret true ->
  strprefix plain_hashing_callback_prefix password = true.
Proof.
  unfold http_authenticate. generalize 0 as cursor. induction fuel as [|fuel IH]; intros cursor;
    cbn [authenticate_loop]; [done|].
  destruct (zdrop cursor db) as [|c rest] eqn:E; [done|]. case_bool_decide; [done|].
  destruct (string_at db cursor) as [s| |]; cbn [mbind outcome_bind]; [|done..].
  destruct (strchr s colon_char) as [colon|]; [|done].
  destruct (negb (colon =? zlen user)); [apply IH|]. destruct (strprefix user s); [|apply IH].
  unfold password_hashing_callback. destruct (strprefix _ (zdrop colon s)); [|done].
  unfold plain_hashing_callback, c_assert. by destruct (strprefix _ password).
Qed.

Lemma http_authenticate_needs_marker_witness :
  strprefix plain_hashing_callback_prefix (bs ":{PLAIN}x") = true.
Proof.
  apply (http_authenticate_needs_marker 5 (bs "u") (bs ":{PLAIN}x")
           (bs "u:{PLAIN}:{PLAIN}x" ++ [x00])).
  vm_compute. reflexivity.
Defined.

(** A user name that has the length of the name in the first entry but is
    another name makes [http_authenticate] loop forever: the cursor does not
    move. *)
Theorem http_authenticate_other_user_loops (fuel : nat) (user name rest password : bytes) :
  zlen user = zlen name -> user <> name -> name <> [] ->
  Forall (fun c => c <> newline /\ c <> colon_char /\ c <> x00) name ->
  Forall (fun c => c <> x00) rest ->
  http_authenticate fuel user password (name ++ [colon_char] ++ rest ++ [x00]) = NoFuel.
Proof.
  intros Hlen Hne Hnil Hname Hrest. unfold http_authenticate.
  assert (Hs : string_at (name ++ [colon_char] ++ rest ++ [x00]) 0
    = Ret (name ++ [colon_char] ++ rest)).
  { unfold string_at. rewrite zdrop_0.
    replace (name ++ [colon_char] ++ rest ++ [x00]) with ((name ++ [colon_char] ++ rest) ++ [x00])
      by (by rewrite <- !app_assoc).
    rewrite strchr_first; [by rewrite ztake_app_exact|].
    rewrite !list.Forall_app, list.Forall_singleton. split_and!; try done.
    eapply list.Forall_impl; [exact Hname|]. by intros x (? & ? & ?). }
  assert (Hc : strchr (name ++ [colon_char] ++ rest) colon_char = Some (zlen name)).
  { apply (strchr_first name rest). eapply list.Forall_impl; [exact Hname|]. by intros x (? & ? & ?). }
  induction fuel as [|fuel IH]; [done|]. cbn [authenticate_loop]. rewrite zdrop_0 at 1.
  destruct name as [|c name]; [done|]. cbn [app] in Hs |- *. rewrite Hs.
  apply list.Forall_cons in Hname as [(Hcn & _) _].
  rewrite bool_decide_false by done. cbn [mbind outcome_bind]. cbn [app] in Hc. rewrite Hc.
  rewrite Hlen, Z.eqb_refl. cbn [negb].
  destruct (strprefix user (c :: name ++ colon_char :: rest)) eqn:E; [|exact IH].
  exfalso. apply strprefix_spec in E as (t & E).
  apply (f_equal (ztake (zlen user))) in E. rewrite ztake_app_exact in E by done.
  rewrite Hlen in E. change (c :: name ++ colon_char :: rest) with ((c :: name) ++ colon_char :: rest) in E.
  rewrite ztake_app_exact in E by done. by subst.
Qed.

Lemma http_authenticate_other_user_loops_witness :
  http_authenticate 100 (bs "alice") (bs "pw") (bs "clara" ++ [colon_char] ++ bs "{PLAIN}x" ++ [x00])
  = NoFuel.
Proof.
  apply http_authenticate_other_user_loops; [reflexivity|discriminate|discriminate|..];
    repeat constructor; discriminate.
Defined.

(** The last entry of a well formed password file is never loaded, because
    the size of the block is the exact size of the entries and the test for the
    room left is strict: all the entries but the last are copied, each one
    ended by a NUL and not by a newline. *)
Theorem htpasswd_last_entry_dropped (es : list bytes) (e : bytes) :
  Forall is_entry (es ++ [e]) ->
  htpasswd_load (map (fun e => e ++ [newline]) (es ++ [e]))
  = Ret (concat (map block es) ++ zero_block (zlen e + 2)).
Proof. apply htpasswd_load_entries. Qed.

Lemma htpasswd_last_entry_dropped_witness :
  htpasswd_load [bs "ana:{PLAIN}pw" ++ [newline]; bs "eve:{PLAIN}qq" ++ [newline]]
  = Ret (bs "ana:{PLAIN}pw" ++ [x00] ++ zero_block 15).
Proof.
  apply (htpasswd_last_entry_dropped [bs "ana:{PLAIN}pw"] (bs "eve:{PLAIN}qq")).
  repeat constructor.
  - exists (bs "ana"), (bs "pw"). split; [reflexivity|]. split; repeat constructor; discriminate.
  - exists (bs "eve"), (bs "qq"). split; [reflexivity|]. split; repeat constructor; discriminate.
Defined.

(** With a password file of one user, every authentication, right or wrong,
    fails the assertion that the entry has a colon: the loaded block is empty. *)
Theorem http_authenticate_one_user_asserts (fuel : nat) (e user password : bytes) :
  is_entry e ->
  (db ← htpasswd_load [e ++ [newline]]; http_authenticate (S fuel) user password db)
  = Fault assert_failed.
Proof.
  intros He. pose proof (htpasswd_load_entries [] e) as H. cbn [app map concat] in H.
  rewrite H by (constructor; [done|constructor]). cbn [mbind outcome_bind].
  unfold http_authenticate. pose proof (zlen_nonneg e).
  replace (zlen e + 2) with (1 + (zlen e + 1)) by lia. by rewrite zero_block_app by lia.
Qed.

Lemma http_authenticate_one_user_asserts_witness :
  (db ← htpasswd_load [bs "ana:{PLAIN}pw" ++ [newline]];
   http_authenticate 1 (bs "ana") (bs "pw") db) = Fault assert_failed.
Proof.
  apply http_authenticate_one_user_asserts.
  exists (bs "ana"), (bs "pw"). split; [reflexivity|]. split; repeat constructor; discriminate.
Defined.
