(* ===== verification/Decoders.v ===== *)
(** * The decoders behind their interface

    decoder/decoder_api.h describes a decoder as a record of function pointers,
    some of which may be NULL.  The decoders of the program are records of that
    type: the dumb decoder (decoder/dumb/dumb.c), the zz_http2k decoder and the
    meraki decoder (decoder/meraki/meraki.c), which delegates to zz_http2k.
    listener/listener_api.c keeps a decoder and its per-listener data. *)

From S2P Require Import Prelude CString KafkaArray TopicDb Pair ZzJson ZzXml ZzSession.
From stdpp Require Import gmap.
#[local] Open Scope Z_scope.

(** jansson: the configuration of a listener. *)
Class Jansson := {
  json_t : Type;
  json_object_get : json_t -> bytes -> option json_t;
  json_string_value : json_t -> option bytes
}.

(** ** The interface *)

(** What a decode callback leaves: its code, what it stored through the response
    pointers ([None] if it did not touch them), the session and the world. *)
Record cb_result (S W : Type) := mkcb_result {
  cb_rc : decoder_callback_err;
  cb_response : option (option bytes);
  cb_session : option S;
  cb_world : W
}.
Arguments mkcb_result {S W} _ _ _ _.
Arguments cb_rc {S W} _.
Arguments cb_response {S W} _.
Arguments cb_session {S W} _.
Arguments cb_world {S W} _.

(** [S] is the session, [W] the state the decoder works on and [O] the
    per-listener data.  The boolean of the callback tells whether the response
    pointers of the call are valid; an opaque creator returns its code and what
    it left in the opaque pointer. *)
Record n2k_decoder {jansson : Jansson} (S W O : Type) := mkdecoder {
  dec_name : bytes;
  dec_callback : W -> option bytes -> keyval_list -> option O -> bool -> option S ->
                 outcome (cb_result S W);
  dec_opaque_creator : option (json_t -> option O -> outcome (Z * option O));
  dec_opaque_reload : option (json_t -> option O -> Z * option O);
  dec_opaque_destructor : option (option O -> option O);
  dec_new_session : option (W -> option O -> keyval_list -> outcome (option S * W));
  dec_delete_session : option (S -> W -> outcome W);
  dec_session_size : option Z
}.
Arguments mkdecoder {_} {S W O} _ _ _ _ _ _ _ _.
Arguments dec_name {_} {S W O} _.
Arguments dec_callback {_} {S W O} _.
Arguments dec_opaque_creator {_} {S W O} _.
Arguments dec_opaque_reload {_} {S W O} _.
Arguments dec_opaque_destructor {_} {S W O} _.
Arguments dec_new_session {_} {S W O} _.
Arguments dec_delete_session {_} {S W O} _.
Arguments dec_session_size {_} {S W O} _.

(** ** Listeners *)

Record listener {jansson : Jansson} (S W O : Type) := mklistener {
  l_decoder : n2k_decoder S W O;
  l_decoder_opaque : option O;
  l_port : Z
}.
Arguments mklistener {_} {S W O} _ _ _.
Arguments l_decoder {_} {S W O} _.
Arguments l_decoder_opaque {_} {S W O} _.
Arguments l_port {_} {S W O} _.

Section listener_api.
Context {jansson : Jansson} {S W O : Type}.

(** [opaque] is the field [decoder_opaque] before the call. *)
Definition listener_init (opaque : option O) (port : Z) (decoder : n2k_decoder S W O)
    (decoder_conf : json_t) : outcome (Z * listener S W O) :=
  match dec_opaque_creator decoder with
  | Some opaque_creator =>
      '(rc, opaque1) ← opaque_creator decoder_conf opaque;
      Ret (if negb (rc =? 0) then rc else 0, mklistener decoder opaque1 port)
  | None => Ret (0, mklistener decoder opaque port)
  end.

Definition listener_reload (l : listener S W O) (new_config : json_t) : Z * listener S W O :=
  match dec_opaque_reload (l_decoder l) with
  | Some opaque_reload =>
      let '(rc, opaque) := opaque_reload new_config (l_decoder_opaque l) in
      (rc, mklistener (l_decoder l) opaque (l_port l))
  | None => (0, l)
  end.

Definition listener_join (l : listener S W O) : listener S W O :=
  match dec_opaque_destructor (l_decoder l) with
  | Some opaque_destructor =>
      mklistener (l_decoder l) (opaque_destructor (l_decoder_opaque l)) (l_port l)
  | None => l
  end.

Definition listener_decode (l : listener S W O) (w : W) (buffer : option bytes)
    (props : keyval_list) (response_ptrs : bool) (session : option S)
    : outcome (cb_result S W) :=
  dec_callback (l_decoder l) w buffer props (l_decoder_opaque l) response_ptrs session.

End listener_api.

(** Store through the response pointers of a callback. *)
Definition set_response_ptrs {A} (response_ptrs : bool) (a : A) : outcome A :=
  if response_ptrs then Ret a else Fault bad_access.

(** ** The dumb decoder *)

(** One message of [rd_kafka_produce] with [RD_KAFKA_MSG_F_COPY]: the code is
    [ERR_NO_ERROR] when librdkafka has taken a copy of it, and the error text. *)
Class Producer {rk : Rdkafka} := {
  rd_kafka_produce : rkt -> bytes -> rd_kafka_resp_err;
  rd_kafka_err2str : rd_kafka_resp_err -> bytes;
  rd_kafka_topic_new_null : option rkt
}.

(** The messages handed to librdkafka with their topics, and the number of topic
    handles that are alive. *)
Record dumb_world := mkdw { dw_produced : list (bytes * bytes); dw_rkts : Z }.

Section dumb.
Context {rk : Rdkafka} {producer : Producer} {jansson : Jansson}.
Context (default_topic_name : option bytes).

Definition new_rkt_global_config (topic_name : option bytes) : option rkt :=
  match topic_name with
  | Some name => rd_kafka_topic_new name
  | None => rd_kafka_topic_new_null
  end.

Definition null_rkt_err : bytes := bs "No topic specified in config file".

(** The final [switch]. *)
Definition dumb_code (kafka_error_code : rd_kafka_resp_err) : decoder_callback_err :=
  match kafka_error_code with
  | ERR_NO_ERROR => DECODER_CALLBACK_OK
  | ERR__QUEUE_FULL => DECODER_CALLBACK_BUFFER_FULL
  | ERR_MSG_SIZE_TOO_LARGE => DECODER_CALLBACK_UNKNOWN_TOPIC
  | ERR__UNKNOWN_PARTITION => DECODER_CALLBACK_UNKNOWN_PARTITION
  | ERR__UNKNOWN_TOPIC => DECODER_CALLBACK_MSG_TOO_LARGE
  | ERR_OTHER _ => DECODER_CALLBACK_GENERIC_ERROR
  end.

Definition dumb_decode {O} (w : dumb_world) (buffer : option bytes) (keyval : keyval_list)
    (listener_callback_opaque : option O) (response_ptrs : bool) (sessionp : option unit)
    : outcome (cb_result unit dumb_world) :=
  match new_rkt_global_config default_topic_name with
  | None =>
      set_response_ptrs response_ptrs
        (mkcb_result DECODER_CALLBACK_UNKNOWN_TOPIC (Some (Some null_rkt_err)) sessionp w)
  | Some r =>
      let payload := default [] buffer in
      let w1 := mkdw (dw_produced w) (dw_rkts w + 1) in
      let kafka_error_code := rd_kafka_produce r payload in
      if bool_decide (kafka_error_code = ERR_NO_ERROR) then
        Ret (mkcb_result (dumb_code ERR_NO_ERROR) None sessionp
               (mkdw (dw_produced w1 ++ [(rd_kafka_topic_name r, payload)]) (dw_rkts w1 - 1)))
      else
        set_response_ptrs response_ptrs
          (mkcb_result (dumb_code kafka_error_code)
             (Some (Some (rd_kafka_err2str kafka_error_code))) sessionp
             (mkdw (dw_produced w1) (dw_rkts w1 - 1)))
  end.

Definition dumb_decoder_name : bytes := [].

Definition dumb_decoder {O} : n2k_decoder unit dumb_world O :=
  mkdecoder dumb_decoder_name dumb_decode None None None None None None.

End dumb.

(** ** The zz_http2k decoder *)

(** The global database, the topic handlers, the messages handed to librdkafka, in
    order and with the names of the topics they were produced for, the batches it took
    messages of, with the messages it has not reported, how many objects sessions still
    owned when their memory was released, and what the environment answers to the
    successive calls. *)
Record zz_world {rk : Rdkafka} := mkzw {
  zw_db : option topics_db;
  zw_topics : world;
  zw_handed : list (bytes * bytes);
  zw_flights : list flight;
  zw_leaked : Z;
  zw_new_env : nat -> new_env;
  zw_decode_env : nat -> decode_env;
  zw_tick : nat
}.
Arguments mkzw {rk} _ _ _ _ _ _ _ _.

Section zz.
Context {alloc : Allocator} {abi : Abi} {yajl : Yajl} {gen : YajlGen} {strings : ExpatStrings}
  {expat : Expat} {rk : Rdkafka} {producer : BatchProducer} {jansson : Jansson}.
Context (string_addr : cstring -> Z) (sizeof_session : Z).

Definition vnew_zz_session {O} (w : zz_world) (listener_opaque : option O)
    (msg_vars : keyval_list) : outcome (option zz_session * zz_world) :=
  '(s, db, topics) ← new_zz_session (zw_new_env w (zw_tick w)) (zw_db w) (zw_topics w) msg_vars;
  Ret (s, mkzw db topics (zw_handed w) (zw_flights w) (zw_leaked w) (zw_new_env w) (zw_decode_env w)
            (S (zw_tick w))).

Definition vfree_zz_session (s : zz_session) (w : zz_world) : outcome zz_world :=
  '(o, topics) ← free_zz_session s (zw_topics w);
  Ret (mkzw (zw_db w) topics (zw_handed w) (zw_flights w) (zw_leaked w + owned_objects o) (zw_new_env w)
         (zw_decode_env w) (zw_tick w)).

(** The world after a decode call that handed [out] over in a batch that is still
    allocated, if one is. *)
Definition hand (out : list (rkt * bytes)) (batch : option karray) (w : zz_world) : zz_world :=
  mkzw (zw_db w) (zw_topics w)
    (zw_handed w ++ map (fun m => (rd_kafka_topic_name m.1, m.2)) out)
    (zw_flights w ++ new_flight batch) (zw_leaked w) (zw_new_env w) (zw_decode_env w) (S (zw_tick w)).

(** librdkafka reports a message of the batch number [b]: the [j]-th of those it has
    not reported, if there is one. *)
Definition report (b j : nat) (w : zz_world) : outcome zz_world :=
  match zw_flights w !! b with
  | None => Ret w
  | Some f =>
      f1 ← flight_report j f;
      Ret (mkzw (zw_db w) (zw_topics w) (zw_handed w) (<[b := f1]> (zw_flights w)) (zw_leaked w)
             (zw_new_env w) (zw_decode_env w) (zw_tick w))
  end.

(** [zz_decode] behind the interface.  A method other than POST returns before
    the session is looked at; a NULL session is read by [zz_session_cast]. *)
Definition zz_callback {O} (w : zz_world) (buffer : option bytes) (props : keyval_list)
    (listener_callback_opaque : option O) (response_ptrs : bool) (session : option zz_session)
    : outcome (cb_result zz_session zz_world) :=
  match session with
  | None =>
      if match valueof props (bs "D-HTTP-method") strcmp0 with
         | Some m => negb (strcmp0 (bs "POST") m) | None => false end
      then Ret (mkcb_result DECODER_CALLBACK_HTTP_METHOD_NOT_ALLOWED None None w)
      else match buffer with None => Fault assert_failed | Some _ => Fault bad_access end
  | Some s =>
      r ← zz_decode string_addr (zw_decode_env w (zw_tick w)) (zw_topics w) buffer props s;
      let w1 := hand (drop (length (ss_handed s)) (ss_handed (zd_session r))) (zd_batch r) w in
      match zd_response r with
      | None => Ret (mkcb_result (zd_rc r) None (Some (zd_session r)) w1)
      | Some text => set_response_ptrs response_ptrs
                       (mkcb_result (zd_rc r) (Some (Some text)) (Some (zd_session r)) w1)
      end
  end.

Definition zz_decoder {O} : n2k_decoder zz_session zz_world O :=
  mkdecoder zz_name zz_callback None None None (Some vnew_zz_session) (Some vfree_zz_session)
    (Some (zz_session_size sizeof_session)).

(** ** The meraki decoder *)

Definition CONFIG_MERAKI_DECODER_NAME : bytes := bs "meraki".
Definition CONFIG_MERAKI_TOPIC_KEY : bytes := bs "topic".

(** The bytes of a buffer before its first NUL. *)
Fixpoint c_string (b : bytes) : bytes :=
  match b with
  | [] => []
  | c :: b => if bool_decide (c = x00) then [] else c :: c_string b
  end.

(** [struct meraki_listener_opaque]: its [listener_topic]; [calloc_ok] tells
    whether the block could be allocated. *)
Definition meraki_opaque_creator (calloc_ok : bool) (config : json_t) (opaque : option bytes)
    : outcome (Z * option bytes) :=
  match json_object_get config CONFIG_MERAKI_TOPIC_KEY with
  | None => Ret (0, opaque)
  | Some jlistener_topic_name =>
      let listener_topic_name := default [] (json_string_value jlistener_topic_name) in
      if calloc_ok then Ret (0, Some listener_topic_name) else Ret (-1, None)
  end.

Definition meraki_opaque_destructor (vopaque : option bytes) : option bytes := None.

Definition meraki_topic_prefix : bytes := bs "/v1/data/".

Definition new_meraki_session (default_topic_name : option bytes) (w : zz_world)
    (listener_opaque : option bytes) (msg_vars : keyval_list)
    : outcome (option zz_session * zz_world) :=
  let meraki_topic :=
    match listener_opaque with
    | Some listener_topic => c_string listener_topic
    | None => match default_topic_name with Some t => t | None => [] end
    end in
  let meraki_uri := meraki_topic_prefix ++ meraki_topic in
  let zz_keyvals0 :=
    [mkpair (bs "D-HTTP-URI") (Some meraki_uri);
     mkpair (bs "D-Client-IP") (valueof msg_vars (bs "D-Client-IP") strcmp0)] in
  let zz_keyvals := fold_left add_key_value_pair zz_keyvals0 [] in
  vnew_zz_session (O := bytes) w None zz_keyvals.

Definition vnew_meraki_session (default_topic_name : option bytes) (w : zz_world)
    (vlistener_opaque : option bytes) (msg_vars : keyval_list) :=
  new_meraki_session default_topic_name w vlistener_opaque msg_vars.

Definition meraki_prefix : bytes := bs "/v1/meraki".

(** The response starts [sizeof(meraki_prefix)] bytes after the start of the URL,
    which is after its final NUL when the URL is the prefix alone. *)
Definition url_validator (url : bytes) : outcome (option bytes) :=
  if negb (strprefix meraki_prefix url) then Ret None
  else
    let offset := zlen meraki_prefix + 1 in
    if offset <=? zlen url then Ret (Some (zdrop offset url)) else Fault bad_access.

Definition meraki_decode (w : zz_world) (buffer : option bytes) (attrs : keyval_list)
    (listener_callback_opaque : option bytes) (response_ptrs : bool) (sessionp : option zz_session)
    : outcome (cb_result zz_session zz_world) :=
  match valueof attrs (bs "D-HTTP-method") strcmp0 with
  | None => Fault bad_access
  | Some http_method =>
      if strcmp0 http_method (bs "GET") then
        match valueof attrs (bs "D-HTTP-URI") strcmp0 with
        | None => Fault bad_access
        | Some uri =>
            response ← url_validator uri;
            match response with
            | None => set_response_ptrs response_ptrs
                        (mkcb_result DECODER_CALLBACK_RESOURCE_NOT_FOUND (Some None) sessionp w)
            | Some r => set_response_ptrs response_ptrs
                          (mkcb_result DECODER_CALLBACK_OK (Some (Some r)) sessionp w)
            end
        end
      else zz_callback w buffer attrs listener_callback_opaque response_ptrs sessionp
  end.

Definition meraki_decoder_name : bytes := CONFIG_MERAKI_DECODER_NAME.

Definition meraki_session_size : option Z := dec_session_size (zz_decoder (O := bytes)).

Definition free_meraki_session (s : zz_session) (w : zz_world) : outcome zz_world :=
  vfree_zz_session s w.

Definition meraki_decoder (calloc_ok : bool) (default_topic_name : option bytes)
    : n2k_decoder zz_session zz_world bytes :=
  mkdecoder meraki_decoder_name meraki_decode (Some (meraki_opaque_creator calloc_ok)) None
    (Some meraki_opaque_destructor) (Some (vnew_meraki_session default_topic_name))
    (Some free_meraki_session) meraki_session_size.

End zz.

(** ** Lemmas *)

Lemma c_string_no_nul b : Forall (fun c => c <> x00) b -> c_string b = b.
Proof.
  induction 1 as [|c b Hc _ IH]; cbn; [done|]. rewrite bool_decide_false by done. by rewrite IH.
Qed.

(** A topic is the prefix of an URL part in only one way. *)
Lemma topic_unique (specials a rest b : bytes) :
  Forall (fun c => c ∉ specials) a -> Forall (fun c => c ∉ specials) b ->
  match rest with [] => True | c :: _ => c ∈ specials end ->
  b = a ++ rest -> a = b.
Proof.
  intros Ha Hb Hrest ->. destruct rest as [|c rest]; [by rewrite app_nil_r|].
  apply list.Forall_app in Hb as [_ Hb]. by apply list.Forall_cons in Hb as [Hc _].
Qed.

(** ** Properties *)

(** C34: every session of a meraki listener that has a topic sends to exactly that
    topic and decodes JSON, whatever the request says: its URL, its
    [X-Consumer-ID] and its content type are not looked at; and a request that
    gets no session takes no reference to a topic. *)
Theorem meraki_session_topic {alloc : Allocator} {abi : Abi} {yajl : Yajl} {gen : YajlGen}
    {strings : ExpatStrings} {expat : Expat} {rk : Rdkafka} {producer : BatchProducer}
    {jansson : Jansson} (config jtopic : json_t) (topic : bytes) (default_topic : option bytes)
    (w : zz_world) (db : topics_db) (msg_vars : keyval_list) (ext : list loc) (m : gmap bytes Z) :
  json_object_get config CONFIG_MERAKI_TOPIC_KEY = Some jtopic ->
  json_string_value jtopic = Some topic -> topic <> [] ->
  Forall (fun c => c <> x00 /\ c ∉ url_specials) topic ->
  zw_db w = Some db -> ne_gen_ok (zw_new_env w (zw_tick w)) = true ->
  db_ok db (zw_topics w) ext -> db_abs (zw_topics w) (db_table db) m ->
  zlen (db_table db ++ ext) < 2 ^ 63 - 2 ->
  exists opaque r w' db', meraki_opaque_creator true config None = Ret (0, opaque) /\
    vnew_meraki_session default_topic w opaque msg_vars = Ret (r, w') /\ zw_db w' = Some db' /\
    match r with
    | Some s => tname (zw_topics w') (ss_topic_handler s) = Some topic /\
        (exists j, ss_union s = UJson j) /\
        db_ok db' (zw_topics w') (ss_topic_handler s :: ext)
    | None => db_ok db' (zw_topics w') ext
    end.
Proof.
  intros Hget Hval Hne Htopic Hdb Hgen Hok Habs Hb.
  assert (Hnul : Forall (fun c => c <> x00) topic)
    by (eapply list.Forall_impl; [exact Htopic|]; by intros c []).
  assert (Hsp : Forall (fun c => c ∉ url_specials) topic)
    by (eapply list.Forall_impl; [exact Htopic|]; by intros c []).
  exists (Some topic).
  unfold meraki_opaque_creator. rewrite Hget, Hval.
  unfold vnew_meraki_session, new_meraki_session, vnew_zz_session. rewrite c_string_no_nul by done.
  cbn [fold_left add_key_value_pair app]. rewrite Hdb.
  set (kv := [mkpair (bs "D-HTTP-URI") _; mkpair (bs "D-Client-IP") _]).
  destruct (new_zz_session_spec (zw_new_env w (zw_tick w)) db (zw_topics w) kv
    (meraki_topic_prefix ++ topic) ext m) as (r & db' & w' & Hnew & Hr); try done.
  rewrite Hnew. cbn [mbind outcome_bind].
  eexists r, _, db'. split; [done|]. split; [reflexivity|]. split; [done|]. cbn [zw_topics].
  destruct r as [s|]; [|by destruct Hr].
  destruct Hr as (topic' & rest & Eurl & _ & Hf & Hrest & Hname & Hxml & Hok' & _).
  apply (inj (app valid_prefix_str)) in Eurl.
  rewrite <- (topic_unique url_specials topic' rest topic) by done.
  split; [exact Hname|]. split; [|exact Hok'].
  destruct (ss_union s) as [j|p x]; [by exists j|]. discriminate Hxml.
Qed.

(** A configuration that holds its values by key. *)
#[local] Instance flat_jansson : Jansson := {|
  json_t := list (bytes * bytes);
  json_object_get o k := match list_find (fun kv => kv.1 = k) o with
                         | Some (_, kv) => Some [kv] | None => None end;
  json_string_value o := match o with [(_, v)] => Some v | _ => None end
|}.

#[local] Existing Instance brace_yajl.
#[local] Existing Instance readme_expat.
#[local] Instance topics_by_name : Rdkafka := {|
  rkt := bytes; rd_kafka_topic_new name := Some name; rd_kafka_topic_name r := r;
  topic_name_new name r H := eq_sym (f_equal (fun o => default [] o) H)
|}.
#[local] Instance all_accepted : BatchProducer := deciding_producer (fun _ => ERR_NO_ERROR).

Definition meraki_start : zz_world :=
  mkzw (Some topics_db_new) (mkworld ∅ O 0) [] [] 0 (fun _ => mkenv 5 true true)
    (fun _ => mkdenv (Some 4096) true (fun _ => 0)) O.

Lemma meraki_session_topic_witness :
  exists opaque r w' db', meraki_opaque_creator true [(bs "topic", bs "locations")] None = Ret (0, opaque) /\
    vnew_meraki_session None meraki_start opaque data_vars = Ret (r, w') /\ zw_db w' = Some db' /\
    match r with
    | Some s => tname (zw_topics w') (ss_topic_handler s) = Some (bs "locations") /\
        (exists j, ss_union s = UJson j) /\
        db_ok db' (zw_topics w') [ss_topic_handler s]
    | None => db_ok db' (zw_topics w') []
    end.
Proof.
  destruct system_init_inv as [[Hok _] Ha].
  apply (meraki_session_topic (jansson := flat_jansson) [(bs "topic", bs "locations")] [(bs "topic", bs "locations")]
    (bs "locations") None meraki_start topics_db_new data_vars [] ∅).
  - reflexivity.
  - reflexivity.
  - discriminate.
  - apply (bool_decide_unpack (Forall (fun c => c <> x00 /\ c ∉ url_specials) (bs "locations"))).
    vm_compute. exact I.
  - reflexivity.
  - reflexivity.
  - exact Hok.
  - exact Ha.
  - vm_compute. reflexivity.
Defined.

(** The validation of a meraki URL with GET answers 404 to any URL that does
    not start with [/v1/meraki], answers what follows the next character to the
    others, and reads after the end of the URL when it is [/v1/meraki] alone. *)
Theorem meraki_get_validation {alloc : Allocator} {abi : Abi} {yajl : Yajl} {gen : YajlGen}
    {strings : ExpatStrings} {expat : Expat} {rk : Rdkafka} {producer : BatchProducer}
    (string_addr : cstring -> Z) (w : zz_world) (buffer : option bytes) (attrs : keyval_list)
    (opaque : option bytes) (session : option zz_session) (uri : bytes) :
  valueof attrs (bs "D-HTTP-method") strcmp0 = Some (bs "GET") ->
  valueof attrs (bs "D-HTTP-URI") strcmp0 = Some uri ->
  ((forall rest, uri <> meraki_prefix ++ rest) ->
   meraki_decode string_addr w buffer attrs opaque true session
   = Ret (mkcb_result DECODER_CALLBACK_RESOURCE_NOT_FOUND (Some None) session w)) /\
  (forall c validator, uri = meraki_prefix ++ c :: validator ->
   meraki_decode string_addr w buffer attrs opaque true session
   = Ret (mkcb_result DECODER_CALLBACK_OK (Some (Some validator)) session w)) /\
  (uri = meraki_prefix ->
   meraki_decode string_addr w buffer attrs opaque true session = Fault bad_access).
Proof.
  intros Hm Hu. unfold meraki_decode. rewrite Hm, Hu.
  change (strcmp0 (bs "GET") (bs "GET")) with true. unfold url_validator. split_and!.
  - intros Hno. destruct (strprefix meraki_prefix uri) eqn:E; [|done].
    apply strprefix_spec in E as (rest & ->). by destruct (Hno rest).
  - intros c validator ->.
    rewrite (proj2 (strprefix_spec meraki_prefix (meraki_prefix ++ c :: validator))) by (by eexists).
    cbn [negb]. rewrite zlen_app, zlen_cons. ztest.
    change (meraki_prefix ++ c :: validator) with (meraki_prefix ++ [c] ++ validator).
    rewrite app_assoc. rewrite zdrop_app_exact by (by rewrite zlen_app). done.
  - by intros ->.
Qed.

Definition get_vars (uri : bytes) : keyval_list :=
  [mkpair (bs "D-HTTP-method") (Some (bs "GET")); mkpair (bs "D-HTTP-URI") (Some uri)].

Lemma meraki_get_validation_witness :
  meraki_decode (fun _ => 64) meraki_start None (get_vars (bs "/v1/meraki/abc")) None true None
  = Ret (mkcb_result DECODER_CALLBACK_OK (Some (Some (bs "abc"))) None meraki_start).
Proof.
  apply (meraki_get_validation (fun _ => 64) meraki_start None (get_vars (bs "/v1/meraki/abc")) None
    None (bs "/v1/meraki/abc")) with (c := x2f); vm_compute; reflexivity.
Defined.

(** C36: the dumb decoder hands the body unchanged to the default topic, once, and
    answers OK; when librdkafka refuses it, or there is no topic, nothing is
    handed over and the answer is the error text.  Every topic handle it makes
    is destroyed.  The codes of two errors are exchanged: a message that is too
    large is reported as an unknown topic and the other way round. *)
Theorem dumb_decode_correct {rk : Rdkafka} {producer : Producer} (O : Type)
    (default_topic : option bytes) (w : dumb_world) (body : bytes) (props : keyval_list)
    (opaque : option O) (session : option unit) :
  exists rc response w', dumb_decode default_topic w (Some body) props opaque true session
      = Ret (mkcb_result rc response session w') /\ dw_rkts w' = dw_rkts w /\
    match new_rkt_global_config default_topic with
    | None => rc = DECODER_CALLBACK_UNKNOWN_TOPIC /\ response = Some (Some null_rkt_err) /\ w' = w
    | Some r =>
        match rd_kafka_produce r body with
        | ERR_NO_ERROR => rc = DECODER_CALLBACK_OK /\ response = None /\
            dw_produced w' = dw_produced w ++ [(rd_kafka_topic_name r, body)]
        | err => response = Some (Some (rd_kafka_err2str err)) /\ dw_produced w' = dw_produced w /\
            (rc <> DECODER_CALLBACK_OK) /\
            (err = ERR_MSG_SIZE_TOO_LARGE -> rc = DECODER_CALLBACK_UNKNOWN_TOPIC) /\
            (err = ERR__UNKNOWN_TOPIC -> rc = DECODER_CALLBACK_MSG_TOO_LARGE)
        end
    end.
Proof.
  unfold dumb_decode. destruct (new_rkt_global_config default_topic) as [r|].
  2:{ by eexists _, _, _. }
  cbn [default from_option id]. destruct (rd_kafka_produce r body) eqn:E.
  all: first [rewrite bool_decide_true by done | rewrite bool_decide_false by done].
  all: eexists _, _, _; split; [reflexivity|]; cbn [dw_rkts dw_produced]; split; [lia|].
  all: by split_and!.
Qed.
