(* ===== verification/Http.v ===== *)
(** * The HTTP listener

    listener/http/http.c, listener/http/responses.c and listener/http/tls.c: what
    the listener does when libmicrohttpd calls it for a request.  A POST is
    called once with no data, once per chunk of the body and once more at its
    end; a GET is called twice.  The opaque pointer libmicrohttpd keeps for the
    request is part of the state, and so are the answers queued, the number of
    connection blocks and of inflate states that are allocated, and the world
    the decoder works on. *)

From S2P Require Import Prelude CString Pair Addr Decoders HttpAuth.

(** ** Libraries *)

(** zlib: [inflate] reads from the input, writes at most as many bytes as there
    is room for and keeps the rest of the input. *)
Inductive z_status :=
| Z_OK
| Z_STREAM_END
| Z_NEED_DICT
| Z_STREAM_ERROR
| Z_DATA_ERROR
| Z_MEM_ERROR
| Z_BUF_ERROR
| Z_VERSION_ERROR.

#[export] Instance z_status_eq_dec : EqDecision z_status.
Proof. solve_decision. Defined.

Class Zlib := {
  z_stream : Type;
  inflateInit2 : z_status * z_stream;
  inflate : z_stream -> bytes -> Z -> z_status * bytes * bytes * z_stream;
  inflate_room : forall s input room, 0 <= room -> zlen (inflate s input room).1.1.2 <= room
}.

(** gnutls: the flag of each certificate error. *)
Inductive cert_error :=
| GNUTLS_CERT_REVOKED
| GNUTLS_CERT_SIGNER_NOT_FOUND
| GNUTLS_CERT_SIGNER_NOT_CA
| GNUTLS_CERT_INSECURE_ALGORITHM
| GNUTLS_CERT_NOT_ACTIVATED
| GNUTLS_CERT_EXPIRED
| GNUTLS_CERT_SIGNATURE_FAILURE
| GNUTLS_CERT_REVOCATION_DATA_SUPERSEDED
| GNUTLS_CERT_UNEXPECTED_OWNER
| GNUTLS_CERT_REVOCATION_DATA_ISSUED_IN_FUTURE
| GNUTLS_CERT_SIGNER_CONSTRAINTS_FAILURE
| GNUTLS_CERT_MISMATCH
| GNUTLS_CERT_PURPOSE_MISMATCH
| GNUTLS_CERT_MISSING_OCSP_STATUS
| GNUTLS_CERT_INVALID_OCSP_STATUS
| GNUTLS_CERT_UNKNOWN_CRIT_EXTENSIONS.

Class Gnutls := { cert_flag : cert_error -> Z }.

(** libmicrohttpd: a response, and what the listener asks of a connection: the
    address of the client if it can be obtained, the result of the verification
    of its certificate ([None] if it failed, otherwise the status flags), the
    headers in order, the user and password of a basic authentication, and
    whether allocations made for it succeed. *)
Record MHD_Response := mkresponse {
  rs_code : Z;
  rs_headers : list (bytes * bytes);
  rs_body : bytes
}.

Record MHD_Connection := mkconn {
  mc_client_addr : option sockaddr;
  mc_verify_peers : option Z;
  mc_headers : list (bytes * option bytes);
  mc_basic_auth : option (bytes * bytes);
  mc_alloc_ok : bool;
  mc_create_ok : bool;
  mc_queue_ok : bool
}.

Inductive MHD_Result := MHD_NO | MHD_YES.

Definition MHD_HTTP_OK : Z := 200.
Definition MHD_HTTP_BAD_REQUEST : Z := 400.
Definition MHD_HTTP_UNAUTHORIZED : Z := 401.
Definition MHD_HTTP_FORBIDDEN : Z := 403.
Definition MHD_HTTP_NOT_FOUND : Z := 404.
Definition MHD_HTTP_METHOD_NOT_ALLOWED : Z := 405.
Definition MHD_HTTP_PAYLOAD_TOO_LARGE : Z := 413.
Definition MHD_HTTP_INTERNAL_SERVER_ERROR : Z := 500.
Definition MHD_HTTP_SERVICE_UNAVAILABLE : Z := 503.

(** ** responses.c *)

(** The answers that are shared by all the listeners: their headers. *)
Record static_responses := mkstatic {
  empty_response : list (bytes * bytes);
  method_not_allowed_allow_get_post : list (bytes * bytes);
  method_not_allowed_allow_post : list (bytes * bytes);
  unauthorized : list (bytes * bytes)
}.

Record http_responses := mkhttp_responses {
  hr_static : option static_responses;
  hr_listeners_counter : Z
}.

Definition http_responses_init : http_responses := mkhttp_responses None 0.

Definition responses_listener_counter_incref (r : http_responses) : Z * http_responses :=
  (0, mkhttp_responses
        (if hr_listeners_counter r =? 0
         then Some (mkstatic [] [(bs "Allow", bs "GET, POST")] [(bs "Allow", bs "POST")]
                      [(bs "WWW-Authenticate", bs "Basic")])
         else hr_static r)
        (hr_listeners_counter r + 1)).

Definition responses_listener_counter_decref (r : http_responses) : http_responses :=
  let listeners_counter := hr_listeners_counter r - 1 in
  mkhttp_responses (if listeners_counter =? 0 then None else hr_static r) listeners_counter.

(** ** tls.c *)

Definition gnutls_client_cert_status_errstrs : list (bytes * cert_error) := [
  (bs "Certificate is revoked by its authority", GNUTLS_CERT_REVOKED);
  (bs "The certificate's issuer (signer) is not known", GNUTLS_CERT_SIGNER_NOT_FOUND);
  (bs "The certificate's signer was not a CA", GNUTLS_CERT_SIGNER_NOT_CA);
  (bs "The certificate was signed using an insecure algorithm", GNUTLS_CERT_INSECURE_ALGORITHM);
  (bs "The certificate is not yet activated", GNUTLS_CERT_NOT_ACTIVATED);
  (bs "The certificate has expired", GNUTLS_CERT_EXPIRED);
  (bs "The signature verification failed", GNUTLS_CERT_SIGNATURE_FAILURE);
  (bs "The revocation data are old and have been superseded",
   GNUTLS_CERT_REVOCATION_DATA_SUPERSEDED);
  (bs "The owner is not the expected one", GNUTLS_CERT_UNEXPECTED_OWNER);
  (bs "The revocation data have a future issue date",
   GNUTLS_CERT_REVOCATION_DATA_ISSUED_IN_FUTURE);
  (bs "The certificate's signer constraints were violated",
   GNUTLS_CERT_SIGNER_CONSTRAINTS_FAILURE);
  (bs "The certificate presented isn't the expected one (TOFU)", GNUTLS_CERT_MISMATCH);
  (bs "The certificate or an intermediate does not match the intended purpose (extended key usage)",
   GNUTLS_CERT_PURPOSE_MISMATCH);
  (bs "The certificate requires the server to send the certificate status, but no status was received",
   GNUTLS_CERT_MISSING_OCSP_STATUS);
  (bs "The received OCSP status response is invalid", GNUTLS_CERT_INVALID_OCSP_STATUS);
  (bs "The certificate has extensions marked as critical which are not supported",
   GNUTLS_CERT_UNKNOWN_CRIT_EXTENSIONS)].

Fixpoint find_errstr {gnutls : Gnutls} (l : list (bytes * cert_error)) (client_cert_status : Z)
    : option bytes :=
  match l with
  | [] => None
  | (errstr, e) :: l =>
      if Z.land (cert_flag e) client_cert_status =? 0 then find_errstr l client_cert_status
      else Some errstr
  end.

(** [None] when the certificate is valid, the error text otherwise. *)
Definition tls_valid_client_certificate {gnutls : Gnutls} (verify_peers : option Z) : option bytes :=
  match verify_peers with
  | None => Some (bs "Unknown error checking certificate, do you have one?")
  | Some client_cert_status =>
      if client_cert_status =? 0 then None
      else Some (default (bs "Unknown TLS error")
                   (find_errstr gnutls_client_cert_status_errstrs client_cert_status))
  end.

(** ** Connections *)

Definition ZLIB_CHUNK : Z := 512 * 1024.

Record http_error := mkhttp_error {
  he_code : Z;
  he_str : option bytes;
  he_str_size : Z
}.

Record conn_info {zlib : Zlib} (S : Type) := mkinfo {
  ci_str : cstring;
  ci_decoder_params : keyval_list;
  ci_zlib : option z_stream;
  ci_decoder_sess : option S;
  ci_http_error : http_error;
  ci_decoder_opts : list pair
}.
Arguments mkinfo {zlib S} _ _ _ _ _ _.
Arguments ci_str {zlib S} _.
Arguments ci_decoder_params {zlib S} _.
Arguments ci_zlib {zlib S} _.
Arguments ci_decoder_sess {zlib S} _.
Arguments ci_http_error {zlib S} _.
Arguments ci_decoder_opts {zlib S} _.

(** The opaque pointer of a request: NULL, the mark 1 of a GET, or a
    connection block. *)
Inductive con_ptr {zlib : Zlib} (S : Type) :=
| PNull
| POne
| PInfo (c : conn_info S).
Arguments PNull {zlib S}.
Arguments POne {zlib S}.
Arguments PInfo {zlib S} _.

Record http_state {zlib : Zlib} (S W : Type) := mkhs {
  hs_world : W;
  hs_ptr : con_ptr S;
  hs_sent : list MHD_Response;
  hs_infos : Z;
  hs_zlibs : Z
}.
Arguments mkhs {zlib S W} _ _ _ _ _.
Arguments hs_world {zlib S W} _.
Arguments hs_ptr {zlib S W} _.
Arguments hs_sent {zlib S W} _.
Arguments hs_infos {zlib S W} _.
Arguments hs_zlibs {zlib S W} _.

(** [struct http_listener]. *)
Record http_listener {jansson : Jansson} (S W O : Type) := mkhl {
  hl_listener : listener S W O;
  hl_htpasswd : option bytes;
  hl_client_tls_cert : bool
}.
Arguments mkhl {jansson S W O} _ _ _.
Arguments hl_listener {jansson S W O} _.
Arguments hl_htpasswd {jansson S W O} _.
Arguments hl_client_tls_cert {jansson S W O} _.

Section handlers.
Context {jansson : Jansson} {alloc : Allocator} {zlib : Zlib} {gnutls : Gnutls} {S W O : Type}.
Context (static : static_responses) (fuel : nat).
Implicit Types (st : http_state S W) (l : http_listener S W O).

Definition set_ptr st (p : con_ptr S) : http_state S W :=
  mkhs (hs_world st) p (hs_sent st) (hs_infos st) (hs_zlibs st).

Definition set_world st (w : W) : http_state S W :=
  mkhs w (hs_ptr st) (hs_sent st) (hs_infos st) (hs_zlibs st).

(** [MHD_queue_response]. *)
Definition queue_response (con : MHD_Connection) (r : MHD_Response) st : MHD_Result * http_state S W :=
  if mc_queue_ok con
  then (MHD_YES, mkhs (hs_world st) (hs_ptr st) (hs_sent st ++ [r]) (hs_infos st) (hs_zlibs st))
  else (MHD_NO, st).

Definition send_buffered_response (con : MHD_Connection) (buf : bytes) (response_code : Z) st
    : MHD_Result * http_state S W :=
  if mc_create_ok con then queue_response con (mkresponse response_code [] buf) st
  else (MHD_NO, st).

Definition send_http_ok (con : MHD_Connection) st : MHD_Result * http_state S W :=
  queue_response con (mkresponse MHD_HTTP_OK (empty_response static) []) st.

Definition send_http_method_not_allowed (con : MHD_Connection) (response : list (bytes * bytes)) st
    : MHD_Result * http_state S W :=
  queue_response con (mkresponse MHD_HTTP_METHOD_NOT_ALLOWED response []) st.

Definition send_http_method_not_allowed_allow_get_post (con : MHD_Connection) st :=
  send_http_method_not_allowed con (method_not_allowed_allow_get_post static) st.

Definition send_http_method_not_allowed_allow_post (con : MHD_Connection) st :=
  send_http_method_not_allowed con (method_not_allowed_allow_post static) st.

Definition send_http_unauthorized_basic (con : MHD_Connection) st : MHD_Result * http_state S W :=
  queue_response con (mkresponse MHD_HTTP_UNAUTHORIZED (unauthorized static) []) st.

Definition conn_info_queue_response (c : conn_info S) (http_error_code : Z)
    (http_error_response : option bytes) (http_error_response_size : Z) : conn_info S :=
  mkinfo (ci_str c) (ci_decoder_params c) (ci_zlib c) (ci_decoder_sess c)
    (mkhttp_error http_error_code http_error_response http_error_response_size)
    (ci_decoder_opts c).

Definition conn_info_has_queue_response (c : conn_info S) : bool :=
  negb (he_code (ci_http_error c) =? 0).

Definition set_str (c : conn_info S) (s : cstring) : conn_info S :=
  mkinfo s (ci_decoder_params c) (ci_zlib c) (ci_decoder_sess c) (ci_http_error c)
    (ci_decoder_opts c).

Definition set_zlib (c : conn_info S) (z : option z_stream) : conn_info S :=
  mkinfo (ci_str c) (ci_decoder_params c) z (ci_decoder_sess c) (ci_http_error c)
    (ci_decoder_opts c).

Definition set_sess (c : conn_info S) (s : option S) : conn_info S :=
  mkinfo (ci_str c) (ci_decoder_params c) (ci_zlib c) s (ci_http_error c) (ci_decoder_opts c).

Definition set_opts (c : conn_info S) (opts : list pair) : conn_info S :=
  mkinfo (ci_str c) (ci_decoder_params c) (ci_zlib c) (ci_decoder_sess c) (ci_http_error c) opts.

Definition set_params (c : conn_info S) (params : keyval_list) : conn_info S :=
  mkinfo (ci_str c) params (ci_zlib c) (ci_decoder_sess c) (ci_http_error c) (ci_decoder_opts c).

(** The block and its string are released. *)
Definition free_con_info st : http_state S W :=
  mkhs (hs_world st) (hs_ptr st) (hs_sent st) (hs_infos st - 1) (hs_zlibs st).

(** An inflate state was only allocated if its initialisation succeeded. *)
Definition inflateEnd (zlibs : Z) : Z :=
  if bool_decide (inflateInit2.1 = Z_OK) then zlibs - 1 else zlibs.

(** When a request ends, also when the client goes away in the middle of it. *)
Definition request_completed l st : outcome (http_state S W) :=
  match hs_ptr st with
  | PNull => Ret st
  | POne => Fault bad_access
  | PInfo con_info =>
      let decoder := l_decoder (hl_listener l) in
      w ← match dec_delete_session decoder with
          | Some delete_session =>
              match ci_decoder_sess con_info with
              | Some s => delete_session s (hs_world st)
              | None => Fault bad_access
              end
          | None => Ret (hs_world st)
          end;
      let zlibs := match ci_zlib con_info with
                   | Some _ => inflateEnd (hs_zlibs st) | None => hs_zlibs st end in
      Ret (set_ptr (free_con_info (mkhs w (hs_ptr st) (hs_sent st) (hs_infos st) zlibs)) PNull)
  end.

(** *** The parameters of the decoder *)

(** One header: the options so far, and whether the body is compressed.
    libmicrohttpd is only asked for headers, so every value is of that kind. *)
Definition connection_args_iterator (acc : list pair * bool) (kv : bytes * option bytes)
    : list pair * bool :=
  let '(opts, enable) := acc in
  let '(key, value) := kv in
  (opts ++ [mkpair key value],
   match value with
   | Some value =>
       if strcasecmp0 (bs "Content-Encoding") key &&
          (strcasecmp0 (bs "deflate") value || strcasecmp0 (bs "gzip") value)
       then true else enable
   | None => enable
   end).

Definition listener_options (http_method uri : bytes) (client : option bytes) : list pair :=
  [mkpair (bs "D-HTTP-method") (Some http_method); mkpair (bs "D-HTTP-URI") (Some uri);
   mkpair (bs "D-Client-IP") client].

(** The options, whether the body is compressed, the list the decoder gets and the
    number of options. *)
Definition decoder_opts (con : MHD_Connection) (http_method uri : bytes) (client : option bytes)
    : list pair * bool * keyval_list * Z :=
  let '(headers, enable) := fold_left connection_args_iterator (mc_headers con) ([], false) in
  let opts := headers ++ listener_options http_method uri client in
  (opts, enable, fold_left add_key_value_pair opts [],
   zlen (mc_headers con) + zlen (listener_options http_method uri client)).

Definition zlib_init_error2str (z : z_status) : outcome bytes :=
  match z with
  | Z_MEM_ERROR => Ret (jbs "{'error':'Out of memory on zlib init'}")
  | _ => Fault assert_failed
  end.

Definition zlib_deflate_error2str (z : z_status) : bytes :=
  match z with
  | Z_NEED_DICT => jbs "{'error':'libz deflate error: a dictionary is need'}"
  | Z_DATA_ERROR => jbs "{'error':'deflated input is not conforming to the zlib format'}"
  | Z_MEM_ERROR => jbs "{'error':'Out of memory'}"
  | Z_BUF_ERROR => jbs "{'error':'Is not possible to progress in input stream'}"
  | _ => jbs "{'error':'Unknown error'}"
  end.

(** The block of a connection, or the error when there is no memory for it. *)
Definition create_connection_info (http_method uri client : bytes) (con : MHD_Connection) st
    : outcome ((conn_info S + bytes) * http_state S W) :=
  if negb (mc_alloc_ok con)
  then Ret (inr (bs "Can't allocate conection context (out of memory?)"), st)
  else
    let '(opts, enable, params, _) := decoder_opts con http_method uri (Some client) in
    let st1 := mkhs (hs_world st) (hs_ptr st) (hs_sent st) (hs_infos st + 1) (hs_zlibs st) in
    if enable then
      let '(rc, strm) := inflateInit2 in
      let con_info := mkinfo string_init.2 params (Some strm) None (mkhttp_error 0 None 0) opts in
      if negb (bool_decide (rc = Z_OK)) then
        _ ← zlib_init_error2str rc;
        Ret (inl con_info, st1)
      else
        Ret (inl con_info,
             mkhs (hs_world st1) (hs_ptr st1) (hs_sent st1) (hs_infos st1) (hs_zlibs st1 + 1))
    else Ret (inl (mkinfo string_init.2 params None None (mkhttp_error 0 None 0) opts), st1).

(** [true] when the certificate is valid; otherwise the answer is queued. *)
Definition http_valid_client_certificate (con : MHD_Connection) st : bool * http_state S W :=
  match tls_valid_client_certificate (mc_verify_peers con) with
  | None => (true, st)
  | Some client_cert_errstr =>
      let '(_, st1) := send_buffered_response con client_cert_errstr MHD_HTTP_FORBIDDEN st in
      (false, st1)
  end.

(** *** Decoding a chunk *)

(** [response] and [response_size] of a caller after a decode callback. *)
Definition update_response (resp : option bytes * Z) (stored : option (option bytes))
    : option bytes * Z :=
  match stored with
  | None => resp
  | Some None => (None, resp.2)
  | Some (Some text) => (Some text, zlen text)
  end.

(** The loop of [compressed_callback]: the code, the response, the state of
    inflate, the session and the world. *)
Fixpoint inflate_loop (fuel : nat) (lst : listener S W O) (params : keyval_list) (strm : z_stream)
    (input : bytes) (resp : option bytes * Z) (sess : option S) (w : W)
    : outcome (decoder_callback_err * (option bytes * Z) * z_stream * option S * W) :=
  match fuel with
  | Datatypes.O => NoFuel
  | Datatypes.S fuel =>
      let '(zret, buffer, input1, strm1) := inflate strm input ZLIB_CHUNK in
      if negb (bool_decide (zret = Z_OK)) && negb (bool_decide (zret = Z_STREAM_END)) then
        let rc := match zret with
                  | Z_NEED_DICT | Z_DATA_ERROR => DECODER_CALLBACK_INVALID_REQUEST
                  | _ => DECODER_CALLBACK_GENERIC_ERROR
                  end in
        Ret (rc, (Some (zlib_deflate_error2str zret), resp.2), strm1, sess, w)
      else
        let zprocessed := zlen buffer in
        '(rc, resp1, sess1, w1) ←
          (if negb (zprocessed =? 0) then
             r ← listener_decode lst w (Some buffer) params true sess;
             Ret (cb_rc r, update_response resp (cb_response r), cb_session r, cb_world r)
           else Ret (DECODER_CALLBACK_OK, resp, sess, w));
        if negb (bool_decide (rc = DECODER_CALLBACK_OK)) then Ret (rc, resp1, strm1, sess1, w1)
        else if zprocessed =? ZLIB_CHUNK then inflate_loop fuel lst params strm1 input1 resp1 sess1 w1
        else Ret (rc, resp1, strm1, sess1, w1)
  end.

(** The buffer of the text is that of [inflate]; when [malloc] fails, [next_out] is
    NULL and the answer of [inflate] is [Z_STREAM_ERROR]. *)
Definition compressed_callback (lst : listener S W O) (c : conn_info S) (strm : z_stream)
    (upload_data : bytes) (w : W)
    : outcome (decoder_callback_err * (option bytes * Z) * conn_info S * W) :=
  '(rc, resp, strm1, sess, w1) ←
     inflate_loop fuel lst (ci_decoder_params c) strm upload_data (None, 0) (ci_decoder_sess c) w;
  Ret (rc, resp, set_sess (set_zlib c (Some strm1)) sess, w1).

(** *** POST *)

(** The text of the address of the client, in a buffer of [BUFSIZ] bytes. *)
Definition client_addr (con : MHD_Connection) : option bytes :=
  match mc_client_addr con with
  | None => None
  | Some addr => sockaddr2str BUFSIZ addr
  end.

Definition handle_http_post_init l (con : MHD_Connection) (url method : bytes) st
    : outcome (MHD_Result * http_state S W) :=
  match client_addr con with
  | None => Ret (MHD_NO, st)
  | Some client =>
      let '(certificate_ok, st1) :=
        if hl_client_tls_cert l then http_valid_client_certificate con st else (true, st) in
      if negb certificate_ok then Ret (MHD_YES, st1)
      else
        auth ← match hl_htpasswd l with
               | None => Ret true
               | Some htpasswd =>
                   match mc_basic_auth con with
                   | None => Ret false
                   | Some (user, password) => http_authenticate fuel user password htpasswd
                   end
               end;
        if negb auth then Ret (send_http_unauthorized_basic con st1)
        else
          let lst := hl_listener l in
          let decoder := l_decoder lst in
          '(info, st2) ← create_connection_info method url client con st1;
          match info with
          | inr create_error =>
              Ret (send_buffered_response con create_error MHD_HTTP_INTERNAL_SERVER_ERROR st2)
          | inl con_info =>
              match dec_new_session decoder with
              | Some new_session =>
                  _ ← c_assert (negb (default 0 (dec_session_size decoder) =? 0));
                  '(session, w) ← new_session (hs_world st2) (l_decoder_opaque lst)
                                    (ci_decoder_params con_info);
                  let st3 := set_world st2 w in
                  match session with
                  | None => Ret (MHD_NO, set_ptr (free_con_info st3) PNull)
                  | Some s => Ret (MHD_YES, set_ptr st3 (PInfo (set_sess con_info (Some s))))
                  end
              | None => Ret (MHD_YES, set_ptr st2 (PInfo con_info))
              end
          end
  end.

Definition decoder_err2http (decode_rc : decoder_callback_err) : Z :=
  match decode_rc with
  | DECODER_CALLBACK_OK => MHD_HTTP_OK
  | DECODER_CALLBACK_BUFFER_FULL => MHD_HTTP_SERVICE_UNAVAILABLE
  | DECODER_CALLBACK_INVALID_REQUEST
  | DECODER_CALLBACK_UNKNOWN_TOPIC
  | DECODER_CALLBACK_UNKNOWN_PARTITION => MHD_HTTP_BAD_REQUEST
  | DECODER_CALLBACK_MSG_TOO_LARGE => MHD_HTTP_PAYLOAD_TOO_LARGE
  | DECODER_CALLBACK_HTTP_METHOD_NOT_ALLOWED => MHD_HTTP_METHOD_NOT_ALLOWED
  | DECODER_CALLBACK_RESOURCE_NOT_FOUND => MHD_HTTP_NOT_FOUND
  | DECODER_CALLBACK_MEMORY_ERROR
  | DECODER_CALLBACK_GENERIC_ERROR => MHD_HTTP_INTERNAL_SERVER_ERROR
  end.

Definition handle_http_post_chunk l (con_info : conn_info S) (upload_data : bytes) st
    : outcome (MHD_Result * http_state S W) :=
  if conn_info_has_queue_response con_info then Ret (MHD_YES, st)
  else
    let lst := hl_listener l in
    '(decode_rc, resp, c1, w) ←
      match dec_new_session (l_decoder lst), ci_zlib con_info with
      | None, _ =>
          '(append_rc, str) ← string_append (ci_str con_info) upload_data;
          Ret (if append_rc =? 0 then DECODER_CALLBACK_OK else DECODER_CALLBACK_MEMORY_ERROR,
               (None, 0), set_str con_info str, hs_world st)
      | Some _, Some strm => compressed_callback lst con_info strm upload_data (hs_world st)
      | Some _, None =>
          r ← listener_decode lst (hs_world st) (Some upload_data) (ci_decoder_params con_info) true
                (ci_decoder_sess con_info);
          Ret (cb_rc r, update_response (None, 0) (cb_response r), set_sess con_info (cb_session r),
               cb_world r)
      end;
    let c2 := if negb (bool_decide (decode_rc = DECODER_CALLBACK_OK))
              then conn_info_queue_response c1 (decoder_err2http decode_rc) resp.1 resp.2 else c1 in
    Ret (MHD_YES, set_ptr (set_world st w) (PInfo c2)).

(** The text of a queued error, whose length is that of the string when no size is
    given. *)
Definition http_error_text (e : http_error) : bytes :=
  match he_str e with
  | None => []
  | Some str => if he_str_size e =? 0 then c_string str else ztake (he_str_size e) str
  end.

Definition handle_post_end l (con : MHD_Connection) (con_info : conn_info S) st
    : outcome (MHD_Result * http_state S W) :=
  if negb (he_code (ci_http_error con_info) =? 0) then
    Ret (send_buffered_response con (http_error_text (ci_http_error con_info))
           (he_code (ci_http_error con_info)) st)
  else
    let lst := hl_listener l in
    w ← match dec_new_session (l_decoder lst) with
        | None =>
            let buf := match str_buf (ci_str con_info) with
                       | None => None | Some _ => Some (contents (ci_str con_info)) end in
            r ← listener_decode lst (hs_world st) buf (ci_decoder_params con_info) false None;
            Ret (cb_world r)
        | Some _ => Ret (hs_world st)
        end;
    Ret (MHD_YES, (send_http_ok con (set_world st w)).2).

Definition handle_post l (con : MHD_Connection) (url method : bytes) (upload_data : option bytes) st
    : outcome (MHD_Result * http_state S W) :=
  match hs_ptr st with
  | PNull => handle_http_post_init l con url method st
  | POne => Fault bad_access
  | PInfo con_info =>
      let data := default [] upload_data in
      if 0 <? zlen data then handle_http_post_chunk l con_info data st
      else handle_post_end l con con_info st
  end.

(** *** GET and the entry point *)

Definition handle_get l (con : MHD_Connection) (uri method : bytes) (upload_data : option bytes) st
    : outcome (MHD_Result * http_state S W) :=
  match hs_ptr st with
  | PNull => Ret (MHD_YES, set_ptr st POne)
  | _ =>
      let st1 := set_ptr st PNull in
      let '(_, _, params, _) := decoder_opts con method uri (client_addr con) in
      r ← listener_decode (hl_listener l) (hs_world st1) upload_data params true None;
      let resp := update_response (None, 0) (cb_response r) in
      let st2 := set_world st1 (cb_world r) in
      if bool_decide (cb_rc r = DECODER_CALLBACK_HTTP_METHOD_NOT_ALLOWED)
      then Ret (send_http_method_not_allowed_allow_post con st2)
      else Ret (send_buffered_response con (ztake resp.2 (default [] resp.1))
                  (decoder_err2http (cb_rc r)) st2)
  end.

Definition handle_request l (con : MHD_Connection) (url method : bytes)
    (upload_data : option bytes) st
    : outcome (MHD_Result * http_state S W) :=
  if strcmp0 method (bs "POST") then handle_post l con url method upload_data st
  else if strcmp0 method (bs "GET") then handle_get l con url method upload_data st
  else Ret (send_http_method_not_allowed_allow_get_post con st).

End handlers.
