(* ===== verification/HttpConfig.v ===== *)
(** * Configuration and start of the HTTP listener

    listener/http/http_config.c and the macros of util/n2k_config_x.h: the options
    of a listener come from defaults, the environment and the configuration; the
    key, the certificates and the password file are read into one block that is
    given to libmicrohttpd, and the daemon is started. *)

From S2P Require Import Prelude Pair File Decoders HttpAuth Http.

(** ** Options *)

Record http_loop_args := mkargs {
  a_port : Z;
  a_num_threads : Z;
  a_connection_memory_limit : Z;
  a_connection_limit : Z;
  a_connection_timeout : Z;
  a_per_ip_connection_limit : Z;
  a_mode : option bytes;
  a_https_key_filename : option bytes;
  a_https_cert_filename : option bytes;
  a_https_key_password : option bytes;
  a_https_clients_ca_filename : option bytes;
  a_htpasswd_filename : option bytes
}.

(** [X_HTTP_CONFIG(X_DEFAULTS_N2K_CONFIG)]. *)
Definition http_defaults : http_loop_args :=
  mkargs 0 1 (128 * 1024) 1024 30 0 (Some (bs "poll")) None None None None None.

(** A variable of the environment replaces a default. *)
Definition environ_str (getenv : bytes -> option bytes) (name : bytes) (default : option bytes)
    : option bytes :=
  match getenv name with Some v => Some v | None => default end.

(** [X_HTTP_CONFIG(X_ENVIRON_N2K_CONFIG)]: only the file names and the password
    have a variable. *)
Definition http_environ (getenv : bytes -> option bytes) (a : http_loop_args) : http_loop_args :=
  mkargs (a_port a) (a_num_threads a) (a_connection_memory_limit a) (a_connection_limit a)
    (a_connection_timeout a) (a_per_ip_connection_limit a) (a_mode a)
    (environ_str getenv (bs "HTTP_TLS_KEY_FILE") (a_https_key_filename a))
    (environ_str getenv (bs "HTTP_TLS_CERT_FILE") (a_https_cert_filename a))
    (environ_str getenv (bs "HTTP_TLS_KEY_PASSWORD") (a_https_key_password a))
    (environ_str getenv (bs "HTTP_TLS_CLIENT_CA_FILE") (a_https_clients_ca_filename a))
    (environ_str getenv (bs "HTTP_HTPASSWD_FILE") (a_htpasswd_filename a)).

(** What [json_unpack_ex] finds at a key. *)
Inductive unpacked (A : Type) := Absent | Value (a : A) | BadType.
Arguments Absent {A}.
Arguments Value {A} _.
Arguments BadType {A}.

Class JsonUnpack {jansson : Jansson} := {
  unpack_i : json_t -> bytes -> unpacked Z;
  unpack_s : json_t -> bytes -> unpacked bytes
}.

(** An optional key keeps what was there. *)
Definition override {A} (u : unpacked A) (old : A) : option A :=
  match u with Absent => Some old | Value a => Some a | BadType => None end.

Definition override_str (u : unpacked bytes) (old : option bytes) : option (option bytes) :=
  match u with Absent => Some old | Value a => Some (Some a) | BadType => None end.

(** The [json_unpack_ex] call; [None] is a failure.  Only the port is mandatory. *)
Definition http_unpack {jansson : Jansson} {u : JsonUnpack} (config : json_t) (a : http_loop_args)
    : option http_loop_args :=
  port ← match unpack_i config (bs "port") with Value p => Some p | _ => None end;
  num_threads ← override (unpack_i config (bs "num_threads")) (a_num_threads a);
  memory ← override (unpack_i config (bs "connection_memory_limit")) (a_connection_memory_limit a);
  limit ← override (unpack_i config (bs "connection_limit")) (a_connection_limit a);
  timeout ← override (unpack_i config (bs "connection_timeout")) (a_connection_timeout a);
  per_ip ← override (unpack_i config (bs "per_ip_connection_limit")) (a_per_ip_connection_limit a);
  mode ← override_str (unpack_s config (bs "mode")) (a_mode a);
  key ← override_str (unpack_s config (bs "https_key_filename")) (a_https_key_filename a);
  cert ← override_str (unpack_s config (bs "https_cert_filename")) (a_https_cert_filename a);
  password ← override_str (unpack_s config (bs "https_key_password")) (a_https_key_password a);
  ca ← override_str (unpack_s config (bs "https_clients_ca_filename")) (a_https_clients_ca_filename a);
  htpasswd ← override_str (unpack_s config (bs "htpasswd_filename")) (a_htpasswd_filename a);
  Some (mkargs port num_threads memory limit timeout per_ip mode key cert password ca htpasswd).

(** ** Files *)

Inductive secret_kind := KEY_FILE | CERT_FILE | CLIENT_CA_TRUST | HTPASSWD.

#[export] Instance secret_kind_eq_dec : EqDecision secret_kind.
Proof. solve_decision. Defined.

(** The file system: whether others can access a file ([None] if [stat] fails),
    whether it opens, its contents when it is opened, which calls on its stream
    succeed, what reading a number of bytes from its start then gives (another
    process may have changed it), and the lines of a password file; and whether
    the allocation and the start of the daemon succeed. *)
Record start_env := mkstart {
  se_stat : bytes -> option bool;
  se_open : bytes -> bool;
  se_contents : bytes -> bytes;
  se_stdio : bytes -> stdio;
  se_fread : bytes -> Z -> bytes;
  se_lines : bytes -> list bytes;
  se_calloc_ok : bool;
  se_daemon_ok : bool
}.

Definition secret_files (args : http_loop_args) : list (secret_kind * bytes) :=
  omap (fun kf => match kf.2 with Some f => Some (kf.1, f) | None => None end)
    [(KEY_FILE, a_https_key_filename args); (CERT_FILE, a_https_cert_filename args);
     (CLIENT_CA_TRUST, a_https_clients_ca_filename args); (HTPASSWD, a_htpasswd_filename args)].

Inductive http_mode_flag :=
| MHD_USE_THREAD_PER_CONNECTION
| MHD_USE_SELECT_INTERNALLY
| MHD_USE_POLL_INTERNALLY
| MHD_USE_EPOLL_INTERNALLY_LINUX_ONLY.

Definition http_mode (mode : option bytes) : option http_mode_flag :=
  match mode with
  | None => Some MHD_USE_THREAD_PER_CONNECTION
  | Some mode =>
      if strcmp0 (bs "thread_per_connection") mode then Some MHD_USE_THREAD_PER_CONNECTION
      else if strcmp0 (bs "select") mode then Some MHD_USE_SELECT_INTERNALLY
      else if strcmp0 (bs "poll") mode then Some MHD_USE_POLL_INTERNALLY
      else if strcmp0 (bs "epoll") mode then Some MHD_USE_EPOLL_INTERNALLY_LINUX_ONLY
      else None
  end.

(** [fopen] and [file_size_callback], -1 as [None]; the size of a password file is
    that of its entries.  The stream is where it was, at its start, when there is
    a size (lemma [file_size_at_start]). *)
Definition secret_size (env : start_env) (kind : secret_kind) (name : bytes) : outcome (option Z) :=
  match kind with
  | HTPASSWD =>
      n ← htpasswd_size (se_stdio env name) (mkfile (se_contents env name) 0) (se_lines env name);
      Ret (Some n)
  | _ =>
      let t_file_size := (file_size (se_stdio env name) (mkfile (se_contents env name) 0)).1 in
      Ret (if t_file_size =? -1 then None else Some t_file_size)
  end.

(** The first loop: the files with their sizes, or [None] for [goto tls_err]. *)
Fixpoint open_secrets (env : start_env) (files : list (secret_kind * bytes))
    : outcome (option (list (secret_kind * bytes * Z))) :=
  match files with
  | [] => Ret (Some [])
  | (kind, name) :: files =>
      if bool_decide (kind = KEY_FILE) &&
         match se_stat env name with Some others => others | None => true end
      then Ret None
      else if negb (se_open env name) then Ret None
      else
        size ← secret_size env kind name;
        match size with
        | None => Ret None
        | Some n =>
            rest ← open_secrets env files;
            Ret (match rest with Some rest => Some ((kind, name, n) :: rest) | None => None end)
        end
  end.

(** The bytes of all the files, each with a NUL for libmicrohttpd. *)
Definition tls_files_size (files : list (secret_kind * bytes * Z)) : Z :=
  fold_right (fun f s => f.2 + 1 + s) 0 files.

(** [file_read_callback] into a cleared block of one byte more than the size: the
    block and the number of bytes read. *)
Definition secret_read (env : start_env) (kind : secret_kind) (name : bytes) (n : Z)
    : outcome (bytes * Z) :=
  match kind with
  | HTPASSWD =>
      '(data_read, block) ← htpasswd_fread (se_stdio env name) (mkfile (se_contents env name) 0)
        (se_lines env name) (zero_block (n + 1)) n;
      Ret (block, data_read)
  | _ =>
      let data := se_fread env name n in
      Ret (data ++ zero_block (n + 1 - zlen data), zlen data)
  end.

(** The second loop: the blocks in order, and whether every file was read whole. *)
Fixpoint read_secrets (env : start_env) (files : list (secret_kind * bytes * Z))
    : outcome (list (secret_kind * bytes) * bool) :=
  match files with
  | [] => Ret ([], true)
  | (kind, name, n) :: files =>
      '(block, readed) ← secret_read env kind name n;
      if readed <? n then Ret ([(kind, block)], false)
      else
        '(blocks, ok) ← read_secrets env files;
        Ret ((kind, block) :: blocks, ok)
  end.

(** [secret_files[kind].mem]. *)
Fixpoint secret_mem (blocks : list (secret_kind * bytes)) (kind : secret_kind) : option bytes :=
  match blocks with
  | [] => None
  | (k, block) :: blocks => if bool_decide (k = kind) then Some block else secret_mem blocks kind
  end.

(** ** The listener *)

(** A listener: its parts, the arguments of the daemon if it was started (port,
    mode, limits of the connections, threads, key, certificate, key password, client
    authority) and the shared part once it was initialised. *)
Record daemon := mkdaemon {
  d_port : Z;
  d_mode : http_mode_flag;
  d_connection_limit : Z;
  d_per_ip_connection_limit : Z;
  d_connection_timeout : Z;
  d_connection_memory_limit : Z;
  d_thread_pool_size : Z;
  d_key : option bytes;
  d_cert : option bytes;
  d_key_password : option bytes;
  d_trust : option bytes
}.

Record built {jansson : Jansson} (S W O : Type) := mkbuilt {
  b_listener : option (listener S W O);
  b_tls_data : bytes;
  b_htpasswd : option bytes;
  b_client_tls_cert : bool;
  b_daemon : option daemon
}.
Arguments mkbuilt {jansson S W O} _ _ _ _ _.
Arguments b_listener {jansson S W O} _.
Arguments b_tls_data {jansson S W O} _.
Arguments b_htpasswd {jansson S W O} _.
Arguments b_client_tls_cert {jansson S W O} _.
Arguments b_daemon {jansson S W O} _.

(** What a start leaves: the listener returned, the files still open and the shared
    responses. *)
Record start_result {jansson : Jansson} (S W O : Type) := mkstarted {
  sr_built : option (built S W O);
  sr_open_files : Z;
  sr_responses : http_responses
}.
Arguments mkstarted {jansson S W O} _ _ _.
Arguments sr_built {jansson S W O} _.
Arguments sr_open_files {jansson S W O} _.
Arguments sr_responses {jansson S W O} _.

Definition is_some {A} (o : option A) : bool := match o with Some _ => true | None => false end.

Section start.
Context {jansson : Jansson} {S W O : Type}.
Context (env : start_env) (decoder : n2k_decoder S W O) (decoder_conf : json_t).

(** From the initialisation of the listener on. *)
Definition start_daemon (args : http_loop_args) (mode : http_mode_flag) (tls : bool) (files : Z)
    (blocks : list (secret_kind * bytes)) (responses : http_responses)
    : outcome (start_result S W O) :=
  '(rc, lst) ← listener_init None (a_port args mod 2 ^ 16) decoder decoder_conf;
  if negb (rc =? 0) then Ret (mkstarted None files responses)
  else
    let '(_, responses1) := responses_listener_counter_incref responses in
    if negb (se_daemon_ok env)
    then Ret (mkstarted None files (responses_listener_counter_decref responses1))
    else
      let d := mkdaemon (a_port args mod 2 ^ 16) mode
                 (a_connection_limit args) (a_per_ip_connection_limit args)
                 (a_connection_timeout args) (a_connection_memory_limit args) (a_num_threads args)
                 (if tls then secret_mem blocks KEY_FILE else None)
                 (if tls then secret_mem blocks CERT_FILE else None)
                 (if tls then a_https_key_password args else None)
                 (if tls then secret_mem blocks CLIENT_CA_TRUST else None) in
      Ret (mkstarted
             (Some (mkbuilt (Some lst) (concat (map snd blocks)) (secret_mem blocks HTPASSWD)
                      (is_some (a_https_clients_ca_filename args)) (Some d)))
             0 responses1).

(** The block of the listener with the contents of the files; without memory for it
    the files are not closed. *)
Definition load_secrets (args : http_loop_args) (mode : http_mode_flag) (tls : bool)
    (files : list (secret_kind * bytes * Z)) (responses : http_responses)
    : outcome (start_result S W O) :=
  if negb (se_calloc_ok env) then Ret (mkstarted None (zlen files) responses)
  else
    '(blocks, ok) ← read_secrets env files;
    if negb ok
    then Ret (mkstarted (Some (mkbuilt None (concat (map snd blocks)) None
                (is_some (a_https_clients_ca_filename args)) None)) 0 responses)
    else
      _ ← c_assert (zlen (concat (map snd blocks)) =? tls_files_size files);
      start_daemon args mode tls (zlen files) blocks responses.

Definition start_http_loop (args : http_loop_args) (responses : http_responses)
    : outcome (start_result S W O) :=
  let failed := mkstarted None 0 responses in
  match http_mode (a_mode args) with
  | None => Ret failed
  | Some mode =>
      if xorb (is_some (a_https_key_filename args)) (is_some (a_https_cert_filename args))
      then Ret failed
      else if negb (is_some (a_https_key_filename args)) && is_some (a_https_clients_ca_filename args)
      then Ret failed
      else
        let tls := is_some (a_https_key_filename args) in
        opened ← (if tls || is_some (a_htpasswd_filename args)
                  then open_secrets env (secret_files args) else Ret (Some []));
        match opened with
        | None => Ret failed
        | Some files =>
            load_secrets args mode tls files responses
        end
  end.

(** The key password starts with [@] when it is the name of a file; [rd_file_read]
    gives its contents. *)
Definition key_password (rd_file_read : bytes -> option bytes) (password : option bytes)
    : option bytes :=
  match password with
  | Some (c :: name) => if bool_decide (c = x40) then rd_file_read name else password
  | _ => password
  end.

Definition set_key_password (a : http_loop_args) (p : option bytes) : http_loop_args :=
  mkargs (a_port a) (a_num_threads a) (a_connection_memory_limit a) (a_connection_limit a)
    (a_connection_timeout a) (a_per_ip_connection_limit a) (a_mode a) (a_https_key_filename a)
    (a_https_cert_filename a) p (a_https_clients_ca_filename a) (a_htpasswd_filename a).

(** [decoder_conf] is the configuration of the listener. *)
Definition create_http_listener0 {u : JsonUnpack} (getenv rd_file_read : bytes -> option bytes)
    (responses : http_responses) : outcome (start_result S W O) :=
  match http_unpack decoder_conf (http_environ getenv http_defaults) with
  | None => Ret (mkstarted None 0 responses)
  | Some args =>
      start_http_loop
        (set_key_password args (key_password rd_file_read (a_https_key_password args))) responses
  end.

(** [break_http_loop]: the daemon is stopped, the data of the decoder released, the
    secrets cleared. *)
Definition break_http_loop (b : built S W O) (responses : http_responses)
    : option (listener S W O) * bytes * http_responses :=
  (match b_listener b with Some l => Some (listener_join l) | None => None end,
   zero_block (zlen (b_tls_data b)), responses_listener_counter_decref responses).

End start.

(** ** Lemmas *)

(** A size that was found is that of the contents. *)
Lemma secret_size_found env kind name n :
  kind <> HTPASSWD -> secret_size env kind name = Ret (Some n) -> n = zlen (se_contents env name).
Proof.
  intros Hk H. assert (Hs : (let t := (file_size (se_stdio env name)
      (mkfile (se_contents env name) 0)).1 in if t =? -1 then None else Some t) = Some n).
  { destruct kind; [..|done]; by injection H. }
  pose proof (file_size_at_start (se_stdio env name) (se_contents env name)) as Hf.
  cbn zeta in Hs. destruct (file_size _ _) as [size fp]. cbn [fst] in Hs.
  destruct (Z.eqb_spec size (-1)); [done|]. injection Hs as <-. by apply Hf.
Qed.

(** The first file of a kind. *)
Fixpoint file_of {A} (kind : secret_kind) (files : list (secret_kind * A)) : option A :=
  match files with
  | [] => None
  | (k, a) :: files => if bool_decide (k = kind) then Some a else file_of kind files
  end.

Definition sized (files : list (secret_kind * bytes * Z)) : list (secret_kind * (bytes * Z)) :=
  map (fun f => (f.1.1, (f.1.2, f.2))) files.

Lemma open_secrets_of env l files kind name :
  open_secrets env l = Ret (Some files) -> file_of kind l = Some name ->
  exists n, file_of kind (sized files) = Some (name, n) /\ secret_size env kind name = Ret (Some n) /\
    (kind = KEY_FILE -> se_stat env name = Some false).
Proof.
  revert files. induction l as [|[k a] l IH]; intros files; cbn [open_secrets file_of]; [done|].
  destruct (bool_decide (k = KEY_FILE) && _) eqn:Est; [done|].
  destruct (se_open env a); [|done]. cbn [negb]. intros H Hk. inv_bind H.
  destruct a0 as [n|]; [|done]. inv_bind Hk0. destruct a0 as [rest|]; [|done].
  injection Hk1 as <-. cbn [sized map file_of fst snd].
  destruct (bool_decide (k = kind)) eqn:E.
  - apply bool_decide_eq_true in E. injection Hk as ->. subst k. exists n. split_and!; [done|done|].
    intros ->. rewrite bool_decide_true in Est by done. cbn in Est.
    by destruct (se_stat env name) as [[]|].
  - by apply IH.
Qed.

Lemma read_secrets_of env files blocks kind name n :
  read_secrets env files = Ret (blocks, true) -> file_of kind (sized files) = Some (name, n) ->
  exists block readed, secret_read env kind name n = Ret (block, readed) /\ n <= readed /\
    secret_mem blocks kind = Some block.
Proof.
  revert blocks. induction files as [|[[k a] m] files IH]; intros blocks; [done|].
  cbn [read_secrets sized map file_of fst snd]. intros H Hk. inv_bind H.
  destruct a0 as [block readed]. destruct (readed <? m) eqn:El; [done|]. inv_bind Hk0.
  destruct a0 as [bs ok]. injection Hk1 as <- ->. cbn [secret_mem].
  destruct (bool_decide (k = kind)) eqn:E; [|by apply IH].
  apply bool_decide_eq_true in E. injection Hk as -> ->. subst k. exists block, readed.
  split_and!; [done|lia|done].
Qed.

Lemma secret_files_of args kind :
  file_of kind (secret_files args) =
  match kind with
  | KEY_FILE => a_https_key_filename args
  | CERT_FILE => a_https_cert_filename args
  | CLIENT_CA_TRUST => a_https_clients_ca_filename args
  | HTPASSWD => a_htpasswd_filename args
  end.
Proof.
  unfold secret_files.
  destruct (a_https_key_filename args), (a_https_cert_filename args),
    (a_https_clients_ca_filename args), (a_htpasswd_filename args), kind; done.
Qed.

(** A file that is read whole becomes its contents and a NUL. *)
Lemma secret_block env kind name n block readed :
  (forall f k, 0 <= k -> zlen (se_fread env f k) <= k) -> 0 <= n -> kind <> HTPASSWD ->
  secret_read env kind name n = Ret (block, readed) -> n <= readed ->
  block = se_fread env name n ++ [x00] /\ zlen (se_fread env name n) = n.
Proof.
  intros Hfr H0 Hk Hr Hn. pose proof (Hfr name n H0) as Hb.
  assert (zlen (se_fread env name n) = readed /\
          block = se_fread env name n ++ zero_block (n + 1 - zlen (se_fread env name n))) as [H1 ->].
  { destruct kind; [..|done]; cbn in Hr; by injection Hr as <- <-. }
  replace (n + 1 - zlen (se_fread env name n)) with 1 by lia. split; [done|lia].
Qed.

(** The steps of a start that ends with a daemon. *)
Lemma started_steps {jansson : Jansson} {S W O : Type} env (decoder : n2k_decoder S W O) conf args
    responses r b d :
  start_http_loop env decoder conf args responses = Ret r -> sr_built r = Some b ->
  b_daemon b = Some d ->
  let tls := is_some (a_https_key_filename args) in
  is_some (a_https_key_filename args) = is_some (a_https_cert_filename args) /\
  (is_some (a_https_clients_ca_filename args) = true -> tls = true) /\
  exists mode files blocks,
    http_mode (a_mode args) = Some mode /\
    (if tls || is_some (a_htpasswd_filename args) then open_secrets env (secret_files args)
     else Ret (Some [])) = Ret (Some files) /\
    read_secrets env files = Ret (blocks, true) /\
    start_daemon env decoder conf args mode tls (zlen files) blocks responses = Ret r.
Proof.
  unfold start_http_loop, load_secrets. intros H Hb Hd.
  destruct (http_mode (a_mode args)) as [mode|]; [|injection H as <-; done].
  destruct (xorb _ _) eqn:Ex; [injection H as <-; done|].
  destruct (negb (is_some (a_https_key_filename args)) && _) eqn:Eca; [injection H as <-; done|].
  split; [by apply xorb_eq|]. split.
  { intros Hca. rewrite Hca, andb_true_r in Eca. by apply negb_false_iff. }
  inv_bind H. destruct a as [files|]; [|injection Hk as <-; done].
  destruct (negb (se_calloc_ok env)); [injection Hk as <-; done|].
  inv_bind Hk. destruct a as [blocks ok]. destruct ok; cbn [negb] in Hk0.
  2:{ injection Hk0 as <-. cbn in Hb. injection Hb as <-. done. }
  inv_bind Hk0. exists mode, files, blocks. by split_and!.
Qed.

(** What a file given to the daemon holds: the bytes that were read, as many as its
    contents had, and a NUL. *)
Definition whole_file (env : start_env) (name : bytes) (mem : option bytes) : Prop :=
  exists data, mem = Some (data ++ [x00]) /\ data = se_fread env name (zlen (se_contents env name)) /\
    zlen data = zlen (se_contents env name).

(** A secret other than the password file. *)
Lemma secret_whole env files blocks kind name l :
  (forall f n, 0 <= n -> zlen (se_fread env f n) <= n) -> kind <> HTPASSWD ->
  open_secrets env l = Ret (Some files) -> read_secrets env files = Ret (blocks, true) ->
  file_of kind l = Some name -> whole_file env name (secret_mem blocks kind).
Proof.
  intros Hfr Hk Hopen Hread Hf.
  destruct (open_secrets_of env l files kind name Hopen Hf) as (n & Hn & Hsz & _).
  destruct (read_secrets_of env files blocks kind name n Hread Hn) as (block & readed & Hr & Hle & ->).
  apply secret_size_found in Hsz as ->; [|done].
  apply secret_block in Hr as [-> Hl]; [|done|apply zlen_nonneg|done..]. by eexists.
Qed.

(** The password file, on a stream that can go back. *)
Lemma htpasswd_whole env files blocks name l :
  io_ftello (se_stdio env name) = true -> io_fseeko_restore (se_stdio env name) = true ->
  open_secrets env l = Ret (Some files) -> read_secrets env files = Ret (blocks, true) ->
  file_of HTPASSWD l = Some name ->
  exists block, secret_mem blocks HTPASSWD = Some block /\ htpasswd_load (se_lines env name) = Ret block.
Proof.
  intros Ht Hs Hopen Hread Hf.
  destruct (open_secrets_of env l files HTPASSWD name Hopen Hf) as (n & Hn & Hsz & _).
  destruct (read_secrets_of env files blocks HTPASSWD name n Hread Hn) as (block & readed & Hr & _ & ->).
  exists block. split; [done|]. unfold htpasswd_load. cbn zeta.
  cbn [secret_size] in Hsz. inv_bind Hsz. injection Hk as ->.
  cbn [secret_read] in Hr. inv_bind Hr. destruct a as [data_read block1]. injection Hk as -> _.
  unfold htpasswd_size, htpasswd_fread in *. rewrite http_auth_extract_data_ok in Hbind by done.
  rewrite http_auth_extract_data_ok in Hbind0 by done.
  rewrite http_auth_extract_data_ok by done. rewrite Hbind. cbn [mbind outcome_bind].
  rewrite http_auth_extract_data_ok by done. unfold zero_block in Hbind0. by rewrite Hbind0.
Qed.

Lemma secret_mem_none env l files blocks kind :
  open_secrets env l = Ret (Some files) -> read_secrets env files = Ret (blocks, true) ->
  file_of kind l = None -> secret_mem blocks kind = None.
Proof.
  revert files blocks. induction l as [|[k a] l IH]; intros files blocks Ho Hr Hf.
  { injection Ho as <-. cbn in Hr. by injection Hr as <-. }
  cbn [open_secrets file_of] in *. destruct (bool_decide (k = kind)) eqn:E; [done|].
  destruct (bool_decide (k = KEY_FILE) && _); [done|]. destruct (se_open env a); [|done]. cbn [negb] in Ho.
  inv_bind Ho. destruct a0 as [n|]; [|done]. inv_bind Hk. destruct a0 as [rest|]; [|done].
  injection Hk0 as <-. cbn [read_secrets] in Hr. inv_bind Hr. destruct a0 as [block readed].
  destruct (readed <? n); [done|]. inv_bind Hk. destruct a0 as [bs ok]. injection Hk0 as <- ->.
  cbn [secret_mem]. rewrite E. by eapply IH.
Qed.

(** Without TLS and password file there is nothing to open. *)
Lemma opened_secrets env args files :
  is_some (a_https_key_filename args) = is_some (a_https_cert_filename args) ->
  (is_some (a_https_clients_ca_filename args) = true -> is_some (a_https_key_filename args) = true) ->
  (if is_some (a_https_key_filename args) || is_some (a_htpasswd_filename args)
   then open_secrets env (secret_files args) else Ret (Some [])) = Ret (Some files) ->
  open_secrets env (secret_files args) = Ret (Some files).
Proof.
  unfold secret_files. destruct (a_https_key_filename args), (a_https_cert_filename args),
    (a_https_clients_ca_filename args), (a_htpasswd_filename args); cbn; try done; intros Hkc Hca; by specialize (Hca eq_refl).
Qed.

(** What the last part of a start that ends with a daemon gives to it. *)
Lemma start_daemon_parts {jansson : Jansson} {S W O : Type} env (decoder : n2k_decoder S W O) conf args
    mode tls files blocks responses r b d :
  start_daemon env decoder conf args mode tls files blocks responses = Ret r -> sr_built r = Some b ->
  b_daemon b = Some d ->
  d = mkdaemon (a_port args mod 2 ^ 16) mode (a_connection_limit args) (a_per_ip_connection_limit args)
        (a_connection_timeout args) (a_connection_memory_limit args) (a_num_threads args)
        (if tls then secret_mem blocks KEY_FILE else None) (if tls then secret_mem blocks CERT_FILE else None)
        (if tls then a_https_key_password args else None)
        (if tls then secret_mem blocks CLIENT_CA_TRUST else None) /\
  b_htpasswd b = secret_mem blocks HTPASSWD /\ b_client_tls_cert b = is_some (a_https_clients_ca_filename args) /\
  sr_open_files r = 0 /\ hr_listeners_counter (sr_responses r) = hr_listeners_counter responses + 1.
Proof.
  unfold start_daemon. intros H Hb Hd. inv_bind H. destruct a as [rc lst].
  destruct (negb (rc =? 0)); [injection Hk as <-; done|].
  destruct (responses_listener_counter_incref responses) as [z responses1] eqn:Er.
  destruct (negb (se_daemon_ok env)); [injection Hk as <-; done|].
  injection Hk as <-. cbn in Hb. injection Hb as <-. cbn in Hd. injection Hd as <-.
  split_and!; try done. by injection Er as _ <-.
Qed.

(** ** Properties *)

(** C19: a listener whose daemon was started is as its options say and safe to serve.
    The key and the certificate are both set or none is, client certificates are
    only asked for with TLS and exactly when their authority is set, and the file of
    the key is not accessible by others.  The daemon has the port, the mode, the
    limits, the threads and the key password of the options, and exactly the
    contents of the files of the key, of the certificate and of the authority of the
    clients, each ended by a NUL, or nothing where there is no file.  The listener
    has the block that its password file makes, if the stream of the file can go
    back: for a file of entries those of all the users but the last one, each ended
    by a NUL.  The shared responses count the listener and no file is left open. *)
Theorem http_start_safe {jansson : Jansson} {S W O : Type} (env : start_env)
    (decoder : n2k_decoder S W O) (conf : json_t) (args : http_loop_args)
    (responses : http_responses) (r : start_result S W O) (b : built S W O) (d : daemon) :
  (forall f n, 0 <= n -> zlen (se_fread env f n) <= n) ->
  start_http_loop env decoder conf args responses = Ret r -> sr_built r = Some b ->
  b_daemon b = Some d ->
  (a_https_key_filename args = None <-> a_https_cert_filename args = None) /\
  (b_client_tls_cert b = true -> a_https_key_filename args <> None) /\
  (b_client_tls_cert b = true <-> a_https_clients_ca_filename args <> None) /\
  (d_port d = a_port args mod 2 ^ 16 /\ http_mode (a_mode args) = Some (d_mode d) /\
   d_connection_limit d = a_connection_limit args /\
   d_per_ip_connection_limit d = a_per_ip_connection_limit args /\
   d_connection_timeout d = a_connection_timeout args /\
   d_connection_memory_limit d = a_connection_memory_limit args /\ d_thread_pool_size d = a_num_threads args) /\
  (forall key, a_https_key_filename args = Some key ->
    se_stat env key = Some false /\ whole_file env key (d_key d) /\
    d_key_password d = a_https_key_password args) /\
  (forall cert, a_https_cert_filename args = Some cert -> whole_file env cert (d_cert d)) /\
  (forall ca, a_https_clients_ca_filename args = Some ca -> whole_file env ca (d_trust d)) /\
  (a_https_key_filename args = None -> d_key d = None /\ d_cert d = None /\ d_key_password d = None) /\
  (a_https_clients_ca_filename args = None -> d_trust d = None) /\
  (a_htpasswd_filename args = None -> b_htpasswd b = None) /\
  (forall htpasswd, a_htpasswd_filename args = Some htpasswd ->
    io_ftello (se_stdio env htpasswd) = true -> io_fseeko_restore (se_stdio env htpasswd) = true ->
    (exists block, b_htpasswd b = Some block /\ htpasswd_load (se_lines env htpasswd) = Ret block) /\
    forall es e, se_lines env htpasswd = map (fun e => e ++ [newline]) (es ++ [e]) ->
      Forall is_entry (es ++ [e]) ->
      b_htpasswd b = Some (concat (map block es) ++ zero_block (zlen e + 2))) /\
  sr_open_files r = 0 /\
  hr_listeners_counter (sr_responses r) = hr_listeners_counter responses + 1.
Proof.
  intros Hfr H Hb Hd.
  destruct (started_steps env decoder conf args responses r b d H Hb Hd)
    as (Hkc & Hca & mode & files & blocks & Hmode & Hopen & Hread & Hstart).
  destruct (start_daemon_parts _ _ _ _ _ _ _ _ _ _ _ _ Hstart Hb Hd) as (-> & Hhtp & Hcli & Hf & Hrc).
  cbn [d_port d_mode d_connection_limit d_per_ip_connection_limit
    d_connection_timeout d_connection_memory_limit d_thread_pool_size d_key d_cert d_key_password d_trust].
  apply opened_secrets in Hopen; [|done..]. pose proof (secret_files_of args) as Hfile.
  assert (Hwhole : forall kind name, kind <> HTPASSWD -> file_of kind (secret_files args) = Some name ->
    whole_file env name (secret_mem blocks kind)) by (intros; by eapply secret_whole).
  rewrite Hcli, Hhtp. split_and!; try done.
  - destruct (a_https_key_filename args), (a_https_cert_filename args); done.
  - intros Hc. specialize (Hca Hc). by destruct (a_https_key_filename args).
  - by destruct (a_https_clients_ca_filename args).
  - intros key Hkey. rewrite Hkey. cbn [is_some]. specialize (Hfile KEY_FILE). cbv iota in Hfile. rewrite Hkey in Hfile.
    split_and!; [|by apply Hwhole|done].
    destruct (open_secrets_of env _ files KEY_FILE key Hopen Hfile) as (_ & _ & _ & Hst). by apply Hst.
  - intros cert Hcert. rewrite Hkc, Hcert. apply Hwhole; [done|]. by rewrite Hfile.
  - intros ca Ha. rewrite Hca by (by rewrite Ha). apply Hwhole; [done|]. by rewrite Hfile.
  - by intros ->.
  - intros Ha. destruct (is_some _); [|done]. eapply secret_mem_none; [done..|]. by rewrite Hfile.
  - intros Ha. eapply secret_mem_none; [done..|]. by rewrite Hfile.
  - intros htpasswd Ha Ht Hs.
    destruct (htpasswd_whole env files blocks htpasswd _ Ht Hs Hopen Hread) as (block & Hm & Hl);
      [by rewrite Hfile|]. split; [by eexists|].
    intros es e Hes He. rewrite Hes, htpasswd_load_entries in Hl by done. by injection Hl as <-.
Qed.

#[local] Instance no_jansson : Jansson := {|
  json_t := unit; json_object_get _ _ := None; json_string_value _ := None
|}.

Definition idle_decoder : n2k_decoder unit unit unit :=
  mkdecoder (bs "idle") (fun w _ _ _ _ s => Ret (mkcb_result DECODER_CALLBACK_OK None s w))
    None None None None None None.

(** Three secrets, which others cannot read, and a password file. *)
Definition three_files (name : bytes) : bytes :=
  if strcmp0 name (bs "key") then bs "KEY" else if strcmp0 name (bs "cert") then bs "CERT" else bs "CA".

Definition tls_env : start_env :=
  mkstart (fun _ => Some false) (fun _ => true) three_files (fun _ => mkstdio true true true true)
    (fun f n => ztake n (three_files f))
    (fun _ => [bs "ana:{PLAIN}pw" ++ [newline]; bs "eve:{PLAIN}qq" ++ [newline]]) true true.

Definition tls_args : http_loop_args :=
  mkargs 2057 1 131072 1024 30 0 (Some (bs "poll")) (Some (bs "key")) (Some (bs "cert")) None None None.

Definition full_args : http_loop_args :=
  mkargs 2057 1 131072 1024 30 0 (Some (bs "poll")) (Some (bs "key")) (Some (bs "cert")) None
    (Some (bs "ca")) (Some (bs "users")).

Lemma demo_entries : Forall is_entry ([bs "ana:{PLAIN}pw"] ++ [bs "eve:{PLAIN}qq"]).
Proof.
  repeat constructor.
  - exists (bs "ana"), (bs "pw"). split; [reflexivity|]. split; repeat constructor; discriminate.
  - exists (bs "eve"), (bs "qq"). split; [reflexivity|]. split; repeat constructor; discriminate.
Qed.

Lemma http_start_safe_witness :
  exists r b d, start_http_loop tls_env idle_decoder tt full_args http_responses_init = Ret r /\
    sr_built r = Some b /\ b_daemon b = Some d /\ b_client_tls_cert b = true /\
    whole_file tls_env (bs "key") (d_key d) /\ whole_file tls_env (bs "cert") (d_cert d) /\
    whole_file tls_env (bs "ca") (d_trust d) /\
    b_htpasswd b = Some (bs "ana:{PLAIN}pw" ++ [x00] ++ zero_block 15).
Proof.
  eexists _, _, _. split; [vm_compute; reflexivity|]. split; [reflexivity|]. split; [reflexivity|].
  match goal with |- b_client_tls_cert ?b = _ /\ whole_file _ _ (d_key ?d) /\ _ =>
    destruct (http_start_safe tls_env idle_decoder tt full_args http_responses_init
      (mkstarted (Some b) 0 (responses_listener_counter_incref http_responses_init).2) b d)
      as (_ & _ & _ & _ & Hkey & Hcert & Hca & _ & _ & _ & Hp & _) end.
  - intros f n Hn. cbn. unfold ztake, zlen. rewrite length_take. lia.
  - vm_compute. reflexivity.
  - reflexivity.
  - reflexivity.
  - split; [reflexivity|]. split; [apply (Hkey (bs "key") eq_refl)|].
    split; [apply (Hcert (bs "cert") eq_refl)|]. split; [apply (Hca (bs "ca") eq_refl)|].
    destruct (Hp (bs "users") eq_refl eq_refl eq_refl) as [_ He].
    apply (He [bs "ana:{PLAIN}pw"] (bs "eve:{PLAIN}qq") eq_refl demo_entries).
Defined.

(** When a file gets shorter between the two passes, the start fails, but
    instead of NULL it returns a listener that was never initialised: it has no
    decoder, no functions to join or reload it, and no daemon. *)
Theorem http_start_short_read {jansson : Jansson} {S W O : Type} (env : start_env)
    (decoder : n2k_decoder S W O) (conf : json_t) (args : http_loop_args)
    (responses : http_responses) (mode : http_mode_flag)
    (files : list (secret_kind * bytes * Z)) (blocks : list (secret_kind * bytes)) (key cert : bytes) :
  http_mode (a_mode args) = Some mode -> a_https_key_filename args = Some key ->
  a_https_cert_filename args = Some cert -> open_secrets env (secret_files args) = Ret (Some files) ->
  se_calloc_ok env = true -> read_secrets env files = Ret (blocks, false) ->
  exists b, start_http_loop env decoder conf args responses
      = Ret (mkstarted (Some b) 0 responses) /\ b_listener b = None /\ b_daemon b = None.
Proof.
  intros Hm Hk Hc Ho Hca Hr. unfold start_http_loop, load_secrets. rewrite Hm, Hk, Hc. cbn [is_some xorb negb andb orb].
  rewrite Ho. cbn [mbind outcome_bind]. rewrite Hca. cbn [negb]. rewrite Hr.
  cbn [mbind outcome_bind negb]. by eexists.
Qed.

Definition truncated_env : start_env :=
  mkstart (fun _ => Some false) (fun _ => true) (fun _ => bs "KEYS")
    (fun _ => mkstdio true true true true) (fun _ _ => bs "K") (fun _ => []) true true.

Lemma http_start_short_read_witness :
  exists b, start_http_loop truncated_env idle_decoder tt tls_args http_responses_init
      = Ret (mkstarted (Some b) 0 http_responses_init) /\ b_listener b = None /\ b_daemon b = None.
Proof.
  apply (http_start_short_read truncated_env idle_decoder tt tls_args http_responses_init
    MHD_USE_POLL_INTERNALLY [(KEY_FILE, bs "key", 4); (CERT_FILE, bs "cert", 4)]
    [(KEY_FILE, bs "K" ++ zero_block 4)] (bs "key") (bs "cert")); vm_compute; reflexivity.
Defined.
