(* ===== verification/HttpProps.v ===== *)
(** * Requests through the HTTP listener

    The specification of a request, as the sequence of calls libmicrohttpd makes
    for it, and the theorems on the answers, on the data the decoder gets and on
    the resources, for any decoder and then for the decoders of the program. *)

From S2P Require Import Prelude CString KafkaArray TopicDb Pair Addr ZzJson ZzXml ZzSession Decoders HttpAuth Http.
From stdpp Require Import gmap.
#[local] Open Scope Z_scope.

(** ** A request *)

Section requests.
Context {jansson : Jansson} {alloc : Allocator} {zlib : Zlib} {gnutls : Gnutls} {Ses W Opq : Type}.
Context (static : static_responses) (fuel : nat).
Context (l : http_listener Ses W Opq) (con : MHD_Connection) (url : bytes).
Implicit Types (st : http_state Ses W).

Abbreviation request := (handle_request static fuel l con url).

(** The calls for the chunks of a body. *)
Fixpoint mhd_chunks (chunks : list bytes) st : outcome (http_state Ses W) :=
  match chunks with
  | [] => Ret st
  | chunk :: chunks =>
      '(_, st1) ← request (bs "POST") (Some chunk) st;
      mhd_chunks chunks st1
  end.

(** A POST with its body in chunks: when the first call leaves a connection block
    there is a call per chunk and a last one with no data. *)
Definition mhd_post (chunks : list bytes) st : outcome (http_state Ses W) :=
  '(_, st1) ← request (bs "POST") None st;
  match hs_ptr st1 with
  | PInfo _ =>
      st2 ← mhd_chunks chunks st1;
      '(_, st3) ← request (bs "POST") None st2;
      request_completed l st3
  | _ => request_completed l st1
  end.

(** A request without a body: two calls. *)
Definition mhd_get (method : bytes) st : outcome (http_state Ses W) :=
  '(_, st1) ← request method None st;
  '(_, st2) ← request method None st1;
  request_completed l st2.

(** ** What the decoder should see *)

(** The options of a request: its headers and then those of the listener. *)
Definition request_params (method client : bytes) : keyval_list :=
  map (fun kv => mkpair kv.1 kv.2) (mc_headers con) ++ listener_options method url (Some client).

(** The body is compressed. *)
Definition compressed : bool :=
  existsb (fun kv => match kv.2 with
                     | Some v => strcasecmp0 (bs "Content-Encoding") kv.1 &&
                                 (strcasecmp0 (bs "deflate") v || strcasecmp0 (bs "gzip") v)
                     | None => false end) (mc_headers con).

(** Decode pieces of a body one after the other, up to the first error: the error
    with the response, the session and the world. *)
Fixpoint decode_stream (lst : listener Ses W Opq) (params : keyval_list) (pieces : list bytes)
    (sess : option Ses) (w : W)
    : outcome (option (decoder_callback_err * (option bytes * Z)) * option Ses * W) :=
  match pieces with
  | [] => Ret (None, sess, w)
  | piece :: pieces =>
      r ← listener_decode lst w (Some piece) params true sess;
      if bool_decide (cb_rc r = DECODER_CALLBACK_OK)
      then decode_stream lst params pieces (cb_session r) (cb_world r)
      else Ret (Some (cb_rc r, update_response (None, 0) (cb_response r)), cb_session r, cb_world r)
  end.

(** The answer to a body that was decoded. *)
Definition answer (err : option (decoder_callback_err * (option bytes * Z))) : MHD_Response :=
  match err with
  | None => mkresponse MHD_HTTP_OK (empty_response static) []
  | Some (rc, (str, size)) =>
      mkresponse (decoder_err2http rc) [] (http_error_text (mkhttp_error 0 str size))
  end.

(** ** Lemmas *)

Lemma fold_iterator hs opts enable :
  fold_left connection_args_iterator hs (opts, enable) =
  (opts ++ map (fun kv => mkpair kv.1 kv.2) hs,
   enable || existsb (fun kv => match kv.2 with
                     | Some v => strcasecmp0 (bs "Content-Encoding") kv.1 &&
                                 (strcasecmp0 (bs "deflate") v || strcasecmp0 (bs "gzip") v)
                     | None => false end) hs).
Proof.
  revert opts enable. induction hs as [|[k v] hs IH]; intros opts enable.
  { cbn. by rewrite app_nil_r, orb_false_r. }
  cbn [fold_left connection_args_iterator]. rewrite IH. cbn [map existsb fst snd].
  rewrite <- app_assoc. cbn [app]. f_equal.
  destruct v as [v|]; [|by rewrite orb_false_l].
  destruct (strcasecmp0 _ k && _); [by rewrite orb_true_r|done].
Qed.

Lemma fold_add (opts acc : list pair) : fold_left add_key_value_pair opts acc = acc ++ opts.
Proof.
  revert acc. induction opts as [|p opts IH]; intros acc; cbn; [by rewrite app_nil_r|].
  rewrite IH. unfold add_key_value_pair. by rewrite <- app_assoc.
Qed.

Lemma decoder_opts_spec method client :
  decoder_opts con method url (Some client) =
  (request_params method client, compressed, request_params method client,
   zlen (mc_headers con) + 3).
Proof.
  unfold decoder_opts. rewrite fold_iterator. cbn [app orb]. by rewrite fold_add.
Qed.

Lemma decoder_err2http_nonzero rc : (decoder_err2http rc =? 0) = false.
Proof. by destruct rc. Qed.

Lemma http_error_text_code code1 code2 str size :
  http_error_text (mkhttp_error code1 str size) = http_error_text (mkhttp_error code2 str size).
Proof. done. Qed.

(** A queued error stops the decoding of the chunks that follow. *)
Lemma mhd_chunks_error chunks st c :
  hs_ptr st = PInfo c -> he_code (ci_http_error c) <> 0 -> Forall (fun b => b <> []) chunks ->
  mhd_chunks chunks st = Ret st.
Proof.
  intros Hp He Hc. induction Hc as [|b chunks Hb _ IH]; cbn [mhd_chunks]; [done|].
  unfold handle_request. change (strcmp0 (bs "POST") (bs "POST")) with true.
  unfold handle_post. rewrite Hp. cbn [default from_option id].
  destruct b as [|x b]; [done|]. rewrite zlen_cons. ztest.
  unfold handle_http_post_chunk, conn_info_has_queue_response.
  rewrite (proj2 (Z.eqb_neq _ 0)) by done. cbn [negb mbind outcome_bind]. exact IH.
Qed.

(** The chunks of a request whose decoder has sessions. *)
Lemma mhd_chunks_stream new_session chunks st c err sess w :
  dec_new_session (l_decoder (hl_listener l)) = Some new_session ->
  hs_ptr st = PInfo c -> ci_zlib c = None -> he_code (ci_http_error c) = 0 ->
  Forall (fun b => b <> []) chunks ->
  decode_stream (hl_listener l) (ci_decoder_params c) chunks (ci_decoder_sess c) (hs_world st)
    = Ret (err, sess, w) ->
  mhd_chunks chunks st = Ret (set_ptr (set_world st w) (PInfo (set_sess
    match err with
    | None => c
    | Some (rc, resp) => conn_info_queue_response c (decoder_err2http rc) resp.1 resp.2
    end sess))).
Proof.
  intros Hns. revert st c. induction chunks as [|b chunks IH]; intros st c Hp Hz He Hc Hd.
  { injection Hd as <- <- <-. cbn [mhd_chunks]. f_equal. destruct st, c. cbn in *. by subst. }
  apply list.Forall_cons in Hc as [Hb Hc]. cbn [mhd_chunks decode_stream] in *.
  unfold handle_request. change (strcmp0 (bs "POST") (bs "POST")) with true.
  unfold handle_post. rewrite Hp. cbn [default from_option id].
  destruct b as [|x b]; [done|]. rewrite zlen_cons. ztest.
  unfold handle_http_post_chunk, conn_info_has_queue_response. rewrite He, Hns, Hz.
  cbn [Z.eqb negb].
  destruct (listener_decode _ _ _ _ _ _) as [r|f|]; [|done..]. cbn [mbind outcome_bind] in *.
  destruct (bool_decide (cb_rc r = DECODER_CALLBACK_OK)) eqn:E; cbn [negb].
  - match goal with |- mhd_chunks chunks ?st1 = _ => rewrite (IH st1 (set_sess c (cb_session r))) end;
      [|done..]. destruct err as [[rc resp]|]; destruct st, c; done.
  - injection Hd as <- <- <-. destruct (update_response _ _) as [str size].
    erewrite mhd_chunks_error; [|reflexivity| |done].
    + destruct st, c. done.
    + cbn. pose proof (decoder_err2http_nonzero (cb_rc r)). lia.
Qed.

(** The request gets past the address, the certificate, the password and the
    allocation of its block. *)
Record admitted (client : bytes) : Prop := mkadmitted {
  adm_client : client_addr con = Some client;
  adm_tls : hl_client_tls_cert l = false \/ mc_verify_peers con = Some 0;
  adm_auth : match hl_htpasswd l with
             | None => True
             | Some db => exists user password, mc_basic_auth con = Some (user, password) /\
                            http_authenticate fuel user password db = Ret true
             end;
  adm_alloc : mc_alloc_ok con = true;
  adm_create : mc_create_ok con = true;
  adm_queue : mc_queue_ok con = true
}.

Lemma admitted_certificate client st : admitted client ->
  (if hl_client_tls_cert l then http_valid_client_certificate con st else (true, st)) = (true, st).
Proof.
  intros [_ [->| Hv] _ _ _ _]; [done|]. unfold http_valid_client_certificate. rewrite Hv.
  by destruct (hl_client_tls_cert l).
Qed.

(** The first call of an admitted request: the block is made, and the session if
    the decoder has sessions. *)
Lemma post_init_admitted client st : admitted client -> hs_ptr st = PNull ->
  request (bs "POST") None st =
  '(info, st2) ← create_connection_info (bs "POST") url client con st;
  match info with
  | inr create_error =>
      Ret (send_buffered_response con create_error MHD_HTTP_INTERNAL_SERVER_ERROR st2)
  | inl con_info =>
      match dec_new_session (l_decoder (hl_listener l)) with
      | Some new_session =>
          _ ← c_assert (negb (default 0 (dec_session_size (l_decoder (hl_listener l))) =? 0));
          '(session, w) ← new_session (hs_world st2) (l_decoder_opaque (hl_listener l))
                            (ci_decoder_params con_info);
          match session with
          | None => Ret (MHD_NO, set_ptr (free_con_info (set_world st2 w)) PNull)
          | Some s => Ret (MHD_YES, set_ptr (set_world st2 w) (PInfo (set_sess con_info (Some s))))
          end
      | None => Ret (MHD_YES, set_ptr st2 (PInfo con_info))
      end
  end.
Proof.
  intros Hadm Hp. unfold handle_request. change (strcmp0 (bs "POST") (bs "POST")) with true.
  unfold handle_post. rewrite Hp. unfold handle_http_post_init.
  rewrite (adm_client client Hadm), (admitted_certificate client st Hadm). cbn [negb].
  pose proof (adm_auth client Hadm) as Ha. destruct (hl_htpasswd l) as [db|].
  - destruct Ha as (user & password & -> & ->). done.
  - done.
Qed.

Lemma create_plain client st : mc_alloc_ok con = true -> compressed = false ->
  create_connection_info (bs "POST") url client con st =
  Ret (inl (mkinfo string_init.2 (request_params (bs "POST") client) None None
              (mkhttp_error 0 None 0) (request_params (bs "POST") client)),
       mkhs (hs_world st) (hs_ptr st) (hs_sent st) (hs_infos st + 1) (hs_zlibs st)).
Proof.
  intros Ha Hc. unfold create_connection_info. by rewrite Ha, decoder_opts_spec, Hc.
Qed.

(** The last call and the end of the request. *)
Lemma post_end_stream new_session st c err sess s w w3 :
  dec_new_session (l_decoder (hl_listener l)) = Some new_session ->
  mc_create_ok con = true -> mc_queue_ok con = true ->
  he_code (ci_http_error c) = 0 -> sess = Some s ->
  match dec_delete_session (l_decoder (hl_listener l)) with
  | Some delete_session => delete_session s w = Ret w3 | None => w3 = w end ->
  ('(_, st3) ← request (bs "POST") None (set_ptr (set_world st w) (PInfo (set_sess
    match err with
    | None => c
    | Some (rc, resp) => conn_info_queue_response c (decoder_err2http rc) resp.1 resp.2
    end sess)));
   request_completed l st3)
  = Ret (mkhs w3 PNull (hs_sent st ++ [answer err]) (hs_infos st - 1)
           match ci_zlib c with Some _ => inflateEnd (hs_zlibs st) | None => hs_zlibs st end).
Proof.
  intros Hns Hcr Hq He -> Hdel. unfold handle_request.
  change (strcmp0 (bs "POST") (bs "POST")) with true. unfold handle_post, set_ptr, set_world.
  cbn [hs_ptr default from_option id]. change (0 <? zlen (@nil byte)) with false. cbn iota.
  unfold handle_post_end. rewrite Hns.
  destruct err as [[rc [str size]]|].
  - cbn [set_sess conn_info_queue_response ci_http_error he_code].
    rewrite decoder_err2http_nonzero. cbn [negb mbind outcome_bind].
    unfold send_buffered_response, queue_response. rewrite Hcr, Hq.
    unfold request_completed. cbn [hs_ptr ci_decoder_sess set_sess ci_zlib conn_info_queue_response].
    destruct (dec_delete_session _) as [del|]; cbn [hs_world].
    + by rewrite Hdel.
    + by rewrite Hdel.
  - cbn [set_sess ci_http_error]. rewrite He. cbn [Z.eqb negb mbind outcome_bind].
    unfold send_http_ok, queue_response. rewrite Hq. cbn [snd].
    unfold request_completed. cbn [hs_ptr ci_decoder_sess set_sess ci_zlib set_world].
    destruct (dec_delete_session _) as [del|]; cbn [hs_world set_world].
    + by rewrite Hdel.
    + by rewrite Hdel.
Qed.

Lemma post_stream_spec client new_session n chunks st s w1 err s' w2 w3 :
  admitted client -> hs_ptr st = PNull -> compressed = false ->
  dec_new_session (l_decoder (hl_listener l)) = Some new_session ->
  dec_session_size (l_decoder (hl_listener l)) = Some n -> n <> 0 ->
  Forall (fun b => b <> []) chunks ->
  new_session (hs_world st) (l_decoder_opaque (hl_listener l)) (request_params (bs "POST") client)
    = Ret (Some s, w1) ->
  decode_stream (hl_listener l) (request_params (bs "POST") client) chunks (Some s) w1
    = Ret (err, Some s', w2) ->
  match dec_delete_session (l_decoder (hl_listener l)) with
  | Some delete_session => delete_session s' w2 = Ret w3 | None => w3 = w2 end ->
  mhd_post chunks st
  = Ret (mkhs w3 PNull (hs_sent st ++ [answer err]) (hs_infos st) (hs_zlibs st)).
Proof.
  intros Hadm Hp Hc Hns Hsz Hn Hne Hnew Hd Hdel. unfold mhd_post.
  rewrite (post_init_admitted client st Hadm Hp), create_plain by (done || apply Hadm).
  cbn [mbind outcome_bind]. rewrite Hns, Hsz. cbn [default from_option id].
  rewrite (proj2 (Z.eqb_neq n 0)) by done. cbn [negb c_assert mbind outcome_bind hs_world ci_decoder_params].
  rewrite Hnew. cbn [mbind outcome_bind hs_ptr set_ptr].
  rewrite (mhd_chunks_stream new_session _ _
    (mkinfo string_init.2 (request_params (bs "POST") client) None (Some s)
       (mkhttp_error 0 None 0) (request_params (bs "POST") client)) err (Some s') w2); [|done..].
  cbn [mbind outcome_bind].
  rewrite (post_end_stream new_session _ _ err _ s' w2 w3); [|done|apply Hadm|apply Hadm|done..].
  do 2 f_equal. cbn. lia.
Qed.

(** The block of a request, compressed or not, when inflate can be initialised. *)
Lemma create_any client st : mc_alloc_ok con = true -> inflateInit2.1 = Z_OK ->
  create_connection_info (bs "POST") url client con st =
  Ret (inl (mkinfo string_init.2 (request_params (bs "POST") client)
              (if compressed then Some inflateInit2.2 else None) None
              (mkhttp_error 0 None 0) (request_params (bs "POST") client)),
       mkhs (hs_world st) (hs_ptr st) (hs_sent st) (hs_infos st + 1)
         (if compressed then hs_zlibs st + 1 else hs_zlibs st)).
Proof.
  intros Ha Hi. unfold create_connection_info. rewrite Ha, decoder_opts_spec.
  destruct compressed; [|done]. cbn [negb]. destruct inflateInit2 as [rc strm]. cbn [fst snd] in *.
  subst rc. by rewrite bool_decide_true.
Qed.

(** Without sessions the chunks are gathered in the string of the connection. *)
Lemma mhd_chunks_gather chunks st c acc :
  never_fails alloc -> dec_new_session (l_decoder (hl_listener l)) = None ->
  hs_ptr st = PInfo c -> he_code (ci_http_error c) = 0 -> string_inv (ci_str c) ->
  contents (ci_str c) = acc -> zlen acc + zlen (concat chunks) <= size_limit ->
  Forall (fun b => b <> []) chunks ->
  exists str, mhd_chunks chunks st = Ret (set_ptr st (PInfo (set_str c str))) /\
    string_inv str /\ contents str = acc ++ concat chunks.
Proof.
  intros Hnf Hns. revert st c acc. induction chunks as [|b chunks IH];
    intros st c acc Hp He Hi Hacc Hlim Hne.
  { exists (ci_str c). cbn [mhd_chunks concat]. rewrite app_nil_r. split_and!; try done.
    f_equal. destruct st, c. cbn in *. by subst. }
  apply list.Forall_cons in Hne as [Hb Hne]. cbn [mhd_chunks concat] in *. rewrite zlen_app in Hlim.
  unfold handle_request. change (strcmp0 (bs "POST") (bs "POST")) with true.
  unfold handle_post. rewrite Hp. cbn [default from_option id]. zlen_facts.
  assert (Hpos : (0 <? zlen b) = true) by (destruct b; [done|]; rewrite zlen_cons; zlia). rewrite Hpos.
  unfold handle_http_post_chunk, conn_info_has_queue_response. rewrite He, Hns. cbn [Z.eqb negb].
  destruct (string_append_contents (ci_str c) b acc Hnf Hi Hacc) as (s1 & -> & Hi1 & Hc1); [lia|].
  cbn [mbind outcome_bind Z.eqb]. rewrite bool_decide_true by done. cbn [negb].
  match goal with |- context [mhd_chunks chunks ?st1] =>
    destruct (IH st1 (set_str c s1) (acc ++ b)) as (str & -> & Hi2 & Hc2) end; try done.
  { rewrite zlen_app. lia. }
  exists str. rewrite app_assoc. by split_and!.
Qed.

Lemma post_whole_spec client chunks st r :
  never_fails alloc -> admitted client -> hs_ptr st = PNull -> inflateInit2.1 = Z_OK ->
  dec_new_session (l_decoder (hl_listener l)) = None ->
  dec_delete_session (l_decoder (hl_listener l)) = None ->
  Forall (fun b => b <> []) chunks -> chunks <> [] -> zlen (concat chunks) <= size_limit ->
  listener_decode (hl_listener l) (hs_world st) (Some (concat chunks))
    (request_params (bs "POST") client) false None = r ->
  mhd_post chunks st
  = res ← r; Ret (mkhs (cb_world res) PNull (hs_sent st ++ [answer None]) (hs_infos st) (hs_zlibs st)).
Proof.
  intros Hnf Hadm Hp Hi Hns Hds Hne Hnil Hlim Hr. unfold mhd_post.
  rewrite (post_init_admitted client st Hadm Hp), create_any by (done || apply Hadm).
  cbn [mbind outcome_bind]. rewrite Hns. cbn [mbind outcome_bind hs_ptr set_ptr].
  match goal with |- context [mhd_chunks chunks ?st1] =>
    destruct (mhd_chunks_gather chunks st1 (mkinfo string_init.2 (request_params (bs "POST") client)
      (if compressed then Some inflateInit2.2 else None) None (mkhttp_error 0 None 0)
      (request_params (bs "POST") client)) []) as (str & -> & Hsi & Hsc) end;
    try done; try apply string_init_inv.
  cbn [mbind outcome_bind app] in *. unfold handle_request.
  change (strcmp0 (bs "POST") (bs "POST")) with true. unfold handle_post, set_ptr.
  cbn [hs_ptr default from_option id]. change (0 <? zlen (@nil byte)) with false. cbn iota.
  unfold handle_post_end. rewrite Hns. cbn [set_str ci_http_error he_code Z.eqb negb ci_str].
  assert (Hbuf : match str_buf str with None => None | Some _ => Some (contents str) end
                 = Some (concat chunks)).
  { rewrite <- Hsc. destruct (str_buf str) eqn:E; [done|].
    assert (contents str = []) as H0 by (unfold contents; by rewrite E).
    rewrite Hsc in H0. destruct Hne as [|b bs Hb _]; [done|]. by destruct b. }
  rewrite Hbuf. cbn [hs_world ci_decoder_params set_str]. rewrite Hr.
  destruct r as [res|f|]; [|done..]. cbn [mbind outcome_bind].
  unfold send_http_ok, queue_response. rewrite (adm_queue client Hadm). cbn [snd].
  unfold request_completed. cbn [hs_ptr set_world ci_zlib set_str ci_decoder_sess].
  rewrite Hds. cbn [mbind outcome_bind]. unfold inflateEnd. rewrite Hi. rewrite bool_decide_true by done.
  unfold set_ptr, free_con_info.
  destruct compressed; cbn [hs_world hs_ptr hs_sent hs_infos hs_zlibs set_world].
  all: repeat f_equal; lia.
Qed.

End requests.

(** ** Compressed bodies *)

(** What zlib documents of [inflate] on correct data: it gives as much of the
    output as there is room for, keeps the rest for the next call, and reports
    [Z_BUF_ERROR] when it can make no progress: no input is left, no output is
    pending and the end of the stream was not reached. *)
Class ZlibSpec {zlib : Zlib} := {
  z_valid : z_stream -> bytes -> bool;
  z_output : z_stream -> bytes -> bytes;
  z_done : z_stream -> bool;
  inflate_progress : forall s input room,
    z_valid s input = true -> 0 < room ->
    (input <> [] \/ z_output s input <> [] \/ z_done s = true) ->
    exists status rest s', inflate s input room = (status, ztake room (z_output s input), rest, s') /\
      (status = Z_OK \/ status = Z_STREAM_END) /\ z_valid s' rest = true /\
      z_output s' rest = zdrop room (z_output s input);
  inflate_stuck : forall s room,
    z_valid s [] = true -> 0 < room -> z_output s [] = [] -> z_done s = false ->
    inflate s [] room = (Z_BUF_ERROR, [], [], s)
}.

Section compressed.
Context {jansson : Jansson} {zlib : Zlib} {spec : ZlibSpec} {Ses W Opq : Type}.
Context (lst : listener Ses W Opq) (params : keyval_list).

(** A decoder that only answers with a text when it fails. *)
Definition quiet : Prop := forall w b sess r,
  listener_decode lst w (Some b) params true sess = Ret r ->
  cb_rc r = DECODER_CALLBACK_OK -> cb_response r = None.

(** The same for these pieces of a body, one after the other. *)
Fixpoint quiet_on (pieces : list bytes) (sess : option Ses) (w : W) : Prop :=
  match pieces with
  | [] => True
  | piece :: pieces =>
      forall r, listener_decode lst w (Some piece) params true sess = Ret r ->
        cb_rc r = DECODER_CALLBACK_OK ->
        cb_response r = None /\ quiet_on pieces (cb_session r) (cb_world r)
  end.

Lemma quiet_everywhere pieces sess w : quiet -> quiet_on pieces sess w.
Proof.
  intros Hq. revert sess w. induction pieces as [|p pieces IH]; intros sess w; [done|].
  intros r Hr Hok. split; [by eapply Hq|apply IH].
Qed.

(** The code and the response of a decoded body. *)
Definition stream_result (err : option (decoder_callback_err * (option bytes * Z)))
    : decoder_callback_err * (option bytes * Z) :=
  match err with
  | None => (DECODER_CALLBACK_OK, (None, 0))
  | Some e => e
  end.

(** A text in pieces of the size of the buffer. *)
Fixpoint cut (n : nat) (D : bytes) : list bytes :=
  match n with
  | O => []
  | Datatypes.S n =>
      match D with
      | [] => []
      | _ => ztake ZLIB_CHUNK D :: cut n (zdrop ZLIB_CHUNK D)
      end
  end.

Lemma chunk_pos : 0 < ZLIB_CHUNK.
Proof. done. Qed.

Lemma zlen_zdrop_max {A} n (D : list A) : 0 <= n -> zlen (zdrop n D) = Z.max 0 (zlen D - n).
Proof. intros. unfold zlen, zdrop. rewrite length_drop. lia. Qed.

Lemma cut_concat n D : zlen D <= ZLIB_CHUNK * Z.of_nat n -> concat (cut n D) = D.
Proof.
  pose proof chunk_pos as HC. revert D. induction n as [|n IH]; intros D H.
  { symmetry. apply zlen_zero. zlen_facts. lia. }
  cbn [cut]. destruct D as [|x D]; [done|]. cbn [concat]. rewrite IH, ztake_zdrop; [done|].
  rewrite zlen_zdrop_max by lia. lia.
Qed.

(** The state of inflate after the calls for an input: the last one does not fill the
    buffer. *)
Inductive inflate_to : z_stream -> bytes -> z_stream -> Prop :=
| to_last s input status out rest s1 :
    inflate s input ZLIB_CHUNK = (status, out, rest, s1) -> zlen out <> ZLIB_CHUNK ->
    inflate_to s input s1
| to_more s input status out rest s1 s' :
    inflate s input ZLIB_CHUNK = (status, out, rest, s1) -> zlen out = ZLIB_CHUNK ->
    inflate_to s1 rest s' -> inflate_to s input s'.

(** The chunks of a body decompress to a text, that the decoder gets in pieces. *)
Inductive inflates (fuel : nat) : z_stream -> list bytes -> bytes -> list bytes -> Prop :=
| inflates_end s : inflates fuel s [] [] []
| inflates_chunk s data chunks text pieces :
    z_valid s data = true -> data <> [] -> zlen (z_output s data) < ZLIB_CHUNK * Z.of_nat fuel ->
    (z_output s data = [] \/ zlen (z_output s data) mod ZLIB_CHUNK <> 0) ->
    (forall s', inflate_to s data s' -> inflates fuel s' chunks text pieces) ->
    inflates fuel s (data :: chunks) (z_output s data ++ text) (cut fuel (z_output s data) ++ pieces).

Lemma inflate_to_exists fuel strm input :
  z_valid strm input = true -> (input <> [] \/ z_output strm input <> [] \/ z_done strm = true) ->
  zlen (z_output strm input) < ZLIB_CHUNK * Z.of_nat fuel ->
  (z_output strm input = [] \/ zlen (z_output strm input) mod ZLIB_CHUNK <> 0) ->
  exists strm', inflate_to strm input strm'.
Proof.
  revert strm input. pose proof chunk_pos as HC.
  induction fuel as [|fuel IH]; intros strm input Hv Hp Hf Hm; [zlen_facts; lia|].
  destruct (inflate_progress strm input ZLIB_CHUNK Hv HC Hp) as (status & rest & strm1 & Hi & _ & Hv1 & Ho1).
  destruct (Z.le_gt_cases ZLIB_CHUNK (zlen (z_output strm input))) as [Hge|Hlt].
  - pose proof (zlen_zdrop ZLIB_CHUNK (z_output strm input)) as Hd.
    destruct Hm as [Hm|Hm]; [rewrite Hm, zlen_nil in Hge; lia|].
    assert (Hmod : zlen (zdrop ZLIB_CHUNK (z_output strm input)) mod ZLIB_CHUNK <> 0).
    { rewrite Hd by lia. replace (zlen (z_output strm input) - ZLIB_CHUNK)
        with (zlen (z_output strm input) + (-1) * ZLIB_CHUNK) by lia. by rewrite Z.mod_add by lia. }
    destruct (IH strm1 rest) as (strm' & Hto); rewrite ?Ho1; [done| |lia|by right|].
    { right; left. intros Hz0. rewrite Hz0 in Hmod. by apply Hmod. }
    exists strm'. eapply to_more; [exact Hi|by rewrite zlen_ztake by lia|done].
  - exists strm1. eapply to_last; [exact Hi|]. rewrite ztake_all by lia. lia.
Qed.

Lemma inflates_concat fuel strm chunks text pieces :
  inflates fuel strm chunks text pieces -> concat pieces = text.
Proof.
  induction 1 as [|strm data chunks text pieces Hv Hne Hf Hm _ IH]; [done|].
  destruct (inflate_to_exists fuel strm data) as (strm' & Hto); [done|by left|done|done|].
  rewrite concat_app, (IH strm' Hto), cut_concat by lia. done.
Qed.

Lemma inflate_loop_pieces fuel strm input sess w err sess' w' :
  quiet_on (cut fuel (z_output strm input)) sess w -> z_valid strm input = true ->
  (input <> [] \/ z_output strm input <> [] \/ z_done strm = true) ->
  zlen (z_output strm input) < ZLIB_CHUNK * Z.of_nat fuel ->
  (z_output strm input = [] \/ zlen (z_output strm input) mod ZLIB_CHUNK <> 0) ->
  decode_stream lst params (cut fuel (z_output strm input)) sess w = Ret (err, sess', w') ->
  exists strm', inflate_loop fuel lst params strm input (None, 0) sess w
    = Ret ((stream_result err).1, (stream_result err).2, strm', sess', w') /\
    (err = None -> inflate_to strm input strm').
Proof.
  revert strm input sess w. pose proof chunk_pos as HC.
  induction fuel as [|fuel IH]; intros strm input sess w Hq Hv Hp Hf Hm Hs; [zlen_facts; lia|].
  destruct (inflate_progress strm input ZLIB_CHUNK Hv HC Hp)
    as (status & rest & strm1 & Hi & Hstat & Hv1 & Ho1).
  pose proof (fun sess w Hq => IH strm1 rest sess w Hq Hv1) as IH1. rewrite Ho1 in IH1.
  assert (Hnz : negb (bool_decide (status = Z_OK)) && negb (bool_decide (status = Z_STREAM_END)) = false).
  { by destruct Hstat as [-> | ->]. }
  cbn [inflate_loop]. rewrite Hi, Hnz. cbn [cut] in Hs, Hq.
  destruct (z_output strm input) as [|x D0] eqn:HD.
  { injection Hs as <- <- <-. exists strm1. split; [done|]. intros _. by eapply to_last. }
  rewrite <- HD in *. clear Hp. set (D := z_output strm input) in *.
  destruct Hm as [Hm|Hm]; [by rewrite HD in Hm|].
  assert (Hpos : (zlen (ztake ZLIB_CHUNK D) =? 0) = false).
  { rewrite HD. apply Z.eqb_neq. unfold ztake, zlen. destruct (Z.to_nat ZLIB_CHUNK) eqn:E; [lia|done]. }
  rewrite Hpos. cbn [negb decode_stream] in *.
  destruct (listener_decode lst w (Some (ztake ZLIB_CHUNK D)) params true sess) as [r|f|] eqn:E; [|done..].
  cbn [mbind outcome_bind] in *.
  destruct (bool_decide (cb_rc r = DECODER_CALLBACK_OK)) eqn:Eok; cbn [negb] in *.
  2:{ injection Hs as <- <- <-. exists strm1. by split. }
  apply bool_decide_eq_true in Eok. destruct (Hq r E Eok) as [-> Hq']. cbn [update_response]. zlen_facts.
  destruct (Z.le_gt_cases ZLIB_CHUNK (zlen D)) as [Hge|Hlt].
  - rewrite zlen_ztake, Z.eqb_refl by lia. pose proof (zlen_zdrop ZLIB_CHUNK D) as Hd.
    assert (Hmod : zlen (zdrop ZLIB_CHUNK D) mod ZLIB_CHUNK <> 0).
    { rewrite Hd by lia. replace (zlen D - ZLIB_CHUNK) with (zlen D + (-1) * ZLIB_CHUNK) by lia.
      by rewrite Z.mod_add by lia. }
    destruct (IH1 (cb_session r) (cb_world r) Hq') as (strm' & Hl & Hto); [|lia|by right|done|].
    { right; left. intros Hz0. rewrite Hz0 in Hmod. by apply Hmod. }
    exists strm'. split; [done|]. intros He. eapply to_more; [exact Hi| |by apply Hto].
    by rewrite zlen_ztake by lia.
  - rewrite ztake_all by lia. rewrite (proj2 (Z.eqb_neq _ _)) by lia.
    assert (Hd0 : zdrop ZLIB_CHUNK D = []).
    { apply zlen_zero. rewrite zlen_zdrop_max by lia. lia. }
    rewrite Hd0 in Hs. exists strm1. split.
    + destruct fuel; cbn in Hs; injection Hs as <- <- <-; by rewrite Eok.
    + intros _. eapply to_last; [exact Hi|]. rewrite ztake_all by lia. lia.
Qed.

End compressed.

(** ** A compressed request *)

Section compressed_post.
Context {jansson : Jansson} {alloc : Allocator} {zlib : Zlib} {spec : ZlibSpec} {gnutls : Gnutls}
  {Ses W Opq : Type}.
Context (static : static_responses) (fuel : nat).
Context (l : http_listener Ses W Opq) (con : MHD_Connection) (url : bytes).
Implicit Types (st : http_state Ses W).

Lemma decode_stream_app lst params a b sess w :
  decode_stream (Ses := Ses) (W := W) (Opq := Opq) lst params (a ++ b) sess w =
    '(err, sess1, w1) ← decode_stream lst params a sess w;
    match err with
    | None => decode_stream lst params b sess1 w1
    | Some e => Ret (Some e, sess1, w1)
    end.
Proof.
  revert sess w. induction a as [|x a IH]; intros sess w; [done|]. cbn [app decode_stream].
  destruct (listener_decode _ _ _ _ _ _) as [r|f|]; [|done..]. cbn [mbind outcome_bind].
  case_bool_decide; [apply IH|done].
Qed.

(** One compressed chunk. *)
Lemma compressed_chunk new_session st c strm data err sess w :
  dec_new_session (l_decoder (hl_listener l)) = Some new_session ->
  quiet_on (hl_listener l) (ci_decoder_params c) (cut fuel (z_output strm data)) (ci_decoder_sess c)
    (hs_world st) -> hs_ptr st = PInfo c -> ci_zlib c = Some strm ->
  he_code (ci_http_error c) = 0 -> z_valid strm data = true -> data <> [] ->
  zlen (z_output strm data) < ZLIB_CHUNK * Z.of_nat fuel ->
  (z_output strm data = [] \/ zlen (z_output strm data) mod ZLIB_CHUNK <> 0) ->
  decode_stream (hl_listener l) (ci_decoder_params c) (cut fuel (z_output strm data)) (ci_decoder_sess c)
    (hs_world st) = Ret (err, sess, w) ->
  exists strm', handle_request static fuel l con url (bs "POST") (Some data) st
      = Ret (MHD_YES, set_ptr (set_world st w) (PInfo (set_sess
          match err with
          | None => set_zlib c (Some strm')
          | Some (rc, resp) => conn_info_queue_response (set_zlib c (Some strm')) (decoder_err2http rc) resp.1 resp.2
          end sess))) /\
    (err = None -> inflate_to strm data strm').
Proof.
  intros Hns Hq Hp Hz He Hv Hne Hf Hm Hd.
  destruct (inflate_loop_pieces (hl_listener l) (ci_decoder_params c) fuel strm data (ci_decoder_sess c)
    (hs_world st) err sess w) as (strm' & Hl & Hto); auto.
  exists strm'. split; [|done]. unfold handle_request. change (strcmp0 (bs "POST") (bs "POST")) with true.
  unfold handle_post. rewrite Hp. cbn [default from_option id].
  assert (0 < zlen data) by (destruct data; [done|]; zlia). ztest.
  unfold handle_http_post_chunk, conn_info_has_queue_response. rewrite He, Hns, Hz. cbn [Z.eqb negb].
  unfold compressed_callback. rewrite Hl. cbn [mbind outcome_bind].
  destruct err as [[rc resp]|]; cbn [stream_result fst snd].
  - assert (rc <> DECODER_CALLBACK_OK) as Hrc.
    { clear - Hd. revert Hd. generalize (ci_decoder_sess c), (hs_world st).
      induction (cut fuel (z_output strm data)) as [|x p IH]; intros s0 w0; [done|]. cbn [decode_stream].
      destruct (listener_decode _ _ _ _ _ _) as [r|f|]; [|done..]. cbn [mbind outcome_bind].
      case_bool_decide; [apply IH|]. by intros [= <- _ _ _]. }
    rewrite bool_decide_false by done. done.
  - done.
Qed.

(** The chunks of a compressed body. *)
Lemma mhd_chunks_compressed new_session chunks st c strm text pieces err sess w :
  dec_new_session (l_decoder (hl_listener l)) = Some new_session ->
  quiet (hl_listener l) (ci_decoder_params c) -> hs_ptr st = PInfo c -> ci_zlib c = Some strm ->
  he_code (ci_http_error c) = 0 -> Forall (fun b => b <> []) chunks ->
  inflates fuel strm chunks text pieces ->
  decode_stream (hl_listener l) (ci_decoder_params c) pieces (ci_decoder_sess c) (hs_world st)
    = Ret (err, sess, w) ->
  concat pieces = text /\
  exists strm', mhd_chunks static fuel l con url chunks st = Ret (set_ptr (set_world st w)
    (PInfo (set_sess
      match err with
      | None => set_zlib c (Some strm')
      | Some (rc, resp) => conn_info_queue_response (set_zlib c (Some strm')) (decoder_err2http rc) resp.1 resp.2
      end sess))).
Proof.
  intros Hns Hq Hp Hz He Hne Hinf Hd. split; [by eapply inflates_concat|].
  revert st c Hq Hp Hz He Hne Hd.
  induction Hinf as [strm|strm data chunks text pieces Hv Hdne Hf Hm _ IH]; intros st c Hq Hp Hz He Hne Hd.
  { injection Hd as <- <- <-. exists strm. cbn [mhd_chunks]. f_equal. destruct st, c. cbn in *. by subst. }
  apply list.Forall_cons in Hne as [_ Hne]. rewrite decode_stream_app in Hd.
  destruct (decode_stream _ _ (cut _ _) _ _) as [[[err1 sess1] w1]|f|] eqn:Ed; [|done..].
  cbn [mbind outcome_bind] in Hd. cbn [mhd_chunks].
  destruct (compressed_chunk new_session st c strm data err1 sess1 w1)
    as (strm1 & Hr & Hto); try done; [by apply quiet_everywhere|]. rewrite Hr. cbn [mbind outcome_bind].
  destruct err1 as [[rc resp]|].
  - injection Hd as <- <- <-. exists strm1. eapply mhd_chunks_error; [reflexivity| |done].
    cbn. pose proof (decoder_err2http_nonzero rc). lia.
  - match goal with |- context [mhd_chunks _ _ _ _ _ chunks ?st1] =>
      destruct (IH strm1 (Hto eq_refl) st1 (set_sess (set_zlib c (Some strm1)) sess1)) as (strm' & ->) end;
      try done. exists strm'. by destruct err as [[rc resp]|], st, c.
Qed.

(** A whole POST with a compressed body. *)
Lemma post_compressed_spec client new_session n chunks text pieces st s w1 err s' w2 w3 :
  admitted fuel l con client -> hs_ptr st = PNull -> compressed con = true -> inflateInit2.1 = Z_OK ->
  dec_new_session (l_decoder (hl_listener l)) = Some new_session ->
  dec_session_size (l_decoder (hl_listener l)) = Some n -> n <> 0 ->
  quiet (hl_listener l) (request_params con url (bs "POST") client) ->
  Forall (fun b => b <> []) chunks -> inflates fuel inflateInit2.2 chunks text pieces ->
  new_session (hs_world st) (l_decoder_opaque (hl_listener l)) (request_params con url (bs "POST") client)
    = Ret (Some s, w1) ->
  decode_stream (hl_listener l) (request_params con url (bs "POST") client) pieces (Some s) w1
    = Ret (err, Some s', w2) ->
  match dec_delete_session (l_decoder (hl_listener l)) with
  | Some delete_session => delete_session s' w2 = Ret w3 | None => w3 = w2 end ->
  concat pieces = text /\
  mhd_post static fuel l con url chunks st
    = Ret (mkhs w3 PNull (hs_sent st ++ [answer static err]) (hs_infos st) (hs_zlibs st)).
Proof.
  intros Hadm Hp Hc Hi Hns Hsz Hn Hq Hne Hinf Hnew Hd Hdel. unfold mhd_post.
  rewrite (post_init_admitted static fuel l con url client st Hadm Hp), create_any by (done || apply Hadm).
  rewrite Hc. cbn [mbind outcome_bind]. rewrite Hns, Hsz. cbn [default from_option id].
  rewrite (proj2 (Z.eqb_neq n 0)) by done. cbn [negb c_assert mbind outcome_bind hs_world ci_decoder_params].
  rewrite Hnew. cbn [mbind outcome_bind hs_ptr set_ptr].
  match goal with |- context [mhd_chunks _ _ _ _ _ chunks ?st1] =>
    destruct (mhd_chunks_compressed new_session chunks st1
      (mkinfo string_init.2 (request_params con url (bs "POST") client) (Some inflateInit2.2) (Some s)
         (mkhttp_error 0 None 0) (request_params con url (bs "POST") client))
      inflateInit2.2 text pieces err (Some s') w2) as (Ht & strm' & ->) end; try done.
  split; [done|]. cbn [mbind outcome_bind].
  rewrite (post_end_stream static fuel l con url new_session _ _ err _ s' w2 w3);
    [|done|apply Hadm|apply Hadm|done..].
  cbn [ci_zlib set_zlib]. unfold inflateEnd. rewrite bool_decide_true by done.
  do 2 f_equal; cbn; lia.
Qed.
End compressed_post.

(** ** Parameters of the examples *)

(** A decoder that gathers the chunks of a session, refuses the chunk [bad] and
    leaves the chunks of the ended sessions in the world. *)
#[local] Instance unit_jansson : Jansson := {|
  json_t := unit; json_object_get _ _ := None; json_string_value _ := None
|}.

Definition gather_callback (w : list (list bytes)) (buffer : option bytes) (props : keyval_list)
    (opaque : option unit) (ptrs : bool) (sess : option (list bytes))
    : outcome (cb_result (list bytes) (list (list bytes))) :=
  let data := default [] buffer in
  if bool_decide (data = bs "bad")
  then set_response_ptrs ptrs
         (mkcb_result DECODER_CALLBACK_INVALID_REQUEST (Some (Some (bs "no"))) sess w)
  else Ret (mkcb_result DECODER_CALLBACK_OK None (Some (default [] sess ++ [data])) w).

Definition gather_decoder : n2k_decoder (list bytes) (list (list bytes)) unit :=
  mkdecoder (bs "gather") gather_callback None None None
    (Some (fun w _ _ => Ret (Some [], w))) (Some (fun s w => Ret (w ++ [s]))) (Some 16).

(** The same without sessions: the body goes to the world. *)
Definition whole_decoder : n2k_decoder unit (list bytes) unit :=
  mkdecoder (bs "whole") (fun w buffer _ _ _ s =>
    Ret (mkcb_result DECODER_CALLBACK_GENERIC_ERROR None s (w ++ [default [] buffer])))
    None None None None None None.

(** Data that is stored, not compressed. *)
Definition stored_inflate (s input : bytes) (room : Z) : z_status * bytes * bytes * bytes :=
  match s ++ input with
  | [] => (Z_BUF_ERROR, [], [], s)
  | D => (Z_OK, ztake room D, [], zdrop room D)
  end.

Lemma stored_room s input room : 0 <= room -> zlen (stored_inflate s input room).1.1.2 <= room.
Proof.
  intros H. unfold stored_inflate. destruct (s ++ input) as [|x D]; cbn [fst snd]; [done|].
  unfold ztake, zlen. rewrite length_take. lia.
Qed.

#[local] Instance stored_zlib : Zlib := {|
  z_stream := bytes; inflateInit2 := (Z_OK, []); inflate := stored_inflate;
  inflate_room := stored_room
|}.

Lemma stored_progress (s input : bytes) (room : Z) :
  0 < room -> (input <> [] \/ s ++ input <> [] \/ false = true) ->
  exists status rest s', stored_inflate s input room = (status, ztake room (s ++ input), rest, s') /\
    (status = Z_OK \/ status = Z_STREAM_END) /\ true = true /\
    s' ++ rest = zdrop room (s ++ input).
Proof.
  intros Hroom H. unfold stored_inflate. destruct (s ++ input) as [|x D] eqn:E.
  - exfalso. destruct H as [H|[H|H]]; [|done|done]. by apply app_eq_nil in E as [_ E].
  - eexists Z_OK, [], _. split; [reflexivity|]. rewrite app_nil_r. auto.
Qed.

Lemma stored_stuck (s : bytes) (room : Z) : s ++ [] = [] ->
  stored_inflate s [] room = (Z_BUF_ERROR, [], [], s).
Proof. intros H. unfold stored_inflate. by rewrite H. Qed.

#[local] Instance stored_spec : ZlibSpec := {|
  z_valid _ _ := true; z_output (s : @z_stream stored_zlib) input := s ++ input; z_done _ := false;
  inflate_progress s input room _ := stored_progress s input room;
  inflate_stuck s room _ _ H _ := stored_stuck s room H
|}.

#[local] Instance no_flags : Gnutls := {| cert_flag _ := 1 |}.

Definition shared_responses : static_responses :=
  mkstatic [] [(bs "Allow", bs "GET, POST")] [(bs "Allow", bs "POST")]
    [(bs "WWW-Authenticate", bs "Basic")].

Definition plain_con : MHD_Connection :=
  mkconn (Some (SOCKADDR_IN 16777226 40000)) None [(bs "Host", Some (bs "h"))] None true true true.

Definition gather_listener : http_listener (list bytes) (list (list bytes)) unit :=
  mkhl (mklistener gather_decoder None 2057) None false.

Definition idle_state {zlib : Zlib} {Ses W} (w : W) : http_state Ses W := mkhs w PNull [] 0 0.

(** ** Properties *)

(** C5: a POST to a decoder with sessions behaves as if the chunks of its body
    were decoded one by one in a new session.  The decoder gets exactly the
    chunks up to the first error, in order; the answer is 200 when there was no
    error, and otherwise the HTTP code and the text of the first error, whatever
    comes after it; the session is deleted and the block of the connection is
    released. *)
Theorem post_streamed {jansson : Jansson} {alloc : Allocator} {zlib : Zlib} {gnutls : Gnutls}
    {Ses W Opq : Type} (static : static_responses) (fuel : nat) (l : http_listener Ses W Opq)
    (con : MHD_Connection) (url client : bytes) (new_session : W -> option Opq -> keyval_list ->
      outcome (option Ses * W)) (n : Z) (chunks : list bytes) (st : http_state Ses W)
    (s s' : Ses) (w1 w2 w3 : W) (err : option (decoder_callback_err * (option bytes * Z))) :
  admitted fuel l con client -> hs_ptr st = PNull -> compressed con = false ->
  dec_new_session (l_decoder (hl_listener l)) = Some new_session ->
  dec_session_size (l_decoder (hl_listener l)) = Some n -> n <> 0 ->
  Forall (fun b => b <> []) chunks ->
  new_session (hs_world st) (l_decoder_opaque (hl_listener l))
    (request_params con url (bs "POST") client) = Ret (Some s, w1) ->
  decode_stream (hl_listener l) (request_params con url (bs "POST") client) chunks (Some s) w1
    = Ret (err, Some s', w2) ->
  match dec_delete_session (l_decoder (hl_listener l)) with
  | Some delete_session => delete_session s' w2 = Ret w3 | None => w3 = w2 end ->
  mhd_post static fuel l con url chunks st
  = Ret (mkhs w3 PNull (hs_sent st ++ [answer static err]) (hs_infos st) (hs_zlibs st)).
Proof. apply post_stream_spec. Qed.

Lemma post_streamed_witness :
  mhd_post shared_responses 9 gather_listener plain_con (bs "/x")
    [bs "a"; bs "bc"; bs "bad"; bs "d"] (idle_state [])
  = Ret (mkhs [[bs "a"; bs "bc"]] PNull [mkresponse 400 [] (bs "no")] 0 0).
Proof.
  apply (post_streamed shared_responses 9 gather_listener plain_con (bs "/x") (bs "10.0.0.1")
    (fun w _ _ => Ret (Some [], w)) 16 [bs "a"; bs "bc"; bs "bad"; bs "d"] (idle_state []) []
    [bs "a"; bs "bc"] [] [] [[bs "a"; bs "bc"]]
    (Some (DECODER_CALLBACK_INVALID_REQUEST, (Some (bs "no"), 2)))).
  - constructor; [reflexivity|by left|exact I|reflexivity..].
  - reflexivity.
  - reflexivity.
  - reflexivity.
  - reflexivity.
  - discriminate.
  - repeat constructor; discriminate.
  - reflexivity.
  - reflexivity.
  - reflexivity.
Defined.

(** A decoder without sessions gets the body of a POST in one piece, the
    concatenation of all its chunks, still compressed if it was, and the answer
    is 200 whatever the decoder returned; if the decoder faults, so does the
    listener. *)
Theorem post_whole_body {jansson : Jansson} {alloc : Allocator} {zlib : Zlib} {gnutls : Gnutls}
    {Ses W Opq : Type} (static : static_responses) (fuel : nat) (l : http_listener Ses W Opq)
    (con : MHD_Connection) (url client : bytes) (chunks : list bytes) (st : http_state Ses W)
    (r : outcome (cb_result Ses W)) :
  never_fails alloc -> admitted fuel l con client -> hs_ptr st = PNull -> inflateInit2.1 = Z_OK ->
  dec_new_session (l_decoder (hl_listener l)) = None ->
  dec_delete_session (l_decoder (hl_listener l)) = None ->
  Forall (fun b => b <> []) chunks -> chunks <> [] -> zlen (concat chunks) <= size_limit ->
  listener_decode (hl_listener l) (hs_world st) (Some (concat chunks))
    (request_params con url (bs "POST") client) false None = r ->
  mhd_post static fuel l con url chunks st
  = res ← r; Ret (mkhs (cb_world res) PNull (hs_sent st ++ [answer static None])
                    (hs_infos st) (hs_zlibs st)).
Proof. apply post_whole_spec. Qed.

Lemma post_whole_body_witness :
  mhd_post shared_responses 9 (mkhl (mklistener whole_decoder None 2057) None false) plain_con (bs "/x")
    [bs "a"; bs "bc"] (idle_state [])
  = Ret (mkhs [bs "abc"] PNull [mkresponse 200 [] []] 0 0).
Proof.
  apply (post_whole_body shared_responses 9 (mkhl (mklistener whole_decoder None 2057) None false)
    plain_con (bs "/x") (bs "10.0.0.1") [bs "a"; bs "bc"] (idle_state [])
    (Ret (mkcb_result DECODER_CALLBACK_GENERIC_ERROR None None [bs "abc"]))).
  - exact total_never_fails.
  - constructor; [reflexivity|by left|exact I|reflexivity..].
  - reflexivity.
  - reflexivity.
  - reflexivity.
  - reflexivity.
  - repeat constructor; discriminate.
  - discriminate.
  - vm_compute. discriminate.
  - reflexivity.
Defined.

Lemma tls_invalid_reason {gnutls : Gnutls} (verify_peers : option Z) :
  verify_peers <> Some 0 -> exists reason, tls_valid_client_certificate verify_peers = Some reason.
Proof.
  unfold tls_valid_client_certificate. intros H. destruct verify_peers as [status|]; [|by eexists].
  destruct (status =? 0) eqn:E; [|by eexists]. apply Z.eqb_eq in E. by subst.
Qed.

(** The only call of a request that is not allowed in. *)
Lemma post_init_refused {jansson : Jansson} {alloc : Allocator} {zlib : Zlib} {gnutls : Gnutls}
    {Ses W Opq : Type} static fuel (l : http_listener Ses W Opq) con url client data (st : http_state Ses W)
    resp :
  hs_ptr st = PNull -> client_addr con = Some client -> mc_create_ok con = true ->
  mc_queue_ok con = true ->
  match (if hl_client_tls_cert l then tls_valid_client_certificate (mc_verify_peers con) else None) with
  | Some reason => resp = mkresponse MHD_HTTP_FORBIDDEN [] reason
  | None => resp = mkresponse MHD_HTTP_UNAUTHORIZED (unauthorized static) [] /\
      exists db, hl_htpasswd l = Some db /\
        (mc_basic_auth con = None \/
         exists user password, mc_basic_auth con = Some (user, password) /\
           http_authenticate fuel user password db = Ret false)
  end ->
  handle_request static fuel l con url (bs "POST") data st =
    Ret (MHD_YES, mkhs (hs_world st) PNull (hs_sent st ++ [resp]) (hs_infos st) (hs_zlibs st)).
Proof.
  intros Hp Hcl Hcr Hq Hresp. unfold handle_request.
  change (strcmp0 (bs "POST") (bs "POST")) with true. unfold handle_post. rewrite Hp.
  unfold handle_http_post_init, http_valid_client_certificate. rewrite Hcl.
  destruct (if hl_client_tls_cert l then tls_valid_client_certificate (mc_verify_peers con) else None)
    as [reason|] eqn:E.
  - destruct (hl_client_tls_cert l); [|done]. rewrite E, Hresp.
    unfold send_buffered_response, queue_response. by rewrite Hcr, Hq, Hp.
  - assert ((if hl_client_tls_cert l then match tls_valid_client_certificate (mc_verify_peers con) with
       | Some errstr => let '(_, st1) := send_buffered_response con errstr MHD_HTTP_FORBIDDEN st in (false, st1)
       | None => (true, st) end else (true, st)) = (true, st)) as ->.
    { destruct (hl_client_tls_cert l); [|done]. by rewrite E. }
    destruct Hresp as (-> & db & -> & Hauth). cbn [negb].
    destruct Hauth as [-> | (user & password & -> & ->)]; cbn [negb mbind outcome_bind];
      unfold send_http_unauthorized_basic, queue_response; by rewrite Hq, Hp.
Qed.

(** The only call of a request that is neither a GET nor a POST. *)
Lemma other_method_answered {jansson : Jansson} {alloc : Allocator} {zlib : Zlib} {gnutls : Gnutls}
    {Ses W Opq : Type} static fuel (l : http_listener Ses W Opq) con url method data (st : http_state Ses W) :
  hs_ptr st = PNull -> mc_queue_ok con = true -> method <> bs "POST" -> method <> bs "GET" ->
  handle_request static fuel l con url method data st =
    Ret (MHD_YES, mkhs (hs_world st) PNull (hs_sent st ++
      [mkresponse MHD_HTTP_METHOD_NOT_ALLOWED (method_not_allowed_allow_get_post static) []])
      (hs_infos st) (hs_zlibs st)).
Proof.
  intros Hp Hq H1 H2. unfold handle_request, strcmp0. rewrite !bool_decide_false by done.
  unfold send_http_method_not_allowed_allow_get_post, send_http_method_not_allowed, queue_response.
  by rewrite Hq, Hp.
Qed.

(** The answer to a GET, from what the decoder says. *)
Definition get_answer {Ses W} (static : static_responses) (r : cb_result Ses W) : MHD_Response :=
  if bool_decide (cb_rc r = DECODER_CALLBACK_HTTP_METHOD_NOT_ALLOWED)
  then mkresponse MHD_HTTP_METHOD_NOT_ALLOWED (method_not_allowed_allow_post static) []
  else mkresponse (decoder_err2http (cb_rc r)) []
         match cb_response r with Some (Some text) => text | _ => [] end.

(** The two calls of a GET. *)
Lemma get_first_call {jansson : Jansson} {alloc : Allocator} {zlib : Zlib} {gnutls : Gnutls}
    {Ses W Opq : Type} static fuel (l : http_listener Ses W Opq) con url data (st : http_state Ses W) :
  hs_ptr st = PNull ->
  handle_request static fuel l con url (bs "GET") data st = Ret (MHD_YES, set_ptr st POne).
Proof. intros Hp. unfold handle_request, handle_get. by rewrite Hp. Qed.

Lemma get_second_call {jansson : Jansson} {alloc : Allocator} {zlib : Zlib} {gnutls : Gnutls}
    {Ses W Opq : Type} static fuel (l : http_listener Ses W Opq) con url client (st : http_state Ses W) r :
  hs_ptr st = POne -> client_addr con = Some client -> mc_create_ok con = true ->
  mc_queue_ok con = true ->
  listener_decode (hl_listener l) (hs_world st) None (request_params con url (bs "GET") client) true None
    = Ret r ->
  handle_request static fuel l con url (bs "GET") None st =
    Ret (MHD_YES, mkhs (cb_world r) PNull (hs_sent st ++ [get_answer static r]) (hs_infos st) (hs_zlibs st)).
Proof.
  intros Hp Hcl Hcr Hq Hr. unfold handle_request.
  change (strcmp0 (bs "GET") (bs "POST")) with false.
  change (strcmp0 (bs "GET") (bs "GET")) with true. unfold handle_get. rewrite Hp.
  cbn [set_ptr hs_world]. rewrite Hcl, decoder_opts_spec, Hr. cbn [mbind outcome_bind].
  unfold get_answer. case_bool_decide.
  - unfold send_http_method_not_allowed_allow_post, send_http_method_not_allowed, queue_response.
    by rewrite Hq.
  - unfold send_buffered_response, queue_response. rewrite Hcr, Hq. cbn. do 5 f_equal.
    destruct (cb_response r) as [[text|]|]; cbn; [|done..]. by rewrite ztake_all.
Qed.

(** C20: a POST that is not allowed in never reaches the decoder.  On a listener that
    asks for client certificates, one whose certificate was not verified without
    problems is answered 403 with the reason, whether the listener has a password
    file or not and whatever its credentials are.  When the certificate is valid, or
    none is asked for, a listener with a password file answers 401 with the
    [WWW-Authenticate] header to a request without credentials or whose
    credentials the file refuses.  The decoder is not called and nothing stays
    allocated. *)
Theorem refused_not_decoded {jansson : Jansson} {alloc : Allocator} {zlib : Zlib} {gnutls : Gnutls}
    {Ses W Opq : Type} (static : static_responses) (fuel : nat) (l : http_listener Ses W Opq)
    (con : MHD_Connection) (url client : bytes) (chunks : list bytes) (st : http_state Ses W) :
  hs_ptr st = PNull -> client_addr con = Some client -> mc_create_ok con = true ->
  mc_queue_ok con = true ->
  (hl_client_tls_cert l = true -> mc_verify_peers con <> Some 0 ->
   exists reason, tls_valid_client_certificate (mc_verify_peers con) = Some reason /\
     mhd_post static fuel l con url chunks st =
     Ret (mkhs (hs_world st) PNull (hs_sent st ++ [mkresponse MHD_HTTP_FORBIDDEN [] reason])
            (hs_infos st) (hs_zlibs st))) /\
  (hl_client_tls_cert l = false \/ mc_verify_peers con = Some 0 ->
   forall db, hl_htpasswd l = Some db ->
   mc_basic_auth con = None \/
   (exists user password, mc_basic_auth con = Some (user, password) /\
      http_authenticate fuel user password db = Ret false) ->
   mhd_post static fuel l con url chunks st =
   Ret (mkhs (hs_world st) PNull
          (hs_sent st ++ [mkresponse MHD_HTTP_UNAUTHORIZED (unauthorized static) []])
          (hs_infos st) (hs_zlibs st))).
Proof.
  intros Hp Hcl Hcr Hq. unfold mhd_post. split.
  - intros Htls Hcert. destruct (tls_invalid_reason _ Hcert) as [reason Hr]. exists reason. split; [done|].
    rewrite (post_init_refused static fuel l con url client None st
      (mkresponse MHD_HTTP_FORBIDDEN [] reason)); try done. by rewrite Htls, Hr.
  - intros Htls db Hdb Hauth. rewrite (post_init_refused static fuel l con url client None st
      (mkresponse MHD_HTTP_UNAUTHORIZED (unauthorized static) [])); try done.
    destruct Htls as [-> | ->]; [|destruct (hl_client_tls_cert l); cbn]; (split; [done|by exists db]).
Qed.

(** A client whose certificate has expired. *)
Definition expired_con : MHD_Connection :=
  mkconn (Some (SOCKADDR_IN 16777226 40000)) (Some 1) [] (Some (bs "u", bs "p")) true true true.

Lemma refused_not_decoded_witness :
  mhd_post shared_responses 9 (mkhl (mklistener gather_decoder None 2057) (Some (bs "u:{PLAIN}p")) false)
    plain_con (bs "/x") [bs "a"] (idle_state [])
  = Ret (mkhs [] PNull [mkresponse 401 [(bs "WWW-Authenticate", bs "Basic")] []] 0 0) /\
  exists reason, tls_valid_client_certificate (mc_verify_peers expired_con) = Some reason /\
    mhd_post shared_responses 9 (mkhl (mklistener gather_decoder None 2057) None true)
      expired_con (bs "/x") [bs "a"] (idle_state [])
    = Ret (mkhs [] PNull [mkresponse 403 [] reason] 0 0).
Proof.
  split.
  - apply (refused_not_decoded shared_responses 9
      (mkhl (mklistener gather_decoder None 2057) (Some (bs "u:{PLAIN}p")) false) plain_con (bs "/x")
      (bs "10.0.0.1") [bs "a"] (idle_state [])) with (db := bs "u:{PLAIN}p"); try reflexivity; by left.
  - apply (refused_not_decoded shared_responses 9
      (mkhl (mklistener gather_decoder None 2057) None true) expired_con (bs "/x")
      (bs "10.0.0.1") [bs "a"] (idle_state [])); try reflexivity. discriminate.
Defined.

(** A certificate is accepted exactly when its verification ran and found no
    problem; otherwise the reason is the text of the first known problem whose
    flag is set. *)
Theorem tls_certificate_correct {gnutls : Gnutls} (verify_peers : option Z) :
  (tls_valid_client_certificate verify_peers = None <-> verify_peers = Some 0) /\
  (forall status before errstr e after, verify_peers = Some status ->
     gnutls_client_cert_status_errstrs = before ++ (errstr, e) :: after ->
     Forall (fun p => Z.land (cert_flag p.2) status = 0) before ->
     Z.land (cert_flag e) status <> 0 ->
     tls_valid_client_certificate verify_peers = Some errstr).
Proof.
  unfold tls_valid_client_certificate. split.
  - destruct verify_peers as [status|]; [|done]. destruct (status =? 0) eqn:E.
    + apply Z.eqb_eq in E. by subst.
    + apply Z.eqb_neq in E. split; [done|congruence].
  - intros status before errstr e after -> Hl Hb He.
    destruct (status =? 0) eqn:E.
    { apply Z.eqb_eq in E. subst. by rewrite Z.land_0_r in He. }
    rewrite Hl. do 2 f_equal. clear Hl. induction Hb as [|[t e0] before H0 _ IH]; cbn [app find_errstr].
    + by rewrite (proj2 (Z.eqb_neq _ _)).
    + cbn [snd] in H0. by rewrite H0.
Qed.

(** C35: a GET is answered on its second call, with the code and the text the
    decoder gives for it, without a session; methods the decoder refuses are
    answered 405 with the list of allowed methods, as are the methods other than
    GET and POST, for which the decoder is not called. *)
Theorem get_and_other_methods {jansson : Jansson} {alloc : Allocator} {zlib : Zlib}
    {gnutls : Gnutls} {Ses W Opq : Type} (static : static_responses) (fuel : nat)
    (l : http_listener Ses W Opq) (con : MHD_Connection) (url client : bytes)
    (st : http_state Ses W) :
  hs_ptr st = PNull -> client_addr con = Some client -> mc_create_ok con = true ->
  mc_queue_ok con = true ->
  (forall r, listener_decode (hl_listener l) (hs_world st) None
      (request_params con url (bs "GET") client) true None = Ret r ->
    mhd_get static fuel l con url (bs "GET") st =
    Ret (mkhs (cb_world r) PNull (hs_sent st ++
      [if bool_decide (cb_rc r = DECODER_CALLBACK_HTTP_METHOD_NOT_ALLOWED)
       then mkresponse MHD_HTTP_METHOD_NOT_ALLOWED (method_not_allowed_allow_post static) []
       else mkresponse (decoder_err2http (cb_rc r)) []
              match cb_response r with Some (Some text) => text | _ => [] end])
      (hs_infos st) (hs_zlibs st))) /\
  (forall method data, method <> bs "POST" -> method <> bs "GET" ->
    handle_request static fuel l con url method data st =
    Ret (MHD_YES, mkhs (hs_world st) PNull (hs_sent st ++
      [mkresponse MHD_HTTP_METHOD_NOT_ALLOWED (method_not_allowed_allow_get_post static) []])
      (hs_infos st) (hs_zlibs st))).
Proof.
  intros Hp Hcl Hcr Hq. split.
  - intros r Hr. unfold mhd_get. rewrite (get_first_call static fuel l con url None st Hp).
    cbn [mbind outcome_bind]. by rewrite (get_second_call static fuel l con url client (set_ptr st POne) r).
  - intros method data H1 H2. by apply other_method_answered.
Qed.

Lemma get_and_other_methods_witness :
  handle_request shared_responses 9 gather_listener plain_con (bs "/x") (bs "PUT") None (idle_state [])
  = Ret (MHD_YES, mkhs [] PNull [mkresponse 405 [(bs "Allow", bs "GET, POST")] []] 0 0).
Proof.
  apply (get_and_other_methods shared_responses 9 gather_listener plain_con (bs "/x") (bs "10.0.0.1")
    (idle_state [])); [reflexivity|reflexivity|reflexivity|reflexivity|discriminate|discriminate].
Defined.

(** When the client of a GET goes away between the two calls, the end of the
    request reads the mark 1 as the address of a connection block. *)
Theorem get_aborted_bad_access {jansson : Jansson} {alloc : Allocator} {zlib : Zlib}
    {gnutls : Gnutls} {Ses W Opq : Type} (static : static_responses) (fuel : nat)
    (l : http_listener Ses W Opq) (con : MHD_Connection) (url : bytes) (st : http_state Ses W) :
  hs_ptr st = PNull ->
  ('(_, st1) ← handle_request static fuel l con url (bs "GET") None st; request_completed l st1)
  = Fault bad_access.
Proof. intros Hp. unfold handle_request, handle_get. by rewrite Hp. Qed.

Lemma get_aborted_bad_access_witness :
  ('(_, st1) ← handle_request shared_responses 9 gather_listener plain_con (bs "/x") (bs "GET") None
                 (idle_state []);
   request_completed gather_listener st1) = Fault bad_access.
Proof. apply get_aborted_bad_access. reflexivity. Defined.

(** The options of a request: a header comes before the option of the listener of
    the same name. *)
Lemma params_header con url method client key value before after :
  mc_headers con = before ++ (key, Some value) :: after ->
  Forall (fun kv => kv.1 <> key) before ->
  valueof (request_params con url method client) key strcmp0 = Some value.
Proof.
  intros Hh Hb. unfold request_params. rewrite Hh, map_app. cbn [map]. rewrite <- app_assoc. clear Hh.
  induction Hb as [|[k v] before Hk _ IH]; cbn [map app valueof pair_key pair_value fst snd].
  - unfold strcmp0. by rewrite bool_decide_true.
  - cbn [fst] in Hk. unfold strcmp0 in *. rewrite bool_decide_false by congruence. exact IH.
Qed.

Lemma params_listener con url method client key :
  Forall (fun kv => kv.1 <> key) (mc_headers con) ->
  valueof (request_params con url method client) key strcmp0
  = valueof (listener_options method url (Some client)) key strcmp0.
Proof.
  intros Hb. unfold request_params.
  induction Hb as [|[k v] hs Hk _ IH]; [done|]. cbn [map app valueof pair_key fst snd].
  cbn [fst] in Hk. unfold strcmp0 in *. rewrite bool_decide_false by congruence. exact IH.
Qed.

(** The topic of a session made from options that have a data URL. *)
Lemma session_topic_of_url {alloc : Allocator} {abi : Abi} {yajl : Yajl} {gen : YajlGen}
    {strings : ExpatStrings} {expat : Expat} {rk : Rdkafka} {producer : BatchProducer}
    env db w vars topic ext m :
  valueof vars (bs "D-HTTP-URI") strcmp0 = Some (valid_prefix_str ++ topic) ->
  Forall (fun c => c ∉ url_specials) topic -> ne_gen_ok env = true ->
  db_ok db w ext -> db_abs w (db_table db) m -> zlen (db_table db ++ ext) < 2 ^ 63 - 2 ->
  exists r db' w', new_zz_session env (Some db) w vars = Ret (r, Some db', w') /\
    match r with
    | Some s => tname w' (ss_topic_handler s) =
                  Some (uuid_topic (valueof vars (bs "X-Consumer-ID") strcasecmp0) topic) /\
                db_ok db' w' (ss_topic_handler s :: ext)
    | None => db_ok db' w' ext
    end.
Proof.
  intros Hu Ht Hg Hok Ha Hb.
  destruct (new_zz_session_spec env db w vars _ ext m Hu Hg Hok Ha Hb) as (r & db' & w' & Hn & Hr).
  exists r, db', w'. split; [done|]. destruct r as [s|]; [|by destruct Hr].
  destruct Hr as (topic' & rest & E & _ & Hf & Hrest & Hname & _ & Hok' & _).
  apply (inj (app valid_prefix_str)) in E.
  by rewrite <- (topic_unique url_specials topic' rest topic).
Qed.

(** C40: a client chooses the topic of its session with a header: the headers of a
    request come before the options of the listener, so the header [D-HTTP-URI]
    is taken for the URL of the request, whatever the URL is. *)
Theorem header_overrides_url {alloc : Allocator} {abi : Abi} {yajl : Yajl} {gen : YajlGen}
    {strings : ExpatStrings} {expat : Expat} {rk : Rdkafka} {producer : BatchProducer}
    (con : MHD_Connection) (url client topic : bytes)
    (before after : list (bytes * option bytes)) (w : zz_world) (db : topics_db)
    (ext : list loc) (m : gmap bytes Z) :
  mc_headers con = before ++ (bs "D-HTTP-URI", Some (valid_prefix_str ++ topic)) :: after ->
  Forall (fun kv => kv.1 <> bs "D-HTTP-URI") before ->
  Forall (fun c => c ∉ url_specials) topic ->
  zw_db w = Some db -> ne_gen_ok (zw_new_env w (zw_tick w)) = true ->
  db_ok db (zw_topics w) ext -> db_abs (zw_topics w) (db_table db) m ->
  zlen (db_table db ++ ext) < 2 ^ 63 - 2 ->
  let params := (decoder_opts con (bs "POST") url (Some client)).1.2 in
  exists r w', vnew_zz_session (O := unit) w None params = Ret (r, w') /\
    forall s, r = Some s ->
      tname (zw_topics w') (ss_topic_handler s) =
      Some (uuid_topic (valueof params (bs "X-Consumer-ID") strcasecmp0) topic).
Proof.
  intros Hh Hb Ht Hdb Hg Hok Ha Hl. rewrite decoder_opts_spec. cbn [fst snd].
  unfold vnew_zz_session. rewrite Hdb.
  destruct (session_topic_of_url (zw_new_env w (zw_tick w)) db (zw_topics w)
    (request_params con url (bs "POST") client) topic ext m) as (r & db' & w' & -> & Hr); try done.
  { by eapply params_header. }
  cbn [mbind outcome_bind]. eexists r, _. split; [reflexivity|]. intros s ->. by destruct Hr.
Qed.

#[local] Existing Instance brace_yajl.
#[local] Existing Instance readme_expat.
#[local] Instance names : Rdkafka := {|
  rkt := bytes; rd_kafka_topic_new name := Some name; rd_kafka_topic_name r := r;
  topic_name_new name r H := eq_sym (f_equal (fun o => default [] o) H)
|}.
#[local] Instance taken : BatchProducer := deciding_producer (fun _ => ERR_NO_ERROR).

Definition zz_start : zz_world :=
  mkzw (Some topics_db_new) (mkworld ∅ O 0) [] [] 0 (fun _ => mkenv 5 true true)
    (fun _ => mkdenv (Some 4096) true (fun _ => 0)) O.

Definition forged_con : MHD_Connection :=
  mkconn (Some (SOCKADDR_IN 16777226 40000)) None
    [(bs "Host", Some (bs "h")); (bs "D-HTTP-URI", Some (bs "/v1/data/other"))] None true true true.

Lemma header_overrides_url_witness :
  exists r w', vnew_zz_session (O := unit) zz_start None
      (decoder_opts forged_con (bs "POST") (bs "/v1/data/mine") (Some (bs "10.0.0.1"))).1.2
      = Ret (r, w') /\
    forall s, r = Some s -> tname (zw_topics w') (ss_topic_handler s) = Some (bs "other").
Proof.
  destruct system_init_inv as [[Hok _] Ha].
  apply (header_overrides_url forged_con (bs "/v1/data/mine") (bs "10.0.0.1") (bs "other")
    [(bs "Host", Some (bs "h"))] [] zz_start topics_db_new [] ∅).
  - reflexivity.
  - repeat constructor; discriminate.
  - apply (bool_decide_unpack (Forall (fun c => c ∉ url_specials) (bs "other"))). vm_compute. exact I.
  - reflexivity.
  - reflexivity.
  - exact Hok.
  - exact Ha.
  - vm_compute. reflexivity.
Defined.

(** C17: a POST with a compressed body behaves as the POST of the text it decompresses
    to, in pieces of at most 512 KiB that the decoder gets in order up to its first
    error, and the state of inflate is released at its end.  This is for a request
    that is admitted, a decoder with sessions that gives no response when it returns
    OK, and a valid deflate stream in chunks that are not empty; and the text of a
    chunk is not an exact multiple, other than 0, of the 512 KiB of the buffer: after
    such a chunk the answer is 500, [compressed_full_buffer_fails]. *)
Theorem compressed_post_streamed {jansson : Jansson} {alloc : Allocator} {zlib : Zlib} {spec : ZlibSpec}
    {gnutls : Gnutls} {Ses W Opq : Type} (static : static_responses) (fuel : nat)
    (l : http_listener Ses W Opq) (con : MHD_Connection) (url client : bytes)
    (new_session : W -> option Opq -> keyval_list -> outcome (option Ses * W)) (n : Z)
    (chunks pieces : list bytes) (text : bytes) (st : http_state Ses W)
    (s s' : Ses) (w1 w2 w3 : W) (err : option (decoder_callback_err * (option bytes * Z))) :
  admitted fuel l con client -> hs_ptr st = PNull -> compressed con = true -> inflateInit2.1 = Z_OK ->
  dec_new_session (l_decoder (hl_listener l)) = Some new_session ->
  dec_session_size (l_decoder (hl_listener l)) = Some n -> n <> 0 ->
  quiet (hl_listener l) (request_params con url (bs "POST") client) ->
  Forall (fun b => b <> []) chunks -> inflates fuel inflateInit2.2 chunks text pieces ->
  new_session (hs_world st) (l_decoder_opaque (hl_listener l)) (request_params con url (bs "POST") client)
    = Ret (Some s, w1) ->
  decode_stream (hl_listener l) (request_params con url (bs "POST") client) pieces (Some s) w1
    = Ret (err, Some s', w2) ->
  match dec_delete_session (l_decoder (hl_listener l)) with
  | Some delete_session => delete_session s' w2 = Ret w3 | None => w3 = w2 end ->
  concat pieces = text /\
  mhd_post static fuel l con url chunks st
    = Ret (mkhs w3 PNull (hs_sent st ++ [answer static err]) (hs_infos st) (hs_zlibs st)).
Proof. apply post_compressed_spec. Qed.

Definition gather_info (params : keyval_list) : conn_info (list bytes) :=
  mkinfo string_init.2 params (Some []) (Some []) (mkhttp_error 0 None 0) params.

Lemma gather_quiet params : quiet (mklistener gather_decoder None 2057) params.
Proof.
  intros w b sess r. unfold listener_decode. cbn [l_decoder dec_callback gather_decoder].
  unfold gather_callback. destruct (bool_decide _); cbn; intros [= <-]; done.
Qed.

Definition gzip_con : MHD_Connection :=
  mkconn (Some (SOCKADDR_IN 16777226 40000)) None [(bs "Content-Encoding", Some (bs "gzip"))] None true true
    true.

Lemma stored_inflates_chunk fuel (data : bytes) chunks text pieces :
  data <> [] -> zlen data < ZLIB_CHUNK -> (0 < fuel)%nat ->
  inflates (spec := stored_spec) fuel [] chunks text pieces ->
  inflates (spec := stored_spec) fuel [] (data :: chunks) (data ++ text) (data :: pieces).
Proof.
  intros Hne Hlt Hfuel Hrest. assert (Hc : cut fuel data = [data]).
  { destruct fuel as [|fuel]; [lia|]. cbn [cut]. destruct data as [|x data]; [done|].
    rewrite ztake_all by lia. f_equal. assert (zdrop ZLIB_CHUNK (x :: data) = []) as ->.
    { apply zlen_zero. rewrite zlen_zdrop_max by done. lia. }
    by destruct fuel. }
  change (data :: pieces) with ([data] ++ pieces). rewrite <- Hc.
  assert (Hpos : 0 < zlen data) by (destruct data; [done|]; zlia).
  apply (inflates_chunk (spec := stored_spec) fuel ([] : @z_stream stored_zlib) data); try done.
  - change (z_output _ data) with data. pose proof chunk_pos. nia.
  - right. change (z_output _ data) with data. rewrite Z.mod_small by lia. lia.
  - intros s' Hto. assert (Hi : inflate (Zlib := stored_zlib) [] data ZLIB_CHUNK = (Z_OK, data, [], [])).
    { cbn. unfold stored_inflate. cbn [app]. destruct data as [|x data]; [done|].
      rewrite ztake_all by lia. do 2 f_equal. apply zlen_zero. rewrite zlen_zdrop_max by done. lia. }
    inversion Hto as [? ? ? ? ? ? H1 H2|? ? ? ? ? ? ? H1 H2 _]; subst; rewrite Hi in H1;
      injection H1 as <- <- <- <-; [done|lia].
Qed.

Lemma compressed_post_streamed_witness :
  concat [bs "a"; bs "bad"; bs "d"] = bs "abadd" /\
  mhd_post shared_responses 9 gather_listener gzip_con (bs "/x") [bs "a"; bs "bad"; bs "d"] (idle_state [])
    = Ret (mkhs [[bs "a"]] PNull [mkresponse 400 [] (bs "no")] 0 0).
Proof.
  apply (compressed_post_streamed (spec := stored_spec) shared_responses 9 gather_listener gzip_con (bs "/x")
    (bs "10.0.0.1") (fun w _ _ => Ret (Some [], w)) 16 [bs "a"; bs "bad"; bs "d"] [bs "a"; bs "bad"; bs "d"]
    (bs "abadd") (idle_state []) [] [bs "a"] [] [] [[bs "a"]]
    (Some (DECODER_CALLBACK_INVALID_REQUEST, (Some (bs "no"), 2)))).
  - constructor; [reflexivity|by left|exact I|reflexivity..].
  - reflexivity.
  - reflexivity.
  - reflexivity.
  - reflexivity.
  - reflexivity.
  - discriminate.
  - apply gather_quiet.
  - repeat constructor; discriminate.
  - apply (stored_inflates_chunk 9 (bs "a") _ (bs "badd")); [discriminate|reflexivity|lia|].
    apply (stored_inflates_chunk 9 (bs "bad") _ (bs "d")); [discriminate|reflexivity|lia|].
    apply (stored_inflates_chunk 9 (bs "d") _ []); [discriminate|reflexivity|lia|].
    apply inflates_end.
  - reflexivity.
  - reflexivity.
  - reflexivity.
Defined.

(** A compressed chunk whose text is exactly one buffer of 512 KiB, in the
    middle of the stream, is decoded whole and then answered 500: the loop asks
    inflate once more, with nothing left, and takes [Z_BUF_ERROR] for an error. *)
Theorem compressed_full_buffer_fails {jansson : Jansson} {alloc : Allocator} {zlib : Zlib}
    {spec : ZlibSpec} {Ses W Opq : Type} (fuel : nat) (l : http_listener Ses W Opq)
    (new_session : W -> option Opq -> keyval_list -> outcome (option Ses * W))
    (c : conn_info Ses) (strm strm1 : z_stream) (data text : bytes) (st : http_state Ses W)
    (r : cb_result Ses W) :
  dec_new_session (l_decoder (hl_listener l)) = Some new_session ->
  ci_zlib c = Some strm -> he_code (ci_http_error c) = 0 ->
  inflate strm data ZLIB_CHUNK = (Z_OK, text, [], strm1) -> zlen text = ZLIB_CHUNK ->
  z_valid strm1 [] = true -> z_output strm1 [] = [] -> z_done strm1 = false ->
  listener_decode (hl_listener l) (hs_world st) (Some text) (ci_decoder_params c) true
    (ci_decoder_sess c) = Ret r ->
  cb_rc r = DECODER_CALLBACK_OK -> cb_response r = None ->
  exists c', handle_http_post_chunk (Datatypes.S (Datatypes.S fuel)) l c data st =
      Ret (MHD_YES, set_ptr (set_world st (cb_world r)) (PInfo c')) /\
    ci_decoder_sess c' = cb_session r /\
    ci_http_error c' = mkhttp_error MHD_HTTP_INTERNAL_SERVER_ERROR
                         (Some (zlib_deflate_error2str Z_BUF_ERROR)) 0.
Proof.
  intros Hns Hz He Hi Hlen Hv Ho Hdone Hd Hrc Hresp.
  unfold handle_http_post_chunk, conn_info_has_queue_response, compressed_callback.
  rewrite He, Hns, Hz. cbn [Z.eqb negb inflate_loop]. rewrite Hi.
  rewrite bool_decide_true by done. cbn [negb andb]. rewrite Hlen.
  change (ZLIB_CHUNK =? 0) with false. cbn [negb]. rewrite Hd. cbn [mbind outcome_bind].
  rewrite Hrc, Hresp, bool_decide_true, Z.eqb_refl by done. cbn [negb update_response].
  rewrite (inflate_stuck strm1 ZLIB_CHUNK Hv chunk_pos Ho Hdone).
  rewrite !bool_decide_false by done. cbn [negb andb mbind outcome_bind].
  eexists. split; [reflexivity|]. done.
Qed.

Lemma compressed_full_buffer_fails_witness :
  exists c', handle_http_post_chunk 2 gather_listener (gather_info [])
      (replicate (Z.to_nat ZLIB_CHUNK) x61) (idle_state []) =
      Ret (MHD_YES, set_ptr (set_world (idle_state []) []) (PInfo c')) /\
    ci_decoder_sess c' = Some [replicate (Z.to_nat ZLIB_CHUNK) x61] /\
    ci_http_error c' = mkhttp_error MHD_HTTP_INTERNAL_SERVER_ERROR
                         (Some (zlib_deflate_error2str Z_BUF_ERROR)) 0.
Proof.
  assert (Hlen : zlen (replicate (Z.to_nat ZLIB_CHUNK) x61) = ZLIB_CHUNK).
  { unfold zlen. rewrite length_replicate. apply Z2Nat.id. discriminate. }
  revert Hlen. generalize (replicate (Z.to_nat ZLIB_CHUNK) x61) as text. intros text Hlen.
  destruct text as [|x text]; [discriminate Hlen|].
  eapply (compressed_full_buffer_fails 0 gather_listener (fun w _ _ => Ret (Some [], w))
    (gather_info []) [] [] (x :: text) (x :: text) (idle_state [])
    (mkcb_result DECODER_CALLBACK_OK None (Some [x :: text]) [])).
  - reflexivity.
  - reflexivity.
  - reflexivity.
  - cbn [inflate stored_zlib]. unfold stored_inflate. cbn [app].
    rewrite ztake_all by lia. do 2 f_equal. apply zlen_zero. rewrite zlen_zdrop_max, Hlen; [lia|done].
  - exact Hlen.
  - reflexivity.
  - reflexivity.
  - reflexivity.
  - unfold listener_decode. cbn [l_decoder dec_callback gather_decoder gather_listener hl_listener].
    unfold gather_callback. rewrite bool_decide_false; [reflexivity|].
    cbn [default from_option id]. intros E. rewrite E in Hlen. discriminate Hlen.
  - reflexivity.
  - reflexivity.
Defined.

(** When the decoder refuses the session of a compressed request, the state of
    inflate is not released: the connection block is freed without it. *)
Theorem refused_session_leaks_inflate {jansson : Jansson} {alloc : Allocator} {zlib : Zlib}
    {gnutls : Gnutls} {Ses W Opq : Type} (static : static_responses) (fuel : nat)
    (l : http_listener Ses W Opq) (con : MHD_Connection) (url client : bytes)
    (new_session : W -> option Opq -> keyval_list -> outcome (option Ses * W)) (n : Z)
    (chunks : list bytes) (st : http_state Ses W) (w1 : W) :
  admitted fuel l con client -> hs_ptr st = PNull -> compressed con = true ->
  inflateInit2.1 = Z_OK -> dec_new_session (l_decoder (hl_listener l)) = Some new_session ->
  dec_session_size (l_decoder (hl_listener l)) = Some n -> n <> 0 ->
  new_session (hs_world st) (l_decoder_opaque (hl_listener l))
    (request_params con url (bs "POST") client) = Ret (None, w1) ->
  mhd_post static fuel l con url chunks st
  = Ret (mkhs w1 PNull (hs_sent st) (hs_infos st) (hs_zlibs st + 1)).
Proof.
  intros Hadm Hp Hc Hi Hns Hsz Hn Hnew. unfold mhd_post.
  rewrite (post_init_admitted static fuel l con url client st Hadm Hp), create_any
    by (done || apply Hadm).
  rewrite Hc. cbn [mbind outcome_bind]. rewrite Hns, Hsz. cbn [default from_option id].
  rewrite (proj2 (Z.eqb_neq n 0)) by done.
  cbn [negb c_assert mbind outcome_bind hs_world ci_decoder_params].
  rewrite Hnew. cbn [mbind outcome_bind hs_ptr set_ptr]. unfold request_completed, set_ptr, free_con_info.
  cbn [hs_ptr hs_infos set_world]. do 2 f_equal. cbn. lia.
Qed.

Definition refusing_decoder : n2k_decoder (list bytes) (list (list bytes)) unit :=
  mkdecoder (bs "refusing") gather_callback None None None (Some (fun w _ _ => Ret (None, w)))
    (Some (fun s w => Ret (w ++ [s]))) (Some 16).

Lemma refused_session_leaks_inflate_witness :
  mhd_post shared_responses 9 (mkhl (mklistener refusing_decoder None 2057) None false) gzip_con
    (bs "/x") [bs "a"] (idle_state []) = Ret (mkhs [] PNull [] 0 1).
Proof.
  apply (refused_session_leaks_inflate shared_responses 9
    (mkhl (mklistener refusing_decoder None 2057) None false) gzip_con (bs "/x") (bs "10.0.0.1")
    (fun w _ _ => Ret (None, w)) 16 [bs "a"] (idle_state []) []).
  - constructor; [reflexivity|by left|exact I|reflexivity..].
  - reflexivity.
  - reflexivity.
  - reflexivity.
  - reflexivity.
  - reflexivity.
  - discriminate.
  - reflexivity.
Defined.

(** With the dumb decoder, a POST that librdkafka refuses (the queue is full,
    for instance) stops the program: at the end of the body the listener calls
    the decoder with NULL response pointers and the decoder writes its error
    through them. *)
Theorem dumb_refused_message_faults {rk : Rdkafka} {producer : Producer} {jansson : Jansson}
    {alloc : Allocator} {zlib : Zlib} {gnutls : Gnutls} (static : static_responses) (fuel : nat)
    (topic : option bytes) (r : rkt) (port : Z) (htpasswd : option bytes) (tls : bool)
    (con : MHD_Connection) (url client : bytes) (chunks : list bytes)
    (st : http_state unit dumb_world) :
  let l := mkhl (mklistener (dumb_decoder (O := unit) topic) None port) htpasswd tls in
  never_fails alloc -> admitted fuel l con client -> hs_ptr st = PNull -> inflateInit2.1 = Z_OK ->
  Forall (fun b => b <> []) chunks -> chunks <> [] -> zlen (concat chunks) <= size_limit ->
  new_rkt_global_config topic = Some r -> rd_kafka_produce r (concat chunks) <> ERR_NO_ERROR ->
  mhd_post static fuel l con url chunks st = Fault bad_access.
Proof.
  intros l Hnf Hadm Hp Hi Hne Hnil Hlim Hr Herr.
  rewrite (post_whole_spec static fuel l con url client chunks st (Fault bad_access)); try done.
  unfold listener_decode, l. cbn [l_decoder hl_listener dec_callback dumb_decoder].
  unfold dumb_decode. rewrite Hr. cbn [default from_option id].
  by rewrite bool_decide_false.
Qed.

#[local] Instance full_queue : @Producer names := {|
  rd_kafka_produce _ _ := ERR__QUEUE_FULL;
  rd_kafka_err2str _ := bs "Local: Queue full";
  rd_kafka_topic_new_null := None
|}.

Lemma dumb_refused_message_faults_witness :
  mhd_post shared_responses 9
    (mkhl (mklistener (dumb_decoder (O := unit) (Some (bs "t"))) None 2057) None false) plain_con (bs "/")
    [bs "hello"] (idle_state (mkdw [] 0)) = Fault bad_access.
Proof.
  apply (dumb_refused_message_faults (rk := names) shared_responses 9 (Some (bs "t")) (bs "t") 2057 None false
    plain_con (bs "/") (bs "10.0.0.1") [bs "hello"] (idle_state (mkdw [] 0))).
  - exact total_never_fails.
  - constructor; [reflexivity|by left|exact I|reflexivity..].
  - reflexivity.
  - reflexivity.
  - repeat constructor; discriminate.
  - discriminate.
  - vm_compute. discriminate.
  - reflexivity.
  - discriminate.
Defined.
