(* ===== verification/Stream.v ===== *)
(** * Streamed requests

    The requests of the zz_http2k and meraki listeners behind one interface.  A
    request is decoded in a session, piece by piece, where the pieces are its chunks or
    what they inflate to; the class [StreamLaws] states what the HTTP listener and its
    clients need of it: the session is created in any consistent world, each piece
    hands its messages over, and the session can be deleted.  The instances are JSON and XML bodies for zz_http2k and JSON bodies
    for meraki, whose sessions share the database of zz_http2k. *)

From S2P Require Import Prelude CString JsonString KafkaArray TopicDb Pair Addr ZzJson ZzXml ZzSession Decoders HttpAuth Http HttpProps.
From stdpp Require Import gmap.
#[local] Open Scope Z_scope.

Section streams.
Context {alloc : Allocator} {abi : Abi} {yajl : Yajl} {gen : YajlGen} {strings : ExpatStrings}
  {expat : Expat} {rk : Rdkafka} {producer : BatchProducer} {jansson : Jansson} {zlib : Zlib} {spec : ZlibSpec}
  {gnutls : Gnutls}.
Context (string_addr : cstring -> Z) (sizeof_session : Z) (fuel : nat).
Implicit Types (w : zz_world) (s : zz_session).

(** ** Worlds *)

(** A consistent world, in which [live] are the references of the open sessions
    (and of others), [budget] more sessions fit the counters, each batch is
    allocated exactly while librdkafka has a message of it, and no session that ended
    has left an object of its own behind. *)
Definition world_ok (budget : Z) (live : list loc) w : Prop :=
  exists db m, zw_db w = Some db /\ db_ok db (zw_topics w) live /\
    db_abs (zw_topics w) (db_table db) m /\ zlen (db_table db ++ live) + 2 * budget < 2 ^ 63 - 2 /\
    Forall flight_ok (zw_flights w) /\ zw_leaked w = 0.

Lemma world_ok_perm budget live live' w :
  live ≡ₚ live' -> world_ok budget live w -> world_ok budget live' w.
Proof.
  intros Hp (db & m & Hdb & (Hnd & Hlru & Hinv & Hu) & Habs & Hb & Hf). exists db, m.
  split_and!; try done.
  - split_and!; try done. by rewrite <- Hp.
  - by rewrite <- Hp.
  - apply Hf.
  - apply Hf.
Qed.

Lemma world_ok_weaken budget budget' live w :
  budget' <= budget -> world_ok budget live w -> world_ok budget' live w.
Proof. intros Hb (db & m & H1 & H2 & H3 & H4 & H5 & H6). exists db, m. split_and!; try done. lia. Qed.

(** The environment answers the same to the calls that follow, and the names of the
    handlers in [live] do not change. *)
Definition same_env w w' : Prop := zw_new_env w' = zw_new_env w /\ zw_decode_env w' = zw_decode_env w.

Definition names_kept (live : list loc) w w' : Prop :=
  forall l, l ∈ live -> tname (zw_topics w') l = tname (zw_topics w) l.

(** What a decode call does to the world: it hands [out] over for the topic [name], and
    the world stays consistent. *)
Definition moved (name : bytes) (out : list bytes) w w' : Prop :=
  zw_topics w' = zw_topics w /\
  zw_handed w' = zw_handed w ++ map (fun payload => (name, payload)) out /\
  same_env w w' /\ forall budget live, world_ok budget live w -> world_ok budget live w'.

Lemma moved_refl l w : moved l [] w w.
Proof. split_and!; try done. cbn. by rewrite app_nil_r. Qed.

Lemma moved_trans l out out' w w1 w2 :
  moved l out w w1 -> moved l out' w1 w2 -> moved l (out ++ out') w w2.
Proof.
  intros (Ht & Hh & [Hn Hd] & Hw) (Ht' & Hh' & [Hn' Hd'] & Hw'). split_and!.
  - congruence.
  - by rewrite Hh', Hh, map_app, app_assoc.
  - split; congruence.
  - auto.
Qed.

Lemma hand_moved r out batch w :
  batch_ok batch -> moved (rd_kafka_topic_name r) out w (hand (for_topic r out) batch w).
Proof.
  intros Hb. split_and!; try done.
  { cbn [hand zw_handed]. unfold for_topic. by rewrite map_map. }
  intros budget live (db & m & H1 & H2 & H3 & H4 & H5 & H6).
  exists db, m. split_and!; try done. apply Forall_app. split; [done|]. by apply new_flight_ok.
Qed.

(** A report frees its batch when it is the last one, and nothing else changes. *)
Lemma world_ok_report budget live w b j :
  world_ok budget live w ->
  exists w', report b j w = Ret w' /\ world_ok budget live w' /\
    zw_topics w' = zw_topics w /\ zw_handed w' = zw_handed w /\ same_env w w'.
Proof.
  intros (db & m & H1 & H2 & H3 & H4 & H5 & H6). unfold report.
  destruct (zw_flights w !! b) as [f|] eqn:E.
  - destruct (flight_report_ok j f) as (f' & -> & Hf').
    { rewrite list.Forall_forall in H5. apply H5. by eapply list_elem_of_lookup_2. }
    cbn [mbind outcome_bind]. eexists. split; [reflexivity|]. split_and!; try done.
    exists db, m. split_and!; try done. by apply Forall_insert.
  - exists w. split_and!; try done. exists db, m. by split_and!.
Qed.

Lemma session_freed budget live w s :
  0 <= budget -> world_ok budget (ss_topic_handler s :: live) w ->
  exists w', vfree_zz_session s w = Ret w' /\ world_ok budget live w' /\
    zw_handed w' = zw_handed w /\ same_env w w' /\ names_kept live w w'.
Proof.
  intros Hb0 (db & m & Hdb & Hok & Habs & Hb & Hf & Hleak). unfold vfree_zz_session.
  rewrite <- Permutation_middle, zlen_cons in Hb.
  destruct (db_ok_release db (zw_topics w) _ live Hok) as (t & Hd & Hok' & Hn & Ha); [lia|].
  destruct (free_zz_session_spec s _ _ Hd) as (o & -> & Ho).
  cbn [mbind outcome_bind]. eexists. split; [reflexivity|]. split_and!; try done.
  exists db, m. split_and!; try done; [by apply Ha|lia|]. cbn. lia.
Qed.

(** What a new session is: its topic, and either decoder in its first state. *)
Record fresh_session (name : bytes) (xml : bool) w s : Prop := {
  fs_name : tname (zw_topics w) (ss_topic_handler s) = Some name;
  fs_handed : ss_handed s = [];
  fs_response : ss_http_response s = N2K_STRING_INITIALIZER;
  fs_warning : ss_last_warning s = Some produce_state_init;
  fs_union : match ss_union s with
             | UJson j => xml = false /\ new_zz_session_json = Some j
             | UXml p x => xml = true /\ XML_ParserCreate = Some p /\ x = new_xml_ctx
             end
}.

(** Memory is available, and librdkafka takes every name. *)
Record resources (ne : nat -> new_env) (de : nat -> decode_env) : Prop := {
  rs_alloc : never_fails alloc;
  rs_known : forall r ms, Forall known_error (batch_errors r ms);
  rs_error : forall h b, zlen (yajl_get_error h b) <= size_limit;
  rs_names : forall name, rd_kafka_topic_new name <> None;
  rs_json : new_zz_session_json <> None;
  rs_xml : XML_ParserCreate <> None;
  rs_addr : forall str, 0 < string_addr str < 2 ^ 63;
  rs_size : zz_session_size sizeof_session <> 0;
  rs_new : forall i, ne_gen_ok (ne i) = true /\ ne_topic_ok (ne i) = true;
  rs_decode : forall i, (exists addr, de_mem (de i) = Some addr /\ 0 < addr) /\ de_temp_ok (de i) = true
}.

(** A session for a data URL. *)
Lemma session_created {Opq} (opaque : option Opq) params topic budget live w :
  resources (zw_new_env w) (zw_decode_env w) -> 0 <= budget ->
  world_ok (1 + budget) live w ->
  valueof params (bs "D-HTTP-URI") strcmp0 = Some (valid_prefix_str ++ topic) ->
  topic <> [] -> Forall (fun c => c ∉ url_specials) topic ->
  exists s w', vnew_zz_session w opaque params = Ret (Some s, w') /\
    fresh_session (uuid_topic (valueof params (bs "X-Consumer-ID") strcasecmp0) topic)
      (is_xml_content_type (valueof params (bs "Content-type") strcasecmp0)) w' s /\
    world_ok budget (ss_topic_handler s :: live) w' /\ zw_handed w' = zw_handed w /\
    same_env w w' /\ names_kept live w w'.
Proof.
  intros Hres Hb0 (db & m & Hdb & Hok & Habs & Hb & Hfl & Hleak) Hu Hne Hsp.
  destruct (rs_new _ _ Hres (zw_tick w)) as [Hgen Htop].
  destruct (new_zz_session_spec (zw_new_env w (zw_tick w)) db (zw_topics w) params _ live m Hu Hgen
    Hok Habs) as (r & db1 & topics1 & Hn & Hr); [lia|].
  unfold vnew_zz_session. rewrite Hdb, Hn. cbn [mbind outcome_bind]. destruct r as [s|].
  - destruct Hr as (topic' & rest & E & _ & Hf & Hrest & Hname & Hx & Hok1 & Hlen & Hh & Hre & Hw & Hun
      & [m' Habs'] & Hkeep).
    apply (inj (app valid_prefix_str)) in E.
    rewrite (topic_unique url_specials topic' rest topic) in Hname by done.
    eexists s, _. split; [reflexivity|]. split_and!; try done.
    + split; try done. destruct (ss_union s); by rewrite <- Hx.
    + exists db1, m'. split_and!; try done. rewrite zlen_app, zlen_cons in *. lia.
  - destruct Hr as [_ Hr]. exfalso. destruct Hr as [Hr|[Hr|[[name Hr]|Hr]]].
    + assert (extract_url_topic (Some (valid_prefix_str ++ topic)) = Ret (Some topic)) by
        (apply extract_url_topic_spec; exists []; by rewrite app_nil_r). congruence.
    + congruence.
    + by apply (rs_names _ _ Hres name).
    + destruct (is_xml_content_type _); [by apply (rs_xml _ _ Hres)|by apply (rs_json _ _ Hres)].
Qed.

(** ** The interface *)

Context {Opq : Type}.

(** A piece that the decoder refuses: it, the pieces that come after it, the messages
    that are handed over before the error in it, and the code and text it gets. *)
Record stream_failure := mkfailure {
  sf_chunk : bytes;
  sf_rest : list bytes;
  sf_out : list bytes;
  sf_answer : decoder_callback_err -> bytes -> Prop
}.

(** A request: where it is sent, what it says (the chunks of the connection, and the
    pieces of the body that the decoder gets), the topic of its messages, the messages
    handed over with each piece, the sessions it can have after a number of pieces, the
    piece at which it fails, if it does, and whether the client waits for the answer (if
    not the chunks are those that came before it went away). *)
Record stream_request := mkreq {
  rq_listener : http_listener zz_session zz_world Opq;
  rq_con : MHD_Connection;
  rq_url : bytes;
  rq_client : bytes;
  rq_wire : list bytes;
  rq_chunks : list bytes;
  rq_topic : bytes;
  rq_outs : list (list bytes);
  rq_session : nat -> zz_session -> Prop;
  rq_failure : option stream_failure;
  rq_complete : bool
}.

(** The pieces of the body, and the messages that are handed over. *)
Definition rq_body (r : stream_request) : list bytes :=
  rq_chunks r ++ match rq_failure r with Some f => sf_chunk f :: sf_rest f | None => [] end.

Definition rq_sent (r : stream_request) : list bytes :=
  concat (rq_outs r) ++ match rq_failure r with Some f => sf_out f | None => [] end.

(** The error it is answered with, if any. *)
Definition rq_answered (r : stream_request)
    (err : option (decoder_callback_err * (option bytes * Z))) : Prop :=
  match rq_failure r, err with
  | None, None => True
  | Some f, Some (rc, resp) => exists text, resp = (Some text, zlen text) /\ sf_answer f rc text
  | _, _ => False
  end.

Definition rq_decoder (r : stream_request) : n2k_decoder zz_session zz_world Opq :=
  l_decoder (hl_listener (rq_listener r)).

Definition rq_params (r : stream_request) : keyval_list :=
  request_params (rq_con r) (rq_url r) (bs "POST") (rq_client r).

(** The chunks of a connection carry the pieces of a body: they are the same, or they
    are compressed and [strm] is the state of inflate. *)
Definition carries (z : option z_stream) (wire pieces : list bytes) : Prop :=
  match z with
  | None => pieces = wire
  | Some strm => exists text, inflates fuel strm wire text pieces
  end.

(** The state of inflate before the first chunk. *)
Definition rq_zlib (r : stream_request) : option z_stream :=
  if compressed (rq_con r) then Some inflateInit2.2 else None.

Class StreamLaws (ne : nat -> new_env) (de : nat -> decode_env) (r : stream_request) : Prop := {
  sl_admitted : admitted fuel (rq_listener r) (rq_con r) (rq_client r);
  sl_zlib : compressed (rq_con r) = true -> inflateInit2.1 = Z_OK;
  sl_carries : carries (rq_zlib r) (rq_wire r) (rq_body r);
  sl_size : exists n, dec_session_size (rq_decoder r) = Some n /\ n <> 0;
  sl_wire : Forall (fun b => b <> []) (rq_wire r);
  sl_outs : length (rq_outs r) = length (rq_chunks r);
  sl_new : exists new_session, dec_new_session (rq_decoder r) = Some new_session /\
    forall budget live w, 0 <= budget -> world_ok (1 + budget) live w ->
      zw_new_env w = ne -> zw_decode_env w = de ->
      exists s w', new_session w (l_decoder_opaque (hl_listener (rq_listener r))) (rq_params r)
          = Ret (Some s, w') /\
        rq_session r 0 s /\ tname (zw_topics w') (ss_topic_handler s) = Some (rq_topic r) /\
        world_ok budget (ss_topic_handler s :: live) w' /\ zw_handed w' = zw_handed w /\
        same_env w w' /\ names_kept live w w';
  sl_step : forall k s w chunk out, rq_session r k s -> rq_chunks r !! k = Some chunk ->
    rq_outs r !! k = Some out -> zw_decode_env w = de ->
    tname (zw_topics w) (ss_topic_handler s) = Some (rq_topic r) ->
    exists s' w', listener_decode (hl_listener (rq_listener r)) w (Some chunk) (rq_params r) true (Some s)
        = Ret (mkcb_result DECODER_CALLBACK_OK None (Some s') w') /\
      moved (rq_topic r) out w w' /\
      rq_session r (S k) s' /\ ss_topic_handler s' = ss_topic_handler s;
  sl_fail : forall f s w, rq_failure r = Some f -> rq_session r (length (rq_chunks r)) s ->
    zw_decode_env w = de -> tname (zw_topics w) (ss_topic_handler s) = Some (rq_topic r) ->
    exists rc text s' w',
      listener_decode (hl_listener (rq_listener r)) w (Some (sf_chunk f)) (rq_params r) true (Some s)
        = Ret (mkcb_result rc (Some (Some text)) (Some s') w') /\
      moved (rq_topic r) (sf_out f) w w' /\ sf_answer f rc text /\ rc <> DECODER_CALLBACK_OK /\ ss_topic_handler s' = ss_topic_handler s;
  sl_free : dec_delete_session (rq_decoder r) = Some vfree_zz_session
}.

(** ** One request *)

Lemma decode_env_kept w w' de : same_env w w' -> zw_decode_env w = de -> zw_decode_env w' = de.
Proof. intros [_ ->]. done. Qed.

(** The next pieces of a body: the decoder takes them all, or one of them is the one it
    refuses. *)
Lemma stream_pieces ne de r `{!StreamLaws ne de r} k s w pieces rest :
  rq_session r k s -> zw_decode_env w = de ->
  tname (zw_topics w) (ss_topic_handler s) = Some (rq_topic r) -> (k <= length (rq_chunks r))%nat ->
  drop k (rq_body r) = pieces ++ rest ->
  quiet_on (hl_listener (rq_listener r)) (rq_params r) pieces (Some s) w /\
  exists err s' w', decode_stream (hl_listener (rq_listener r)) (rq_params r) pieces (Some s) w
      = Ret (err, Some s', w') /\ ss_topic_handler s' = ss_topic_handler s /\
    match err with
    | None => (k + length pieces <= length (rq_chunks r))%nat /\ rq_session r (k + length pieces) s' /\
        moved (rq_topic r) (concat (take (length pieces) (drop k (rq_outs r)))) w w'
    | Some (rc, resp) => exists f text, rq_failure r = Some f /\ resp = (Some text, zlen text) /\
        sf_answer f rc text /\ moved (rq_topic r) (concat (drop k (rq_outs r)) ++ sf_out f) w w'
    end.
Proof.
  revert k s w. induction pieces as [|piece pieces IH]; intros k s w Hs Hde Hname Hk Hb.
  { split; [done|]. exists None, s, w. cbn. rewrite Nat.add_0_r. split_and!; try done. apply moved_refl. }
  destruct (rq_chunks r !! k) as [chunk|] eqn:Hc.
  - assert (is_Some (rq_outs r !! k)) as [out Ho].
    { apply lookup_lt_is_Some. rewrite (sl_outs (r := r)). by eapply lookup_lt_Some. }
    assert (Hbk : rq_body r !! k = Some chunk) by (by apply lookup_app_l_Some).
    rewrite (drop_S _ _ _ Hbk) in Hb. injection Hb as <- Hb.
    destruct (sl_step (r := r) k s w chunk out Hs Hc Ho Hde Hname) as (s1 & w1 & Hd & Hm & Hs1 & Hl).
    destruct (IH (S k) s1 w1 Hs1) as (Hq & err & s' & w' & Hr & Hl' & He); try done.
    { eapply decode_env_kept; [apply Hm|done]. }
    { destruct Hm as (Ht & _). by rewrite Ht, Hl. }
    { apply lookup_lt_Some in Hc. lia. }
    cbn [quiet_on decode_stream]. rewrite Hd. cbn [mbind outcome_bind cb_rc cb_session cb_world].
    rewrite bool_decide_true by done. split; [intros ? [= <-] _; by split|].
    exists err, s', w'. rewrite (drop_S (rq_outs r) out k Ho) in *.
    cbn [length take concat]. rewrite Nat.add_succ_r in *. split_and!; [done|congruence|].
    destruct err as [[rc resp]|].
    + destruct He as (f & text & Hf & Hresp & Ha & Hm'). exists f, text. split_and!; try done.
      rewrite <- app_assoc. by eapply moved_trans.
    + destruct He as (Hk' & Hs' & Hm'). split_and!; try done. by eapply moved_trans.
  - apply lookup_ge_None in Hc. assert (k = length (rq_chunks r)) as -> by lia.
    unfold rq_body in Hb. rewrite drop_app_length in Hb.
    destruct (rq_failure r) as [f|] eqn:Ef; [|done]. injection Hb as <- _.
    destruct (sl_fail (r := r) f s w Ef Hs Hde Hname) as (rc & text & s' & w' & Hd & Hm & Ha & Hrc & Hl).
    cbn [quiet_on decode_stream]. rewrite Hd. cbn [mbind outcome_bind cb_rc cb_session cb_world cb_response].
    rewrite bool_decide_false by done. split; [by intros ? [= <-]|]. eexists _, s', w'.
    split_and!; [reflexivity|done|]. exists f, text. split_and!; try done.
    by rewrite <- (sl_outs (r := r)), drop_all.
Qed.

(** The whole body. *)
Lemma stream_body_decoded ne de r `{!StreamLaws ne de r} s w :
  rq_session r 0 s -> zw_decode_env w = de ->
  tname (zw_topics w) (ss_topic_handler s) = Some (rq_topic r) ->
  exists err s' w', decode_stream (hl_listener (rq_listener r)) (rq_params r) (rq_body r) (Some s) w
      = Ret (err, Some s', w') /\ rq_answered r err /\ ss_topic_handler s' = ss_topic_handler s /\
    moved (rq_topic r) (rq_sent r) w w'.
Proof.
  intros Hs Hde Hname. destruct (stream_pieces ne de r 0 s w (rq_body r) []) as (_ & err & s' & w' & Hd & Hl & He);
    [done..|lia|by rewrite drop_0, app_nil_r|]. exists err, s', w'. split; [done|].
  unfold rq_answered, rq_sent. destruct err as [[rc resp]|].
  - destruct He as (f & text & -> & -> & Ha & Hm). rewrite drop_0 in Hm. split_and!; try done. by exists text.
  - destruct He as (Hk & _ & Hm). unfold rq_body in Hk, Hm. rewrite length_app in Hk, Hm.
    rewrite drop_0, <- (sl_outs (r := r)), take_ge in Hm by lia.
    destruct (rq_failure r); [cbn in Hk; lia|]. by rewrite app_nil_r.
Qed.

(** A request that is served alone. *)
Lemma stream_request_delivered static ne de r `{!StreamLaws ne de r} budget live
    (st : http_state zz_session zz_world) :
  0 <= budget -> world_ok (1 + budget) live (hs_world st) -> zw_new_env (hs_world st) = ne ->
  zw_decode_env (hs_world st) = de -> hs_ptr st = PNull -> compressed (rq_con r) = false ->
  exists err w', mhd_post static fuel (rq_listener r) (rq_con r) (rq_url r) (rq_body r) st
      = Ret (mkhs w' PNull (hs_sent st ++ [answer static err]) (hs_infos st) (hs_zlibs st)) /\
    rq_answered r err /\
    zw_handed w' = zw_handed (hs_world st) ++
      map (fun payload => (rq_topic r, payload)) (rq_sent r) /\
    world_ok budget live w'.
Proof.
  intros Hb Hw Hne Hde Hp Hz. destruct (sl_new (r := r)) as (new_session & Hns & Hnew).
  pose proof (sl_carries (r := r)) as Hwire. unfold rq_zlib in Hwire. rewrite Hz in Hwire. cbn in Hwire.
  destruct (Hnew budget live (hs_world st)) as (s & w1 & Hn & Hs & Hname & Hw1 & Hh & Henv & _); try done.
  destruct (stream_body_decoded ne de r s w1 Hs)
    as (err & s' & w2 & Hdec & Ha & Hl & (_ & Hh2 & _ & Hkeep)); [by eapply decode_env_kept|done|].
  pose proof (Hkeep _ _ Hw1) as Hw2.
  destruct (sl_size (r := r)) as (n & Hsz & Hn0). rewrite <- Hl in Hw2.
  destruct (session_freed budget live _ s' Hb Hw2) as (w3 & Hfree & Hw3 & Hh3 & _).
  exists err, w3. split_and!; [|done|by rewrite Hh3, Hh2, Hh|done].
  apply (post_stream_spec static fuel (rq_listener r) (rq_con r) (rq_url r) (rq_client r) new_session n
    (rq_body r) st s w1 err s' w2 w3);
    try done; try apply (sl_admitted (r := r)); try (rewrite Hwire; apply (sl_wire (r := r))).
  pose proof (sl_free (r := r)) as Hf. unfold rq_decoder in Hf. by rewrite Hf.
Qed.

(** ** The decoder of zz_http2k behind the interface *)

Lemma zz_callback_decoded (opaque : option Opq) w chunk props s rc resp s' out batch :
  zz_decode string_addr (zw_decode_env w (zw_tick w)) (zw_topics w) (Some chunk) props s
    = Ret (mkres rc resp s' batch) ->
  ss_handed s' = ss_handed s ++ out ->
  zz_callback string_addr w (Some chunk) props opaque true (Some s)
    = Ret (mkcb_result rc (match resp with Some text => Some (Some text) | None => None end) (Some s')
             (hand out batch w)).
Proof.
  intros Hd Hh. unfold zz_callback. rewrite Hd. cbn [mbind outcome_bind zd_response zd_rc zd_session].
  rewrite Hh, drop_app_length. by destruct resp.
Qed.

Definition opt_list {A} (o : option A) : list A := match o with Some x => [x] | None => [] end.

(** yajl refuses the chunk, and says why in UTF-8 text, whose control characters have
    an escape of their own in JSON. *)
Definition refused (h : yajl_handle) (chunk : bytes) : Prop :=
  exists evs h1 text, yajl_parse h chunk = (evs, false, h1) /\ yajl_get_error h1 chunk = concat text /\
    Forall json_char text /\ zlen (json_escape text) <= size_limit - 8192.

(** A body of chunks that fit the counters, that yajl accepts but for [bad]. *)
Definition json_body (chunks : list bytes) (bad : option bytes) : Prop :=
  (forall h, yajl_alloc = Some h -> exists h1, parse_chunks h chunks = Some h1 /\
     match bad with Some b => refused h1 b | None => True end) /\
  Forall (fun b => b <> [] /\ ka_bytes (zlen b) <= size_limit) (chunks ++ opt_list bad) /\
  zlen (concat (chunks ++ opt_list bad)) <= size_limit.

(** The objects that end in each of the chunks. *)
Definition json_messages (chunks : list bytes) : list (list bytes) :=
  match yajl_alloc with
  | Some h => json_outs h [] 0 0 chunks
  | None => []
  end.

(** The objects that end in [bad] after [chunks], and how many of them start in it. *)
Definition json_last (chunks : list bytes) (bad : bytes) : list bytes :=
  concat (drop (length chunks) (json_messages (chunks ++ [bad]))).

Definition json_queued (h : yajl_handle) (chunks : list bytes) (bad : bytes) : Z :=
  zlen (whole_objects (yajl_depth h) (json_last chunks bad)).

(** The answer to [bad] after [chunks]. *)
Definition json_answer (chunks : list bytes) (bad : bytes) (rc : decoder_callback_err) (text : bytes) : Prop :=
  rc = DECODER_CALLBACK_INVALID_REQUEST /\
  exists e h h1, yajl_alloc = Some h /\ parse_chunks h chunks = Some h1 /\
    text = json_error_report (json_queued h1 chunks bad) e /\
    json_unescape e = Some (yajl_get_error (yajl_parse h1 bad).2 bad).

(** The session after [k] of the chunks. *)
Definition json_at (chunks : list bytes) (k : nat) s : Prop :=
  exists j d open h, json_session_ok s j (concat (take k chunks)) d open /\
    yajl_alloc = Some h /\ parse_chunks h (take k chunks) = Some (js_handler j) /\
    drop k (json_messages chunks)
      = json_outs (js_handler j) (concat (take k chunks)) d open (drop k chunks).

Lemma json_outs_length h P d open chunks : length (json_outs h P d open chunks) = length chunks.
Proof.
  revert h P d open. induction chunks as [|c chunks IH]; intros h P d open; [done|].
  cbn [json_outs]. destruct (yajl_parse h c) as [[evs ok] h1]. cbn [length]. by rewrite IH.
Qed.

Lemma json_messages_length chunks : new_zz_session_json <> None ->
  length (json_messages chunks) = length chunks.
Proof.
  unfold new_zz_session_json, json_messages. destruct yajl_alloc; [|done]. intros _.
  apply json_outs_length.
Qed.

Lemma parse_chunks_app h a b :
  parse_chunks h (a ++ b) = match parse_chunks h a with Some h1 => parse_chunks h1 b | None => None end.
Proof.
  revert h. induction a as [|c a IH]; intros h; [done|]. cbn [app parse_chunks].
  destruct (yajl_parse h c) as [[evs [|]] h1]; [apply IH|done].
Qed.

Lemma json_fresh name w s chunks : fresh_session name false w s -> json_at chunks 0 s.
Proof.
  intros [_ _ Hr Hw Hu]. destruct (ss_union s) as [j|p x] eqn:E; [|by destruct Hu].
  destruct Hu as [_ Hj]. unfold new_zz_session_json in Hj.
  destruct yajl_alloc as [h|] eqn:Ha; [|done]. injection Hj as <-.
  exists (mkjs h 0 0 0 N2K_STRING_INITIALIZER), 0, 0, h. cbn [take concat].
  rewrite !drop_0. split_and!; try done.
  - split_and!; [done|..]; rewrite ?Hr, ?Hw; try done; try apply string_init_inv.
    split_and!; try done. by apply yajl_alloc_depth.
  - unfold json_messages. by rewrite Ha.
Qed.

Lemma take_S_concat k (chunks : list bytes) chunk :
  chunks !! k = Some chunk -> concat (take (S k) chunks) = concat (take k chunks) ++ chunk.
Proof.
  intros H. rewrite (take_S_r _ _ _ H), concat_app. cbn. by rewrite app_nil_r.
Qed.

(** What is known of the chunk [k] of a body. *)
Lemma json_body_chunk chunks bad k chunk :
  json_body chunks bad -> (chunks ++ opt_list bad) !! k = Some chunk ->
  chunk <> [] /\ ka_bytes (zlen chunk) <= size_limit /\
  zlen (concat (take k (chunks ++ opt_list bad))) + zlen chunk <= size_limit.
Proof.
  intros (_ & Hall & Hlim) Hc. rewrite list.Forall_forall in Hall.
  destruct (Hall chunk) as [Hne Hk]; [by eapply list_elem_of_lookup_2|]. split_and!; try done.
  rewrite <- zlen_app, <- (take_S_concat _ _ _ Hc).
  rewrite <- (take_drop (S k) (chunks ++ opt_list bad)), concat_app, zlen_app in Hlim.
  pose proof (zlen_nonneg (concat (drop (S k) (chunks ++ opt_list bad)))). lia.
Qed.

Context (props : keyval_list).
Context (Hpost : match valueof props (bs "D-HTTP-method") strcmp0 with
                 | Some m => negb (strcmp0 (bs "POST") m) | None => false end = false).
Context (topics : world) (r : rkt).

Lemma json_step ne de chunks bad k s chunk out env :
  resources ne de -> json_body chunks bad ->
  json_at (chunks ++ opt_list bad) k s -> chunks !! k = Some chunk ->
  json_messages (chunks ++ opt_list bad) !! k = Some out ->
  (exists addr, de_mem env = Some addr /\ 0 < addr) ->
  topics_db_get_rdkafka_topic topics (ss_topic_handler s) = Ret r ->
  exists s' batch, zz_decode string_addr env topics (Some chunk) props s
      = Ret (mkres DECODER_CALLBACK_OK None s' batch) /\
    batch_ok batch /\ json_at (chunks ++ opt_list bad) (S k) s' /\ ss_topic_handler s' = ss_topic_handler s /\
    ss_handed s' = ss_handed s ++ for_topic r out.
Proof using Hpost.
  intros Hres Hbody (j & d & open & h & Hok & Ha & Hp & Houts) Hck Ho (addr & Hmem & Haddr) Hr.
  assert (Hc : (chunks ++ opt_list bad) !! k = Some chunk).
  { rewrite lookup_app_l; [done|]. by eapply lookup_lt_Some. }
  destruct (json_body_chunk _ _ _ _ Hbody Hc) as (Hne & Hkl & Hl).
  assert (exists evs h1, yajl_parse (js_handler j) chunk = (evs, true, h1)) as (evs & h1 & E).
  { destruct Hbody as [Hgood _]. destruct (Hgood h Ha) as (h2 & Hh2 & _).
    rewrite take_app_le in Hp by (apply lookup_lt_Some in Hck; lia).
    rewrite <- (take_drop k chunks), parse_chunks_app, Hp, (drop_S _ _ _ Hck) in Hh2.
    cbn [parse_chunks] in Hh2. destruct (yajl_parse (js_handler j) chunk) as [[evs [|]] h1]; [|done].
    by exists evs, h1. }
  rewrite (drop_S _ _ _ Hc), (drop_S _ _ _ Ho) in Houts. cbn [json_outs] in Houts. rewrite E in Houts.
  injection Houts as -> Houts.
  destruct (decode_json_chunk string_addr props topics r (rs_alloc _ _ Hres)
    (rs_known _ _ Hres) Hpost (rs_error _ _ Hres) env addr chunk s j _ d open evs h1 Hok Hmem Haddr)
    as (s' & j' & batch & Hd & Hok' & Hj' & Hbatch & Hh & Hhand); try done.
  exists s', batch. split_and!; try done.
  eexists j', (yajl_depth h1), (open_after d open _), h.
  rewrite (take_S_concat _ _ _ Hc), Hj'. split_and!; try done.
  rewrite (take_S_r _ _ _ Hc), parse_chunks_app, Hp. cbn [parse_chunks]. by rewrite E.
Qed.

Lemma json_fail ne de chunks bad s env :
  resources ne de -> json_body chunks (Some bad) ->
  json_at (chunks ++ [bad]) (length chunks) s ->
  (exists addr, de_mem env = Some addr /\ 0 < addr) ->
  topics_db_get_rdkafka_topic topics (ss_topic_handler s) = Ret r ->
  exists text s' batch, zz_decode string_addr env topics (Some bad) props s
      = Ret (mkres DECODER_CALLBACK_INVALID_REQUEST (Some text) s' batch) /\
    batch_ok batch /\ json_answer chunks bad DECODER_CALLBACK_INVALID_REQUEST text /\
    ss_topic_handler s' = ss_topic_handler s /\
    ss_handed s' = ss_handed s ++ for_topic r (json_last chunks bad).
Proof using Hpost.
  intros Hres Hbody (j & d & open & h & Hok & Ha & Hp & Houts) (addr & Hmem & Haddr) Hr.
  destruct (json_body_chunk _ _ (length chunks) bad Hbody) as (Hne & Hkl & Hl).
  { cbn. by rewrite lookup_app_r, Nat.sub_diag by lia. }
  rewrite take_app_length in *. rewrite drop_app_length in Houts.
  destruct Hbody as [Hgood _]. destruct (Hgood h Ha) as (h1 & Hh1 & evs & h2 & text & E & Ht & Hutf & Hesc).
  rewrite Hp in Hh1. injection Hh1 as Hj. rewrite <- Hj in E.
  pose proof (rs_error _ _ Hres h2 bad) as Herr. rewrite Ht in Herr.
  destruct (decode_json_error string_addr props topics r (rs_alloc _ _ Hres)
    (rs_known _ _ Hres) Hpost env addr bad s j _ d open evs h2 text Hok Hmem Haddr)
    as (s' & batch & Hd & Hbatch & Hh & Hhand); try done; [by apply json_chars_utf8|].
  assert (Hlast : json_last chunks bad
    = objects_of (concat chunks ++ bad) d open (shift_events (zlen (concat chunks)) evs)).
  { unfold json_last. rewrite Houts. cbn [json_outs]. rewrite E. cbn [concat]. by rewrite app_nil_r. }
  assert (Hdep : yajl_depth (js_handler j) = d) by apply Hok.
  rewrite <- Hlast in Hd, Hhand. rewrite <- Hdep in Hd. eexists _, s', batch. split; [exact Hd|].
  split_and!; try done. split; [done|]. exists (json_escape text), h, (js_handler j).
  split_and!; try done. rewrite E. cbn [snd]. rewrite Ht. by apply json_unescape_escape.
Qed.

(** A body of whole XML documents per chunk, with the texts of their translations; a
    last chunk may break off, with the texts before the error and its position. *)
Inductive xml_body : XML_Parser -> list bytes -> list (list bytes) ->
    option (bytes * (list bytes * xml_position)) -> Prop :=
| xml_body_end p : xml_body p [] [] None
| xml_body_broken p chunk ts pos text texts :
    broken_documents p chunk ts pos text -> syntax_error pos -> Forall2 generates ts texts ->
    Forall (fun t => single_text t = true /\ Z.of_nat (height t) < 125) ts ->
    zlen (concat texts) + zlen text <= size_limit -> ka_bytes (zlen ts + 1) <= size_limit ->
    chunk <> [] -> zlen chunk < 2 ^ 64 ->
    xml_body p [] [] (Some (chunk, (texts, pos)))
| xml_body_chunk p chunk ts p' texts chunks rest bad :
    documents p chunk ts p' -> Forall2 generates ts texts ->
    Forall (fun t => single_text t = true /\ Z.of_nat (height t) < 125) ts ->
    zlen (concat texts) <= size_limit -> ka_bytes (zlen ts) <= size_limit ->
    chunk <> [] -> zlen chunk < 2 ^ 64 -> xml_body p' chunks rest bad ->
    xml_body p (chunk :: chunks) (texts :: rest) bad.

Definition xml_at (chunks : list bytes) (texts : list (list bytes))
    (bad : option (bytes * (list bytes * xml_position))) (k : nat) s : Prop :=
  exists p, xml_session_ok s p /\ xml_body p (drop k chunks) (drop k texts) bad.

(** The answer to a malformed document after [out]. *)
Definition xml_answer (out : list bytes) (pos : xml_position) (rc : decoder_callback_err) (text : bytes) : Prop :=
  rc = DECODER_CALLBACK_INVALID_REQUEST /\ text = xml_result (zlen out) (xml_error_report pos).

Lemma xml_body_shape p chunks texts bad :
  xml_body p chunks texts bad -> length texts = length chunks /\
    Forall (fun b => b <> []) (chunks ++ opt_list (fst <$> bad)).
Proof.
  induction 1 as [|? ? ? ? ? ? ? ? ? ? ? ? Hne|? ? ? ? ? ? ? ? ? ? ? ? ? Hne ? ? [IH1 IH2]]; cbn; [done|..].
  - split; [done|by constructor].
  - split; [lia|by constructor].
Qed.

Lemma xml_fresh name w s chunks texts bad :
  (forall p, XML_ParserCreate = Some p -> xml_body p chunks texts bad) ->
  fresh_session name true w s -> xml_at chunks texts bad 0 s.
Proof.
  intros Hb [_ _ Hr Hw Hu]. destruct (ss_union s) as [j|p x] eqn:E; [by destruct Hu|].
  destruct Hu as (_ & Hp & ->). exists p. rewrite !drop_0. split; [|by apply Hb].
  by apply new_xml_session_ok.
Qed.

Lemma xml_step ne de chunks texts bad k s chunk out env :
  resources ne de ->
  xml_at chunks texts bad k s -> chunks !! k = Some chunk -> texts !! k = Some out ->
  de_temp_ok env = true -> topics_db_get_rdkafka_topic topics (ss_topic_handler s) = Ret r ->
  exists s' batch, zz_decode string_addr env topics (Some chunk) props s
      = Ret (mkres DECODER_CALLBACK_OK None s' batch) /\
    batch_ok batch /\ xml_at chunks texts bad (S k) s' /\ ss_topic_handler s' = ss_topic_handler s /\
    ss_handed s' = ss_handed s ++ for_topic r out.
Proof using Hpost.
  intros Hres (p & Hok & Hbody) Hc Ho Htemp Hr.
  rewrite (drop_S _ _ _ Hc), (drop_S _ _ _ Ho) in Hbody.
  inversion Hbody as [| |? ? ts p' ? ? ? ? Hdocs Hgen Hts Hl Hkb _ Hlen Hrest]; subst.
  destruct (decode_xml_chunk string_addr props topics r (rs_alloc _ _ Hres) (rs_known _ _ Hres) Hpost env
    chunk s p p' ts out Hok Htemp Hdocs Hgen Hts Hl Hkb Hlen (rs_addr _ _ Hres) Hr)
    as (s' & batch & Hd & Hok' & Hbatch & Hh & Hhand).
  exists s', batch. split_and!; try done. by exists p'.
Qed.

Lemma xml_fail ne de chunks texts chunk out pos s env :
  resources ne de ->
  xml_at chunks texts (Some (chunk, (out, pos))) (length chunks) s -> de_temp_ok env = true ->
  topics_db_get_rdkafka_topic topics (ss_topic_handler s) = Ret r ->
  exists text s' batch, zz_decode string_addr env topics (Some chunk) props s
      = Ret (mkres DECODER_CALLBACK_INVALID_REQUEST (Some text) s' batch) /\
    batch_ok batch /\ xml_answer out pos DECODER_CALLBACK_INVALID_REQUEST text /\
    ss_topic_handler s' = ss_topic_handler s /\ ss_handed s' = ss_handed s ++ for_topic r out.
Proof using Hpost.
  intros Hres (p & Hok & Hbody) Htemp Hr. rewrite drop_all in Hbody.
  inversion Hbody as [|? ? ts ? text ? Hdocs Herr Hgen Hts Hl Hkb _ Hlen E|]; subst.
  destruct (decode_xml_error string_addr props topics r (rs_alloc _ _ Hres) (rs_known _ _ Hres) Hpost env
    chunk s p ts pos text out Hok Htemp Hdocs Herr Hgen Hts Hl Hkb Hlen (rs_addr _ _ Hres) Hr)
    as (s' & batch & Hd & Hbatch & Hh & Hhand).
  eexists _, s', batch. by split_and!.
Qed.

End streams.

(** ** The requests of the program *)

Section posts.
Context {alloc : Allocator} {abi : Abi} {yajl : Yajl} {gen : YajlGen} {strings : ExpatStrings}
  {expat : Expat} {rk : Rdkafka} {producer : BatchProducer} {jansson : Jansson} {zlib : Zlib} {spec : ZlibSpec}
  {gnutls : Gnutls}.
Context (string_addr : cstring -> Z) (sizeof_session : Z) (fuel : nat).
Context (calloc_ok : bool) (default_topic : option bytes).

(** Where a POST goes and what its body is: JSON or XML (with the texts of the
    translations of each chunk, and those before an error with its position) for [/v1/data/<topic>] of a zz_http2k listener, or
    JSON for any URL of a meraki listener that has a topic. *)
Inductive post_kind :=
| ZzJsonPost (topic : bytes)
| ZzXmlPost (topic : bytes) (texts : list (list bytes)) (broken : option (list bytes * xml_position))
| MerakiPost (url listener_topic : bytes).

(** [po_chunks] are the pieces of the body before [po_bad], the one that is
    malformed, if there is one, with the pieces after it; [po_complete] says whether the
    client waits for the answer.  [po_wire] are the chunks of a compressed body, which
    inflate to those pieces; if the body is not compressed the pieces are the chunks. *)
Record post := mkpost {
  po_kind : post_kind;
  po_port : Z;
  po_htpasswd : option bytes;
  po_tls : bool;
  po_con : MHD_Connection;
  po_client : bytes;
  po_chunks : list bytes;
  po_bad : option (bytes * list bytes);
  po_complete : bool;
  po_wire : option (list bytes)
}.

Definition po_listener (p : post) : http_listener zz_session zz_world bytes :=
  mkhl match po_kind p with
       | MerakiPost _ listener_topic =>
           mklistener (meraki_decoder string_addr sizeof_session calloc_ok default_topic)
             (Some listener_topic) (po_port p)
       | _ => mklistener (zz_decoder string_addr sizeof_session) None (po_port p)
       end (po_htpasswd p) (po_tls p).

Definition po_url (p : post) : bytes :=
  match po_kind p with
  | ZzJsonPost topic | ZzXmlPost topic _ _ => valid_prefix_str ++ topic
  | MerakiPost url _ => url
  end.

Definition po_params (p : post) : keyval_list :=
  request_params (po_con p) (po_url p) (bs "POST") (po_client p).

(** The topic its messages are for. *)
Definition po_topic (p : post) : bytes :=
  match po_kind p with
  | ZzJsonPost topic | ZzXmlPost topic _ _ =>
      uuid_topic (valueof (po_params p) (bs "X-Consumer-ID") strcasecmp0) topic
  | MerakiPost _ listener_topic => listener_topic
  end.

(** The chunks that are parsed. *)
Definition po_parsed (p : post) : list bytes := po_chunks p ++ opt_list (fst <$> po_bad p).

(** The messages of each of the chunks that are taken. *)
Definition po_messages (p : post) : list (list bytes) :=
  match po_kind p with
  | ZzXmlPost _ texts _ => texts
  | _ => take (length (po_chunks p)) (json_messages (po_parsed p))
  end.

(** The messages of the malformed piece before the error, and its answer. *)
Definition po_refusal (p : post) (bad : bytes) : list bytes * (decoder_callback_err -> bytes -> Prop) :=
  match po_kind p with
  | ZzXmlPost _ _ (Some (out, pos)) => (out, xml_answer out pos)
  | _ => (json_last (po_chunks p) bad, json_answer (po_chunks p) bad)
  end.

Definition po_failure (p : post) : option stream_failure :=
  match po_bad p with
  | Some (bad, rest) => Some (mkfailure bad rest (po_refusal p bad).1 (po_refusal p bad).2)
  | None => None
  end.

(** The malformed piece of XML. *)
Definition xml_bad (bad : option (bytes * list bytes)) (broken : option (list bytes * xml_position))
    : option (bytes * (list bytes * xml_position)) :=
  match bad, broken with Some (b, _), Some e => Some (b, e) | _, _ => None end.

(** All the pieces. *)
Definition po_body (p : post) : list bytes :=
  po_chunks p ++ match po_bad p with Some (bad, rest) => bad :: rest | None => [] end.

Definition stream_of (p : post) : stream_request :=
  mkreq (po_listener p) (po_con p) (po_url p) (po_client p) (default (po_body p) (po_wire p)) (po_chunks p) (po_topic p) (po_messages p)
    match po_kind p with
    | ZzXmlPost _ texts broken => xml_at (po_chunks p) texts (xml_bad (po_bad p) broken)
    | _ => json_at (po_parsed p)
    end (po_failure p) (po_complete p).

(** A topic that can be part of a URL, for C strings too. *)
Definition topic_ok (topic : bytes) : Prop :=
  topic <> [] /\ Forall (fun c => c <> x00 /\ c ∉ url_specials) topic.

Record good_post (p : post) : Prop := {
  gp_admitted : admitted fuel (po_listener p) (po_con p) (po_client p);
  gp_wire : match po_wire p with
            | None => compressed (po_con p) = false
            | Some wire => compressed (po_con p) = true /\ inflateInit2.1 = Z_OK /\
                Forall (fun b => b <> []) wire /\
                exists text, inflates fuel inflateInit2.2 wire text (po_body p)
            end;
  gp_headers : Forall (fun kv => kv.1 <> bs "D-HTTP-method" /\ kv.1 <> bs "D-HTTP-URI")
                 (mc_headers (po_con p));
  gp_topic : match po_kind p with
             | ZzJsonPost topic | ZzXmlPost topic _ _ | MerakiPost _ topic => topic_ok topic end;
  gp_body : match po_kind p with
            | ZzXmlPost _ texts broken =>
                (is_Some (po_bad p) <-> is_Some broken) /\
                is_xml_content_type (valueof (po_params p) (bs "Content-type") strcasecmp0) = true /\
                forall x, XML_ParserCreate = Some x ->
                  xml_body x (po_chunks p) texts (xml_bad (po_bad p) broken)
            | ZzJsonPost _ =>
                is_xml_content_type (valueof (po_params p) (bs "Content-type") strcasecmp0) = false /\
                json_body (po_chunks p) (fst <$> po_bad p)
            | MerakiPost _ _ => json_body (po_chunks p) (fst <$> po_bad p)
            end;
  gp_rest : match po_bad p with Some (_, rest) => Forall (fun b => b <> []) rest | None => True end
}.

Lemma post_method p : good_post p ->
  valueof (po_params p) (bs "D-HTTP-method") strcmp0 = Some (bs "POST").
Proof.
  intros Hg. unfold po_params. rewrite params_listener; [done|].
  eapply list.Forall_impl; [exact (gp_headers p Hg)|]. by intros kv [].
Qed.

Lemma post_uri p : good_post p ->
  valueof (po_params p) (bs "D-HTTP-URI") strcmp0 = Some (po_url p).
Proof.
  intros Hg. unfold po_params. rewrite params_listener; [done|].
  eapply list.Forall_impl; [exact (gp_headers p Hg)|]. by intros kv [].
Qed.

Lemma topic_no_nul topic : topic_ok topic -> Forall (fun c => c <> x00) topic.
Proof. intros [_ H]. eapply list.Forall_impl; [exact H|]. by intros c []. Qed.

Lemma topic_no_special topic : topic_ok topic -> Forall (fun c => c ∉ url_specials) topic.
Proof. intros [_ H]. eapply list.Forall_impl; [exact H|]. by intros c []. Qed.

(** The session of each kind of request. *)
Lemma post_session ne de p budget live w :
  resources string_addr sizeof_session ne de -> good_post p -> 0 <= budget ->
  world_ok (1 + budget) live w -> zw_new_env w = ne -> zw_decode_env w = de ->
  exists s w', (match po_kind p with
                | MerakiPost _ t => vnew_meraki_session default_topic w (Some t) (po_params p)
                | _ => vnew_zz_session (O := bytes) w None (po_params p)
                end) = Ret (Some s, w') /\
    rq_session (stream_of p) 0 s /\ tname (zw_topics w') (ss_topic_handler s) = Some (po_topic p) /\
    world_ok budget (ss_topic_handler s :: live) w' /\ zw_handed w' = zw_handed w /\
    same_env w w' /\ names_kept live w w'.
Proof.
  intros Hres Hg Hb Hw <- <-. pose proof (gp_topic p Hg) as Ht. pose proof (gp_body p Hg) as Hbody.
  pose proof (post_uri p Hg) as Hu. unfold po_topic, stream_of, po_url in *. cbn [rq_session].
  destruct (po_kind p) as [topic|topic texts broken|url topic] eqn:Ek.
  - destruct (session_created string_addr sizeof_session (@None bytes) (po_params p) topic budget live w)
      as (s & w' & Hn & Hf & Hrest); try done; [apply Ht|by apply topic_no_special|].
    destruct Hbody as [Hx Hj]. rewrite Hx in Hf. exists s, w'. split; [done|].
    split; [by eapply json_fresh|]. split; [apply Hf|done].
  - destruct (session_created string_addr sizeof_session (@None bytes) (po_params p) topic budget live w)
      as (s & w' & Hn & Hf & Hrest); try done; [apply Ht|by apply topic_no_special|].
    destruct Hbody as (_ & Hx & Hj). rewrite Hx in Hf. exists s, w'. split; [done|].
    split; [by eapply xml_fresh|]. split; [apply Hf|done].
  - unfold vnew_meraki_session, new_meraki_session. rewrite c_string_no_nul by (by apply topic_no_nul).
    cbn [fold_left add_key_value_pair app].
    match goal with |- context [vnew_zz_session w None ?kv] =>
      destruct (session_created string_addr sizeof_session (@None bytes) kv topic budget live w)
        as (s & w' & Hn & Hf & Hrest) end; try done; [apply Ht|by apply topic_no_special|].
    exists s, w'. split; [done|]. split; [by eapply json_fresh|]. split; [apply Hf|done].
Qed.

Lemma rq_body_of p : rq_body (stream_of p) = po_body p.
Proof. unfold rq_body, po_body. cbn. unfold po_failure. by destruct (po_bad p) as [[]|]. Qed.

(** One list of messages per chunk, and no empty chunk. *)
Lemma post_shape ne de p : resources string_addr sizeof_session ne de -> good_post p ->
  length (po_messages p) = length (po_chunks p) /\ Forall (fun b => b <> []) (rq_body (stream_of p)).
Proof.
  intros Hres Hg. pose proof (gp_body p Hg) as Hb. pose proof (gp_rest p Hg) as Hr.
  pose proof (rs_json _ _ _ _ Hres) as Hj. pose proof (rs_xml _ _ _ _ Hres) as Hx.
  assert (Hparts : length (po_messages p) = length (po_chunks p) /\
    Forall (fun b => b <> []) (po_chunks p ++ opt_list (fst <$> po_bad p))).
  { assert (Hjson : json_body (po_chunks p) (fst <$> po_bad p) ->
      length (take (length (po_chunks p)) (json_messages (po_parsed p))) = length (po_chunks p) /\
      Forall (fun b => b <> []) (po_chunks p ++ opt_list (fst <$> po_bad p))).
    { intros (_ & Hall & _). split.
      - rewrite length_take, json_messages_length by done. unfold po_parsed. rewrite length_app. lia.
      - eapply list.Forall_impl; [exact Hall|]. by intros b []. }
    unfold po_messages. destruct (po_kind p) as [|? ? broken|]; [apply Hjson, Hb| |by apply Hjson].
    destruct XML_ParserCreate as [x|]; [|done]. destruct Hb as (Hiff & _ & Hb).
    destruct (xml_body_shape x _ _ _ (Hb x eq_refl)) as [Hl Hf]. split; [done|].
    unfold xml_bad in Hf. destruct (po_bad p) as [[bad rest]|]; [|done]. destruct broken as [e|]; [done|].
    by destruct (proj1 Hiff). }
  destruct Hparts as [Hl Hall]. split; [done|]. rewrite rq_body_of. unfold po_body.
  apply Forall_app in Hall as [Hall Hbad]. apply Forall_app. split; [done|].
  destruct (po_bad p) as [[bad rest]|]; [|done]. cbn in Hbad. apply list.Forall_cons in Hbad as [? _].
  by constructor.
Qed.

(** How the body comes. *)
Lemma post_wire ne de p : resources string_addr sizeof_session ne de -> good_post p ->
  (compressed (po_con p) = true -> inflateInit2.1 = Z_OK) /\
  carries fuel (rq_zlib (stream_of p)) (rq_wire (stream_of p)) (rq_body (stream_of p)) /\
  Forall (fun b => b <> []) (rq_wire (stream_of p)).
Proof.
  intros Hres Hg. pose proof (gp_wire p Hg) as Hw. destruct (post_shape ne de p Hres Hg) as [_ Hne].
  rewrite rq_body_of in *. unfold rq_zlib. cbn [stream_of rq_con rq_wire].
  destruct (po_wire p) as [wire|]; cbn [default from_option id].
  - destruct Hw as (-> & Hi & Hw & Hinf). by split_and!.
  - rewrite Hw. by split_and!.
Qed.

(** The decoders' call for a chunk, in the session of the request. *)
Lemma post_step ne de p k s w chunk out r :
  resources string_addr sizeof_session ne de -> good_post p ->
  rq_session (stream_of p) k s -> po_chunks p !! k = Some chunk -> po_messages p !! k = Some out ->
  zw_decode_env w = de -> topics_db_get_rdkafka_topic (zw_topics w) (ss_topic_handler s) = Ret r ->
  exists s' batch,
    zz_decode string_addr (zw_decode_env w (zw_tick w)) (zw_topics w) (Some chunk) (po_params p) s
      = Ret (mkres DECODER_CALLBACK_OK None s' batch) /\
    batch_ok batch /\ rq_session (stream_of p) (S k) s' /\ ss_topic_handler s' = ss_topic_handler s /\
    ss_handed s' = ss_handed s ++ for_topic r out.
Proof.
  intros Hres Hg Hs Hc Ho Hde Hr. pose proof (post_method p Hg) as Hm. pose proof (gp_body p Hg) as Hb.
  destruct (rs_decode _ _ _ _ Hres (zw_tick w)) as [Hmem Htemp]. rewrite Hde.
  unfold stream_of, po_messages in *. cbn [rq_session] in *. destruct (po_kind p).
  - apply lookup_take_Some in Ho as [Ho _]. eapply json_step; try done; [by rewrite Hm|apply Hb].
  - eapply xml_step; try done. by rewrite Hm.
  - apply lookup_take_Some in Ho as [Ho _]. eapply json_step; try done. by rewrite Hm.
Qed.

(** The call for the chunk that is refused. *)
Lemma post_fail ne de p s w bad rest r :
  resources string_addr sizeof_session ne de -> good_post p -> po_bad p = Some (bad, rest) ->
  rq_session (stream_of p) (length (po_chunks p)) s -> zw_decode_env w = de ->
  topics_db_get_rdkafka_topic (zw_topics w) (ss_topic_handler s) = Ret r ->
  exists text s' batch,
    zz_decode string_addr (zw_decode_env w (zw_tick w)) (zw_topics w) (Some bad) (po_params p) s
      = Ret (mkres DECODER_CALLBACK_INVALID_REQUEST (Some text) s' batch) /\
    batch_ok batch /\ (po_refusal p bad).2 DECODER_CALLBACK_INVALID_REQUEST text /\
    ss_topic_handler s' = ss_topic_handler s /\
    ss_handed s' = ss_handed s ++ for_topic r (po_refusal p bad).1.
Proof.
  intros Hres Hg Hbad Hs Hde Hr. pose proof (post_method p Hg) as Hm. pose proof (gp_body p Hg) as Hb.
  destruct (rs_decode _ _ _ _ Hres (zw_tick w)) as [Hmem Htemp]. rewrite Hde.
  unfold stream_of, po_refusal, po_parsed in *. cbn [rq_session] in *. rewrite Hbad in *.
  cbn [fmap option_fmap option_map fst opt_list] in *.
  destruct (po_kind p) as [|? texts broken|]; cbn [fst snd].
  - eapply json_fail; try done; [by rewrite Hm|apply Hb].
  - destruct broken as [[out pos]|]; [|by destruct Hb as [[[]] _]]. eapply xml_fail; try done. by rewrite Hm.
  - eapply json_fail; try done. by rewrite Hm.
Qed.

(** What the callback of either decoder does with a chunk. *)
Lemma post_callback p s w chunk rc resp s' out batch :
  good_post p ->
  zz_decode string_addr (zw_decode_env w (zw_tick w)) (zw_topics w) (Some chunk) (po_params p) s
    = Ret (mkres rc resp s' batch) ->
  ss_handed s' = ss_handed s ++ out ->
  listener_decode (hl_listener (po_listener p)) w (Some chunk) (po_params p) true (Some s)
    = Ret (mkcb_result rc (match resp with Some text => Some (Some text) | None => None end) (Some s')
             (hand out batch w)).
Proof.
  intros Hg Hd Hhand. unfold listener_decode, po_listener. cbn [hl_listener].
  destruct (po_kind p); cbn [l_decoder l_decoder_opaque dec_callback].
  1,2: by eapply zz_callback_decoded.
  cbn [meraki_decoder dec_callback]. unfold meraki_decode. rewrite (post_method p Hg).
  change (strcmp0 (bs "POST") (bs "GET")) with false. cbn iota. by eapply zz_callback_decoded.
Qed.

(** Every kind of request keeps the laws of the interface. *)
#[export] Instance post_laws ne de p
    (Hres : resources string_addr sizeof_session ne de) (Hg : good_post p) :
  StreamLaws fuel ne de (stream_of p).
Proof.
  split; try apply (post_shape ne de p Hres Hg); try apply (post_wire ne de p Hres Hg).
  - apply (gp_admitted p Hg).
  - exists (zz_session_size sizeof_session). split; [|exact (rs_size _ _ _ _ Hres)].
    unfold rq_decoder, stream_of, po_listener. cbn. by destruct (po_kind p).
  - assert (exists ns, dec_new_session (rq_decoder (stream_of p)) = Some ns /\
      forall w, ns w (l_decoder_opaque (hl_listener (po_listener p))) (po_params p) =
        match po_kind p with
        | MerakiPost _ t => vnew_meraki_session default_topic w (Some t) (po_params p)
        | _ => vnew_zz_session (O := bytes) w None (po_params p)
        end) as (ns & Hns & Heq).
    { unfold rq_decoder, stream_of, po_listener. cbn [rq_listener hl_listener].
      destruct (po_kind p); eexists; by split. }
    exists ns. split; [done|]. intros budget live w Hb Hw Hne Hde.
    change (rq_params (stream_of p)) with (po_params p). cbn [rq_listener stream_of]. rewrite Heq.
    by apply (post_session ne de).
  - intros k s w chunk out Hs Hc Ho Hde Hname. destruct (tname_rkt _ _ _ Hname) as (r & Hr & <-).
    destruct (post_step ne de p k s w chunk out r) as (s' & batch & Hd & Hb & Hs' & Hh & Hhand); try done.
    eexists s', _. split_and!; [|by apply hand_moved|done..].
    exact (post_callback p s w chunk _ _ s' _ batch Hg Hd Hhand).
  - intros f s w Hf Hs Hde Hname. destruct (tname_rkt _ _ _ Hname) as (r & Hr & <-). cbn [stream_of rq_failure] in Hf. unfold po_failure in Hf.
    destruct (po_bad p) as [[bad rest]|] eqn:Hbad; [|done]. injection Hf as <-.
    destruct (post_fail ne de p s w bad rest r) as (text & s' & batch & Hd & Hb & Ha & Hh & Hhand); try done.
    eexists _, text, s', _. split_and!; [|by apply hand_moved|exact Ha|done|done].
    exact (post_callback p s w bad _ _ s' _ batch Hg Hd Hhand).
  - unfold rq_decoder, stream_of, po_listener. cbn. by destruct (po_kind p).
Qed.

End posts.
