(* ===== verification/Daemon.v ===== *)
(** * Many requests at a time

    A daemon of libmicrohttpd serves many connections: between two calls for one
    request it makes calls for others.  The requests have their own opaque pointers
    and answers, and share the topics database, librdkafka, and the memory of the
    process.  The listeners of the program (zz_http2k and meraki, each with its own
    port and password file) share one world too, so the requests here may go to
    different listeners.  librdkafka reports messages between the calls too, from the
    thread that polls it.  A call is one step here; where threads meet inside of calls,
    in the topics database and at the batch that is being produced, [TopicDb] and
    [KafkaArray] interleave them. *)

From S2P Require Import Prelude CString JsonString KafkaArray TopicDb Pair Addr ZzJson ZzXml ZzSession Decoders HttpAuth Http HttpProps Stream.
From stdpp Require Import gmap.
#[local] Open Scope Z_scope.

(** ** Calls *)

(** A call of libmicrohttpd for the streamed request number [i]: of [handle_request],
    with the next chunk of the body if there is one, or of [request_completed]; the
    same for the short request number [i]; or a call of librdkafka with the report of a
    message of the batch number [b], the [j]-th of those that are not reported. *)
Inductive mhd_event :=
| ECall (i : nat) (data : option bytes)
| EDone (i : nat)
| EShort (i : nat)
| EShortDone (i : nat)
| EReport (b j : nat).

Definition event_conn (ev : mhd_event) : option nat :=
  match ev with ECall i _ | EDone i => Some i | _ => None end.

Definition event_short (ev : mhd_event) : option nat :=
  match ev with EShort i | EShortDone i => Some i | _ => None end.

(** The calls for a POST: the first one, one per chunk, the last one if the client is
    still there, and the end. *)
Definition rest_calls (i : nat) (complete : bool) (chunks : list bytes) : list mhd_event :=
  map (fun b => ECall i (Some b)) chunks ++ (if complete then [ECall i None; EDone i] else [EDone i]).

Definition post_calls (i : nat) (complete : bool) (chunks : list bytes) : list mhd_event :=
  ECall i None :: rest_calls i complete chunks.

(** The calls for the request [i] in a run. *)
Definition calls_of (i : nat) (evs : list mhd_event) : list mhd_event :=
  filter (fun ev => event_conn ev = Some i) evs.

Lemma calls_of_same i ev evs : event_conn ev = Some i -> calls_of i (ev :: evs) = ev :: calls_of i evs.
Proof. intros H. unfold calls_of. by rewrite filter_cons_True. Qed.

Lemma calls_of_other i ev evs : event_conn ev <> Some i -> calls_of i (ev :: evs) = calls_of i evs.
Proof. intros H. unfold calls_of. by rewrite filter_cons_False. Qed.

(** The calls for the short request [i]: [n] of them are left before its end. *)
Definition short_calls (i n : nat) : list mhd_event := replicate n (EShort i) ++ [EShortDone i].

Definition shorts_of (i : nat) (evs : list mhd_event) : list mhd_event :=
  filter (fun ev => event_short ev = Some i) evs.

Lemma shorts_of_same i ev evs : event_short ev = Some i -> shorts_of i (ev :: evs) = ev :: shorts_of i evs.
Proof. intros H. unfold shorts_of. by rewrite filter_cons_True. Qed.

Lemma shorts_of_other i ev evs : event_short ev <> Some i -> shorts_of i (ev :: evs) = shorts_of i evs.
Proof. intros H. unfold shorts_of. by rewrite filter_cons_False. Qed.

Lemma conn_not_short i j ev : event_conn ev = Some i -> event_short ev <> Some j.
Proof. by destruct ev. Qed.

Section daemon.
Context {alloc : Allocator} {abi : Abi} {yajl : Yajl} {gen : YajlGen} {strings : ExpatStrings}
  {expat : Expat} {rk : Rdkafka} {producer : BatchProducer} {jansson : Jansson} {zlib : Zlib} {spec : ZlibSpec}
  {gnutls : Gnutls} {Opq : Type}.
Context (static : static_responses) (fuel : nat).
Implicit Types (w : zz_world) (s : zz_session) (r : stream_request (Opq := Opq)).

(** A request that gets no session: it is refused, or it is a GET.  Its calls have no
    data; [sq_states] are the pointer and the answers after each of them. *)
Record short_request := mkshort {
  sq_listener : http_listener zz_session zz_world Opq;
  sq_con : MHD_Connection;
  sq_url : bytes;
  sq_method : bytes;
  sq_states : list (con_ptr zz_session * list MHD_Response)
}.
Implicit Types (q : short_request).

(** After [k] calls. *)
Definition short_at q (k : nat) : con_ptr zz_session * list MHD_Response :=
  match k with O => (PNull, []) | Datatypes.S k => default (PNull, []) (sq_states q !! k) end.

(** Its calls neither hand anything over nor change a topic. *)
Class ShortLaws q : Prop := {
  ql_step : forall k c st, sq_states q !! k = Some c -> (hs_ptr st, hs_sent st) = short_at q k ->
    exists rc w', handle_request static fuel (sq_listener q) (sq_con q) (sq_url q) (sq_method q) None st
        = Ret (rc, mkhs w' c.1 c.2 (hs_infos st) (hs_zlibs st)) /\
      forall name, moved name [] (hs_world st) w';
  ql_end : (short_at q (length (sq_states q))).1 = PNull
}.

(** What the process shares, and the pointer and the answers of each request. *)
Record served := mkserved {
  dm_world : zz_world;
  dm_conns : list (con_ptr zz_session * list MHD_Response);
  dm_shorts : list (con_ptr zz_session * list MHD_Response);
  dm_infos : Z;
  dm_zlibs : Z
}.

(** The state a call for a request works on. *)
Definition conn_view (d : served) (c : con_ptr zz_session * list MHD_Response)
    : http_state zz_session zz_world :=
  mkhs (dm_world d) c.1 c.2 (dm_infos d) (dm_zlibs d).

(** The call of an event for a streamed request. *)
Definition dm_call r (ev : mhd_event) (st : http_state zz_session zz_world)
    : outcome (http_state zz_session zz_world) :=
  match ev with
  | ECall _ data =>
      '(_, st1) ← handle_request static fuel (rq_listener r) (rq_con r) (rq_url r) (bs "POST") data st;
      Ret st1
  | EDone _ => request_completed (rq_listener r) st
  | _ => Ret st
  end.

(** The same for a short request. *)
Definition dm_short q (ev : mhd_event) (st : http_state zz_session zz_world)
    : outcome (http_state zz_session zz_world) :=
  match ev with
  | EShort _ =>
      '(_, st1) ← handle_request static fuel (sq_listener q) (sq_con q) (sq_url q) (sq_method q) None st;
      Ret st1
  | EShortDone _ => request_completed (sq_listener q) st
  | _ => Ret st
  end.

Definition dm_step (rs : list stream_request) (qs : list short_request) (ev : mhd_event) (d : served)
    : outcome served :=
  match ev with
  | EReport b j =>
      w ← report b j (dm_world d);
      Ret (mkserved w (dm_conns d) (dm_shorts d) (dm_infos d) (dm_zlibs d))
  | EShort i | EShortDone i =>
      match qs !! i, dm_shorts d !! i with
      | Some q, Some c =>
          st ← dm_short q ev (conn_view d c);
          Ret (mkserved (hs_world st) (dm_conns d) (<[i := (hs_ptr st, hs_sent st)]> (dm_shorts d))
                 (hs_infos st) (hs_zlibs st))
      | _, _ => Fault bad_access
      end
  | ECall i _ | EDone i =>
      match rs !! i, dm_conns d !! i with
      | Some r, Some c =>
          st ← dm_call r ev (conn_view d c);
          Ret (mkserved (hs_world st) (<[i := (hs_ptr st, hs_sent st)]> (dm_conns d)) (dm_shorts d)
                 (hs_infos st) (hs_zlibs st))
      | _, _ => Fault bad_access
      end
  end.

Fixpoint dm_run (rs : list stream_request) (qs : list short_request) (evs : list mhd_event) (d : served)
    : outcome served :=
  match evs with
  | [] => Ret d
  | ev :: evs => d1 ← dm_step rs qs ev d; dm_run rs qs evs d1
  end.

(** ** One call *)

(** The block of a request that was not refused. *)
Definition info_of r z s : conn_info zz_session :=
  mkinfo string_init.2 (rq_params r) z (Some s) (mkhttp_error 0 None 0) (rq_params r).

(** And of one whose body was refused. *)
Definition failed_info r z s (rc : decoder_callback_err) (text : bytes) : conn_info zz_session :=
  set_sess (conn_info_queue_response (info_of r z s) (decoder_err2http rc) (Some text) (zlen text)) (Some s).

(** The block has a state of inflate exactly if the body is compressed. *)
Definition zip_of r (z : option z_stream) : Prop := compressed (rq_con r) = bool_decide (is_Some z).

(** The states of inflate that a request holds. *)
Definition zips r : Z := if compressed (rq_con r) then 1 else 0.

(** The answer a request may get. *)
Definition response_ok r (resp : MHD_Response) : Prop :=
  exists err, rq_answered r err /\ resp = answer static err.

(** The answers it has got at its end. *)
Definition responses_ok r (resps : list MHD_Response) : Prop :=
  if rq_complete r then exists resp, response_ok r resp /\ resps = [resp] else resps = [].

Lemma responses_one r resp : rq_complete r = true -> response_ok r resp -> responses_ok r [resp].
Proof. intros H Hr. unfold responses_ok. rewrite H. by exists resp. Qed.

Lemma responses_none r : rq_complete r = false -> responses_ok r [].
Proof. intros H. unfold responses_ok. by rewrite H. Qed.

Lemma response_none r : rq_failure r = None -> response_ok r (answer static None).
Proof. intros H. exists None. unfold rq_answered. by rewrite H. Qed.

Lemma response_some r f rc text : rq_failure r = Some f -> sf_answer f rc text ->
  response_ok r (answer static (Some (rc, (Some text, zlen text)))).
Proof. intros H Ha. eexists. split; [|reflexivity]. unfold rq_answered. rewrite H. by exists text. Qed.

Section calls.
Context (ne : nat -> new_env) (de : nat -> decode_env) (r : stream_request (Opq := Opq)).
Context {laws : StreamLaws fuel ne de r}.

Lemma call_first budget live i st :
  0 <= budget -> world_ok (1 + budget) live (hs_world st) -> zw_new_env (hs_world st) = ne ->
  zw_decode_env (hs_world st) = de -> hs_ptr st = PNull ->
  exists s w', dm_call r (ECall i None) st
      = Ret (mkhs w' (PInfo (info_of r (rq_zlib r) s)) (hs_sent st) (hs_infos st + 1) (hs_zlibs st + zips r)) /\
    rq_session r 0 s /\ tname (zw_topics w') (ss_topic_handler s) = Some (rq_topic r) /\
    world_ok budget (ss_topic_handler s :: live) w' /\ zw_handed w' = zw_handed (hs_world st) /\
    same_env (hs_world st) w' /\ names_kept live (hs_world st) w'.
Proof using laws.
  intros Hb Hw Hne Hde Hp. destruct (sl_new fuel (r := r)) as (new_session & Hns & Hnew).
  destruct (Hnew budget live (hs_world st)) as (s & w1 & Hn & Hs & Hrest); try done.
  destruct (sl_size fuel (r := r)) as (n & Hsz & Hn0). unfold rq_decoder in Hns, Hsz.
  exists s, w1. split; [|by split]. unfold dm_call.
  rewrite (post_init_admitted static fuel (rq_listener r) (rq_con r) (rq_url r) (rq_client r) st)
    by (done || apply (sl_admitted fuel (r := r))).
  assert (Hcreate : create_connection_info (bs "POST") (rq_url r) (rq_client r) (rq_con r) st =
    Ret (inl (mkinfo string_init.2 (rq_params r) (rq_zlib r) None (mkhttp_error 0 None 0) (rq_params r)),
         mkhs (hs_world st) (hs_ptr st) (hs_sent st) (hs_infos st + 1) (hs_zlibs st + zips r))).
  { unfold rq_zlib, zips. destruct (compressed (rq_con r)) eqn:Hz.
    - rewrite create_any; [by rewrite Hz|apply (sl_admitted fuel (r := r))|by apply (sl_zlib fuel (r := r))].
    - rewrite create_plain; [by rewrite Z.add_0_r|apply (sl_admitted fuel (r := r))|done]. }
  rewrite Hcreate. cbn [mbind outcome_bind]. rewrite Hns, Hsz. cbn [default from_option id].
  rewrite (proj2 (Z.eqb_neq n 0)) by done.
  cbn [negb c_assert mbind outcome_bind hs_world ci_decoder_params].
  rewrite Hn. done.
Qed.

(** A chunk, from what the decoder does with the pieces it carries. *)
Lemma call_decoded i st z s data wire body :
  hs_ptr st = PInfo (info_of r z s) -> data <> [] -> zip_of r z -> carries fuel z (data :: wire) body ->
  exists pieces rest, body = pieces ++ rest /\ forall err s' w',
    quiet_on (hl_listener (rq_listener r)) (rq_params r) pieces (Some s) (hs_world st) ->
    decode_stream (hl_listener (rq_listener r)) (rq_params r) pieces (Some s) (hs_world st)
      = Ret (err, Some s', w') ->
    exists z', zip_of r z' /\
      dm_call r (ECall i (Some data)) st
        = Ret (mkhs w' (PInfo match err with
                              | None => info_of r z' s'
                              | Some (rc, resp) => set_sess (conn_info_queue_response (info_of r z' s')
                                  (decoder_err2http rc) resp.1 resp.2) (Some s')
                              end) (hs_sent st) (hs_infos st) (hs_zlibs st)) /\
      (err = None -> carries fuel z' wire rest).
Proof using laws.
  intros Hp Hne Hz Hc. destruct (sl_new fuel (r := r)) as (new_session & Hns & _).
  destruct z as [strm|]; cbn [carries] in Hc.
  - destruct Hc as (text & Hc). inversion Hc as [|? ? ? text' rest Hv _ Hf Hm Hnext]; subst.
    eexists _, rest. split; [reflexivity|]. intros err s' w' Hq Hd.
    destruct (compressed_chunk static fuel (rq_listener r) (rq_con r) (rq_url r) new_session st
      (info_of r (Some strm) s) strm data err (Some s') w') as (strm' & Hcall & Hto); try done.
    exists (Some strm'). split_and!; [exact Hz| |].
    + unfold dm_call. rewrite Hcall. by destruct err as [[rc resp]|].
    + intros E. exists text'. by apply Hnext, Hto.
  - subst body. exists [data], wire. split; [done|]. intros err s' w' _ Hd.
    exists None. split_and!; [done| |done].
    pose proof (mhd_chunks_stream static fuel (rq_listener r) (rq_con r) (rq_url r) new_session [data] st
      (info_of r None s) err (Some s') w') as H.
    cbn [mhd_chunks] in H. unfold dm_call. rewrite H; [|done|done|done|done|by constructor|done].
    by destruct err as [[rc resp]|].
Qed.

(** The next chunk: the pieces it carries are decoded, or one of them is refused. *)
Lemma call_wire i st z s k data wire :
  hs_ptr st = PInfo (info_of r z s) -> rq_session r k s -> (k <= length (rq_chunks r))%nat ->
  zw_decode_env (hs_world st) = de ->
  tname (zw_topics (hs_world st)) (ss_topic_handler s) = Some (rq_topic r) -> data <> [] -> zip_of r z ->
  carries fuel z (data :: wire) (drop k (rq_body r)) ->
  exists z' s' w' c', dm_call r (ECall i (Some data)) st
      = Ret (mkhs w' (PInfo c') (hs_sent st) (hs_infos st) (hs_zlibs st)) /\
    zip_of r z' /\ ss_topic_handler s' = ss_topic_handler s /\
    ((exists n, c' = info_of r z' s' /\ (k + n <= length (rq_chunks r))%nat /\ rq_session r (k + n) s' /\
        carries fuel z' wire (drop (k + n) (rq_body r)) /\
        moved (rq_topic r) (concat (take n (drop k (rq_outs r)))) (hs_world st) w') \/
     (exists f rc text, c' = failed_info r z' s' rc text /\ rq_failure r = Some f /\ sf_answer f rc text /\
        moved (rq_topic r) (concat (drop k (rq_outs r)) ++ sf_out f) (hs_world st) w')).
Proof using laws.
  intros Hp Hs Hk Hde Hname Hne Hz Hc.
  destruct (call_decoded i st z s data wire _ Hp Hne Hz Hc) as (pieces & rest & Hb & Hcall).
  destruct (stream_pieces fuel ne de r k s (hs_world st) pieces rest Hs Hde Hname Hk Hb)
    as (Hq & err & s' & w' & Hd & Hl & He).
  destruct (Hcall err s' w' Hq Hd) as (z' & Hz' & Hst & Hnext).
  exists z', s', w'. eexists. split; [exact Hst|]. split_and!; [done..|]. destruct err as [[rc resp]|].
  - right. destruct He as (f & text & Hf & -> & Ha & Hm). by exists f, rc, text.
  - left. destruct He as (Hk' & Hs' & Hm). exists (length pieces). split_and!; try done.
    rewrite <- drop_drop, Hb, drop_app_length. by apply Hnext.
Qed.

(** After an error the chunks are not looked at. *)
Lemma call_ignored i st z s rc text chunk :
  hs_ptr st = PInfo (failed_info r z s rc text) -> chunk <> [] ->
  dm_call r (ECall i (Some chunk)) st = Ret st.
Proof.
  intros Hp Hc. pose proof (mhd_chunks_error static fuel (rq_listener r) (rq_con r) (rq_url r) [chunk] st
    (failed_info r z s rc text) Hp) as H. cbn [mhd_chunks] in H. unfold dm_call. rewrite H; [done| |].
  - cbn. pose proof (decoder_err2http_nonzero rc). lia.
  - by constructor.
Qed.

Lemma call_last i st z s :
  hs_ptr st = PInfo (info_of r z s) ->
  dm_call r (ECall i None) st
    = Ret (mkhs (hs_world st) (PInfo (info_of r z s)) (hs_sent st ++ [answer static None]) (hs_infos st)
             (hs_zlibs st)).
Proof using laws.
  intros Hp. destruct (sl_new fuel (r := r)) as (new_session & Hns & _). unfold rq_decoder in Hns.
  unfold dm_call, handle_request. change (strcmp0 (bs "POST") (bs "POST")) with true.
  unfold handle_post. rewrite Hp. cbn [default from_option id].
  change (0 <? zlen (@nil byte)) with false. cbn iota. unfold handle_post_end. rewrite Hns.
  cbn [info_of ci_http_error he_code Z.eqb negb mbind outcome_bind].
  unfold send_http_ok, queue_response. rewrite (adm_queue _ _ _ _ (sl_admitted fuel (r := r))).
  cbn [snd mbind outcome_bind]. destruct st. cbn in *. by subst.
Qed.

Lemma call_last_failed i st z s rc text :
  hs_ptr st = PInfo (failed_info r z s rc text) ->
  dm_call r (ECall i None) st
    = Ret (mkhs (hs_world st) (PInfo (failed_info r z s rc text))
             (hs_sent st ++ [answer static (Some (rc, (Some text, zlen text)))]) (hs_infos st) (hs_zlibs st)).
Proof using laws.
  intros Hp. unfold dm_call, handle_request. change (strcmp0 (bs "POST") (bs "POST")) with true.
  unfold handle_post. rewrite Hp. cbn [default from_option id].
  change (0 <? zlen (@nil byte)) with false. cbn iota. unfold handle_post_end.
  cbn [failed_info set_sess conn_info_queue_response ci_http_error he_code].
  rewrite decoder_err2http_nonzero. cbn [negb mbind outcome_bind].
  unfold send_buffered_response, queue_response.
  rewrite (adm_queue _ _ _ _ (sl_admitted fuel (r := r))), (adm_create _ _ _ _ (sl_admitted fuel (r := r))).
  cbn [snd mbind outcome_bind]. destruct st. cbn in *. by subst.
Qed.

Lemma call_done budget live i st c z s :
  0 <= budget -> hs_ptr st = PInfo c -> ci_decoder_sess c = Some s -> ci_zlib c = z -> zip_of r z ->
  world_ok budget (ss_topic_handler s :: live) (hs_world st) ->
  exists w', dm_call r (EDone i) st
      = Ret (mkhs w' PNull (hs_sent st) (hs_infos st - 1) (hs_zlibs st - zips r)) /\
    world_ok budget live w' /\ zw_handed w' = zw_handed (hs_world st) /\
    same_env (hs_world st) w' /\ names_kept live (hs_world st) w'.
Proof using laws.
  intros Hb Hp Hc Hz Hzip Hw. destruct (session_freed budget live _ s Hb Hw) as (w' & Hf & Hrest).
  exists w'. split; [|done]. unfold dm_call, request_completed. rewrite Hp.
  rewrite Hc, Hz.
  pose proof (sl_free fuel (r := r)) as Hd. unfold rq_decoder in Hd. rewrite Hd, Hf.
  pose proof (sl_zlib fuel (r := r)) as Hi. unfold zips, zip_of in *. rewrite Hzip in *.
  destruct z as [strm|]; cbn [mbind outcome_bind bool_decide].
  - unfold inflateEnd. by rewrite bool_decide_true by (by apply Hi).
  - cbn. by rewrite Z.sub_0_r.
Qed.
End calls.

(** A call for one of the requests, or a report. *)
Definition known_event (rs : list (stream_request (Opq := Opq))) (qs : list short_request)
    (ev : mhd_event) : Prop :=
  match ev with
  | ECall i _ | EDone i => (i < length rs)%nat
  | EShort i | EShortDone i => (i < length qs)%nat
  | EReport _ _ => True
  end.

(** ** The invariant of a run *)

Section run.
Context (rs : list (stream_request (Opq := Opq))) (qs : list short_request) (ne : nat -> new_env) (de : nat -> decode_env).
Context (ext : list loc) (handed0 : list (bytes * bytes)) (infos0 zlibs0 : Z).

(** The messages of the request [i] among messages tagged with their requests. *)
Definition sent_by (i : nat) (tagged : list (nat * (bytes * bytes))) : list (bytes * bytes) :=
  map snd (filter (fun t => t.1 = i) tagged).

Definition topic_msgs r (out : list bytes) : list (bytes * bytes) :=
  map (fun payload => (rq_topic r, payload)) out.

(** How far a request is: the calls that are left for it in [evs], its pointer and
    answers, whether a session of it is among the live ones, and what it has handed
    over. *)
Inductive phase (i : nat) r (evs : list mhd_event) (live : list (nat * loc))
    (c : con_ptr zz_session * list MHD_Response) (mine : list (bytes * bytes)) : Prop :=
| ph_new :
    calls_of i evs = post_calls i (rq_complete r) (rq_wire r) -> c = (PNull, []) ->
    (forall l, (i, l) ∉ live) -> mine = [] -> phase i r evs live c mine
| ph_open wire k z s :
    (k <= length (rq_chunks r))%nat -> zip_of r z -> carries fuel z wire (drop k (rq_body r)) ->
    Forall (fun b => b <> []) wire ->
    calls_of i evs = rest_calls i (rq_complete r) wire -> c = (PInfo (info_of r z s), []) ->
    rq_session r k s -> (i, ss_topic_handler s) ∈ live ->
    mine = topic_msgs r (concat (take k (rq_outs r))) -> phase i r evs live c mine
| ph_failed f rest z s rc text :
    rq_failure r = Some f -> sf_answer f rc text -> zip_of r z -> Forall (fun b => b <> []) rest ->
    calls_of i evs = rest_calls i (rq_complete r) rest -> c = (PInfo (failed_info r z s rc text), []) ->
    (i, ss_topic_handler s) ∈ live -> mine = topic_msgs r (rq_sent r) -> phase i r evs live c mine
| ph_answered info s resps :
    ci_decoder_sess info = Some s -> zip_of r (ci_zlib info) -> responses_ok r resps ->
    calls_of i evs = [EDone i] -> c = (PInfo info, resps) ->
    (i, ss_topic_handler s) ∈ live -> mine = topic_msgs r (rq_sent r) ->
    phase i r evs live c mine
| ph_end resps :
    responses_ok r resps -> calls_of i evs = [] -> c = (PNull, resps) -> (forall l, (i, l) ∉ live) ->
    mine = topic_msgs r (rq_sent r) -> phase i r evs live c mine.

(** Nothing of a phase depends on the other requests. *)
Lemma phase_frame i r evs evs' live live' c mine :
  phase i r evs live c mine -> calls_of i evs' = calls_of i evs ->
  (forall l, (i, l) ∈ live' <-> (i, l) ∈ live) -> phase i r evs' live' c mine.
Proof.
  intros [H1 H2 H3 H4|wire k z s Hk Hz Hw Hne H1 H2 H3 H4 H5|f rest z s rc text Hf Ha Hz Hr H1 H2 H3 H4
    |info s resps Hs Hz Hr H1 H2 H3 H4|resps Hr H1 H2 H3 H4] Hc Hl; rewrite <- Hc in H1.
  - apply ph_new; try done. intros l. by rewrite Hl.
  - apply (ph_open _ _ _ _ _ _ wire k z s); try done. by rewrite Hl.
  - apply (ph_failed _ _ _ _ _ _ f rest z s rc text); try done. by rewrite Hl.
  - apply (ph_answered _ _ _ _ _ _ info s resps); try done. by rewrite Hl.
  - apply (ph_end _ _ _ _ _ _ resps); try done. intros l. by rewrite Hl.
Qed.

(** The states of inflate of the requests that have a session. *)
Definition live_zips (live : list (nat * loc)) : Z :=
  foldr (fun il n => match rs !! il.1 with Some r => zips r | None => 0 end + n) 0 live.

Lemma live_zips_cons i l live r : rs !! i = Some r -> live_zips ((i, l) :: live) = zips r + live_zips live.
Proof. intros Hr. unfold live_zips. cbn [foldr fst]. by rewrite Hr. Qed.

Lemma live_zips_perm live live' : live ≡ₚ live' -> live_zips live = live_zips live'.
Proof. unfold live_zips. induction 1; cbn [foldr]; lia. Qed.

(** How far a short request is. *)
Inductive short_phase (i : nat) q (evs : list mhd_event) (c : con_ptr zz_session * list MHD_Response) : Prop :=
| sp_open k :
    (k <= length (sq_states q))%nat -> shorts_of i evs = short_calls i (length (sq_states q) - k) ->
    c = short_at q k -> short_phase i q evs c
| sp_end : shorts_of i evs = [] -> c = short_at q (length (sq_states q)) -> short_phase i q evs c.

Lemma short_phase_frame i q evs evs' c :
  short_phase i q evs c -> shorts_of i evs' = shorts_of i evs -> short_phase i q evs' c.
Proof. intros [k Hk H ->|H ->] E; rewrite <- E in H; [by eapply sp_open|by apply sp_end]. Qed.

Record run_inv (evs : list mhd_event) (d : served) (live : list (nat * loc))
    (tagged : list (nat * (bytes * bytes))) : Prop := {
  ri_len : length (dm_conns d) = length rs;
  ri_conns : forall i r c, rs !! i = Some r -> dm_conns d !! i = Some c ->
    phase i r evs live c (sent_by i tagged);
  ri_live : NoDup live.*1;
  ri_known : forall i l, (i, l) ∈ live ->
    exists r, rs !! i = Some r /\ tname (zw_topics (dm_world d)) l = Some (rq_topic r);
  ri_world : world_ok (zlen evs) (live.*2 ++ ext) (dm_world d);
  ri_new_env : zw_new_env (dm_world d) = ne;
  ri_decode_env : zw_decode_env (dm_world d) = de;
  ri_handed : zw_handed (dm_world d) = handed0 ++ map snd tagged;
  ri_infos : dm_infos d = infos0 + zlen live;
  ri_zlibs : dm_zlibs d = zlibs0 + live_zips live;
  ri_tags : Forall (fun t => (t.1 < length rs)%nat) tagged;
  ri_slen : length (dm_shorts d) = length qs;
  ri_shorts : forall i q c, qs !! i = Some q -> dm_shorts d !! i = Some c -> short_phase i q evs c
}.

Lemma sent_by_app i tagged tagged' : sent_by i (tagged ++ tagged') = sent_by i tagged ++ sent_by i tagged'.
Proof. unfold sent_by. by rewrite filter_app, map_app. Qed.

Lemma sent_by_tag i j (ms : list (bytes * bytes)) :
  sent_by j (map (fun m => (i, m)) ms) = if decide (i = j) then ms else [].
Proof.
  unfold sent_by. induction ms as [|m ms IH]; cbn [map]; [by case_decide|].
  rewrite filter_cons. cbn [fst]. case_decide; [|done]. cbn [map snd]. by rewrite IH.
Qed.

(** A call for the request [i] keeps the invariant when it moves its phase on and
    leaves a consistent world. *)
Lemma run_inv_step ev evs d live tagged i r c' w' live' infos' zlibs' out :
  run_inv (ev :: evs) d live tagged -> event_conn ev = Some i -> rs !! i = Some r ->
  (forall j l, j <> i -> (j, l) ∈ live' <-> (j, l) ∈ live) -> NoDup live'.*1 ->
  (forall j l, (j, l) ∈ live' ->
     exists r, rs !! j = Some r /\ tname (zw_topics w') l = Some (rq_topic r)) ->
  world_ok (zlen evs) (live'.*2 ++ ext) w' -> same_env (dm_world d) w' ->
  zw_handed w' = zw_handed (dm_world d) ++ out -> infos' = infos0 + zlen live' ->
  zlibs' = zlibs0 + live_zips live' ->
  phase i r evs live' c' (sent_by i tagged ++ out) ->
  run_inv evs (mkserved w' (<[i := c']> (dm_conns d)) (dm_shorts d) infos' zlibs') live'
    (tagged ++ map (fun m => (i, m)) out).
Proof.
  intros Hinv Hev Hr Hother Hnd Hknown Hw [Hne Hde] Hh Hinfos Hzlibs Hph.
  destruct Hinv as [H1 H2 H3 H4 H5 H6 H7 H8 H9 H10 H11 H12 H13]. split; cbn; try done.
  - by rewrite length_insert.
  - intros j r1 c1 Hr1 Hc1. rewrite sent_by_app, sent_by_tag.
    destruct (decide (i = j)) as [<-|Hne'].
    + rewrite list_lookup_insert_eq in Hc1.
      * injection Hc1 as <-. by simplify_eq.
      * rewrite H1. by eapply lookup_lt_Some.
    + rewrite list_lookup_insert_ne in Hc1 by done. rewrite app_nil_r.
      eapply phase_frame; [by apply H2| |].
      * symmetry. apply calls_of_other. congruence.
      * intros l. apply Hother. congruence.
  - by rewrite Hne.
  - by rewrite Hde.
  - rewrite Hh, H8, map_app, map_map, map_id, <- app_assoc. done.
  - apply Forall_app. split; [done|]. apply Forall_fmap, list.Forall_forall. intros m _.
    by eapply lookup_lt_Some.
  - intros j q c Hq Hc. eapply short_phase_frame; [by apply H13|]. symmetry.
    by eapply shorts_of_other, conn_not_short.
Qed.

Context (laws : Forall (StreamLaws fuel ne de) rs) (short_laws : Forall ShortLaws qs).

Lemma law_of i r : rs !! i = Some r -> StreamLaws fuel ne de r.
Proof using laws. intros H. rewrite list.Forall_forall in laws. apply laws. by eapply list_elem_of_lookup_2. Qed.

(** The names of the live handlers after a step that keeps them. *)
Lemma known_kept evs d live tagged w' live' :
  run_inv evs d live tagged -> names_kept (live.*2 ++ ext) (dm_world d) w' -> live' ⊆ live ->
  forall j l, (j, l) ∈ live' ->
    exists r, rs !! j = Some r /\ tname (zw_topics w') l = Some (rq_topic r).
Proof.
  intros Hinv Hk Hsub j l Hin. destruct (ri_known _ _ _ _ Hinv j l (Hsub _ Hin)) as (r & Hr & Hn).
  exists r. split; [done|]. rewrite Hk; [done|]. apply elem_of_app. left.
  apply list_elem_of_fmap. exists (j, l). split; [done|]. by apply Hsub.
Qed.

(** A step, from the call it makes. *)
Lemma dm_step_call i ev d r c st :
  event_conn ev = Some i -> rs !! i = Some r -> dm_conns d !! i = Some c ->
  dm_call r ev (conn_view d c) = Ret st ->
  dm_step rs qs ev d = Ret (mkserved (hs_world st) (<[i := (hs_ptr st, hs_sent st)]> (dm_conns d))
    (dm_shorts d) (hs_infos st) (hs_zlibs st)).
Proof.
  intros Hi Hr Hc Hd. unfold dm_step. destruct ev; cbn in Hi; simplify_eq; by rewrite Hr, Hc, Hd.
Qed.

(** A report. *)
Lemma step_report b j evs d live tagged :
  run_inv (EReport b j :: evs) d live tagged ->
  exists d' live' tagged', dm_step rs qs (EReport b j) d = Ret d' /\ run_inv evs d' live' tagged'.
Proof.
  intros [H1 H2 H3 H4 H5 H6 H7 H8 H9 H10 H11 H12 H13].
  apply (world_ok_weaken _ (zlen evs)) in H5; [|rewrite zlen_cons; lia].
  destruct (world_ok_report _ _ _ b j H5) as (w' & Hr & Hw & Ht & Hh & Hn & Hd).
  cbn [dm_step]. rewrite Hr. cbn [mbind outcome_bind]. eexists _, live, tagged. split; [reflexivity|].
  split; cbn; try done; try congruence.
  - intros i r c Hri Hc. eapply phase_frame; [by apply H2|by symmetry; apply calls_of_other|done].
  - intros i l Hin. rewrite Ht. by apply H4.
  - intros i q c Hq Hc. eapply short_phase_frame; [by apply H13|by symmetry; apply shorts_of_other].
Qed.

(** A call for a short request. *)
Lemma call_short i q ev evs d c `{!ShortLaws q} :
  short_phase i q (ev :: evs) c -> event_short ev = Some i ->
  exists c' w', dm_short q ev (conn_view d c) = Ret (mkhs w' c'.1 c'.2 (dm_infos d) (dm_zlibs d)) /\
    short_phase i q evs c' /\ forall name, moved name [] (dm_world d) w'.
Proof.
  intros Hph Hev. destruct Hph as [k Hk H ->|H ->]; rewrite (shorts_of_same _ _ _ Hev) in H; [|done].
  unfold short_calls in H. destruct (length (sq_states q) - k)%nat as [|n] eqn:En.
  - injection H as -> H. assert (k = length (sq_states q)) as -> by lia.
    pose proof (ql_end (q := q)) as Hend. destruct (short_at q (length (sq_states q))) as [ptr resps] eqn:E.
    cbn in Hend. subst ptr. exists (PNull, resps), (dm_world d). split_and!; [done| |intros name; apply moved_refl].
    by apply sp_end.
  - injection H as -> H. destruct (lookup_lt_is_Some_2 (sq_states q) k) as [c' Hc']; [lia|].
    destruct (ql_step (q := q) k c' (conn_view d (short_at q k)) Hc') as (rc & w' & Hcall & Hm).
    { cbn. by destruct (short_at q k). }
    exists c', w'. split_and!; [|apply (sp_open _ _ _ _ (Datatypes.S k)); [lia| |]|done].
    + cbn [dm_short]. by rewrite Hcall.
    + rewrite H. by replace (length (sq_states q) - Datatypes.S k)%nat with n by lia.
    + cbn [short_at]. by rewrite Hc'.
Qed.

Lemma step_short i ev evs d live tagged :
  run_inv (ev :: evs) d live tagged -> event_short ev = Some i ->
  (i < length qs)%nat ->
  exists d' live' tagged', dm_step rs qs ev d = Ret d' /\ run_inv evs d' live' tagged'.
Proof using laws short_laws.
  intros [H1 H2 H3 H4 H5 H6 H7 H8 H9 H10 H11 H12 H13] Hev Hlt.
  apply (world_ok_weaken _ (zlen evs)) in H5; [|rewrite zlen_cons; lia].
  apply lookup_lt_is_Some in Hlt as [q Hq].
  assert (is_Some (dm_shorts d !! i)) as [c Hc].
  { apply lookup_lt_is_Some. rewrite H12. by eapply lookup_lt_Some. }
  destruct (call_short i q ev evs d c (ShortLaws0 := proj1 (Forall_lookup _ _) short_laws i q Hq)
    (H13 i q c Hq Hc) Hev) as (c' & w' & Hcall & Hph & Hm).
  destruct (Hm inhabitant) as (Ht & Hh & [Hn Hd] & Hw). rewrite app_nil_r in Hh.
  exists (mkserved w' (dm_conns d) (<[i := c']> (dm_shorts d)) (dm_infos d) (dm_zlibs d)), live, tagged. split.
  { destruct ev; cbn in Hev; simplify_eq; unfold dm_step; rewrite Hq, Hc, Hcall; by destruct c'. }
  split; cbn; try done; try congruence.
  - intros j r c1 Hr Hc1. eapply phase_frame; [by apply H2| |done]. symmetry. apply calls_of_other.
    by destruct ev.
  - intros j l Hin. rewrite Ht. by apply H4.
  - by apply Hw.
  - by rewrite length_insert.
  - intros j q1 c1 Hq1 Hc1. destruct (decide (i = j)) as [<-|Hne].
    + rewrite list_lookup_insert_eq in Hc1 by (by eapply lookup_lt_Some). by simplify_eq.
    + rewrite list_lookup_insert_ne in Hc1 by done. eapply short_phase_frame; [by eapply H13|].
      symmetry. apply shorts_of_other. congruence.
Qed.

Lemma step_first i evs d live tagged r :
  run_inv (ECall i None :: evs) d live tagged -> rs !! i = Some r ->
  dm_conns d !! i = Some (PNull, []) -> (forall l, (i, l) ∉ live) -> sent_by i tagged = [] ->
  calls_of i evs = rest_calls i (rq_complete r) (rq_wire r) ->
  exists d' live' tagged', dm_step rs qs (ECall i None) d = Ret d' /\ run_inv evs d' live' tagged'.
Proof using laws.
  intros Hinv Hr Hc Hnl Hsent Hcalls. pose proof (law_of i r Hr) as Hl.
  pose proof (ri_world _ _ _ _ Hinv) as Hw. rewrite zlen_cons in Hw.
  destruct (call_first ne de r (zlen evs) (live.*2 ++ ext) i (conn_view d (PNull, [])))
    as (s & w' & Hcall & Hs & Hname & Hw' & Hh & Henv & Hkept); try done;
    [apply zlen_nonneg|apply (ri_new_env _ _ _ _ Hinv)|apply (ri_decode_env _ _ _ _ Hinv)|].
  eexists _, ((i, ss_topic_handler s) :: live), _. split; [by eapply dm_step_call|].
  apply (run_inv_step (ECall i None) evs d live tagged i r _ w' _ _ _ []); try done.
  - intros j l Hj. rewrite elem_of_cons. split; [intros [?|?]; [congruence|done]|by right].
  - cbn. constructor; [|apply (ri_live _ _ _ _ Hinv)]. intros ([j l] & E & Hin)%list_elem_of_fmap.
    cbn in E. subst j. by apply (Hnl l).
  - intros j l [[= -> ->]|Hin]%elem_of_cons; [by exists r|]. by eapply known_kept.
  - by rewrite app_nil_r.
  - cbn. rewrite (ri_infos _ _ _ _ Hinv), zlen_cons. lia.
  - cbn [conn_view hs_zlibs]. rewrite (ri_zlibs _ _ _ _ Hinv), (live_zips_cons i _ live r Hr). lia.
  - rewrite Hsent. apply (ph_open _ _ _ _ _ _ (rq_wire r) 0 (rq_zlib r) s); try done; [lia|..].
    + unfold zip_of, rq_zlib. by destruct (compressed (rq_con r)).
    + apply (sl_carries fuel (r := r)).
    + apply (sl_wire fuel (r := r)).
    + by left.
Qed.

(** A call that neither opens nor closes the session of the request, and hands over
    [out]. *)
Lemma step_within i ev evs d live tagged r s c c' out w' :
  run_inv (ev :: evs) d live tagged -> event_conn ev = Some i -> rs !! i = Some r -> dm_conns d !! i = Some c ->
  (i, ss_topic_handler s) ∈ live ->
  dm_call r ev (conn_view d c) = Ret (mkhs w' c'.1 c'.2 (dm_infos d) (dm_zlibs d)) ->
  moved (rq_topic r) out (dm_world d) w' ->
  phase i r evs live c' (sent_by i tagged ++ topic_msgs r out) ->
  exists d' live' tagged', dm_step rs qs ev d = Ret d' /\ run_inv evs d' live' tagged'.
Proof using laws.
  intros Hinv Hev Hr Hc Hin Hcall (Ht & Hh & Henv & Hkeep) Hph.
  destruct (ri_known _ _ _ _ Hinv _ _ Hin) as (r' & Hr' & Hname). simplify_eq.
  assert (Hw : world_ok (zlen evs) (live.*2 ++ ext) (dm_world d)).
  { eapply world_ok_weaken; [|apply (ri_world _ _ _ _ Hinv)]. rewrite zlen_cons. lia. }
  eexists _, live, _. split; [by eapply dm_step_call|].
  cbn [hs_world hs_ptr hs_sent hs_infos hs_zlibs]. rewrite <- surjective_pairing.
  eapply run_inv_step; [exact Hinv|done|exact Hr|done|apply (ri_live _ _ _ _ Hinv)| |by apply Hkeep|done
    | |apply (ri_infos _ _ _ _ Hinv)|apply (ri_zlibs _ _ _ _ Hinv)|exact Hph].
  - intros j l Hj. rewrite Ht. by apply (ri_known _ _ _ _ Hinv).
  - by rewrite Hh.
Qed.

Lemma step_wire i data wire k z s evs d live tagged r :
  run_inv (ECall i (Some data) :: evs) d live tagged -> rs !! i = Some r ->
  dm_conns d !! i = Some (PInfo (info_of r z s), []) -> rq_session r k s ->
  (k <= length (rq_chunks r))%nat -> zip_of r z -> carries fuel z (data :: wire) (drop k (rq_body r)) ->
  Forall (fun b => b <> []) (data :: wire) ->
  (i, ss_topic_handler s) ∈ live -> sent_by i tagged = topic_msgs r (concat (take k (rq_outs r))) ->
  calls_of i evs = rest_calls i (rq_complete r) wire ->
  exists d' live' tagged', dm_step rs qs (ECall i (Some data)) d = Ret d' /\ run_inv evs d' live' tagged'.
Proof using laws.
  intros Hinv Hr Hc Hs Hk Hz Hw Hne Hin Hsent Hcalls. pose proof (law_of i r Hr) as Hl.
  apply list.Forall_cons in Hne as [Hd Hne].
  destruct (call_wire ne de r i (conn_view d (PInfo (info_of r z s), [])) z s k data wire)
    as (z' & s' & w' & c' & Hcall & Hz' & Hh' & Hcase); try done; [apply (ri_decode_env _ _ _ _ Hinv)| |].
  { destruct (ri_known _ _ _ _ Hinv _ _ Hin) as (r' & Hr' & Hname). by simplify_eq. }
  destruct Hcase as [(n & -> & Hn & Hs' & Hw' & Hm)|(f & rc & text & -> & Hf & Ha & Hm)].
  - eapply (step_within i _ evs d live tagged r s _ (PInfo (info_of r z' s'), []) _); try done.
    apply (ph_open _ _ _ _ _ _ wire (k + n) z' s'); try done; [by rewrite Hh'|].
    rewrite Hsent, <- (take_take_drop (rq_outs r)), concat_app. unfold topic_msgs. by rewrite map_app.
  - eapply (step_within i _ evs d live tagged r s _ (PInfo (failed_info r z' s' rc text), []) _); try done.
    apply (ph_failed _ _ _ _ _ _ f wire z' s' rc text); try done; [by rewrite Hh'|].
    rewrite Hsent. unfold topic_msgs, rq_sent.
    assert (concat (rq_outs r) = concat (take k (rq_outs r)) ++ concat (drop k (rq_outs r))) as ->
      by (by rewrite <- concat_app, take_drop).
    by rewrite Hf, !map_app, app_assoc.
Qed.

Lemma step_last i z s evs d live tagged r :
  run_inv (ECall i None :: evs) d live tagged -> rs !! i = Some r -> rq_failure r = None ->
  zip_of r z -> rq_complete r = true -> dm_conns d !! i = Some (PInfo (info_of r z s), []) -> (i, ss_topic_handler s) ∈ live ->
  sent_by i tagged = topic_msgs r (concat (rq_outs r)) -> calls_of i evs = [EDone i] ->
  exists d' live' tagged', dm_step rs qs (ECall i None) d = Ret d' /\ run_inv evs d' live' tagged'.
Proof using laws.
  intros Hinv Hr Hf Hz Hco Hc Hin Hsent Hcalls. pose proof (law_of i r Hr) as Hl.
  eapply (step_within i _ evs d live tagged r s _ (PInfo (info_of r z s), [answer static None]) []);
    try done; [by apply (call_last ne de)|apply moved_refl|].
  apply (ph_answered _ _ _ _ _ _ (info_of r z s) s [answer static None]); try done;
    [by apply responses_one, response_none|].
  cbn. rewrite app_nil_r, Hsent. unfold rq_sent. by rewrite Hf, app_nil_r.
Qed.

Lemma step_ignored i f rest z s rc text chunk evs d live tagged r :
  run_inv (ECall i (Some chunk) :: evs) d live tagged -> rs !! i = Some r ->
  dm_conns d !! i = Some (PInfo (failed_info r z s rc text), []) -> rq_failure r = Some f ->
  sf_answer f rc text -> zip_of r z -> Forall (fun b => b <> []) (chunk :: rest) -> (i, ss_topic_handler s) ∈ live ->
  sent_by i tagged = topic_msgs r (rq_sent r) -> calls_of i evs = rest_calls i (rq_complete r) rest ->
  exists d' live' tagged', dm_step rs qs (ECall i (Some chunk)) d = Ret d' /\ run_inv evs d' live' tagged'.
Proof using laws.
  intros Hinv Hr Hc Hf Ha Hz Hne Hin Hsent Hcalls. apply list.Forall_cons in Hne as [Hne Hrest].
  eapply (step_within i _ evs d live tagged r s _ (PInfo (failed_info r z s rc text), []) []);
    try done; [by eapply call_ignored|apply moved_refl|].
  apply (ph_failed _ _ _ _ _ _ f rest z s rc text); try done. cbn. by rewrite app_nil_r.
Qed.

Lemma step_last_failed i f z s rc text evs d live tagged r :
  run_inv (ECall i None :: evs) d live tagged -> rs !! i = Some r ->
  dm_conns d !! i = Some (PInfo (failed_info r z s rc text), []) -> rq_failure r = Some f ->
  rq_complete r = true -> zip_of r z -> sf_answer f rc text -> (i, ss_topic_handler s) ∈ live ->
  sent_by i tagged = topic_msgs r (rq_sent r) -> calls_of i evs = [EDone i] ->
  exists d' live' tagged', dm_step rs qs (ECall i None) d = Ret d' /\ run_inv evs d' live' tagged'.
Proof using laws.
  intros Hinv Hr Hc Hf Hco Hz Ha Hin Hsent Hcalls. pose proof (law_of i r Hr) as Hl.
  eapply (step_within i _ evs d live tagged r s _ (PInfo (failed_info r z s rc text),
    [answer static (Some (rc, (Some text, zlen text)))]) []);
    try done; [by apply (call_last_failed ne de)|apply moved_refl|].
  eapply (ph_answered _ _ _ _ _ _ (failed_info r z s rc text) s); try done;
    [by eapply responses_one, response_some|]. cbn. by rewrite app_nil_r.
Qed.

Lemma step_done i info resps s evs d live tagged r :
  run_inv (EDone i :: evs) d live tagged -> rs !! i = Some r ->
  dm_conns d !! i = Some (PInfo info, resps) -> ci_decoder_sess info = Some s -> zip_of r (ci_zlib info) ->
  responses_ok r resps -> (i, ss_topic_handler s) ∈ live ->
  sent_by i tagged = topic_msgs r (rq_sent r) -> calls_of i evs = [] ->
  exists d' live' tagged', dm_step rs qs (EDone i) d = Ret d' /\ run_inv evs d' live' tagged'.
Proof using laws.
  intros Hinv Hr Hc Hi Hz Hresp Hin Hsent Hcalls. pose proof (law_of i r Hr) as Hl.
  apply elem_of_Permutation in Hin as [live' Hp].
  pose proof (ri_world _ _ _ _ Hinv) as Hw. rewrite zlen_cons in Hw.
  assert (Hp2 : live.*2 ++ ext ≡ₚ ss_topic_handler s :: live'.*2 ++ ext) by (by rewrite Hp).
  apply (world_ok_perm _ _ _ _ Hp2) in Hw.
  destruct (call_done ne de r (zlen evs) (live'.*2 ++ ext) i (conn_view d (PInfo info, resps)) info (ci_zlib info) s)
    as (w' & Hcall & Hw' & Hh & Henv & Hkept); try done; [apply zlen_nonneg| |].
  { eapply world_ok_weaken; [|exact Hw]. lia. }
  pose proof (ri_live _ _ _ _ Hinv) as Hnd. rewrite Hp in Hnd. cbn in Hnd.
  apply NoDup_cons in Hnd as [Hni Hnd].
  eexists _, live', _. split; [by eapply dm_step_call|].
  apply (run_inv_step (EDone i) evs d live tagged i r _ w' _ _ _ []); try done.
  - intros j l Hj. rewrite Hp, elem_of_cons. split; [by right|]. intros [?|?]; [congruence|done].
  - intros j l Hin. destruct (ri_known _ _ _ _ Hinv j l) as (r1 & Hr1 & Hn1).
    { rewrite Hp. by right. }
    exists r1. split; [done|]. rewrite Hkept; [done|]. apply elem_of_app. left.
    apply list_elem_of_fmap. by exists (j, l).
  - by rewrite app_nil_r.
  - cbn. rewrite (ri_infos _ _ _ _ Hinv). unfold zlen. rewrite (Permutation_length Hp). cbn. lia.
  - cbn [conn_view hs_zlibs]. rewrite (ri_zlibs _ _ _ _ Hinv), (live_zips_perm _ _ Hp).
    rewrite (live_zips_cons i _ live' r Hr). lia.
  - rewrite app_nil_r. apply (ph_end _ _ _ _ _ _ resps); try done. intros l Hin. apply Hni.
    apply list_elem_of_fmap. by exists (i, l).
Qed.

(** When no chunk is left the whole body was decoded. *)
Lemma body_decoded r z k : (k <= length (rq_chunks r))%nat -> carries fuel z [] (drop k (rq_body r)) ->
  k = length (rq_chunks r) /\ rq_failure r = None.
Proof.
  intros Hk Hc. assert (Hb : drop k (rq_body r) = []).
  { destruct z as [strm|]; [|done]. destruct Hc as (text & Hc). by inversion Hc. }
  apply (f_equal length) in Hb. rewrite length_drop in Hb. unfold rq_body in Hb. rewrite length_app in Hb.
  destruct (rq_failure r); cbn in Hb; split; lia || done.
Qed.

(** Every call of a run. *)
Lemma dm_step_inv ev evs d live tagged :
  run_inv (ev :: evs) d live tagged -> known_event rs qs ev ->
  exists d' live' tagged', dm_step rs qs ev d = Ret d' /\ run_inv evs d' live' tagged'.
Proof using laws short_laws.
  intros Hinv Hlt. destruct (event_conn ev) as [i|] eqn:Hi.
  2:{ destruct ev as [| |i|i|b j]; [done..|by eapply step_short|by eapply step_short|by eapply step_report]. }
  assert (is_Some (rs !! i)) as [r Hr].
  { apply lookup_lt_is_Some. by destruct ev; cbn in Hi, Hlt; simplify_eq. }
  assert (is_Some (dm_conns d !! i)) as [c Hc].
  { apply lookup_lt_is_Some. rewrite (ri_len _ _ _ _ Hinv). by eapply lookup_lt_Some. }
  pose proof (ri_conns _ _ _ _ Hinv _ _ _ Hr Hc) as Hph.
  assert (Hcalls : calls_of i (ev :: evs) = ev :: calls_of i evs) by (by apply calls_of_same).
  destruct Hph as [H1 -> H3 H4|wire k z s Hk Hz Hw Hne H1 -> H3 H4 H5|f rest z s rc text Hf Ha Hz Hne H1 -> H3 H4
    |info s resps Hs Hz Hresp H1 -> H3 H4|resps _ H1 _ _ _]; rewrite Hcalls in H1.
  - injection H1 as -> H1. by eapply step_first.
  - destruct wire as [|data wire].
    2:{ injection H1 as -> H1. by eapply step_wire. }
    destruct (body_decoded r z k Hk Hw) as [-> Ef].
    rewrite <- (sl_outs fuel (r := r) (StreamLaws := law_of i r Hr)), firstn_all in H5.
    cbn [rest_calls map app] in H1. destruct (rq_complete r) eqn:Eco; injection H1 as -> H1.
    + by eapply step_last.
    + eapply (step_done i (info_of r z s) []); try done; [by apply responses_none|].
      rewrite H5. unfold rq_sent. by rewrite Ef, app_nil_r.
  - destruct rest as [|chunk rest].
    { cbn [rest_calls map app] in H1. destruct (rq_complete r) eqn:Eco; injection H1 as -> H1.
      - by eapply step_last_failed.
      - eapply (step_done i (failed_info r z s rc text) []); try done. by apply responses_none. }
    injection H1 as -> H1. by eapply step_ignored.
  - injection H1 as -> H1. by eapply step_done.
  - done.
Qed.

Lemma dm_run_inv evs d live tagged :
  run_inv evs d live tagged -> Forall (known_event rs qs) evs ->
  exists d' live' tagged', dm_run rs qs evs d = Ret d' /\ run_inv [] d' live' tagged'.
Proof using laws short_laws.
  intros Hinv Hall. revert d live tagged Hinv. induction Hall as [|ev evs Hev _ IH]; intros d live tagged Hinv.
  - by exists d, live, tagged.
  - destruct (dm_step_inv ev evs d live tagged Hinv Hev) as (d1 & live1 & tagged1 & Hs & Hinv1).
    cbn [dm_run]. rewrite Hs. cbn [mbind outcome_bind]. by eapply IH.
Qed.

(** When no call is left every request has ended. *)
Lemma run_inv_end d live tagged :
  run_inv [] d live tagged ->
  live = [] /\ Forall2 (fun r c => c.1 = PNull /\ responses_ok r c.2) rs (dm_conns d) /\
  (forall i r, rs !! i = Some r -> sent_by i tagged = topic_msgs r (rq_sent r)) /\
  Forall2 (fun q c => c = short_at q (length (sq_states q))) qs (dm_shorts d).
Proof.
  intros Hinv. pose proof (ri_len _ _ _ _ Hinv) as Hlen.
  assert (Hend : forall i r, rs !! i = Some r ->
    exists resps, dm_conns d !! i = Some (PNull, resps) /\ responses_ok r resps /\
    (forall l, (i, l) ∉ live) /\ sent_by i tagged = topic_msgs r (rq_sent r)).
  { intros i r Hr. destruct (lookup_lt_is_Some_2 (dm_conns d) i) as [c Hc].
    { rewrite Hlen. by eapply lookup_lt_Some. }
    destruct (ri_conns _ _ _ _ Hinv i r c Hr Hc)
      as [H|wire ? ? ? ? ? ? ? H|? rest ? ? ? ? ? ? ? ? H|? ? ? ? ? ? H|resps ? ? -> ? ?];
      [done| | |done|by exists resps]; unfold rest_calls in H.
    - by destruct wire, (rq_complete r).
    - by destruct rest, (rq_complete r). }
  split_and!.
  - destruct live as [|[i l] live]; [done|]. exfalso.
    destruct (ri_known _ _ _ _ Hinv i l) as (r & Hr & _); [by left|].
    destruct (Hend i r Hr) as (resp & _ & _ & Hn & _). by apply (Hn l); left.
  - apply Forall2_same_length_lookup_2; [done|]. intros i r c Hr Hc.
    destruct (Hend i r Hr) as (resps & Hc' & Hok & _). rewrite Hc in Hc'. by injection Hc' as ->.
  - intros i r Hr. by destruct (Hend i r Hr) as (resp & _ & _ & _ & ?).
  - apply Forall2_same_length_lookup_2; [by rewrite (ri_slen _ _ _ _ Hinv)|]. intros i q c Hq Hc.
    destruct (ri_shorts _ _ _ _ Hinv i q c Hq Hc) as [k Hk H _|_ ->]; [|done].
    by destruct (length (sq_states q) - k)%nat.
Qed.
End run.

(** The state before any call. *)
Definition dm_start (rs : list (stream_request (Opq := Opq))) (qs : list short_request) w infos zlibs : served :=
  mkserved w (replicate (length rs) (PNull, [])) (replicate (length qs) (PNull, [])) infos zlibs.

(** The calls of [evs] are those libmicrohttpd makes for the requests, whatever the
    order between requests. *)
Definition calls_for (rs : list (stream_request (Opq := Opq))) (qs : list short_request)
    (evs : list mhd_event) : Prop :=
  Forall (known_event rs qs) evs /\
  (forall i r, rs !! i = Some r -> calls_of i evs = post_calls i (rq_complete r) (rq_wire r)) /\
  forall i q, qs !! i = Some q -> shorts_of i evs = short_calls i (length (sq_states q)).

Lemma run_inv_start rs qs evs ext w infos zlibs :
  calls_for rs qs evs -> world_ok (zlen evs) ext w ->
  run_inv rs qs (zw_new_env w) (zw_decode_env w) ext (zw_handed w) infos zlibs evs
    (dm_start rs qs w infos zlibs) [] [].
Proof.
  intros (_ & Hcalls & Hshorts) Hw. split; cbn; try done; rewrite ?length_replicate; try done.
  - intros i r c Hr Hc. apply lookup_replicate in Hc as [-> _].
    apply ph_new; try done; [by apply Hcalls|]. intros l. apply not_elem_of_nil.
  - constructor.
  - by intros i l ?%not_elem_of_nil.
  - by rewrite app_nil_r.
  - change (zlen (@nil (nat * loc))) with 0. lia.
  - lia.
  - intros i q c Hq Hc. apply lookup_replicate in Hc as [-> _].
    apply (sp_open _ _ _ _ 0); [lia| |done]. rewrite Nat.sub_0_r. by apply Hshorts.
Qed.

(** Every request is served as if it were alone. *)
Lemma requests_served rs qs evs ext w infos zlibs :
  Forall (StreamLaws fuel (zw_new_env w) (zw_decode_env w)) rs -> Forall ShortLaws qs ->
  calls_for rs qs evs -> world_ok (zlen evs) ext w ->
  exists w' conns shorts tagged,
    dm_run rs qs evs (dm_start rs qs w infos zlibs) = Ret (mkserved w' conns shorts infos zlibs) /\
    Forall2 (fun r c => c.1 = PNull /\ responses_ok r c.2) rs conns /\
    Forall2 (fun q c => c = short_at q (length (sq_states q))) qs shorts /\
    zw_handed w' = zw_handed w ++ map snd tagged /\
    (forall i r, rs !! i = Some r -> sent_by i tagged = topic_msgs r (rq_sent r)) /\
    Forall (fun t => (t.1 < length rs)%nat) tagged /\
    world_ok 0 ext w'.
Proof.
  intros Hlaws Hshort Hcalls Hw. pose proof (run_inv_start rs qs evs ext w infos zlibs Hcalls Hw) as Hinv.
  destruct (dm_run_inv _ _ _ _ _ _ _ _ Hlaws Hshort _ _ _ _ Hinv) as (d' & live & tagged & Hrun & Hinv');
    [apply Hcalls|].
  destruct (run_inv_end _ _ _ _ _ _ _ _ _ _ _ Hinv') as (-> & Hconns & Hsent & Hshorts).
  destruct Hinv' as [_ _ _ _ H5 _ _ H8 H9 H10 H11 _ _]. cbn in H5, H9.
  exists (dm_world d'), (dm_conns d'), (dm_shorts d'), tagged. split_and!; try done.
  rewrite Hrun. destruct d' as [w' conns' shorts' infos' zlibs']. cbn in *. subst.
  change (zlen (@nil (nat * loc))) with 0. by rewrite !Z.add_0_r.
Qed.

End daemon.
