(* ===== verification/Refused.v ===== *)
(** * Requests without a session

    What the zz_http2k and meraki listeners do with the requests that they refuse, and
    with those that are not POSTs: the client is not allowed in, the URL names no
    topic, or the method is another one.  They are short requests of [Daemon]: their
    calls change nothing that the other requests see. *)

From S2P Require Import Prelude CString JsonString KafkaArray TopicDb Pair Addr ZzJson ZzXml ZzSession Decoders HttpAuth Http HttpProps Stream Daemon.
From stdpp Require Import gmap.
#[local] Open Scope Z_scope.

Section visits.
Context {alloc : Allocator} {abi : Abi} {yajl : Yajl} {gen : YajlGen} {strings : ExpatStrings}
  {expat : Expat} {rk : Rdkafka} {producer : BatchProducer} {jansson : Jansson} {zlib : Zlib}
  {gnutls : Gnutls}.
Context (string_addr : cstring -> Z) (sizeof_session : Z) (fuel : nat).
Context (calloc_ok : bool) (default_topic : option bytes) (static : static_responses).

(** A POST of a client whose certificate or password is not valid, a POST to a URL
    without a topic, a GET, or another method. *)
Inductive visit_kind :=
| BadCertificate (reason : bytes)
| BadPassword
| BadUrl
| GetVisit
| OtherMethod (method : bytes).

#[export] Instance visit_kind_eq_dec : EqDecision visit_kind.
Proof. solve_decision. Defined.

(** [vi_topic] is the topic of the listener if it is a meraki one. *)
Record visit := mkvisit {
  vi_kind : visit_kind;
  vi_topic : option bytes;
  vi_port : Z;
  vi_htpasswd : option bytes;
  vi_tls : bool;
  vi_con : MHD_Connection;
  vi_client : bytes;
  vi_url : bytes
}.

Definition vi_listener (v : visit) : http_listener zz_session zz_world bytes :=
  mkhl match vi_topic v with
       | Some topic =>
           mklistener (meraki_decoder string_addr sizeof_session calloc_ok default_topic)
             (Some topic) (vi_port v)
       | None => mklistener (zz_decoder string_addr sizeof_session) None (vi_port v)
       end (vi_htpasswd v) (vi_tls v).

Definition vi_method (v : visit) : bytes :=
  match vi_kind v with
  | GetVisit => bs "GET"
  | OtherMethod method => method
  | _ => bs "POST"
  end.

(** The answer to a GET: it is not allowed, or it is the validator that the URL of a
    meraki listener ends with. *)
Definition get_response (topic : option bytes) (url : bytes) : MHD_Response :=
  match topic with
  | None => mkresponse MHD_HTTP_METHOD_NOT_ALLOWED (method_not_allowed_allow_post static) []
  | Some _ =>
      if strprefix meraki_prefix url
      then mkresponse MHD_HTTP_OK [] (zdrop (zlen meraki_prefix + 1) url)
      else mkresponse MHD_HTTP_NOT_FOUND [] []
  end.

(** The answers to a visit; after a URL without a topic the connection is closed. *)
Definition visit_answers (v : visit) : list MHD_Response :=
  match vi_kind v with
  | BadCertificate reason => [mkresponse MHD_HTTP_FORBIDDEN [] reason]
  | BadPassword => [mkresponse MHD_HTTP_UNAUTHORIZED (unauthorized static) []]
  | BadUrl => []
  | GetVisit => [get_response (vi_topic v) (vi_url v)]
  | OtherMethod _ => [mkresponse MHD_HTTP_METHOD_NOT_ALLOWED (method_not_allowed_allow_get_post static) []]
  end.

(** A GET has two calls. *)
Definition short_of (v : visit) : short_request :=
  mkshort (vi_listener v) (vi_con v) (vi_url v) (vi_method v)
    (match vi_kind v with GetVisit => [(POne, [])] | _ => [] end ++ [(PNull, visit_answers v)]).

(** The names that the listener adds are not names of headers. *)
Definition plain_headers (con : MHD_Connection) : Prop :=
  Forall (fun kv => kv.1 <> bs "D-HTTP-method" /\ kv.1 <> bs "D-HTTP-URI") (mc_headers con).

Record good_visit (v : visit) : Prop := {
  gv_client : client_addr (vi_con v) = Some (vi_client v);
  gv_create : mc_create_ok (vi_con v) = true;
  gv_queue : mc_queue_ok (vi_con v) = true;
  gv_kind : match vi_kind v with
            | BadCertificate reason =>
                vi_tls v = true /\ tls_valid_client_certificate (mc_verify_peers (vi_con v)) = Some reason
            | BadPassword =>
                (vi_tls v = false \/ mc_verify_peers (vi_con v) = Some 0) /\
                exists db, vi_htpasswd v = Some db /\
                  (mc_basic_auth (vi_con v) = None \/
                   exists user password, mc_basic_auth (vi_con v) = Some (user, password) /\
                     http_authenticate fuel user password db = Ret false)
            | BadUrl =>
                vi_topic v = None /\ admitted fuel (vi_listener v) (vi_con v) (vi_client v) /\
                compressed (vi_con v) = false /\ plain_headers (vi_con v) /\
                extract_url_topic (Some (vi_url v)) = Ret None
            | GetVisit =>
                plain_headers (vi_con v) /\ (vi_topic v <> None -> vi_url v <> meraki_prefix)
            | OtherMethod method => method <> bs "POST" /\ method <> bs "GET"
            end
}.

Lemma visit_option con url method client key value : plain_headers con ->
  key = bs "D-HTTP-method" \/ key = bs "D-HTTP-URI" ->
  valueof (listener_options method url (Some client)) key strcmp0 = value ->
  valueof (request_params con url method client) key strcmp0 = value.
Proof.
  intros Hh Hk Hv. rewrite params_listener; [done|]. eapply list.Forall_impl; [exact Hh|].
  intros kv [H1 H2]. by destruct Hk as [->| ->].
Qed.

(** What the decoders answer to a GET. *)
Lemma visit_get v w : good_visit v -> vi_kind v = GetVisit ->
  exists r, listener_decode (hl_listener (vi_listener v)) w None
      (request_params (vi_con v) (vi_url v) (bs "GET") (vi_client v)) true None = Ret r /\
    cb_world r = w /\ get_answer static r = get_response (vi_topic v) (vi_url v).
Proof.
  intros Hg Hk. pose proof (gv_kind v Hg) as H. rewrite Hk in H. destruct H as [Hh Hu].
  set (params := request_params _ _ _ _).
  assert (Hm : valueof params (bs "D-HTTP-method") strcmp0 = Some (bs "GET")).
  { apply visit_option; [done|by left|done]. }
  assert (Hurl : valueof params (bs "D-HTTP-URI") strcmp0 = Some (vi_url v)).
  { apply visit_option; [done|by right|done]. }
  unfold listener_decode, vi_listener. cbn [hl_listener].
  destruct (vi_topic v) as [topic|] eqn:Et; cbn [l_decoder l_decoder_opaque dec_callback].
  - cbn [meraki_decoder dec_callback]. unfold meraki_decode. rewrite Hm, Hurl.
    change (strcmp0 (bs "GET") (bs "GET")) with true. unfold url_validator, get_response.
    destruct (strprefix meraki_prefix (vi_url v)) eqn:E; cbn [negb].
    + apply strprefix_spec in E as ([|c rest] & Eu).
      { rewrite app_nil_r in Eu. by destruct Hu. }
      rewrite Eu, zlen_app, zlen_cons. ztest. eexists. split; [done|]. done.
    + eexists. split; [done|]. done.
  - cbn [zz_decoder dec_callback]. unfold zz_callback. rewrite Hm.
    change (negb (strcmp0 (bs "POST") (bs "GET"))) with true. eexists. split; [done|]. done.
Qed.

(** A session that is refused for its URL. *)
Lemma visit_bad_url v st :
  zz_session_size sizeof_session <> 0 -> good_visit v -> vi_kind v = BadUrl -> hs_ptr st = PNull ->
  exists w', handle_request static fuel (vi_listener v) (vi_con v) (vi_url v) (bs "POST") None st
      = Ret (MHD_NO, mkhs w' PNull (hs_sent st) (hs_infos st) (hs_zlibs st)) /\
    forall l, moved l [] (hs_world st) w'.
Proof.
  intros Hsz Hg Hk Hp. pose proof (gv_kind v Hg) as H. rewrite Hk in H.
  destruct H as (Ht & Ha & Hc & Hh & Hx).
  rewrite (post_init_admitted static fuel (vi_listener v) (vi_con v) (vi_url v) (vi_client v) st) by done.
  rewrite create_plain; [|apply Ha|done]. cbn [mbind outcome_bind].
  unfold vi_listener. rewrite Ht. cbn [hl_listener l_decoder zz_decoder dec_new_session dec_session_size].
  cbn [default from_option id]. rewrite (proj2 (Z.eqb_neq _ 0)) by done.
  cbn [negb c_assert mbind outcome_bind ci_decoder_params]. unfold vnew_zz_session, new_zz_session.
  rewrite (visit_option _ _ _ _ _ (Some (vi_url v)) Hh (or_intror eq_refl) eq_refl), Hx.
  cbn [mbind outcome_bind hs_world]. eexists. split.
  - unfold free_con_info, set_world, set_ptr. cbn. do 3 f_equal. lia.
  - intros l. split_and!; try done. cbn. by rewrite app_nil_r.
Qed.

(** Every visit keeps the laws of a short request. *)
Lemma visit_first v st : zz_session_size sizeof_session <> 0 -> good_visit v -> vi_kind v <> GetVisit ->
  hs_ptr st = PNull -> hs_sent st = [] ->
  exists rc w', handle_request static fuel (vi_listener v) (vi_con v) (vi_url v) (vi_method v) None st
      = Ret (rc, mkhs w' PNull (visit_answers v) (hs_infos st) (hs_zlibs st)) /\
    forall l, moved l [] (hs_world st) w'.
Proof.
  intros Hsz Hg Hk Hp Hs. pose proof Hg as [Hcl Hcr Hq H]. unfold vi_method, visit_answers.
  destruct (vi_kind v) as [reason| | | |method] eqn:E; [..|done|].
  - destruct H as [Htls Hcert]. rewrite (post_init_refused static fuel _ _ _ _ _ st
      (mkresponse MHD_HTTP_FORBIDDEN [] reason) Hp Hcl Hcr Hq).
    + rewrite Hs. eexists _, _. split; [reflexivity|]. intros l. apply moved_refl.
    + unfold vi_listener. cbn [hl_client_tls_cert]. by rewrite Htls, Hcert.
  - destruct H as [Htls Hauth]. rewrite (post_init_refused static fuel _ _ _ _ _ st
      (mkresponse MHD_HTTP_UNAUTHORIZED (unauthorized static) []) Hp Hcl Hcr Hq).
    + rewrite Hs. eexists _, _. split; [reflexivity|]. intros l. apply moved_refl.
    + unfold vi_listener. cbn [hl_client_tls_cert hl_htpasswd].
      by destruct Htls as [->| ->]; [|destruct (vi_tls v)].
  - destruct (visit_bad_url v st Hsz Hg E Hp) as (w' & -> & Hm). rewrite Hs. by eexists _, w'.
  - destruct H as [H1 H2]. rewrite other_method_answered by done. rewrite Hs.
    eexists _, _. split; [reflexivity|]. intros l. apply moved_refl.
Qed.

#[export] Instance visit_laws v (Hsz : zz_session_size sizeof_session <> 0) (Hg : good_visit v) :
  ShortLaws static fuel (short_of v).
Proof.
  destruct (decide (vi_kind v = GetVisit)) as [Hk|Hk].
  - unfold short_of, vi_method, visit_answers. rewrite Hk. split; [|done].
    cbn [app sq_states sq_listener sq_con sq_url sq_method]. intros [|[|k]] c st Hc Hat; [..|done];
      injection Hc as <-; injection Hat as Hp Hs; cbn [fst snd].
    + rewrite get_first_call by done. eexists _, _. unfold set_ptr. rewrite Hs. split; [done|].
      intros l. apply moved_refl.
    + destruct (visit_get v (hs_world st) Hg Hk) as (r & Hr & Hw & Ha).
      rewrite (get_second_call static fuel _ _ _ (vi_client v) st r) by (done || apply Hg).
      rewrite Hs, Ha. eexists _, _. split; [done|]. rewrite Hw. intros l. apply moved_refl.
  - assert (Hst : sq_states (short_of v) = [(PNull, visit_answers v)]).
    { unfold short_of. cbn. by destruct (vi_kind v). }
    split.
    + intros k c st Hc Hat. rewrite Hst in Hc. destruct k as [|k]; [|by destruct k].
      injection Hc as <-. injection Hat as Hp Hs. by apply visit_first.
    + rewrite Hst. cbn [length short_at]. by rewrite Hst.
Qed.

End visits.
