(* ===== verification/EndToEnd.v ===== *)
(** * From HTTP requests to Kafka

    The theorems that join the HTTP listener, the zz_http2k and meraki decoders, the
    topics database and the message array: what whole requests do, alone and with
    their calls interleaved. *)

From S2P Require Import Prelude CString JsonString KafkaArray TopicDb Pair Addr ZzJson ZzXml ZzSession Decoders HttpAuth Http HttpProps Stream Daemon Refused.
From stdpp Require Import gmap.
#[local] Open Scope Z_scope.

Section posts.
Context {alloc : Allocator} {abi : Abi} {yajl : Yajl} {gen : YajlGen} {strings : ExpatStrings}
  {expat : Expat} {rk : Rdkafka} {producer : BatchProducer} {jansson : Jansson} {zlib : Zlib} {spec : ZlibSpec}
  {gnutls : Gnutls}.
Context (string_addr : cstring -> Z) (sizeof_session : Z) (fuel : nat).
Context (calloc_ok : bool) (default_topic : option bytes).

(** The messages of the chunks are the objects of the whole text, wherever the chunks
    cut it and also when yajl refuses the last chunk. *)
Lemma json_messages_objects chunks h h1 last :
  yajl_alloc = Some h -> parse_chunks h chunks = Some h1 ->
  exists evs, yajl_parse h (concat (chunks ++ [last]))
      = (evs, (yajl_parse h1 last).1.2, (yajl_parse h1 last).2) /\
    concat (json_messages (chunks ++ [last])) = objects_of (concat (chunks ++ [last])) 0 0 evs.
Proof.
  intros Ha Hp. unfold json_messages. rewrite Ha.
  destruct (json_outs_objects chunks last h [] 0 0 h1 Hp) as (evs & Hy & Ho);
    [by apply yajl_alloc_depth|done|].
  exists evs. split; [done|]. rewrite Ho. change (zlen (@nil byte)) with 0. by rewrite shift_0.
Qed.

(** The payloads of a request: the texts of its documents, or the objects that yajl
    finds in its body, up to the error if there is one. *)
Definition json_objects (chunks : list bytes) : list bytes :=
  match chunks, yajl_alloc with
  | _ :: _, Some h => objects_of (concat chunks) 0 0 (yajl_parse h (concat chunks)).1.1
  | _, _ => []
  end.

Definition po_payloads (p : post) : list bytes :=
  match po_kind p with
  | ZzXmlPost _ texts broken => concat texts ++ match broken with Some (out, _) => out | None => [] end
  | _ => json_objects (po_parsed p)
  end.

Definition post_resources w : Prop :=
  resources string_addr sizeof_session (zw_new_env w) (zw_decode_env w).

(** The objects of a body with its malformed chunk, if it has one. *)
Lemma json_payloads chunks bad h :
  json_body chunks bad -> chunks ++ opt_list bad <> [] -> yajl_alloc = Some h ->
  exists evs h', yajl_parse h (concat (chunks ++ opt_list bad))
      = (evs, match bad with Some _ => false | None => true end, h') /\
    concat (json_messages (chunks ++ opt_list bad)) = objects_of (concat (chunks ++ opt_list bad)) 0 0 evs.
Proof.
  intros (Hgood & _) Hne Ha. destruct (Hgood h Ha) as (h1 & Hp & Hbad). destruct bad as [bad|].
  - destruct Hbad as (evs1 & h2 & text & E & _).
    destruct (json_messages_objects chunks h h1 bad Ha Hp) as (evs & Hy & Ho).
    rewrite E in Hy. by exists evs, h2.
  - cbn [opt_list] in *. rewrite app_nil_r in *.
    destruct (exists_last Hne) as (good & last & ->).
    rewrite parse_chunks_app in Hp. destruct (parse_chunks h good) as [h2|] eqn:Eg; [|done].
    destruct (json_messages_objects good h h2 last Ha Eg) as (evs & Hy & Ho).
    cbn [parse_chunks] in Hp. destruct (yajl_parse h2 last) as [[evs1 [|]] h3]; [|done].
    by exists evs, h3.
Qed.

Lemma json_messages_payloads chunks bad :
  new_zz_session_json <> None -> json_body chunks bad ->
  concat (json_messages (chunks ++ opt_list bad)) = json_objects (chunks ++ opt_list bad).
Proof.
  unfold new_zz_session_json. intros Hj Hb. destruct yajl_alloc as [h|] eqn:Ha; [|done].
  destruct (decide (chunks ++ opt_list bad = [])) as [->|Hne].
  { unfold json_messages. by rewrite Ha. }
  destruct (json_payloads _ _ h Hb Hne Ha) as (evs & h' & Hy & ->).
  unfold json_objects. rewrite Ha, Hy. by destruct (chunks ++ opt_list bad).
Qed.

Lemma post_payloads w p : post_resources w ->
  good_post string_addr sizeof_session fuel calloc_ok default_topic p ->
  rq_sent (stream_of string_addr sizeof_session calloc_ok default_topic p) = po_payloads p.
Proof.
  intros Hres Hg. pose proof (gp_body _ _ _ _ _ p Hg) as Hb. pose proof (rs_json _ _ _ _ Hres) as Hj.
  unfold rq_sent, po_payloads. cbn [stream_of rq_outs rq_failure].
  assert (Hjson : json_body (po_chunks p) (fst <$> po_bad p) ->
    concat (take (length (po_chunks p)) (json_messages (po_parsed p))) ++
      match po_bad p with
      | Some (bad, _) => json_last (po_chunks p) bad
      | None => []
      end = json_objects (po_parsed p)).
  { intros Hjb. unfold po_parsed at 2. unfold json_last. rewrite <- (json_messages_payloads _ _ Hj Hjb). unfold po_parsed.
    destruct (po_bad p) as [[bad rest]|]; cbn [fmap option_fmap option_map fst opt_list].
    - by rewrite <- concat_app, take_drop.
    - rewrite !app_nil_r, take_ge; [done|]. by rewrite json_messages_length. }
  unfold po_messages, po_failure, po_refusal.
  destruct (po_kind p) as [|? ? broken|]; destruct (po_bad p) as [[bad rest]|]; cbn [sf_out fst];
    try apply Hjson, Hb; try (by apply Hjson).
  - destruct broken as [[out pos]|]; [done|]. by destruct Hb as [[[]] _].
  - destruct broken as [[out pos]|]; [|done]. by destruct Hb as [[_ []] _].
Qed.

(** The answer to a request: 200, or 400 with a report that has the text of the parser
    and the number of the messages of the malformed piece that start in it. *)
Definition post_answer (static : static_responses) (p : post) (resp : MHD_Response) : Prop :=
  match po_bad p with
  | None => resp = mkresponse MHD_HTTP_OK (empty_response static) []
  | Some (bad, _) =>
      match po_kind p with
      | ZzXmlPost _ _ (Some (out, pos)) =>
          resp = mkresponse MHD_HTTP_BAD_REQUEST [] (xml_result (zlen out) (xml_error_report pos))
      | _ => exists e h h1, yajl_alloc = Some h /\ parse_chunks h (po_chunks p) = Some h1 /\
          resp = mkresponse MHD_HTTP_BAD_REQUEST []
                   (json_error_report (json_queued h1 (po_chunks p) bad) e) /\
          json_unescape e = Some (yajl_get_error (yajl_parse h1 bad).2 bad)
      end
  end.

(** The answers at the end of a request: none if the client went away. *)
Definition post_answers (static : static_responses) (p : post) (resps : list MHD_Response) : Prop :=
  if po_complete p then exists resp, post_answer static p resp /\ resps = [resp] else resps = [].

Lemma post_answered static p err :
  rq_answered (stream_of string_addr sizeof_session calloc_ok default_topic p) err ->
  post_answer static p (answer static err).
Proof.
  unfold rq_answered, post_answer. cbn [stream_of rq_failure]. unfold po_failure.
  destruct (po_bad p) as [[bad rest]|]; destruct err as [[rc resp]|]; try done.
  intros (text & -> & Ha).
  assert (Htext : forall t, 0 < zlen t -> answer static (Some (DECODER_CALLBACK_INVALID_REQUEST, (Some t, zlen t)))
    = mkresponse MHD_HTTP_BAD_REQUEST [] t).
  { intros t Ht. unfold answer, http_error_text. cbn [he_str he_str_size]. ztest. by rewrite ztake_all by lia. }
  cbn [sf_answer] in Ha. unfold po_refusal in Ha.
  assert (Hjson : json_answer (po_chunks p) bad rc text -> exists e h h1,
    yajl_alloc = Some h /\ parse_chunks h (po_chunks p) = Some h1 /\
    answer static (Some (rc, (Some text, zlen text)))
      = mkresponse MHD_HTTP_BAD_REQUEST [] (json_error_report (json_queued h1 (po_chunks p) bad) e) /\
    json_unescape e = Some (yajl_get_error (yajl_parse h1 bad).2 bad)).
  { intros (-> & e & h & h1 & Hy & Hp & -> & He). exists e, h, h1. split_and!; try done.
    apply Htext. unfold json_error_report. cbn [app bs]. zlia. }
  destruct (po_kind p) as [|? ? [[out pos]|]|]; try by apply Hjson.
  destruct Ha as [-> ->]. apply Htext. unfold xml_result. rewrite !zlen_app. zlen_lits. zlen_facts. lia.
Qed.

Definition posts_of (ps : list post) : list stream_request :=
  map (stream_of string_addr sizeof_session calloc_ok default_topic) ps.

Lemma posts_laws w ps : post_resources w ->
  Forall (good_post string_addr sizeof_session fuel calloc_ok default_topic) ps ->
  Forall (StreamLaws fuel (zw_new_env w) (zw_decode_env w)) (posts_of ps).
Proof.
  intros Hres Hps. apply Forall_fmap. eapply list.Forall_impl; [exact Hps|]. intros p Hg.
  by apply post_laws.
Qed.

Definition visits_of (static : static_responses) (vs : list visit) : list short_request :=
  map (short_of string_addr sizeof_session calloc_ok default_topic static) vs.

Lemma short_at_end static v :
  short_at (short_of string_addr sizeof_session calloc_ok default_topic static v)
    (length (sq_states (short_of string_addr sizeof_session calloc_ok default_topic static v)))
    = (PNull, visit_answers static v).
Proof. unfold short_of. cbn. by destruct (vi_kind v). Qed.

(** The calls of any number of requests, in any order between requests. *)
Lemma posts_interleaved static ps vs evs w ext infos zlibs :
  post_resources w -> Forall (good_post string_addr sizeof_session fuel calloc_ok default_topic) ps ->
  Forall (good_visit string_addr sizeof_session fuel calloc_ok default_topic) vs ->
  calls_for (posts_of ps) (visits_of static vs) evs ->
  world_ok (zlen evs) ext w ->
  exists w' conns shorts tagged,
    dm_run static fuel (posts_of ps) (visits_of static vs) evs
        (dm_start (posts_of ps) (visits_of static vs) w infos zlibs)
      = Ret (mkserved w' conns shorts infos zlibs) /\
    Forall2 (fun p c => c.1 = PNull /\ post_answers static p c.2) ps conns /\
    Forall2 (fun v c => c = (PNull, visit_answers static v)) vs shorts /\
    zw_handed w' = zw_handed w ++ map snd tagged /\
    Forall (fun t => (t.1 < length ps)%nat) tagged /\
    (forall i p, ps !! i = Some p ->
       sent_by i tagged = map (fun payload => (po_topic p, payload)) (po_payloads p)) /\
    world_ok 0 ext w'.
Proof.
  intros Hres Hps Hvs Hcalls Hw.
  destruct (requests_served static fuel (posts_of ps) (visits_of static vs) evs ext w infos zlibs)
    as (w' & conns & shorts & tagged & Hrun & Hc & Hq & Hh & Hs & Ht & Hw'); try done; [by apply posts_laws| |].
  { apply Forall_fmap. eapply list.Forall_impl; [exact Hvs|]. intros v Hv.
    apply visit_laws; [exact (rs_size _ _ _ _ Hres)|done]. }
  assert (Hlen : length (posts_of ps) = length ps) by apply length_map. rewrite Hlen in Ht.
  exists w', conns, shorts, tagged. split_and!; try done.
  - apply Forall2_fmap_l in Hc. eapply Forall2_impl; [exact Hc|].
    intros p c [Hp Hr]. split; [done|]. unfold responses_ok in Hr. unfold post_answers.
    cbn [stream_of rq_complete] in Hr. destruct (po_complete p); [|done].
    destruct Hr as (resp & (err & Ha & ->) & ->). eexists. split; [by apply post_answered|done].
  - apply Forall2_fmap_l in Hq. eapply Forall2_impl; [exact Hq|]. intros v c ->. apply short_at_end.
  - intros i p Hp. rewrite (Hs i (stream_of string_addr sizeof_session calloc_ok default_topic p)).
    + unfold topic_msgs. rewrite list.Forall_forall in Hps.
      by rewrite (post_payloads _ p Hres) by (apply Hps; by eapply list_elem_of_lookup_2).
    + change (posts_of ps) with (stream_of string_addr sizeof_session calloc_ok default_topic <$> ps).
      by rewrite list_lookup_fmap, Hp.
Qed.

(** The world [zz_decoder_init] leaves. *)
Definition started_world (ne : nat -> new_env) (de : nat -> decode_env) : zz_world :=
  mkzw (zz_decoder_init true).2 (mkworld ∅ O 0) [] [] 0 ne de O.

Lemma started_world_ok ne de budget : budget < 2 ^ 61 -> world_ok budget [] (started_world ne de).
Proof.
  intros Hb. destruct system_init_inv as [[Hok _] Ha].
  exists topics_db_new, ∅. split_and!; [done|exact Hok|exact Ha| |constructor|done].
  change (zlen (db_table topics_db_new ++ [])) with 0. lia.
Qed.

(** Closing the decoder when no session is open. *)
Lemma world_closed w : world_ok 0 [] w ->
  exists topics, zz_decoder_done (zw_db w) (zw_topics w) = Ret topics /\
    w_heap topics = ∅ /\ w_rkts topics = 0.
Proof.
  intros (db & m & -> & (_ & _ & Hinv & _) & _ & Hb & _).
  destruct (decref_all_spec _ _ _ Hinv) as (w1 & Hw1 & Hinv1); [lia|].
  exists w1. split; [exact Hw1|]. by apply heap_inv_nil.
Qed.

Lemma world_leaked budget live w : world_ok budget live w -> zw_leaked w = 0.
Proof. by intros (db & m & _ & _ & _ & _ & _ & H). Qed.

(** The batches of a consistent world: none is leaked, and the reports that are to come
    free them. *)
Lemma world_flights budget live w : world_ok budget live w ->
  Forall (fun f => (f.1 = None <-> f.2 = []) /\ flight_drain (length f.2) f = Ret (None, []))
    (zw_flights w).
Proof.
  intros (db & m & _ & _ & _ & _ & Hf & _). eapply list.Forall_impl; [exact Hf|]. intros f Hok.
  split; [by apply flight_ok_freed|by apply flight_drain_ok].
Qed.
End posts.

(** ** Properties *)

(** C2: a POST of JSON to [/v1/data/<topic>] is answered 200 and every top-level
    object of its body, in order and wherever the chunks cut it, is given to
    [rd_kafka_produce_batch] as one message for the topic of the URL, prefixed by the
    consumer id if there is one.  When the request has ended the block of the connection
    and its state of inflate are released, its session has released all it owned (the
    handle of yajl, the string of the answer and that of the open object), the topics
    database is consistent with no reference taken, and the batches are allocated exactly
    while librdkafka has messages of them.  Memory is available, librdkafka knows the
    errors it sets, and the headers do not name the keys the listener sets itself. *)
Theorem http_json_post_delivered {alloc : Allocator} {abi : Abi} {yajl : Yajl} {gen : YajlGen}
    {strings : ExpatStrings} {expat : Expat} {rk : Rdkafka} {producer : BatchProducer}
    {jansson : Jansson} {zlib : Zlib} {spec : ZlibSpec} {gnutls : Gnutls}
    (string_addr : cstring -> Z) (sizeof_session : Z) (static : static_responses) (fuel : nat)
    (calloc_ok : bool) (default_topic : option bytes) (p : post) (topic : bytes)
    (st : http_state zz_session zz_world) (ext : list loc) (h : yajl_handle) :
  let l := po_listener string_addr sizeof_session calloc_ok default_topic p in
  let params := request_params (po_con p) (valid_prefix_str ++ topic) (bs "POST") (po_client p) in
  let w := hs_world st in
  post_resources string_addr sizeof_session w ->
  good_post string_addr sizeof_session fuel calloc_ok default_topic p -> po_chunks p <> [] ->
  po_kind p = ZzJsonPost topic -> po_bad p = None -> po_wire p = None -> yajl_alloc = Some h -> hs_ptr st = PNull -> world_ok 1 ext w ->
  exists w' evs h',
    mhd_post static fuel l (po_con p) (valid_prefix_str ++ topic) (po_chunks p) st
      = Ret (mkhs w' PNull (hs_sent st ++ [mkresponse MHD_HTTP_OK (empty_response static) []])
               (hs_infos st) (hs_zlibs st)) /\
    yajl_parse h (concat (po_chunks p)) = (evs, true, h') /\
    zw_handed w' = zw_handed w ++
      map (fun object => (uuid_topic (valueof params (bs "X-Consumer-ID") strcasecmp0) topic, object))
        (objects_of (concat (po_chunks p)) 0 0 evs) /\
    zw_leaked w' = 0 /\ world_ok 0 ext w'.
Proof.
  intros l params w Hres Hg Hne Hk Hgood Hwire Ha Hp Hw.
  pose proof (gp_wire _ _ _ _ _ p Hg) as Hz. rewrite Hwire in Hz.
  pose proof (post_laws _ _ fuel calloc_ok default_topic _ _ p Hres Hg) as Hlaws.
  destruct (stream_request_delivered fuel static _ _ (stream_of string_addr sizeof_session calloc_ok default_topic p) 0
    ext st) as (err & w' & Hrun & Herr & Hh & Hw'); try done.
  rewrite (post_payloads _ _ _ _ _ _ p Hres Hg) in Hh.
  apply (post_answered _ _ _ _ static) in Herr. unfold post_answer in Herr. rewrite Hgood in Herr.
  pose proof (gp_body _ _ _ _ _ p Hg) as Hb. rewrite Hk, Hgood in Hb.
  destruct (json_payloads (po_chunks p) None h (proj2 Hb)) as (evs & h' & Hy & _); try done;
    cbn [opt_list] in *; rewrite ?app_nil_r in *; try done.
  cbn [stream_of rq_topic] in Hh. unfold po_payloads, json_objects, po_topic, po_params, po_url, po_parsed in Hh.
  cbn [stream_of rq_listener rq_con rq_url] in Hrun. unfold rq_body in Hrun.
  cbn [stream_of rq_chunks rq_failure] in Hrun. unfold po_url, po_failure in Hrun.
  rewrite Hgood in Hh, Hrun. cbn [fmap option_fmap option_map opt_list] in Hh.
  rewrite app_nil_r in Hh, Hrun. rewrite Hk in Hh, Hrun. rewrite Ha, Hy in Hh. rewrite Herr in Hrun.
  exists w', evs, h'. split_and!; try done; [by destruct (po_chunks p)|by eapply world_leaked].
Qed.

(** C1: the service from its start to its end.  Whatever the order in which the daemons
    make the calls of the POSTs, of JSON or XML to zz_http2k listeners and of JSON to
    meraki listeners, compressed or not, requests do not disturb each other: each of them is answered 200,
    or 400 with the text of the parser if its JSON or XML is malformed, unless its client
    went away, and each hands over its own payloads (of the chunks that came,
    and before the error, if there is one), in their order, for its own topic, and
    nothing else is handed over.  Other requests, from clients that are not allowed in,
    for URLs without a topic or with other methods, get their own answers in between
    and hand nothing over.  The delivery reports of librdkafka come at any time
    between the calls and in any order: no batch is used after it was freed, at the end
    a batch is allocated exactly if a message of it is not reported, and the reports
    that are left free it.  At the end the blocks of all the requests and their states
    of inflate are released, their sessions have released all they owned (the handles of
    yajl and expat, the generators, and the strings of the answer and of the open object),
    and closing the decoder frees every topic handler and every topic of librdkafka.  The
    environment has memory for the calls, and bodies and requests are those of
    [good_post] and [good_visit]. *)
Theorem http_service_lifetime {alloc : Allocator} {abi : Abi} {yajl : Yajl} {gen : YajlGen}
    {strings : ExpatStrings} {expat : Expat} {rk : Rdkafka} {producer : BatchProducer}
    {jansson : Jansson} {zlib : Zlib} {spec : ZlibSpec} {gnutls : Gnutls}
    (string_addr : cstring -> Z) (sizeof_session : Z) (static : static_responses) (fuel : nat)
    (calloc_ok : bool) (default_topic : option bytes) (ps : list post) (vs : list visit)
    (evs : list mhd_event) (ne : nat -> new_env) (de : nat -> decode_env) :
  let rs := posts_of string_addr sizeof_session calloc_ok default_topic ps in
  let qs := visits_of string_addr sizeof_session calloc_ok default_topic static vs in
  let w := started_world ne de in
  resources string_addr sizeof_session ne de ->
  Forall (good_post string_addr sizeof_session fuel calloc_ok default_topic) ps ->
  Forall (good_visit string_addr sizeof_session fuel calloc_ok default_topic) vs ->
  calls_for rs qs evs -> zlen evs < 2 ^ 61 ->
  exists w' conns shorts tagged topics',
    dm_run static fuel rs qs evs (dm_start rs qs w 0 0) = Ret (mkserved w' conns shorts 0 0) /\
    Forall2 (fun p c => c.1 = PNull /\ post_answers static p c.2) ps conns /\
    Forall2 (fun v c => c = (PNull, visit_answers static v)) vs shorts /\
    zw_handed w' = map snd tagged /\ Forall (fun t => (t.1 < length ps)%nat) tagged /\
    (forall i p, ps !! i = Some p ->
       sent_by i tagged = map (fun payload => (po_topic p, payload)) (po_payloads p)) /\
    Forall (fun f => (f.1 = None <-> f.2 = []) /\ flight_drain (length f.2) f = Ret (None, []))
      (zw_flights w') /\ zw_leaked w' = 0 /\
    zz_decoder_done (zw_db w') (zw_topics w') = Ret topics' /\
    w_heap topics' = ∅ /\ w_rkts topics' = 0.
Proof.
  intros rs qs w Hres Hps Hvs Hcalls Hlen.
  destruct (posts_interleaved string_addr sizeof_session fuel calloc_ok default_topic static ps vs evs w [] 0 0)
    as (w' & conns & shorts & tagged & Hrun & Hc & Hq & Hh & Ht & Hs & Hw'); try done; [by apply started_world_ok|].
  destruct (world_closed w' Hw') as (topics' & Hdone & Hheap & Hrkts).
  exists w', conns, shorts, tagged, topics'.
  split_and!; try done; [by eapply world_flights|by eapply world_leaked].
Qed.

(** ** Witnesses *)

#[local] Existing Instance brace_yajl.
#[local] Existing Instance taken.
#[local] Existing Instance names.
#[local] Existing Instance unit_jansson.
#[local] Existing Instance stored_zlib.
#[local] Existing Instance stored_spec.
#[local] Existing Instance no_flags.

(** An element that is not closed as it was opened. *)
Definition wrong_tail : bytes := bs "<a></b>".

Definition wrong_pos : xml_position := mkpos XML_ERROR_TAG_MISMATCH 1 5 5.

(** An expat that knows that text and the document of the documentation. *)
#[local] Instance mixed_expat : Expat := scripted_expat (fun seen =>
  if bool_decide (list.last seen = Some wrong_tail)
  then ([mkcb (XStart (bs "a") []) no_pos 0 false], XML_STATUS_ERROR, wrong_pos)
  else (callbacks_at (zlen readme_buffer) (xml_events readme_tree), XML_STATUS_OK, no_pos)).

Definition tenant_con : MHD_Connection :=
  mkconn (Some (SOCKADDR_IN 16777226 40000)) None [(bs "x-consumer-id", Some (bs "abc"))] None true true true.

Definition xml_con : MHD_Connection :=
  mkconn (Some (SOCKADDR_IN 16777226 40001)) None [(bs "content-type", Some (bs "text/xml"))] None true true true.

Definition anonymous_con : MHD_Connection :=
  mkconn (Some (SOCKADDR_IN 16777226 40002)) None [] None true true true.

Definition body_chunks : list bytes := [bs "{a}{b"; bs ":{c"; bs "}}{d}"].

Definition json_post : post :=
  mkpost (ZzJsonPost (bs "top")) 2057 None false tenant_con (bs "10.0.0.1") body_chunks None true None.

Definition xml_post : post :=
  mkpost (ZzXmlPost (bs "xtop") [[readme_json]] None) 2057 None false xml_con (bs "10.0.0.1") [readme_buffer] None true None.

(** A document, and then a malformed one. *)
Definition wrong_post : post :=
  mkpost (ZzXmlPost (bs "xtop") [] (Some ([readme_json], wrong_pos))) 2057 None false xml_con (bs "10.0.0.1") []
    (Some (readme_buffer ++ wrong_tail, [])) true None.

Definition meraki_post : post :=
  mkpost (MerakiPost (bs "/") (bs "wifi")) 2058 None false tenant_con (bs "10.0.0.1") [bs "{m"; bs "}"] None true None.

(** A body that closes an object that was not opened. *)
Definition bad_post : post :=
  mkpost (ZzJsonPost (bs "top")) 2057 None false anonymous_con (bs "10.0.0.1") [bs "{x}"]
    (Some (bs "{y}}{z}", [bs "{t}"])) true None.

(** A client that goes away in the middle of an object. *)
Definition gone_post : post :=
  mkpost (MerakiPost (bs "/") (bs "wifi")) 2058 None false anonymous_con (bs "10.0.0.1") [bs "{p}{q"] None
    false None.

(** A compressed body; the zlib of the examples stores its data. *)
Definition zip_con : MHD_Connection :=
  mkconn (Some (SOCKADDR_IN 16777226 40003)) None [(bs "Content-Encoding", Some (bs "gzip"))] None true true true.

Definition zip_post : post :=
  mkpost (ZzJsonPost (bs "ztop")) 2057 None false zip_con (bs "10.0.0.1") [bs "{u"; bs "}{v}"] None true
    (Some [bs "{u"; bs "}{v}"]).

Lemma witness_resources : post_resources (fun _ => 64) 200 zz_start.
Proof.
  constructor; try done.
  - exact total_never_fails.
  - exact accepting_known.
  - intros i. cbn. split; [|done]. exists 4096. split; [done|lia].
Qed.

Lemma witness_world : world_ok 20 [] zz_start.
Proof.
  destruct system_init_inv as [[Hok _] Ha]. exists topics_db_new, ∅. split_and!; try done; exact Hok.
Qed.

Lemma json_post_good : good_post (fun _ => 64) 200 9 true None json_post.
Proof.
  constructor.
  - constructor; [reflexivity|by left|exact I|reflexivity..].
  - reflexivity.
  - repeat constructor; discriminate.
  - split; [discriminate|].
    apply (bool_decide_unpack (Forall (fun c => c <> x00 /\ c ∉ url_specials) (bs "top"))).
    vm_compute. exact I.
  - split; [reflexivity|]. split_and!; [|repeat constructor; vm_compute; discriminate|vm_compute; discriminate].
    intros h [= <-]. vm_compute. by eexists.
  - exact I.
Qed.

Lemma readme_generates : Forall2 generates [readme_tree] [readme_json].
Proof.
  constructor; [|constructor]. intros g [->|[g0 ->]]; (eexists; vm_compute; reflexivity).
Qed.

Lemma xml_post_good : good_post (fun _ => 64) 200 9 true None xml_post.
Proof.
  constructor.
  - constructor; [reflexivity|by left|exact I|reflexivity..].
  - reflexivity.
  - repeat constructor; discriminate.
  - split; [discriminate|].
    apply (bool_decide_unpack (Forall (fun c => c <> x00 /\ c ∉ url_specials) (bs "xtop"))).
    vm_compute. exact I.
  - split; [split; by intros []|]. split; [reflexivity|]. intros x [= <-].
    refine (xml_body_chunk [] readme_buffer [readme_tree] _ [readme_json] [] [] None _ readme_generates
      _ _ _ _ _ (xml_body_end _)); [|repeat constructor|vm_compute; discriminate|vm_compute; discriminate
      |discriminate|reflexivity].
    refine (@docs_next mixed_expat [] readme_buffer
        (callbacks_at (zlen readme_buffer) (xml_events readme_tree)) [] XML_STATUS_OK no_pos
        [readme_buffer] readme_tree [] (mkcb (XEnd (bs "root")) no_pos (zlen readme_buffer) false)
        [] _ _ _ _ _ _); try reflexivity.
    + split; [reflexivity|]. vm_compute. discriminate.
    + apply docs_end.
  - exact I.
Qed.

Lemma wrong_post_good : good_post (fun _ => 64) 200 9 true None wrong_post.
Proof.
  constructor.
  - constructor; [reflexivity|by left|exact I|reflexivity..].
  - reflexivity.
  - repeat constructor; discriminate.
  - split; [discriminate|].
    apply (bool_decide_unpack (Forall (fun c => c <> x00 /\ c ∉ url_specials) (bs "xtop"))).
    vm_compute. exact I.
  - split; [split; by eexists|]. split; [reflexivity|]. intros x [= <-].
    refine (xml_body_broken [] (readme_buffer ++ wrong_tail) [readme_tree] wrong_pos (jbs "{'tag':'a'}")
      [readme_json] _ _ readme_generates _ _ _ _ _);
      [| |repeat constructor|vm_compute; discriminate|vm_compute; discriminate|discriminate|reflexivity].
    + refine (broken_next (expat := mixed_expat) [] (readme_buffer ++ wrong_tail)
        (callbacks_at (zlen readme_buffer) (xml_events readme_tree)) [] XML_STATUS_OK no_pos
        [readme_buffer ++ wrong_tail] readme_tree [] (mkcb (XEnd (bs "root")) no_pos (zlen readme_buffer) false)
        wrong_pos (jbs "{'tag':'a'}") _ _ _ _ _ _); try reflexivity.
      * split; [reflexivity|]. vm_compute. discriminate.
      * apply broken_here; [discriminate|].
        exists [mkcb (XStart (bs "a") []) no_pos 0 false], [wrong_tail], (Elem (bs "a") [] [] []), (XEnd (bs "a")), [].
        split_and!; try reflexivity. intros g [->|[g0 ->]]; (eexists; vm_compute; reflexivity).
    + split; [reflexivity|]. split; [discriminate|]. vm_compute. discriminate.
  - constructor.
Qed.

Lemma meraki_post_good : good_post (fun _ => 64) 200 9 true None meraki_post.
Proof.
  constructor.
  - constructor; [reflexivity|by left|exact I|reflexivity..].
  - reflexivity.
  - repeat constructor; discriminate.
  - split; [discriminate|].
    apply (bool_decide_unpack (Forall (fun c => c <> x00 /\ c ∉ url_specials) (bs "wifi"))).
    vm_compute. exact I.
  - split_and!; [|repeat constructor; vm_compute; discriminate|vm_compute; discriminate].
    intros h [= <-]. vm_compute. by eexists.
  - exact I.
Qed.

Lemma bad_post_good : good_post (fun _ => 64) 200 9 true None bad_post.
Proof.
  constructor.
  - constructor; [reflexivity|by left|exact I|reflexivity..].
  - reflexivity.
  - constructor.
  - split; [discriminate|].
    apply (bool_decide_unpack (Forall (fun c => c <> x00 /\ c ∉ url_specials) (bs "top"))).
    vm_compute. exact I.
  - split; [reflexivity|]. split_and!; [|repeat constructor; vm_compute; discriminate|vm_compute; discriminate].
    intros h [= <-]. eexists. split; [vm_compute; reflexivity|].
    eexists _, _, (map (fun c => [c]) (bs "parse error")).
    split_and!; [vm_compute; reflexivity|reflexivity|by apply json_ascii|vm_compute; discriminate].
  - repeat constructor; discriminate.
Qed.

Lemma gone_post_good : good_post (fun _ => 64) 200 9 true None gone_post.
Proof.
  constructor.
  - constructor; [reflexivity|by left|exact I|reflexivity..].
  - reflexivity.
  - constructor.
  - split; [discriminate|].
    apply (bool_decide_unpack (Forall (fun c => c <> x00 /\ c ∉ url_specials) (bs "wifi"))).
    vm_compute. exact I.
  - split_and!; [|repeat constructor; vm_compute; discriminate|vm_compute; discriminate].
    intros h [= <-]. vm_compute. by eexists.
  - exact I.
Qed.

Lemma zip_post_good : good_post (fun _ => 64) 200 9 true None zip_post.
Proof.
  constructor.
  - constructor; [reflexivity|by left|exact I|reflexivity..].
  - split_and!; [reflexivity|reflexivity|repeat constructor; discriminate|]. eexists.
    apply (stored_inflates_chunk 9 (bs "{u") _ (bs "}{v}")); [discriminate|reflexivity|lia|].
    apply (stored_inflates_chunk 9 (bs "}{v}") _ []); [discriminate|reflexivity|lia|]. apply inflates_end.
  - repeat constructor; discriminate.
  - split; [discriminate|].
    apply (bool_decide_unpack (Forall (fun c => c <> x00 /\ c ∉ url_specials) (bs "ztop"))).
    vm_compute. exact I.
  - split; [reflexivity|]. split_and!; [|repeat constructor; vm_compute; discriminate|vm_compute; discriminate].
    intros h [= <-]. vm_compute. by eexists.
  - exact I.
Qed.

Lemma http_json_post_delivered_witness :
  exists w' evs h',
    mhd_post shared_responses 9 (po_listener (fun _ => 64) 200 true None json_post) tenant_con
      (bs "/v1/data/top") body_chunks (idle_state zz_start)
      = Ret (mkhs w' PNull [mkresponse 200 [] []] 0 0) /\
    yajl_parse brace_start (concat body_chunks) = (evs, true, h') /\
    zw_handed w' = map (fun object => (bs "abc_top", object))
                     (objects_of (concat body_chunks) 0 0 evs) /\
    zw_leaked w' = 0 /\ world_ok 0 [] w'.
Proof.
  refine (http_json_post_delivered (yajl := brace_yajl) (fun _ => 64) 200 shared_responses 9 true None
    json_post (bs "top") (idle_state zz_start) [] brace_start _ _ _ _ _ _ _ _ _).
  - exact witness_resources.
  - exact json_post_good.
  - discriminate.
  - reflexivity.
  - reflexivity.
  - reflexivity.
  - reflexivity.
  - reflexivity.
  - eapply world_ok_weaken; [|exact witness_world]. lia.
Defined.

(** The calls of seven requests, as they may come; the third and the last are malformed,
    the client of the fifth goes away and the sixth is compressed.  Four of the messages are reported meanwhile. *)
Definition mixed_posts : list post := [json_post; xml_post; bad_post; meraki_post; gone_post; zip_post; wrong_post].

Definition mixed_requests : list stream_request := posts_of (fun _ => 64) 200 true None mixed_posts.

(** In between a GET, a validation of a meraki listener, a client without the password,
    a URL without a topic, and a PUT. *)
Definition mixed_visits : list visit :=
  [mkvisit GetVisit None 2057 None false anonymous_con (bs "10.0.0.1") (bs "/v1/data/top");
   mkvisit GetVisit (Some (bs "wifi")) 2058 None false anonymous_con (bs "10.0.0.1") (bs "/v1/meraki/abc");
   mkvisit BadPassword None 2059 (Some (bs "u:{PLAIN}p")) false anonymous_con (bs "10.0.0.1") (bs "/v1/data/top");
   mkvisit BadUrl None 2057 None false anonymous_con (bs "10.0.0.1") (bs "/v2/data/top");
   mkvisit (OtherMethod (bs "PUT")) None 2057 None false anonymous_con (bs "10.0.0.1") (bs "/v1/data/top")].

Lemma mixed_visits_good : Forall (good_visit (fun _ => 64) 200 9 true None) mixed_visits.
Proof.
  repeat apply list.Forall_cons_2; [..|apply list.Forall_nil_2]; (split; [reflexivity..|]); cbn [vi_kind].
  - split; [constructor|done].
  - split; [constructor|discriminate].
  - split; [by left|]. eexists. split; [reflexivity|by left].
  - split_and!; try reflexivity; [|constructor].
    constructor; [reflexivity|by left|exact I|reflexivity..].
  - split; discriminate.
Qed.

Definition mixed_shorts : list short_request :=
  visits_of (fun _ => 64) 200 true None shared_responses mixed_visits.

Definition mixed_calls : list mhd_event :=
  [ECall 0 None; ECall 1 None; ECall 0 (Some (bs "{a}{b")); ECall 3 None; EShort 0;
   ECall 3 (Some (bs "{m")); ECall 2 None; ECall 2 (Some (bs "{x}")); EReport 1 0; EShort 2;
   ECall 2 (Some (bs "{y}}{z}")); ECall 1 (Some readme_buffer); EReport 0 0; EShort 3;
   ECall 0 (Some (bs ":{c")); EShort 0; ECall 1 None; EShortDone 3; ECall 2 (Some (bs "{t}"));
   ECall 4 None; EShort 1; ECall 3 (Some (bs "}")); ECall 2 None; EDone 1; EShort 1;
   ECall 4 (Some (bs "{p}{q")); EDone 4; EReport 4 0; EShortDone 0; EShortDone 2;
   ECall 0 (Some (bs "}}{d}")); ECall 3 None; EReport 5 0; EDone 2; EShort 4; ECall 0 None; EDone 0;
   ECall 5 None; EShortDone 4; ECall 5 (Some (bs "{u")); EDone 3; ECall 5 (Some (bs "}{v}"));
   EShortDone 1; ECall 6 None; ECall 5 None; ECall 6 (Some (readme_buffer ++ wrong_tail)); EDone 5;
   ECall 6 None; EDone 6].

Lemma http_service_lifetime_witness :
  exists w' conns shorts tagged topics',
    dm_run shared_responses 9 mixed_requests mixed_shorts mixed_calls
        (dm_start mixed_requests mixed_shorts zz_start 0 0)
      = Ret (mkserved w' conns shorts 0 0) /\
    Forall2 (fun p c => c.1 = PNull /\ post_answers shared_responses p c.2) mixed_posts conns /\
    Forall2 (fun v c => c = (PNull, visit_answers shared_responses v)) mixed_visits shorts /\
    zw_handed w' = map snd tagged /\ Forall (fun t => (t.1 < 7)%nat) tagged /\
    (forall i p, mixed_posts !! i = Some p ->
       sent_by i tagged = map (fun payload => (po_topic p, payload)) (po_payloads p)) /\
    Forall (fun f => (f.1 = None <-> f.2 = []) /\ flight_drain (length f.2) f = Ret (None, []))
      (zw_flights w') /\ zw_leaked w' = 0 /\
    zz_decoder_done (zw_db w') (zw_topics w') = Ret topics' /\ w_heap topics' = ∅ /\ w_rkts topics' = 0.
Proof.
  refine (http_service_lifetime (yajl := brace_yajl) (fun _ => 64) 200 shared_responses 9 true None
    mixed_posts mixed_visits mixed_calls (zw_new_env zz_start) (zw_decode_env zz_start) _ _ _ _ _).
  - exact witness_resources.
  - exact (list.Forall_cons_2 _ _ _ json_post_good (list.Forall_cons_2 _ _ _ xml_post_good
      (list.Forall_cons_2 _ _ _ bad_post_good
        (list.Forall_cons_2 _ _ _ meraki_post_good
          (list.Forall_cons_2 _ _ _ gone_post_good
            (list.Forall_cons_2 _ _ _ zip_post_good
              (list.Forall_cons_2 _ _ _ wrong_post_good (list.Forall_nil_2 _)))))))).
  - exact mixed_visits_good.
  - split; [repeat constructor|].
    split; intros [|[|[|[|[|[|[|i]]]]]]] r [= <-]; reflexivity.
  - vm_compute. reflexivity.
Defined.

(** What that run hands over, in the order of the calls, the codes it answers, and the
    batches it leaves: the references they have and the messages that are not
    reported. *)
Example mixed_calls_handed :
  match dm_run shared_responses 9 mixed_requests mixed_shorts mixed_calls
          (dm_start mixed_requests mixed_shorts zz_start 0 0) with
  | Ret d => (zw_handed (dm_world d), map (fun c => map rs_code c.2) (dm_conns d),
              map (fun c => map (fun r => (rs_code r, rs_body r)) c.2) (dm_shorts d),
              map (fun f => (kr_count <$> f.1, length f.2)) (zw_flights (dm_world d)))
  | _ => ([], [], [], [])
  end = ([(bs "abc_top", bs "{a}"); (bs "top", bs "{x}"); (bs "top", bs "{y}");
          (bs "xtop", readme_json); (bs "wifi", bs "{m}"); (bs "wifi", bs "{p}");
          (bs "abc_top", bs "{b:{c}}"); (bs "abc_top", bs "{d}");
          (bs "ztop", bs "{u}"); (bs "ztop", bs "{v}"); (bs "xtop", readme_json)],
         [[200]; [200]; [400]; [200]; []; [200]; [400]],
         [[(405, [])]; [(200, bs "abc")]; [(401, [])]; []; [(405, [])]],
         [(None, 0%nat); (None, 0%nat); (Some 1, 1%nat); (Some 1, 1%nat); (None, 0%nat); (None, 0%nat);
          (Some 1, 1%nat); (Some 1, 1%nat)]).
Proof. vm_compute. reflexivity. Qed.
