(* ===== verification/Kafka.v ===== *)
(** * The Kafka producer

    util/kafka.c: the start and the stop of librdkafka and the callbacks for its
    statistics, which are sent to a topic or written to the log, with some text
    added to them if the configuration has one. *)

From S2P Require Import Prelude TopicDb KafkaArray Decoders HttpAuth.

Definition comma_char : byte := x2c.

(** The code of a statistics callback: whether librdkafka has to free the text. *)
Definition PLEASE_FREE_LIBRDKAFKA : Z := 0.
Definition I_WILL_FREE_LIBRDKAFKA : Z := 1.

(** [memchr(json + from, ',', json_len - from)], as an offset in the text. *)
Definition memchr_comma (json : bytes) (from : Z) : option Z :=
  match strchr (zdrop from json) comma_char with
  | Some n => Some (from + n)
  | None => None
  end.

(** The inner loop: the last comma within the line, and the next one. *)
Fixpoint rdlog_inner (fuel : nat) (json : bytes) (cursor comma : Z) (next_comma : option Z)
    : outcome (Z * option Z) :=
  match fuel with
  | O => NoFuel
  | S fuel =>
      match next_comma with
      | Some next =>
          if next - cursor <? 1024
          then rdlog_inner fuel json cursor next (memchr_comma json (next + 1))
          else Ret (comma, next_comma)
      | None => Ret (comma, None)
      end
  end.

(** The outer loop: the lines it logs and the final cursor. *)
Fixpoint rdlog_outer (fuel : nat) (json : bytes) (cursor comma : Z) (next_comma : option Z)
    : outcome (list bytes * Z) :=
  match fuel with
  | O => NoFuel
  | S fuel =>
      match next_comma with
      | None => Ret ([], cursor)
      | Some _ =>
          '(comma1, next1) ← rdlog_inner fuel json cursor comma next_comma;
          match next1 with
          | None => Ret ([], cursor)
          | Some next =>
              if cursor =? next then Ret ([bs "Truncated, too long output"], cursor)
              else
                '(lines, cursor2) ← rdlog_outer fuel json (comma1 + 1) comma1 next1;
                Ret (slice json cursor (comma1 + 1) :: lines, cursor2)
          end
      end
  end.

Definition rdkafka_stats_rdlog_cb (fuel : nat) (json : bytes) : outcome (Z * list bytes) :=
  '(lines, cursor) ← rdlog_outer fuel json 0 0 (Some 0);
  Ret (PLEASE_FREE_LIBRDKAFKA,
       bs "Librdkafka stats ===" :: lines ++ [slice json cursor (zlen json)]).

Section stats.
Context {rk : Rdkafka} {producer : Producer}.

(** The variable [stats]: the topic, whether the callback is the one for a topic,
    and the text to append. *)
Record stats := mkstats {
  stats_topic : option rkt;
  n2k_stats_to_topic : bool;
  append_buf : bytes
}.

(** Who has the text when a callback returns. *)
Inductive owner := of_librdkafka | of_producer | freed.

(** What a callback did: its code, the messages it produced, the lines it logged
    and the owner of the text. *)
Record stats_result := mksr {
  sr_rc : Z;
  sr_produced : list (bytes * bytes);
  sr_logged : list bytes;
  sr_owner : owner
}.

(** The first [json_len] bytes of the text. *)
Definition text_of (json : bytes) (json_len : Z) : outcome bytes :=
  if json_len <=? zlen json then Ret (ztake json_len json) else Fault bad_access.

(** The text is given to the producer with [RD_KAFKA_MSG_F_FREE]. *)
Definition rdkafka_stats_topic_cb (s : stats) (json : bytes) (json_len : Z) : outcome stats_result :=
  match stats_topic s with
  | None => Ret (mksr PLEASE_FREE_LIBRDKAFKA [] [] of_librdkafka)
  | Some topic =>
      text ← text_of json json_len;
      let err := rd_kafka_produce topic text in
      if negb (bool_decide (err = ERR_NO_ERROR))
      then Ret (mksr PLEASE_FREE_LIBRDKAFKA []
                  [bs "Can't produce stats message: " ++ rd_kafka_err2str err] of_librdkafka)
      else Ret (mksr I_WILL_FREE_LIBRDKAFKA [(rd_kafka_topic_name topic, text)] [] of_producer)
  end.

(** The callback that was chosen at the start. *)
Definition n2k_stats_cb (fuel : nat) (s : stats) (json : bytes) (json_len : Z)
    : outcome stats_result :=
  if n2k_stats_to_topic s then rdkafka_stats_topic_cb s json json_len
  else
    text ← text_of json json_len;
    '(rc, logged) ← rdkafka_stats_rdlog_cb fuel text;
    Ret (mksr rc [] logged of_librdkafka).

(** [realloc_ok] tells whether the text could be made longer. *)
Definition rdkafka_stats_enrich_decorator_cb (fuel : nat) (realloc_ok : bool) (s : stats)
    (json : bytes) : outcome stats_result :=
  _ ← c_assert (negb (zlen (append_buf s) =? 0));
  let json_len := zlen json in
  let new_json_len := json_len + zlen (append_buf s) in
  if negb realloc_ok then n2k_stats_cb fuel s json new_json_len
  else
    _ ← c_assert (bool_decide (list.last json = Some x7d));
    let new_json := ztake (json_len - 1) json ++ [comma_char] ++
                    ztake (zlen (append_buf s) - 1) (append_buf s) ++ [x7d] in
    r ← n2k_stats_cb fuel s new_json new_json_len;
    if sr_rc r =? PLEASE_FREE_LIBRDKAFKA
    then Ret (mksr I_WILL_FREE_LIBRDKAFKA (sr_produced r) (sr_logged r) freed)
    else Ret r.

(** ** Start and stop *)

(** The options of librdkafka this code looks at. *)
Record n2kafka_rdkafka_conf := mkconf {
  statistics_topic : option bytes;
  message_extra : bytes
}.

(** Whether the statistics callback set in librdkafka is the decorator. *)
Inductive conf_stats_cb := use_decorator | use_plain.

(** [rk_ok] tells whether the producer could be created; a failure is fatal. *)
Definition init_rdkafka (rk_ok : bool) (conf : n2kafka_rdkafka_conf)
    : outcome (stats * conf_stats_cb) :=
  let to_topic := match statistics_topic conf with Some _ => true | None => false end in
  let cb := if zlen (message_extra conf) =? 0 then use_plain else use_decorator in
  if negb rk_ok then Fault process_exit
  else
    match statistics_topic conf with
    | None => Ret (mkstats None to_topic (message_extra conf), cb)
    | Some name =>
        match rd_kafka_topic_new name with
        | None => Fault process_exit
        | Some t => Ret (mkstats (Some t) to_topic (message_extra conf), cb)
        end
    end.

(** [print_rdkafka_conf]: the lines logged for the array [rd_kafka_conf_dump] gives,
    names and values in turn. *)
Fixpoint print_rdkafka_conf (dump_config : list bytes) : outcome (list bytes) :=
  match dump_config with
  | [] => Ret []
  | name :: value :: dump_config =>
      rest ← print_rdkafka_conf dump_config;
      Ret ((bs "Kafka_config[" ++ name ++ bs "][" ++ value ++ bs "]") :: rest)
  | [_] => Fault bad_access
  end.

(** librdkafka at the end of the program: the length of its queue after a poll of
    some milliseconds, and what the calls of [rd_kafka_wait_destroyed] return. *)
Record rd_kafka_end := mkend {
  rd_kafka_poll : Z -> Z -> Z;
  rd_kafka_wait_destroyed : nat -> Z
}.

Definition kafka_poll (e : rd_kafka_end) (timeout_ms outq_len : Z) : Z :=
  rd_kafka_poll e timeout_ms outq_len.

Definition flush_kafka (e : rd_kafka_end) (outq_len : Z) : Z := kafka_poll e 1000 outq_len.

(** The first loop of [stop_rdkafka]. *)
Fixpoint drain (fuel : nat) (e : rd_kafka_end) (outq_len : Z) : outcome Z :=
  match fuel with
  | O => NoFuel
  | S fuel => if 0 <? outq_len then drain fuel e (rd_kafka_poll e 50 outq_len) else Ret outq_len
  end.

(** The second one, from its call number [i]. *)
Fixpoint wait_destroyed (fuel : nat) (e : rd_kafka_end) (i : nat) : outcome unit :=
  match fuel with
  | O => NoFuel
  | S fuel => if rd_kafka_wait_destroyed e i =? 0 then Ret tt else wait_destroyed fuel e (S i)
  end.

Definition stop_rdkafka (fuel : nat) (e : rd_kafka_end) (outq_len : Z) (s : stats)
    : outcome (stats * Z) :=
  n ← drain fuel e outq_len;
  _ ← wait_destroyed fuel e 0;
  Ret (mkstats None (n2k_stats_to_topic s) [], n).

End stats.
Arguments mkstats {rk} _ _ _.

(** ** Lemmas *)

(** The loops end when the queue gets empty after some polls, and the handler is
    destroyed after some waits. *)
Definition ends (e : rd_kafka_end) (outq_len : Z) : Prop :=
  (exists k, Nat.iter k (rd_kafka_poll e 50) outq_len <= 0) /\
  exists i, rd_kafka_wait_destroyed e i = 0.

Lemma drain_ends e outq_len k :
  Nat.iter k (rd_kafka_poll e 50) outq_len <= 0 ->
  exists n, n <= 0 /\ forall fuel, (k < fuel)%nat -> drain fuel e outq_len = Ret n.
Proof.
  revert outq_len. induction k as [|k IH]; intros len Hk.
  - exists len. cbn in Hk. split; [done|]. intros [|fuel] Hf; [lia|]. cbn. by ztest.
  - rewrite Nat.iter_succ_r in Hk. destruct (Z.ltb_spec 0 len) as [Hl|Hl].
    + destruct (IH _ Hk) as (n & Hn & Hd). exists n. split; [done|].
      intros [|fuel] Hf; [lia|]. cbn. ztest. apply Hd. lia.
    + exists len. split; [done|]. intros [|fuel] Hf; [lia|]. cbn. by ztest.
Qed.

Lemma wait_destroyed_ends e i j fuel :
  rd_kafka_wait_destroyed e i = 0 -> (j <= i)%nat -> (i - j < fuel)%nat ->
  wait_destroyed fuel e j = Ret tt.
Proof.
  intros Hi. revert j. induction fuel as [|fuel IH]; intros j Hj Hf; [lia|]. cbn.
  destruct (Z.eqb_spec (rd_kafka_wait_destroyed e j) 0) as [|Hne]; [done|].
  destruct (decide (j = i)) as [->|]; [done|]. apply IH; lia.
Qed.

Lemma stop_rdkafka_ends {rk : Rdkafka} e outq_len (s : stats) :
  ends e outq_len -> exists n fuel0, n <= 0 /\ forall fuel, (fuel0 <= fuel)%nat ->
    stop_rdkafka fuel e outq_len s = Ret (mkstats None (n2k_stats_to_topic s) [], n).
Proof.
  intros [[k Hk] [i Hi]]. destruct (drain_ends e outq_len k Hk) as (n & Hn & Hd).
  exists n, (S (k + i)). split; [done|]. intros fuel Hf. unfold stop_rdkafka.
  rewrite Hd by lia. cbn [mbind outcome_bind]. by rewrite (wait_destroyed_ends e i) by (done || lia).
Qed.


(** In the text, every part between commas is short: from a cursor at the start or
    after a comma, the next comma is less than 1024 bytes away. *)
Definition dense (json : bytes) : Prop :=
  forall c next, 0 <= c -> memchr_comma json c = Some next -> next - c < 1024.

Lemma memchr_bound json from n : 0 <= from -> memchr_comma json from = Some n -> from <= n < zlen json.
Proof.
  intros Hf. unfold memchr_comma. destruct (strchr _ _) as [k|] eqn:E; [|done]. intros [= <-].
  apply strchr_bound in E. revert E. unfold zlen, zdrop. rewrite length_drop. lia.
Qed.

(** The inner loop returns the last comma of the line. *)
Lemma rdlog_inner_spec fuel json cursor comma next_comma :
  0 <= cursor -> cursor - 1 <= comma < cursor + 1024 ->
  next_comma = memchr_comma json (comma + 1) -> (Z.to_nat (zlen json - comma) < fuel)%nat ->
  exists comma1 next1, rdlog_inner fuel json cursor comma next_comma = Ret (comma1, next1) /\
    comma <= comma1 < cursor + 1024 /\ next1 = memchr_comma json (comma1 + 1) /\
    (forall n, next1 = Some n -> 1024 <= n - cursor) /\
    (forall n, next_comma = Some n -> n - cursor < 1024 -> comma < comma1).
Proof.
  revert comma next_comma. induction fuel as [|fuel IH]; intros comma next_comma Hc Hcm Hn Hf; [lia|].
  cbn [rdlog_inner]. destruct next_comma as [n|].
  2:{ exists comma, None. split_and!; try done; lia. }
  symmetry in Hn. apply memchr_bound in Hn as Hb; [|lia].
  destruct (n - cursor <? 1024) eqn:E.
  - destruct (IH n (memchr_comma json (n + 1))) as (c1 & n1 & -> & Hc1 & Hn1 & Hstop & _);
      [done|lia|done|lia|].
    exists c1, n1. split_and!; try done; lia.
  - exists comma, (Some n). split_and!; try done; try lia; intros ? [= <-]; lia.
Qed.

Lemma slice_end (t : bytes) a : 0 <= a <= zlen t -> slice t a (zlen t) = zdrop a t.
Proof.
  intros Ha. unfold slice. apply ztake_all. rewrite zlen_zdrop; lia.
Qed.

Lemma slice_zdrop (t : bytes) a b : 0 <= a <= b -> slice t a b ++ zdrop b t = zdrop a t.
Proof.
  intros Ha. unfold slice, ztake, zdrop. rewrite <- (take_drop (Z.to_nat (b - a)) (drop _ t)) at 2.
  f_equal. rewrite drop_drop. f_equal. lia.
Qed.

(** The inner loop finds a line that starts at the cursor and is not empty. *)
Definition line_found (json : bytes) (cursor comma : Z) (next_comma : option Z) : Prop :=
  forall fuel, (Z.to_nat (zlen json - cursor) + 2 < fuel)%nat ->
  exists comma1 next1, rdlog_inner fuel json cursor comma next_comma = Ret (comma1, next1) /\
    cursor <= comma1 < cursor + 1024 /\ next1 = memchr_comma json (comma1 + 1) /\
    (forall n, next1 = Some n -> 1024 <= n - cursor).

Lemma line_found_first json : json <> [] -> line_found json 0 0 (Some 0).
Proof.
  intros Hne fuel Hf. assert (Hl : 0 < zlen json) by (destruct json; [done|]; zlia).
  destruct fuel as [|fuel]; [lia|]. cbn [rdlog_inner]. change (0 - 0 <? 1024) with true. cbn iota.
  destruct (rdlog_inner_spec fuel json 0 0 (memchr_comma json (0 + 1)))
    as (c1 & n1 & -> & Hc1 & Hn1 & Hstop & _); [lia|lia|done|lia|].
  exists c1, n1. split_and!; try done; lia.
Qed.

Lemma line_found_next json comma n : dense json -> 0 <= comma < zlen json ->
  memchr_comma json (comma + 1) = Some n -> line_found json (comma + 1) comma (Some n).
Proof.
  intros Hd Hc Hn fuel Hf. pose proof (Hd (comma + 1) n ltac:(lia) Hn) as Hgap.
  destruct (rdlog_inner_spec fuel json (comma + 1) comma (Some n))
    as (c1 & n1 & -> & Hc1 & Hn1 & Hstop & Hp); [lia|lia|done|lia|].
  specialize (Hp n eq_refl Hgap). exists c1, n1. split_and!; try done; lia.
Qed.

(** The outer loop from a line start: the lines and the rest are the text. *)
Lemma rdlog_outer_spec fuel json cursor comma next :
  dense json -> 0 <= cursor <= zlen json -> line_found json cursor comma (Some next) ->
  (Z.to_nat (zlen json - cursor) + 3 < fuel)%nat ->
  exists lines cursor2, rdlog_outer fuel json cursor comma (Some next) = Ret (lines, cursor2) /\
    concat lines ++ slice json cursor2 (zlen json) = slice json cursor (zlen json) /\
    Forall (fun line => 0 < zlen line <= 1024) lines.
Proof.
  intros Hd. revert cursor comma next.
  induction fuel as [|fuel IH]; intros cursor comma next Hc Hfound Hf; [lia|].
  cbn [rdlog_outer]. destruct (Hfound fuel) as (c1 & n1 & -> & Hc1 & Hn1 & Hstop); [lia|].
  cbn [mbind outcome_bind]. destruct n1 as [n1|].
  2:{ exists [], cursor. by split_and!. }
  specialize (Hstop n1 eq_refl). symmetry in Hn1. apply memchr_bound in Hn1 as Hb1; [|lia].
  rewrite (proj2 (Z.eqb_neq cursor n1)) by lia.
  destruct (IH (c1 + 1) c1 n1) as (lines & c2 & -> & Hcat & Hlen);
    [lia|apply line_found_next; [done|lia|done]|lia|].
  cbn [mbind outcome_bind]. eexists _, c2. split; [reflexivity|]. split.
  - cbn [concat]. rewrite <- app_assoc, Hcat, !slice_end by lia. apply slice_zdrop. lia.
  - constructor; [|done]. unfold slice. rewrite zlen_ztake; [lia|]. rewrite zlen_zdrop; lia.
Qed.

(** ** Properties *)

(** When every part of the statistics up to a comma is shorter than 1024 bytes,
    writing them to the log ends, and the lines it writes after the title are
    the text, cut after commas in lines of at most 1024 bytes but the last. *)
Theorem stats_log_prints_all (json : bytes) :
  dense json -> json <> [] ->
  exists lines last_line,
    rdkafka_stats_rdlog_cb (length json + 4) json
      = Ret (PLEASE_FREE_LIBRDKAFKA, bs "Librdkafka stats ===" :: lines ++ [last_line]) /\
    concat lines ++ last_line = json /\ Forall (fun line => 0 < zlen line <= 1024) lines.
Proof.
  intros Hd Hne. unfold rdkafka_stats_rdlog_cb.
  destruct (rdlog_outer_spec (length json + 4) json 0 0 0) as (lines & cursor & -> & Hcat & Hlen);
    [done|zlen_facts; lia|by apply line_found_first|unfold zlen; lia|].
  cbn [mbind outcome_bind]. eexists lines, _. split; [reflexivity|]. split; [|done].
  rewrite Hcat, slice_end; [done|]. zlen_facts. lia.
Qed.

(** A text shorter than a line is dense. *)
Lemma short_dense json : zlen json <= 1024 -> dense json.
Proof. intros Hl c next Hc Hn. apply memchr_bound in Hn; lia. Qed.

Lemma stats_log_prints_all_witness :
  exists lines last_line,
    rdkafka_stats_rdlog_cb 17 (bs "{a:1,b:2,c:3}")
      = Ret (0, bs "Librdkafka stats ===" :: lines ++ [last_line]) /\
    concat lines ++ last_line = bs "{a:1,b:2,c:3}" /\ Forall (fun line => 0 < zlen line <= 1024) lines.
Proof.
  apply (stats_log_prints_all (bs "{a:1,b:2,c:3}")); [|discriminate].
  apply short_dense. vm_compute. discriminate.
Defined.

(** The part of the text that has no comma and the comma after it. *)
Lemma memchr_first json pre (seg rest : bytes) : json = pre ++ seg ++ comma_char :: rest ->
  Forall (fun c => c <> comma_char) seg -> memchr_comma json (zlen pre) = Some (zlen pre + zlen seg).
Proof.
  intros -> Hseg. unfold memchr_comma. rewrite zdrop_app_exact by done. by rewrite strchr_first.
Qed.

(** When the first part of the statistics, after the opening brace, has 1024
    bytes or more before a comma, writing them to the log never ends: the cursor
    stays where it is and the lines are empty. *)
Theorem stats_log_never_ends (fuel : nat) (brace : byte) (seg rest : bytes) :
  1024 <= zlen seg -> Forall (fun c => c <> comma_char) seg ->
  rdkafka_stats_rdlog_cb fuel ([brace] ++ seg ++ comma_char :: rest) = NoFuel.
Proof.
  intros Hlen Hseg. unfold rdkafka_stats_rdlog_cb. set (json := [brace] ++ seg ++ comma_char :: rest).
  pose proof (memchr_first json [brace] seg rest eq_refl Hseg) as Hm. change (zlen [brace]) with 1 in Hm.
  assert (Hstuck : forall f, rdlog_outer f json 1 0 (Some (1 + zlen seg)) = NoFuel).
  { induction f as [|f IH]; [done|]. cbn [rdlog_outer]. destruct f as [|f]; [done|].
    cbn [rdlog_inner]. rewrite (proj2 (Z.ltb_ge _ _)) by lia. cbn [mbind outcome_bind].
    rewrite (proj2 (Z.eqb_neq _ _)) by lia. change (0 + 1) with 1. by rewrite IH. }
  destruct fuel as [|fuel]; [done|]. cbn [rdlog_outer].
  assert (Hin : rdlog_inner fuel json 0 0 (Some 0) = NoFuel \/
                rdlog_inner fuel json 0 0 (Some 0) = Ret (0, Some (1 + zlen seg))).
  { destruct fuel as [|[|fuel]]; [by left..|]. right. cbn [rdlog_inner].
    change (0 - 0 <? 1024) with true. cbn iota. change (0 + 1) with 1. rewrite Hm.
    by rewrite (proj2 (Z.ltb_ge _ _)) by lia. }
  destruct Hin as [-> | ->]; [done|]. cbn [mbind outcome_bind].
  rewrite (proj2 (Z.eqb_neq _ _)) by lia. change (0 + 1) with 1. by rewrite Hstuck.
Qed.

Lemma stats_log_never_ends_witness :
  rdkafka_stats_rdlog_cb 50 ([x7b] ++ replicate 1024 x61 ++ comma_char :: bs "b}") = NoFuel.
Proof.
  apply stats_log_never_ends.
  - vm_compute. discriminate.
  - apply Forall_replicate. discriminate.
Defined.

(** The decorator merges the configured text into the statistics, a JSON
    object: the last brace becomes a comma, followed by the text without its NUL
    and a brace.  The child callback gets exactly that; and whatever it does,
    librdkafka is told not to free the text, whose block may have moved: it was
    freed, or the producer has it. *)
Theorem stats_enriched {rk : Rdkafka} {producer : Producer} (fuel : nat) (s : stats)
    (body extra : bytes) (r : stats_result) :
  append_buf s = extra ++ [x00] ->
  n2k_stats_cb fuel s (body ++ [comma_char] ++ extra ++ [x7d])
    (zlen body + zlen extra + 2) = Ret r ->
  (sr_rc r = I_WILL_FREE_LIBRDKAFKA /\ sr_owner r = of_producer) \/
  (sr_rc r = PLEASE_FREE_LIBRDKAFKA /\ sr_owner r = of_librdkafka) ->
  exists r', rdkafka_stats_enrich_decorator_cb fuel true s (body ++ [x7d]) = Ret r' /\
    sr_produced r' = sr_produced r /\ sr_logged r' = sr_logged r /\
    sr_rc r' = I_WILL_FREE_LIBRDKAFKA /\ (sr_owner r' = freed \/ sr_owner r' = of_producer).
Proof.
  intros Hbuf Hr Hown. unfold rdkafka_stats_enrich_decorator_cb. rewrite Hbuf.
  rewrite !zlen_app. change (zlen [x00]) with 1. change (zlen [x7d]) with 1. zlen_facts.
  rewrite (proj2 (Z.eqb_neq _ 0)) by lia. cbn [negb c_assert mbind outcome_bind].
  rewrite list.last_snoc, bool_decide_true by done. cbn [c_assert mbind outcome_bind].
  rewrite ztake_app_exact, ztake_app_exact by lia.
  replace (zlen body + 1 + (zlen extra + 1)) with (zlen body + zlen extra + 2) by lia.
  rewrite Hr. cbn [mbind outcome_bind].
  destruct Hown as [[Hrc Ho]|[Hrc Ho]]; rewrite Hrc; cbn; eexists; (split; [reflexivity|]); cbn;
    rewrite ?Ho; auto.
Qed.

#[local] Instance stats_names : Rdkafka := {|
  rkt := bytes; rd_kafka_topic_new name := Some name; rd_kafka_topic_name r := r;
  topic_name_new name r H := eq_sym (f_equal (fun o => default [] o) H)
|}.
#[local] Instance stats_producer : @Producer stats_names := {|
  rd_kafka_produce _ _ := ERR_NO_ERROR; rd_kafka_err2str _ := []; rd_kafka_topic_new_null := None
|}.

Lemma stats_enriched_witness :
  exists r', rdkafka_stats_enrich_decorator_cb 9 true
      (mkstats (rk := stats_names) (Some (bs "stats")) true (bs "b:2" ++ [x00])) (bs "{a:1}") = Ret r' /\
    sr_produced r' = [(bs "stats", bs "{a:1,b:2}")] /\ sr_logged r' = [] /\
    sr_rc r' = I_WILL_FREE_LIBRDKAFKA /\ (sr_owner r' = freed \/ sr_owner r' = of_producer).
Proof.
  apply (stats_enriched 9 (mkstats (rk := stats_names) (Some (bs "stats")) true (bs "b:2" ++ [x00]))
    (bs "{a:1") (bs "b:2")
    (mksr I_WILL_FREE_LIBRDKAFKA [(bs "stats", bs "{a:1,b:2}")] [] of_producer)).
  - reflexivity.
  - vm_compute. reflexivity.
  - left. split; reflexivity.
Defined.
