(* ===== verification/Socket.v ===== *)
(** * The socket listeners

    listener/socket/socket.c.  A TCP listener has a main thread, which accepts
    connections and gives them in turn to its workers, and worker threads, each
    with an event loop that reads its connections.  A connection goes from the main
    thread to a worker through a queue; the main thread then wakes the worker up
    with an asynchronous event.  A UDP listener is a group of threads that receive
    from one descriptor under a lock.

    The callbacks are functions on the state of the listener and on the part of
    the process they touch: open descriptors, connections in memory, what was
    written to the clients and the state of the decoder.  The answers of the
    kernel are arguments.  libev calls them; the steps of the threads are the
    callbacks, cut at the places where another thread can see the difference. *)

From S2P Require Import Prelude Pair Addr Decoders HttpConfig.
From stdpp Require Import gmap.
#[local] Open Scope Z_scope.

(** ** Configuration *)

Definition MAX_NUM_THREADS : Z := 256.
Definition CONNECTION_PRIVATE_MAGIC : Z := 1159943698.
Definition N2KAFKA_TCP : bytes := bs "tcp".
Definition N2KAFKA_UDP : bytes := bs "udp".
Definition READ_BUFFER_SIZE : Z := 4096.

Inductive thread_mode :=
| MODE_THREAD_PER_CONNECTION
| MODE_SELECT
| MODE_POLL
| MODE_EPOLL
| MODE_INVALID.

#[export] Instance thread_mode_eq_dec : EqDecision thread_mode.
Proof. solve_decision. Defined.

Definition thread_mode_str (mode_str : option bytes) : thread_mode :=
  match mode_str with
  | None => MODE_THREAD_PER_CONNECTION
  | Some mode_str =>
      if strcmp0 (bs "thread_per_connection") mode_str then MODE_THREAD_PER_CONNECTION
      else if strcmp0 (bs "select") mode_str then MODE_SELECT
      else if strcmp0 (bs "poll") mode_str then MODE_POLL
      else if strcmp0 (bs "epoll") mode_str then MODE_EPOLL
      else MODE_INVALID
  end.

Record socket_config := mksconf {
  c_proto : option bytes;
  c_threads : Z;
  c_tcp_keepalive : bool;
  c_thread_mode : thread_mode
}.

(** The part of [global_config] the callbacks read. *)
Record socket_globals := mkglobals {
  gc_response : option bytes;
  gc_response_len : Z;
  gc_blacklist : list in_addr
}.

(** ** The listening socket *)

(** What [socket], [bind] and [listen] return. *)
Record listen_env := mklenv { le_socket : Z; le_bind : Z; le_listen : Z }.

Definition createListenSocket (env : listen_env) (proto : option bytes) (listen_port : Z)
    (fds : gset Z) : outcome (Z * gset Z) :=
  match proto with
  | None => Ret (0, fds)
  | Some proto =>
      if strcmp0 N2KAFKA_UDP proto || strcmp0 N2KAFKA_TCP proto then
        let listenfd := le_socket env in
        if listenfd =? -1 then Ret (0, fds)
        else
          let fds1 := {[listenfd]} ∪ fds in
          _ ← c_assert (0 <? listen_port);
          if le_bind env =? -1 then Ret (-1, fds1 ∖ {[listenfd]})
          else if strcmp0 N2KAFKA_TCP proto && (le_listen env =? -1)
          then Ret (-1, fds1 ∖ {[listenfd]})
          else Ret (listenfd, fds1)
      else Ret (0, fds)
  end.

(** ** Input and output on a connection *)

(** What waits in a socket: data, with [nil] for the end of a connection or an
    empty datagram, or an error of [recvfrom]. *)
Inductive recv_answer := RECV_DATA (pending : bytes) | RECV_ERROR (eagain : bool).

(** The result of [recvfrom] and the bytes stored in the buffer. *)
Definition receive_from_socket (a : recv_answer) (buffer_size : Z) : Z * bytes :=
  match a with
  | RECV_DATA pending => (zlen (ztake buffer_size pending), ztake buffer_size pending)
  | RECV_ERROR _ => (-1, [])
  end.

(** What [select] and then [write] answer. *)
Inductive select_answer := SELECT_READY (write_ret : Z) | SELECT_TIMEOUT | SELECT_ERROR.

(** The result, and the bytes the client gets. *)
Definition send_to_socket (a : select_answer) (data : bytes) (len : Z) : Z * bytes :=
  match a with
  | SELECT_READY write_ret => (write_ret, ztake (Z.min write_ret len) data)
  | SELECT_TIMEOUT => (0, [])
  | SELECT_ERROR => (-1, [])
  end.

(** ** State *)

Record connection_private := mkpriv {
  cp_magic : Z;
  cp_first_response_sent : Z;
  cp_client : bytes
}.

(** A watcher and the private data just after it, in one block. *)
Record ev_io := mkio { io_fd : Z; io_data : connection_private }.

(** librd: the queue of watchers of a worker. *)
Class RdFifoq := {
  rd_fifoq_t : Type;
  rd_fifoq_init : rd_fifoq_t;
  rd_fifoq_add : rd_fifoq_t -> nat -> rd_fifoq_t;
  rd_fifoq_pop : rd_fifoq_t -> option (nat * rd_fifoq_t);
  fifo_elems : rd_fifoq_t -> list nat;
  fifo_init : fifo_elems rd_fifoq_init = [];
  fifo_add : forall q x, fifo_elems (rd_fifoq_add q x) = fifo_elems q ++ [x];
  fifo_pop : forall q, match rd_fifoq_pop q with
                       | None => fifo_elems q = []
                       | Some (x, q') => fifo_elems q = x :: fifo_elems q'
                       end
}.

(** The loop of a worker: the watchers it has started, whether its asynchronous
    event was sent and not yet seen, and whether [ev_break] was called. *)
Record ev_loop := mkloop { lp_watchers : list nat; lp_sent : bool; lp_broken : bool }.

(** Where a worker is: in [ev_run], in the [while] of [async_cb], or returned. *)
Inductive worker_phase := Waiting | Draining | Finished.

#[export] Instance worker_phase_eq_dec : EqDecision worker_phase.
Proof. solve_decision. Defined.

(** The entries of the arrays [event_loops], [event_asyncs], [watchers_queue] and
    [threads] at one index; [None] is what [calloc] left. *)
Record worker_slot {fifo : RdFifoq} := mkslot {
  wk_loop : option ev_loop;
  wk_queue : option rd_fifoq_t;
  wk_phase : worker_phase
}.
Arguments mkslot {fifo} _ _ _.

(** Where the main thread is: in its event loop, in [accept_cb] after a watcher was
    queued for a worker, or out of the loop. *)
Inductive main_phase := Accepting | Sending (i : nat) | Stopped.

#[export] Instance main_phase_eq_dec : EqDecision main_phase.
Proof. solve_decision. Defined.

(** [struct socket_listener]; [sl_event_loop] tells whether the event of the main
    loop was sent. *)
Record socket_listener {jansson : Jansson} {fifo : RdFifoq} (S W O : Type) := mksock {
  sl_listener : listener S W O;
  sl_config : socket_config;
  sl_event_loop : option bool;
  sl_workers : list worker_slot;
  sl_accept_current_worker_idx : Z;
  sl_main : main_phase
}.
Arguments mksock {jansson fifo S W O} _ _ _ _ _ _.
Arguments sl_listener {jansson fifo S W O} _.
Arguments sl_config {jansson fifo S W O} _.
Arguments sl_event_loop {jansson fifo S W O} _.
Arguments sl_workers {jansson fifo S W O} _.
Arguments sl_accept_current_worker_idx {jansson fifo S W O} _.
Arguments sl_main {jansson fifo S W O} _.

(** The process: open descriptors, watchers in memory, the static [do_shutdown],
    what clients were sent, the read buffers that are allocated, the decoder. *)
Record process (W : Type) := mkproc {
  pr_fds : gset Z;
  pr_heap : gmap nat ev_io;
  pr_next : nat;
  pr_do_shutdown : bool;
  pr_sent : list (Z * bytes);
  pr_buffers : Z;
  pr_decoder : W
}.
Arguments mkproc {W} _ _ _ _ _ _ _.
Arguments pr_fds {W} _.
Arguments pr_heap {W} _.
Arguments pr_next {W} _.
Arguments pr_do_shutdown {W} _.
Arguments pr_sent {W} _.
Arguments pr_buffers {W} _.
Arguments pr_decoder {W} _.

Definition with_heap {W} (p : process W) (heap : gmap nat ev_io) : process W :=
  mkproc (pr_fds p) heap (pr_next p) (pr_do_shutdown p) (pr_sent p) (pr_buffers p) (pr_decoder p).
Definition with_buffers {W} (p : process W) (n : Z) : process W :=
  mkproc (pr_fds p) (pr_heap p) (pr_next p) (pr_do_shutdown p) (pr_sent p) n (pr_decoder p).
Definition with_decoder {W} (p : process W) (w : W) : process W :=
  mkproc (pr_fds p) (pr_heap p) (pr_next p) (pr_do_shutdown p) (pr_sent p) (pr_buffers p) w.
Definition with_fds {W} (p : process W) (fds : gset Z) : process W :=
  mkproc fds (pr_heap p) (pr_next p) (pr_do_shutdown p) (pr_sent p) (pr_buffers p) (pr_decoder p).
Definition with_sent {W} (p : process W) (fd : Z) (data : bytes) : process W :=
  mkproc (pr_fds p) (pr_heap p) (pr_next p) (pr_do_shutdown p)
    (pr_sent p ++ [(fd, data)]) (pr_buffers p) (pr_decoder p).
Definition with_shutdown {W} (p : process W) : process W :=
  mkproc (pr_fds p) (pr_heap p) (pr_next p) true (pr_sent p) (pr_buffers p) (pr_decoder p).
Definition with_watcher {W} (p : process W) (io : ev_io) : process W :=
  mkproc (pr_fds p) (<[pr_next p := io]> (pr_heap p)) (Datatypes.S (pr_next p)) (pr_do_shutdown p)
    (pr_sent p) (pr_buffers p) (pr_decoder p).

Definition with_workers {jansson : Jansson} {fifo : RdFifoq} {S W O}
    (sl : socket_listener S W O) (workers : list worker_slot) : socket_listener S W O :=
  mksock (sl_listener sl) (sl_config sl) (sl_event_loop sl) workers
    (sl_accept_current_worker_idx sl) (sl_main sl).
Definition with_main {jansson : Jansson} {fifo : RdFifoq} {S W O}
    (sl : socket_listener S W O) (m : main_phase) : socket_listener S W O :=
  mksock (sl_listener sl) (sl_config sl) (sl_event_loop sl) (sl_workers sl)
    (sl_accept_current_worker_idx sl) m.
Definition with_idx {jansson : Jansson} {fifo : RdFifoq} {S W O}
    (sl : socket_listener S W O) (idx : Z) : socket_listener S W O :=
  mksock (sl_listener sl) (sl_config sl) (sl_event_loop sl) (sl_workers sl) idx (sl_main sl).
Definition with_event_loop {jansson : Jansson} {fifo : RdFifoq} {S W O}
    (sl : socket_listener S W O) (e : option bool) : socket_listener S W O :=
  mksock (sl_listener sl) (sl_config sl) e (sl_workers sl) (sl_accept_current_worker_idx sl)
    (sl_main sl).

(** ** Callbacks *)

Section callbacks.
Context {jansson : Jansson} {fifo : RdFifoq} {S W O : Type}.
Implicit Types (p : process W) (sl : socket_listener S W O) (loop : ev_loop).

(** No response pointers and no session are given to the decoder; its result is
    not looked at.  [buffer] is what [recvfrom] stored. *)
Definition process_data_received_from_socket (l : listener S W O) (buffer : bytes)
    (client : option bytes) p : outcome (process W) :=
  let attrs := add_key_value_pair [] (mkpair (bs "client_ip") client) in
  r ← listener_decode l (pr_decoder p) (Some buffer) attrs false None;
  Ret (with_decoder p (cb_world r)).

(** [close] of the descriptor and [free] of the watcher, which is no longer in the
    loop. *)
Definition close_socket_and_stop_watcher loop (watcher : nat) (io : ev_io) p
    : ev_loop * process W :=
  (mkloop (filter (fun w => w <> watcher) (lp_watchers loop)) (lp_sent loop) (lp_broken loop),
   with_heap (with_fds p (pr_fds p ∖ {[io_fd io]})) (delete watcher (pr_heap p))).

(** [connection->first_response_sent = 1]. *)
Definition mark_response_sent (watcher : nat) p : outcome (process W) :=
  match pr_heap p !! watcher with
  | None => Fault use_after_free
  | Some io =>
      Ret (with_heap p (<[watcher := mkio (io_fd io)
             (mkpriv (cp_magic (io_data io)) 1 (cp_client (io_data io)))]> (pr_heap p)))
  end.

(** What [recvfrom] answers and what the client does with a response.  When the buffer
    cannot be allocated, [recvfrom] is given NULL and answers [EFAULT], a
    [RECV_ERROR false] if there is something to read. *)
Record read_env := mkrenv { re_recv : recv_answer; re_send : select_answer }.

(** The last part of [read_cb]: the configured response, once per connection. *)
Definition first_response (gc : socket_globals) (env : read_env) loop (watcher : nat)
    (io : ev_io) p : outcome (ev_loop * process W) :=
  match gc_response gc with
  | Some response =>
      if cp_first_response_sent (io_data io) =? 0 then
        '(send_ret, p1) ←
          (if gc_response_len gc =? 0 then
             p1 ← mark_response_sent watcher p;
             Ret (1, p1)
           else
             let '(send_ret, written) :=
               send_to_socket (re_send env) response (gc_response_len gc - 1) in
             Ret (send_ret, with_sent p (io_fd io) written));
        let '(loop1, p2) :=
          if send_ret <=? 0 then close_socket_and_stop_watcher loop watcher io p1
          else (loop, p1) in
        p3 ← mark_response_sent watcher p2;
        Ret (loop1, p3)
      else Ret (loop, p)
  | None => Ret (loop, p)
  end.

(** The buffer of a read that gets data is not freed. *)
Definition read_cb (gc : socket_globals) (l : listener S W O) (env : read_env) loop
    (watcher : nat) p : outcome (ev_loop * process W) :=
  match pr_heap p !! watcher with
  | None => Fault use_after_free
  | Some io =>
      let connection := io_data io in
      _ ← c_assert (cp_magic connection =? CONNECTION_PRIVATE_MAGIC);
      let '(recv_result, buffer) := receive_from_socket (re_recv env) READ_BUFFER_SIZE in
      if 0 <? recv_result then
        p1 ← process_data_received_from_socket l buffer (Some (cp_client connection))
               (with_buffers p (pr_buffers p + 1));
        first_response gc env loop watcher io p1
      else if recv_result <? 0 then
        match re_recv env with
        | RECV_ERROR true => Ret (loop, p)
        | _ => Ret (close_socket_and_stop_watcher loop watcher io p)
        end
      else Ret (close_socket_and_stop_watcher loop watcher io p)
  end.

(** What [accept] gives, on a socket of the family [AF_INET], and whether the block
    of the watcher can be allocated. *)
Inductive accept_answer := ACCEPT_ERROR | ACCEPT_CLIENT (sd : Z) (addr : in_addr) (port : Z).
Record accept_env := mkaenv { ae_accept : accept_answer; ae_calloc_ok : bool }.

(** [char str[sizeof(INET_ADDRSTRLEN)]], the size of an [int]. *)
Definition log_str_size : Z := 4.

(** [inet_ntop] is told that [str] has [INET_ADDRSTRLEN] bytes; [room] bytes can be
    written there before something else is overwritten.  The declaration of the
    array gives [log_str_size] of them, the rest depends on the compiler. *)
Definition print_accepted_connection_log (room : Z) (addr : in_addr) (port : Z) : outcome unit :=
  match inet_ntop (SOCKADDR_IN addr port) INET_ADDRSTRLEN with
  | Some str => if zlen str + 1 <=? room then Ret tt else Fault bad_access
  | None => Ret tt
  end.

(** [rd_fifoq_add] to the queue of a worker. *)
Definition enqueue (workers : list worker_slot) (i : nat) (watcher : nat)
    : outcome (list worker_slot) :=
  match workers !! i with
  | Some (mkslot loop (Some q) phase) =>
      Ret (<[i := mkslot loop (Some (rd_fifoq_add q watcher)) phase]> workers)
  | _ => Fault bad_access
  end.

(** [ev_async_send] to the loop of a worker. *)
Definition async_send (workers : list worker_slot) (i : nat) : outcome (list worker_slot) :=
  match workers !! i with
  | Some (mkslot (Some loop) q phase) =>
      Ret (<[i := mkslot (Some (mkloop (lp_watchers loop) true (lp_broken loop))) q phase]> workers)
  | _ => Fault bad_access
  end.

(** The next index after [accept_current_worker_idx++]. *)
Definition next_worker (threads cur_idx : Z) : Z :=
  let idx := wrap64 (cur_idx + 1) in if threads <=? idx then 0 else idx.

(** [accept_cb] from the creation of the watcher up to the queue: the index of the
    worker that has to be woken up. *)
Definition accept_dispatch (env : accept_env) (client_sd : Z) (client_addr : bytes) sl p
    : outcome (option nat * socket_listener S W O * process W) :=
  if bool_decide (c_thread_mode (sl_config sl) = MODE_THREAD_PER_CONNECTION)
  then Fault process_exit
  else if negb (ae_calloc_ok env) then Ret (None, sl, p)
  else
    let w_client := mkio client_sd (mkpriv CONNECTION_PRIVATE_MAGIC 0 client_addr) in
    let cur_idx := sl_accept_current_worker_idx sl in
    let sl1 := with_idx sl (next_worker (c_threads (sl_config sl)) cur_idx) in
    workers ← enqueue (sl_workers sl1) (Z.to_nat cur_idx) (pr_next p);
    Ret (Some (Z.to_nat cur_idx), with_workers sl1 workers, with_watcher p w_client).

(** [accept_cb] up to the queue. *)
Definition accept_cb_queue (room : Z) (gc : socket_globals) (ev_error : bool) (env : accept_env)
    sl p : outcome (option nat * socket_listener S W O * process W) :=
  if ev_error then Ret (None, sl, p)
  else
    match ae_accept env with
    | ACCEPT_ERROR => Ret (None, sl, p)
    | ACCEPT_CLIENT client_sd addr port =>
        let p1 := with_fds p ({[client_sd]} ∪ pr_fds p) in
        match sockaddr2str BUFSIZ (SOCKADDR_IN addr port) with
        | None => Ret (None, sl, p1)
        | Some client_addr =>
            if in_addr_list_contains (gc_blacklist gc) addr
            then Ret (None, sl, with_fds p1 (pr_fds p1 ∖ {[client_sd]}))
            else
              _ ← print_accepted_connection_log room addr port;
              accept_dispatch env client_sd client_addr sl p1
        end
    end.

Definition accept_cb (room : Z) (gc : socket_globals) (ev_error : bool) (env : accept_env) sl p
    : outcome (socket_listener S W O * process W) :=
  '(woken, sl1, p1) ← accept_cb_queue room gc ev_error env sl p;
  match woken with
  | None => Ret (sl1, p1)
  | Some i => workers ← async_send (sl_workers sl1) i; Ret (with_workers sl1 workers, p1)
  end.

(** The first test of [async_cb]: the loop is told to end after this round. *)
Definition async_break p loop : ev_loop :=
  if pr_do_shutdown p then mkloop (lp_watchers loop) (lp_sent loop) true else loop.

(** One round of the [while] of [async_cb]: the watcher that was started, or [None]
    at the end of the queue. *)
Definition async_pop p loop (q : rd_fifoq_t) : outcome (option (ev_loop * rd_fifoq_t)) :=
  match rd_fifoq_pop q with
  | None => Ret None
  | Some (w_client, q') =>
      match pr_heap p !! w_client with
      | None => Fault use_after_free
      | Some _ =>
          Ret (Some (mkloop (lp_watchers loop ++ [w_client]) (lp_sent loop) (lp_broken loop), q'))
      end
  end.

Fixpoint async_drain (fuel : nat) p loop (q : rd_fifoq_t) : outcome (ev_loop * rd_fifoq_t) :=
  match fuel with
  | Datatypes.O => NoFuel
  | Datatypes.S fuel =>
      r ← async_pop p loop q;
      match r with None => Ret (loop, q) | Some (loop1, q1) => async_drain fuel p loop1 q1 end
  end.

(** [async_cb] on the loop of a worker; libev has reset its event. *)
Definition async_cb (fuel : nat) (ev_error : bool) p loop (q : rd_fifoq_t)
    : outcome (ev_loop * rd_fifoq_t) :=
  let loop0 := mkloop (lp_watchers loop) false (lp_broken loop) in
  if ev_error then Ret (loop0, q) else async_drain fuel p (async_break p loop0) q.

End callbacks.

(** ** The TCP loop *)

Definition empty_slot {fifo : RdFifoq} : worker_slot := mkslot None None Finished.

(** Which allocations of the start succeed: the main loop, and the arguments and
    the loop of each worker. *)
Record start_tcp_env := mkstenv {
  st_main_loop : bool;
  st_args : nat -> bool;
  st_loops : nat -> bool
}.

(** What libev does next, in any order the threads allow.  [EvAccept] and [EvSend]
    are the two halves of [accept_cb], [EvAsync] and [EvPop] the parts of
    [async_cb] of a worker, [EvShutdown] is [join_listener_socket] of this listener
    or of another socket listener of the process. *)
Inductive tcp_event :=
| EvAccept (ev_error : bool) (env : accept_env)
| EvSend
| EvAsync (i : nat)
| EvPop (i : nat)
| EvRead (i : nat) (watcher : nat) (env : read_env)
| EvExit (i : nat)
| EvShutdown (mine : bool)
| EvMainAsync.

Section tcp.
Context {jansson : Jansson} {fifo : RdFifoq} {S W O : Type}.
Implicit Types (p : process W) (sl : socket_listener S W O).

(** A round of the first [for] of [main_tcp_loop]; a worker without arguments or
    loop is skipped. *)
Definition start_worker (env : start_tcp_env) (i : nat) (workers : list worker_slot)
    : outcome (list worker_slot) :=
  match workers !! i with
  | None => Fault bad_access
  | Some slot =>
      if negb (st_args env i) then Ret workers
      else if negb (st_loops env i) then Ret (<[i := mkslot None (wk_queue slot) (wk_phase slot)]> workers)
      else Ret (<[i := mkslot (Some (mkloop [] false false)) (Some rd_fifoq_init) Waiting]> workers)
  end.

Fixpoint start_workers (env : start_tcp_env) (i n : nat) (workers : list worker_slot)
    : outcome (list worker_slot) :=
  match n with
  | Datatypes.O => Ret workers
  | Datatypes.S n => workers1 ← start_worker env i workers; start_workers env (Datatypes.S i) n workers1
  end.

(** [main_tcp_loop] up to [ev_run]. *)
Definition main_tcp_loop_start (env : start_tcp_env) sl : outcome (socket_listener S W O) :=
  if negb (st_main_loop env) then Ret (with_main (with_event_loop sl None) Stopped)
  else
    workers ← start_workers env 0 (Z.to_nat (c_threads (sl_config sl))) (sl_workers sl);
    Ret (with_main (with_event_loop (with_workers sl workers) (Some false)) Accepting).

(** [join_listener_socket] up to [pthread_join]: the event of the main loop. *)
Definition join_listener_socket sl p : outcome (socket_listener S W O * process W) :=
  let p1 := with_shutdown p in
  match sl_event_loop sl with
  | None => Fault bad_access
  | Some _ => Ret (with_event_loop sl (Some true), p1)
  end.

(** A step of the thread that libev runs next; [None] when it is not enabled.  The
    kernel gives descriptors that are not open. *)
Definition tcp_step (room : Z) (gc : socket_globals) (ev : tcp_event) sl p
    : option (outcome (socket_listener S W O * process W)) :=
  match ev with
  | EvAccept ev_error env =>
      if bool_decide (sl_main sl = Accepting) &&
         match ae_accept env with
         | ACCEPT_CLIENT sd _ _ => bool_decide (sd ∉ pr_fds p) | ACCEPT_ERROR => true end
      then Some ('(woken, sl1, p1) ← accept_cb_queue room gc ev_error env sl p;
                 Ret (match woken with None => sl1 | Some i => with_main sl1 (Sending i) end, p1))
      else None
  | EvSend =>
      match sl_main sl with
      | Sending i => Some (workers ← async_send (sl_workers sl) i;
                           Ret (with_main (with_workers sl workers) Accepting, p))
      | _ => None
      end
  | EvAsync i =>
      match sl_workers sl !! i with
      | Some (mkslot (Some loop) q Waiting) =>
          if lp_sent loop && negb (lp_broken loop) then
            Some (Ret (with_workers sl
              (<[i := mkslot (Some (async_break p (mkloop (lp_watchers loop) false (lp_broken loop))))
                        q Draining]> (sl_workers sl)), p))
          else None
      | _ => None
      end
  | EvPop i =>
      match sl_workers sl !! i with
      | Some (mkslot (Some loop) (Some q) Draining) =>
          Some (r ← async_pop p loop q;
                Ret (with_workers sl (<[i := match r with
                  | None => mkslot (Some loop) (Some q) Waiting
                  | Some (loop1, q1) => mkslot (Some loop1) (Some q1) Draining
                  end]> (sl_workers sl)), p))
      | _ => None
      end
  | EvRead i watcher env =>
      match sl_workers sl !! i with
      | Some (mkslot (Some loop) q Waiting) =>
          if bool_decide (watcher ∈ lp_watchers loop) then
            Some ('(loop1, p1) ← read_cb gc (sl_listener sl) env loop watcher p;
                  Ret (with_workers sl (<[i := mkslot (Some loop1) q Waiting]> (sl_workers sl)), p1))
          else None
      | _ => None
      end
  | EvExit i =>
      match sl_workers sl !! i with
      | Some (mkslot (Some loop) q Waiting) =>
          if lp_broken loop
          then Some (Ret (with_workers sl (<[i := mkslot (Some loop) q Finished]> (sl_workers sl)), p))
          else None
      | _ => None
      end
  | EvShutdown mine =>
      Some (if mine then join_listener_socket sl p else Ret (sl, with_shutdown p))
  | EvMainAsync =>
      match sl_main sl, sl_event_loop sl with
      | Accepting, Some true =>
          Some (Ret (with_main (with_event_loop sl (Some false))
                       (if pr_do_shutdown p then Stopped else Accepting), p))
      | _, _ => None
      end
  end.

Fixpoint tcp_run (room : Z) (gc : socket_globals) (evs : list tcp_event) sl p
    : option (outcome (socket_listener S W O * process W)) :=
  match evs with
  | [] => Some (Ret (sl, p))
  | ev :: evs =>
      match tcp_step room gc ev sl p with
      | None => None
      | Some (Ret (sl1, p1)) => tcp_run room gc evs sl1 p1
      | Some stop => Some stop
      end
  end.

(** A round of the last [for] of [main_tcp_loop]: the worker is woken up and joined,
    its loop is destroyed. *)
Definition stop_worker (fuel : nat) p (slot : worker_slot) : outcome worker_slot :=
  match wk_loop slot, wk_queue slot with
  | None, _ => Ret slot
  | Some _, None => Fault bad_access
  | Some loop, Some q =>
      '(loop1, q1) ←
        (if bool_decide (wk_phase slot = Finished) then Ret (loop, q)
         else async_cb fuel false p loop q);
      if lp_broken loop1 then Ret (mkslot None (Some q1) Finished) else NoFuel
  end.

Fixpoint stop_workers (fuel : nat) p (n : nat) (workers : list worker_slot)
    : outcome (list worker_slot) :=
  match n, workers with
  | Datatypes.O, _ => Ret workers
  | Datatypes.S _, [] => Fault bad_access
  | Datatypes.S n, slot :: workers =>
      slot1 ← stop_worker fuel p slot;
      rest ← stop_workers fuel p n workers;
      Ret (slot1 :: rest)
  end.

(** [main_tcp_loop] after [ev_run]. *)
Definition main_tcp_loop_stop (fuel : nat) sl p : outcome (socket_listener S W O) :=
  workers ← stop_workers fuel p (Z.to_nat (c_threads (sl_config sl))) (sl_workers sl);
  Ret (with_event_loop (with_workers sl workers) None).

(** The whole function, for the events [evs] of its run; [None] if they do not fit
    or the main thread is still in its loop. *)
Definition main_tcp_loop (fuel : nat) (env : start_tcp_env) (room : Z) (gc : socket_globals)
    (evs : list tcp_event) sl p : option (outcome (socket_listener S W O * process W)) :=
  match main_tcp_loop_start env sl with
  | Ret sl1 =>
      if bool_decide (sl_main sl1 = Stopped) then Some (Ret (sl1, p))
      else
        match tcp_run room gc evs sl1 p with
        | Some (Ret (sl2, p2)) =>
            if bool_decide (sl_main sl2 = Stopped)
            then Some (sl3 ← main_tcp_loop_stop fuel sl2 p2; Ret (sl3, p2))
            else None
        | r => r
        end
  | Fault f => Some (Fault f)
  | NoFuel => Some NoFuel
  end.

End tcp.

(** ** The UDP loop *)

(** What a round of a thread meets: whether [do_shutdown] is set when it has the
    lock, the results of [select] and [recvfrom], the address of the sender, and
    what the variable [addr] holds when nothing is stored in it. *)
Record udp_env := mkuenv {
  ue_shutdown : bool;
  ue_select : Z;
  ue_recv : recv_answer;
  ue_from : sockaddr;
  ue_garbage : sockaddr
}.

(** Where a thread is: at the test of its loop, after the lock with what it has to
    decode, or returned. *)
Inductive udp_thread := UIdle | UGot (buffer : bytes) (addr : sockaddr) | UEnded.

#[export] Instance udp_thread_ended_dec (t : udp_thread) : Decision (t = UEnded).
Proof. destruct t; [right; discriminate|right; discriminate|by left]. Defined.

(** The result, the buffer and [addr] after the critical section. *)
Definition udp_receive (env : udp_env) : Z * bytes * sockaddr :=
  if negb (ue_shutdown env) && (0 <? ue_select env) then
    let '(recv_result, buffer) := receive_from_socket (ue_recv env) READ_BUFFER_SIZE in
    (recv_result, buffer, if recv_result <? 0 then ue_garbage env else ue_from env)
  else (0, [], ue_garbage env).

Inductive udp_event := UReceive (i : nat) (env : udp_env) | UProcess (i : nat) | UShutdown.

Section udp.
Context {jansson : Jansson} {fifo : RdFifoq} {S W O : Type}.
Implicit Types (p : process W) (l : listener S W O).

(** The parts of a round of [main_consumer_loop_udp] of thread [i]: up to the
    release of the lock, and the decoding.  The buffer that is decoded is not
    freed. *)
Definition main_consumer_loop_udp l (ev : udp_event) (threads : list udp_thread) p
    : option (outcome (list udp_thread * process W)) :=
  match ev with
  | UReceive i env =>
      match threads !! i with
      | Some UIdle =>
          Some (Ret
            (if pr_do_shutdown p then (<[i := UEnded]> threads, p)
             else
               let '(recv_result, buffer, addr) := udp_receive env in
               if recv_result <? 0 then
                 match ue_recv env with
                 | RECV_ERROR true => (threads, p)
                 | _ => (<[i := UEnded]> threads, p)
                 end
               else (<[i := UGot buffer addr]> threads, with_buffers p (pr_buffers p + 1))))
      | _ => None
      end
  | UProcess i =>
      match threads !! i with
      | Some (UGot buffer addr) =>
          Some (p1 ← process_data_received_from_socket l buffer (sockaddr2str BUFSIZ addr) p;
                Ret (<[i := UIdle]> threads, p1))
      | _ => None
      end
  | UShutdown => Some (Ret (threads, with_shutdown p))
  end.

Fixpoint udp_run l (evs : list udp_event) (threads : list udp_thread) p
    : option (outcome (list udp_thread * process W)) :=
  match evs with
  | [] => Some (Ret (threads, p))
  | ev :: evs =>
      match main_consumer_loop_udp l ev threads p with
      | None => None
      | Some (Ret (threads1, p1)) => udp_run l evs threads1 p1
      | Some stop => Some stop
      end
  end.

(** [main_udp_loop] for the events [evs]; it returns when every thread has. *)
Definition main_udp_loop (mutex_ok : bool) (udp_threads : Z) l (evs : list udp_event) p
    : option (outcome (process W)) :=
  if negb (0 <? udp_threads) then Some (Fault assert_failed)
  else if negb mutex_ok then Some (Fault process_exit)
  else
    match udp_run l evs (replicate (Z.to_nat udp_threads) UIdle) p with
    | Some (Ret (threads, p1)) =>
        if bool_decide (Forall (fun t => t = UEnded) threads) then Some (Ret p1) else None
    | Some (Fault f) => Some (Fault f)
    | Some NoFuel => Some NoFuel
    | None => None
    end.

(** ** Start *)

(** [main_socket_loop]: only -1 is taken for an error of [createListenSocket]. *)
Definition main_socket_loop (fuel : nat) (lenv : listen_env) (stenv : start_tcp_env)
    (mutex_ok : bool) (room : Z) (gc : socket_globals) (tcp_evs : list tcp_event)
    (udp_evs : list udp_event) (sl : socket_listener S W O) p
    : option (outcome (socket_listener S W O * process W)) :=
  match createListenSocket lenv (c_proto (sl_config sl)) (l_port (sl_listener sl)) (pr_fds p) with
  | Ret (listenfd, fds) =>
      if listenfd =? -1 then Some (Ret (sl, with_fds p fds))
      else
        match c_proto (sl_config sl) with
        | None => Some (Fault bad_access)
        | Some proto =>
            let r :=
              if strcmp0 N2KAFKA_UDP proto then
                match main_udp_loop mutex_ok (c_threads (sl_config sl)) (sl_listener sl) udp_evs
                        (with_fds p fds) with
                | Some (Ret p1) => Some (Ret (sl, p1))
                | Some (Fault f) => Some (Fault f)
                | Some NoFuel => Some NoFuel
                | None => None
                end
              else main_tcp_loop fuel stenv room gc tcp_evs sl (with_fds p fds) in
            match r with
            | Some (Ret (sl1, p1)) => Some (Ret (sl1, with_fds p1 (pr_fds p1 ∖ {[listenfd]})))
            | r => r
            end
        end
  | Fault f => Some (Fault f)
  | NoFuel => Some NoFuel
  end.

End udp.

(** jansson: a boolean of [json_unpack_ex]. *)
Class JsonUnpackBool {jansson : Jansson} := { unpack_b : json_t -> bytes -> unpacked bool }.

(** Which allocations succeed and whether the main thread can be created. *)
Record create_env := mkcenv {
  ce_copy_ok : bool;
  ce_calloc_ok : bool;
  ce_strdup_ok : bool;
  ce_pthread_ok : bool
}.

Section create.
Context {jansson : Jansson} {unpack : JsonUnpack} {unpackb : JsonUnpackBool} {fifo : RdFifoq}.
Context {S W O : Type}.

(** The [json_unpack_ex] call: protocol, port and the optional keys.  An [int] is
    stored in the [size_t] number of threads, whose upper half is zero. *)
Definition socket_unpack (config : json_t) : option (bytes * Z * Z * bool * option bytes) :=
  proto ← match unpack_s config (bs "proto") with Value v => Some v | _ => None end;
  port ← match unpack_i config (bs "port") with Value v => Some v | _ => None end;
  threads ← override (match unpack_i config (bs "num_threads") with
                      | Value n => Value (wrap32 n) | u => u end) 1;
  keepalive ← override (unpack_b config (bs "tcp_keepalive")) false;
  mode ← override_str (unpack_s config (bs "mode")) None;
  Some (proto, port, threads, keepalive, mode).

(** The number of threads after the tests. *)
Definition clamp_threads (threads : Z) : Z :=
  let threads1 := if threads =? 0 then 1 else threads in
  if MAX_NUM_THREADS <? threads1 then MAX_NUM_THREADS else threads1.

(** The listener as the main thread finds it. *)
Definition create_socket_listener (env : create_env) (config : json_t)
    (decoder : n2k_decoder S W O) : outcome (option (socket_listener S W O)) :=
  if negb (ce_copy_ok env) || negb (ce_calloc_ok env) then Ret None
  else
    match socket_unpack config with
    | None => Ret None
    | Some (proto, port, threads, keepalive, mode) =>
        let thread_mode := match mode with Some _ => thread_mode_str mode | None => MODE_EPOLL end in
        if negb (ce_strdup_ok env) then Ret None
        else
          '(rc, l) ← listener_init None (port mod 2 ^ 16) decoder config;
          if negb (rc =? 0) then Ret None
          else if negb (ce_pthread_ok env) then
            let _ := listener_join l in Ret None
          else
            Ret (Some (mksock l (mksconf (Some proto) (clamp_threads threads) keepalive thread_mode)
                         None (replicate (Z.to_nat MAX_NUM_THREADS) empty_slot) 0 Stopped))
    end.

(** The rest of [join_listener_socket]: [pthread_join] returns when the main thread
    has returned with [main], the data of the decoder is released, and the listener
    is freed. *)
Definition join_listener_socket_end
    (main : option (outcome (socket_listener S W O * process W)))
    : option (outcome (listener S W O * process W)) :=
  match main with
  | Some (Ret (sl, p)) => Some (Ret (listener_join (sl_listener sl), p))
  | Some (Fault f) => Some (Fault f)
  | Some NoFuel => Some NoFuel
  | None => None
  end.

End create.

Definition tcp_listener_name : bytes := bs "tcp".
Definition udp_listener_name : bytes := bs "ucp".
