(* ===== verification/SocketProps.v ===== *)
(** * The socket listeners: theorems

    What the threads of a TCP listener keep true in every interleaving
    ([tcp_ok]), that a queued connection is served and when it is not, what the
    decoders get over TCP and UDP, and the start of a listener. *)

From S2P Require Import Prelude Pair Addr CString KafkaArray TopicDb ZzJson ZzXml ZzSession Decoders HttpConfig Socket.
From stdpp Require Import gmap.
#[local] Open Scope Z_scope.

Lemma list_delete_insert_id {A} (l : list A) i x : delete i (<[i := x]> l) = delete i l.
Proof. revert i. induction l as [|y l IH]; intros [|i]; cbn; [done..|]. by rewrite IH. Qed.

(** What the elements of a list contribute, with one of them in front. *)
Lemma bind_at {A B} (f : A -> list B) (l : list A) i x :
  l !! i = Some x -> l ≫= f ≡ₚ f x ++ (delete i l ≫= f).
Proof. intros H. by rewrite (delete_Permutation l i x H) at 1. Qed.

Lemma bind_insert {A B} (f : A -> list B) (l : list A) i x y :
  l !! i = Some x -> <[i := y]> l ≫= f ≡ₚ f y ++ (delete i l ≫= f).
Proof.
  intros H. rewrite (bind_at f _ i y); [by rewrite list_delete_insert_id|].
  apply list_lookup_insert_eq. by eapply lookup_lt_Some.
Qed.

(** ** The invariant *)

Section invariant.
Context {jansson : Jansson} {fifo : RdFifoq} {S W O : Type}.
Implicit Types (p : process W) (sl : socket_listener S W O) (slot : worker_slot).

(** The connections of a worker: those in its queue and those in its loop. *)
Definition wk_owned slot : list nat :=
  match wk_queue slot with Some q => fifo_elems q | None => [] end ++
  match wk_loop slot with Some l => lp_watchers l | None => [] end.

Definition owned (workers : list worker_slot) : list nat := workers ≫= wk_owned.

(** A worker below the number of threads has its loop and its queue, and if
    something waits in the queue then its event was sent, or it is taking
    connections, or the main thread is about to wake it up. *)
Definition slot_ok (main : main_phase) (threads : Z) (i : nat) slot : Prop :=
  Z.of_nat i < threads ->
  exists loop q, wk_loop slot = Some loop /\ wk_queue slot = Some q /\
    (fifo_elems q <> [] -> lp_sent loop = true \/ wk_phase slot = Draining \/ main = Sending i).

Record sl_ok sl : Prop := mksl_ok {
  so_threads : 1 <= c_threads (sl_config sl) <= MAX_NUM_THREADS;
  so_mode : c_thread_mode (sl_config sl) <> MODE_THREAD_PER_CONNECTION;
  so_len : length (sl_workers sl) = Z.to_nat MAX_NUM_THREADS;
  so_idx : 0 <= sl_accept_current_worker_idx sl < c_threads (sl_config sl);
  so_main : forall i, sl_main sl = Sending i -> Z.of_nat i < c_threads (sl_config sl);
  so_event_loop : is_Some (sl_event_loop sl);
  so_slots : forall i slot, sl_workers sl !! i = Some slot ->
    slot_ok (sl_main sl) (c_threads (sl_config sl)) i slot
}.

(** Every connection in memory belongs to exactly one worker, and its descriptor
    is open and its own. *)
Record conns_ok (workers : list worker_slot) p : Prop := mkconns_ok {
  co_nodup : NoDup (owned workers);
  co_owned : forall w, w ∈ owned workers <-> is_Some (pr_heap p !! w);
  co_fresh : forall w, is_Some (pr_heap p !! w) -> (w < pr_next p)%nat;
  co_io : forall w io, pr_heap p !! w = Some io ->
    cp_magic (io_data io) = CONNECTION_PRIVATE_MAGIC /\ io_fd io ∈ pr_fds p;
  co_inj : forall w w' io io', pr_heap p !! w = Some io -> pr_heap p !! w' = Some io' ->
    io_fd io = io_fd io' -> w = w'
}.

Definition tcp_ok sl p : Prop := sl_ok sl /\ conns_ok (sl_workers sl) p.

(** The decoder of the listener returns on any data, without response pointers and
    session. *)
Definition decodes (l : listener S W O) : Prop :=
  forall w buffer props, returns (listener_decode l w (Some buffer) props false None).

(** The client takes the response, if there is one. *)
Definition response_sent (gc : socket_globals) (env : read_env) : Prop :=
  gc_response gc = None \/ gc_response_len gc = 0 \/
  exists n, re_send env = SELECT_READY n /\ 0 < n.

Definition good_event (gc : socket_globals) (ev : tcp_event) : Prop :=
  match ev with EvRead _ _ env => response_sent gc env | _ => True end.

(** What can stop a callback.  A client whose address does not fit [room] when it is
    logged; a decoder that does not return on what was read; and a response the client
    does not take, after which the connection is closed and then used. *)
Definition attrs_of (io : ev_io) : keyval_list :=
  add_key_value_pair [] (mkpair (bs "client_ip") (Some (cp_client (io_data io)))).

Inductive step_fault (room : Z) (gc : socket_globals) (l : listener S W O) p
    : tcp_event -> outcome (socket_listener S W O * process W) -> Prop :=
| fault_log sd addr port calloc_ok :
    room < zlen (inet_ntop4 addr) + 1 -> in_addr_list_contains (gc_blacklist gc) addr = false ->
    step_fault room gc l p (EvAccept false (mkaenv (ACCEPT_CLIENT sd addr port) calloc_ok))
      (Fault bad_access)
| fault_decoder i w io pending send f :
    pr_heap p !! w = Some io -> pending <> [] ->
    listener_decode l (pr_decoder p) (Some (ztake READ_BUFFER_SIZE pending)) (attrs_of io) false None
      = Fault f ->
    step_fault room gc l p (EvRead i w (mkrenv (RECV_DATA pending) send)) (Fault f)
| fault_decoder_fuel i w io pending send :
    pr_heap p !! w = Some io -> pending <> [] ->
    listener_decode l (pr_decoder p) (Some (ztake READ_BUFFER_SIZE pending)) (attrs_of io) false None
      = NoFuel ->
    step_fault room gc l p (EvRead i w (mkrenv (RECV_DATA pending) send)) NoFuel
| fault_response i w pending send :
    pending <> [] -> ~ response_sent gc (mkrenv (RECV_DATA pending) send) ->
    step_fault room gc l p (EvRead i w (mkrenv (RECV_DATA pending) send)) (Fault use_after_free).

(** ** Lemmas on workers *)

Lemma owned_at workers i slot :
  workers !! i = Some slot -> owned workers ≡ₚ wk_owned slot ++ owned (delete i workers).
Proof. apply bind_at. Qed.

Lemma owned_insert workers i slot slot' :
  workers !! i = Some slot ->
  owned (<[i := slot']> workers) ≡ₚ wk_owned slot' ++ owned (delete i workers).
Proof. apply bind_insert. Qed.

Lemma conns_perm workers workers' p :
  owned workers' ≡ₚ owned workers -> conns_ok workers p -> conns_ok workers' p.
Proof.
  intros H [Hn Ho Hf Hi Hj]. constructor; [by rewrite H| |done..]. intros w. by rewrite H.
Qed.

(** A worker is replaced by one with the same connections. *)
Lemma conns_same workers p i slot slot' :
  workers !! i = Some slot -> wk_owned slot' ≡ₚ wk_owned slot ->
  conns_ok workers p -> conns_ok (<[i := slot']> workers) p.
Proof.
  intros Hi Hw. apply conns_perm. rewrite (owned_insert _ _ _ _ Hi), (owned_at _ _ _ Hi). by rewrite Hw.
Qed.

Lemma sl_ok_slot sl i slot slot' main :
  sl_ok sl -> sl_workers sl !! i = Some slot ->
  slot_ok main (c_threads (sl_config sl)) i slot' ->
  (forall j, sl_main sl = Sending j -> main = Sending j \/ j = i) ->
  (forall j, main = Sending j -> Z.of_nat j < c_threads (sl_config sl)) ->
  sl_ok (with_main (with_workers sl (<[i := slot']> (sl_workers sl))) main).
Proof.
  intros [Ht Hm Hl Hi Hs He Hw] Hlook Hslot Hmain Hbound.
  constructor; cbn [sl_config sl_workers sl_accept_current_worker_idx sl_main sl_event_loop
    with_main with_workers]; try done.
  - by rewrite length_insert.
  - intros j sj Hj. destruct (decide (i = j)) as [->|Hne].
    + rewrite list_lookup_insert_eq in Hj by (by eapply lookup_lt_Some). by injection Hj as <-.
    + rewrite list_lookup_insert_ne in Hj by done. intros Hjt.
      destruct (Hw j sj Hj Hjt) as (loop & q & Hlo & Hq & Hwake).
      exists loop, q. split_and!; [done|done|]. intros Hne'.
      destruct (Hwake Hne') as [?|[?|Hsend]]; auto.
      destruct (Hmain j Hsend) as [?| ->]; auto.
Qed.

Lemma with_main_same sl : with_main sl (sl_main sl) = sl.
Proof. by destruct sl. Qed.

(** The same when the main thread does not move. *)
Lemma sl_ok_worker sl i slot slot' :
  sl_ok sl -> sl_workers sl !! i = Some slot ->
  slot_ok (sl_main sl) (c_threads (sl_config sl)) i slot' ->
  sl_ok (with_workers sl (<[i := slot']> (sl_workers sl))).
Proof.
  intros Hok Hi Hs. rewrite <- (with_main_same (with_workers _ _)).
  apply (sl_ok_slot sl i slot slot' (sl_main sl)); auto. apply (so_main sl Hok).
Qed.

(** ** Steps of the workers *)

Lemma slot_lookup sl i :
  sl_ok sl -> Z.of_nat i < c_threads (sl_config sl) ->
  exists loop q phase, sl_workers sl !! i = Some (mkslot (Some loop) (Some q) phase) /\
    (fifo_elems q <> [] -> lp_sent loop = true \/ phase = Draining \/ sl_main sl = Sending i).
Proof.
  intros [Ht _ Hl _ _ _ Hw] Hi.
  destruct (lookup_lt_is_Some_2 (sl_workers sl) i) as [slot Hslot].
  { rewrite Hl. unfold MAX_NUM_THREADS in *. lia. }
  destruct (Hw i slot Hslot Hi) as (loop & q & Hlo & Hq & Hwake).
  exists loop, q, (wk_phase slot). destruct slot as [lo qu ph]. cbn in *. subst. done.
Qed.

Lemma async_send_ok sl p i :
  tcp_ok sl p -> sl_main sl = Sending i ->
  exists workers, async_send (sl_workers sl) i = Ret workers /\
    tcp_ok (with_main (with_workers sl workers) Accepting) p.
Proof.
  intros [Hok Hc] Hmain.
  destruct (slot_lookup sl i Hok (so_main sl Hok i Hmain)) as (loop & q & phase & Hslot & Hwake).
  unfold async_send. rewrite Hslot. eexists. split; [reflexivity|]. split.
  - eapply sl_ok_slot; [done|exact Hslot|..]; [|intros j; rewrite Hmain; intros [= ->]; auto|done].
    intros Hi. eexists _, _. split_and!; [reflexivity..|]. by left.
  - by eapply conns_same; [exact Hslot| |].
Qed.

Lemma async_begin_ok sl p i loop q :
  tcp_ok sl p -> sl_workers sl !! i = Some (mkslot (Some loop) q Waiting) ->
  tcp_ok (with_workers sl
    (<[i := mkslot (Some (async_break p (mkloop (lp_watchers loop) false (lp_broken loop)))) q
              Draining]> (sl_workers sl))) p.
Proof.
  intros [Hok Hc] Hslot. split.
  - eapply sl_ok_worker; [done|exact Hslot|]. intros Hi.
    destruct (so_slots sl Hok i _ Hslot Hi) as (? & q' & _ & Hq & _). cbn in Hq. subst q.
    eexists _, q'. split_and!; [done..|]. by right; left.
  - eapply conns_same; [exact Hslot| |done]. unfold wk_owned, async_break. cbn.
    by destruct (pr_do_shutdown p).
Qed.

Lemma async_pop_ok sl p i loop q :
  tcp_ok sl p -> sl_workers sl !! i = Some (mkslot (Some loop) (Some q) Draining) ->
  exists r, async_pop p loop q = Ret r /\
    tcp_ok (with_workers sl (<[i := match r with
                  | None => mkslot (Some loop) (Some q) Waiting
                  | Some (loop1, q1) => mkslot (Some loop1) (Some q1) Draining
                  end]> (sl_workers sl))) p.
Proof.
  intros [Hok Hc] Hslot. unfold async_pop. pose proof (fifo_pop q) as Hpop.
  destruct (rd_fifoq_pop q) as [[x q']|].
  - assert (Hx : is_Some (pr_heap p !! x)).
    { apply (co_owned _ _ Hc). rewrite (owned_at _ _ _ Hslot). unfold wk_owned. cbn.
      rewrite Hpop. set_solver. }
    destruct Hx as [io Hio]. rewrite Hio. eexists. split; [reflexivity|]. split.
    + eapply sl_ok_worker; [done|exact Hslot|]. intros Hi. eexists _, _. split_and!; [done..|].
      by right; left.
    + eapply conns_same; [exact Hslot| |done]. unfold wk_owned. cbn. rewrite Hpop.
      cbn. by rewrite app_assoc, Permutation_app_comm.
  - eexists. split; [reflexivity|]. split.
    + eapply sl_ok_worker; [done|exact Hslot|]. intros Hi. by eexists _, _.
    + by eapply conns_same; [exact Hslot| |].
Qed.

Lemma exit_ok sl p i loop q :
  tcp_ok sl p -> sl_workers sl !! i = Some (mkslot (Some loop) q Waiting) ->
  tcp_ok (with_workers sl (<[i := mkslot (Some loop) q Finished]> (sl_workers sl))) p.
Proof.
  intros [Hok Hc] Hslot. split.
  - eapply sl_ok_worker; [done|exact Hslot|]. intros Hi.
    destruct (so_slots sl Hok i _ Hslot Hi) as (loop' & q' & Hl & Hq & Hw). cbn in *.
    eexists _, _. split_and!; [done..|]. intros Hne. destruct (Hw Hne) as [?|[?|?]]; auto. done.
  - by eapply conns_same; [exact Hslot| |].
Qed.

(** ** Steps of the main thread *)

Lemma conns_proc workers p p' :
  pr_heap p' = pr_heap p -> pr_next p' = pr_next p -> pr_fds p' = pr_fds p ->
  conns_ok workers p -> conns_ok workers p'.
Proof. intros Hh Hn Hf []. constructor; rewrite ?Hh, ?Hn, ?Hf; done. Qed.

Lemma conns_fds workers p fds :
  (forall w io, pr_heap p !! w = Some io -> io_fd io ∈ fds) ->
  conns_ok workers p -> conns_ok workers (with_fds p fds).
Proof. intros H [? ? ? Hio ?]. constructor; try done. intros w io Hw. split; [by eapply Hio|by eapply H]. Qed.

Lemma next_worker_bounds threads idx :
  0 <= idx < threads -> threads <= MAX_NUM_THREADS -> 0 <= next_worker threads idx < threads.
Proof.
  unfold MAX_NUM_THREADS, next_worker. intros Hi Ht. rewrite wrap64_small by lia.
  destruct (threads <=? idx + 1) eqn:E; lia.
Qed.

Lemma accept_log_cases room addr port :
  (print_accepted_connection_log room addr port = Fault bad_access /\ room < zlen (inet_ntop4 addr) + 1) \/
  print_accepted_connection_log room addr port = Ret tt.
Proof.
  unfold print_accepted_connection_log, inet_ntop, INET_ADDRSTRLEN.
  pose proof (ntop4_length addr). ztest. destruct (_ <=? room) eqn:E; [by right|left; split; [done|lia]].
Qed.

Lemma accept_log_ok room addr port :
  INET_ADDRSTRLEN <= room -> print_accepted_connection_log room addr port = Ret tt.
Proof.
  intros Hr. pose proof (ntop4_length addr). unfold INET_ADDRSTRLEN in Hr.
  destruct (accept_log_cases room addr port) as [[_ ?]|?]; [lia|done].
Qed.

(** A new watcher at the end of the queue of a worker. *)
Lemma conns_enqueue workers p i loop q phase io :
  workers !! i = Some (mkslot loop (Some q) phase) ->
  io_fd io ∈ pr_fds p -> cp_magic (io_data io) = CONNECTION_PRIVATE_MAGIC ->
  (forall w io', pr_heap p !! w = Some io' -> io_fd io' <> io_fd io) ->
  conns_ok workers p ->
  conns_ok (<[i := mkslot loop (Some (rd_fifoq_add q (pr_next p))) phase]> workers)
    (with_watcher p io).
Proof.
  intros Hslot Hfd Hmagic Hfresh [Hn Ho Hf Hi Hj].
  assert (Hnew : pr_heap p !! pr_next p = None).
  { destruct (pr_heap p !! pr_next p) eqn:E; [|done]. assert (pr_next p < pr_next p)%nat; [|lia].
    by apply Hf; eexists. }
  assert (Hown : owned (<[i := mkslot loop (Some (rd_fifoq_add q (pr_next p))) phase]> workers)
    ≡ₚ pr_next p :: owned workers).
  { rewrite (owned_insert _ _ _ _ Hslot), (owned_at _ _ _ Hslot). unfold wk_owned. cbn.
    rewrite fifo_add. rewrite <- !app_assoc. cbn. by rewrite <- Permutation_middle. }
  constructor; cbn [pr_heap pr_next pr_fds with_watcher].
  - rewrite Hown. apply NoDup_cons. split; [|done]. rewrite Ho, Hnew. by intros [].
  - intros w. rewrite Hown, elem_of_cons, Ho. rewrite lookup_insert_is_Some'.
    split; intros [->|?]; auto.
  - intros w [->|Hw]%lookup_insert_is_Some'; [lia|]. apply Hf in Hw. lia.
  - intros w io' [[<- <-]|[_ Hw]]%lookup_insert_Some; [done|by eapply Hi].
  - intros w w' io1 io2 [[<- <-]|[Hne1 H1]]%lookup_insert_Some [[<- <-]|[Hne2 H2]]%lookup_insert_Some E;
      [done| | |by eapply Hj].
    + by destruct (Hfresh _ _ H2).
    + by destruct (Hfresh _ _ H1).
Qed.

(** [accept_dispatch] of a connection whose descriptor was just opened. *)
Lemma accept_dispatch_ok env sd addr sl p :
  tcp_ok sl p -> sl_main sl = Accepting -> sd ∉ pr_fds p ->
  exists woken sl1 p1,
    accept_dispatch env sd addr sl (with_fds p ({[sd]} ∪ pr_fds p)) = Ret (woken, sl1, p1) /\
    tcp_ok (match woken with None => sl1 | Some i => with_main sl1 (Sending i) end) p1.
Proof.
  intros [Hok Hc] Hmain Hsd. unfold accept_dispatch. rewrite bool_decide_false by (apply so_mode; done).
  assert (Hc1 : conns_ok (sl_workers sl) (with_fds p ({[sd]} ∪ pr_fds p))).
  { apply conns_fds; [|done]. intros w io Hw. apply (co_io _ _ Hc) in Hw. set_solver. }
  destruct (ae_calloc_ok env).
  2:{ by eexists None, _, _. }
  cbn [negb sl_workers with_idx pr_next with_fds].
  pose proof (so_idx sl Hok) as Hidx. pose proof (so_threads sl Hok) as Hth.
  destruct (slot_lookup sl (Z.to_nat (sl_accept_current_worker_idx sl)) Hok)
    as (loop & q & phase & Hslot & Hwake); [lia|].
  unfold enqueue. rewrite Hslot. cbn [mbind outcome_bind].
  eexists (Some _), _, _. split; [reflexivity|]. split.
  - assert (Hok' : sl_ok (with_idx sl (next_worker (c_threads (sl_config sl)) (sl_accept_current_worker_idx sl)))).
    { destruct Hok as [H1 H2 H3 H4 H5 H6 H7]. constructor; try done. apply next_worker_bounds; [done|apply H1]. }
    eapply (sl_ok_slot _ _ _ _ _ Hok'); [exact Hslot|..].
    + intros Hi. eexists _, _. split_and!; [reflexivity..|]. by right; right.
    + cbn. rewrite Hmain. discriminate.
    + cbn. intros j [= <-]. lia.
  - apply (conns_enqueue _ (with_fds p ({[sd]} ∪ pr_fds p)) _ _ _ _ _ Hslot);
      [cbn; set_solver|done| |exact Hc1].
    intros w io Hw E. apply (co_io _ _ Hc) in Hw as [_ Hw]. cbn in *. by rewrite E in Hw.
Qed.

Lemma accept_queue_ok room gc ev_error env sl p :
  tcp_ok sl p -> sl_main sl = Accepting ->
  match ae_accept env with ACCEPT_CLIENT sd _ _ => sd ∉ pr_fds p | ACCEPT_ERROR => True end ->
  (exists woken sl1 p1, accept_cb_queue room gc ev_error env sl p = Ret (woken, sl1, p1) /\
     tcp_ok (match woken with None => sl1 | Some i => with_main sl1 (Sending i) end) p1) \/
  (accept_cb_queue room gc ev_error env sl p = Fault bad_access /\
   step_fault room gc (sl_listener sl) p (EvAccept ev_error env) (Fault bad_access)).
Proof.
  intros Hok Hmain Hsd. unfold accept_cb_queue.
  destruct ev_error; [left; by eexists None, _, _|].
  destruct env as [[|sd addr port] calloc_ok]; cbn [ae_accept] in *; [left; by eexists None, _, _|].
  rewrite sockaddr2str_ipv4 by done. destruct (in_addr_list_contains _ _) eqn:Hin.
  - left. eexists None, _, _. split; [reflexivity|]. destruct Hok as [Hok Hc]. split; [done|]. cbn.
    apply conns_fds; [|by apply conns_fds; [|done]; intros w io Hw;
      apply (co_io _ _ Hc) in Hw; set_solver].
    cbn. intros w io Hw. apply (co_io _ _ Hc) in Hw as [_ Hw].
    assert (io_fd io <> sd) by (intros E; by rewrite E in Hw). set_solver.
  - destruct (accept_log_cases room addr port) as [[-> Hr]| ->].
    + right. split; [done|]. by constructor.
    + left. by apply accept_dispatch_ok.
Qed.

(** ** Reads *)

Lemma filter_ne_Permutation (l : list nat) x :
  NoDup l -> x ∈ l -> l ≡ₚ x :: filter (fun y => y <> x) l.
Proof.
  intros Hn Hx. apply NoDup_Permutation; [done| |].
  - apply NoDup_cons. split; [|by apply NoDup_filter]. rewrite list_elem_of_filter. tauto.
  - intros y. rewrite elem_of_cons, list_elem_of_filter. destruct (decide (y = x)) as [->|]; tauto.
Qed.

Lemma conns_mark workers p w p1 :
  mark_response_sent w p = Ret p1 -> conns_ok workers p -> conns_ok workers p1.
Proof.
  unfold mark_response_sent. destruct (pr_heap p !! w) as [io|] eqn:Hw; [|done].
  intros [= <-] [Hn Ho Hf Hi Hj].
  assert (Hsome : forall x, is_Some (<[w := mkio (io_fd io)
     (mkpriv (cp_magic (io_data io)) 1 (cp_client (io_data io)))]> (pr_heap p) !! x)
     <-> is_Some (pr_heap p !! x)).
  { intros x. rewrite lookup_insert_is_Some'. split; [|auto]. intros [->|?]; [by eexists|done]. }
  constructor; cbn [pr_heap pr_next pr_fds with_heap]; [done| | | |].
  - intros x. by rewrite Ho, Hsome.
  - intros x. rewrite Hsome. apply Hf.
  - intros x io' [[<- <-]|[_ Hx]]%lookup_insert_Some; [exact (Hi w io Hw)|by eapply Hi].
  - intros x x' io1 io2 [[<- <-]|[_ H1]]%lookup_insert_Some [[<- <-]|[_ H2]]%lookup_insert_Some E;
      [done| | |]; cbn in E; eapply Hj; eauto.
Qed.

(** Closing a connection of a worker. *)
Lemma conns_close workers p i loop q phase w io loop1 p1 :
  workers !! i = Some (mkslot (Some loop) q phase) -> w ∈ lp_watchers loop ->
  pr_heap p !! w = Some io -> close_socket_and_stop_watcher loop w io p = (loop1, p1) ->
  conns_ok workers p -> conns_ok (<[i := mkslot (Some loop1) q phase]> workers) p1.
Proof.
  intros Hslot Hin Hw [= <- <-] [Hn Ho Hf Hi Hj].
  assert (Hnl : NoDup (lp_watchers loop)).
  { rewrite (owned_at _ _ _ Hslot) in Hn. unfold wk_owned in Hn. cbn in Hn.
    apply NoDup_app in Hn as [Hn _]. by apply NoDup_app in Hn as (_ & _ & ?). }
  assert (Hown : owned workers ≡ₚ w :: owned (<[i := mkslot (Some (mkloop
     (filter (fun x => x <> w) (lp_watchers loop)) (lp_sent loop) (lp_broken loop))) q phase]> workers)).
  { rewrite (owned_insert _ _ _ _ Hslot), (owned_at _ _ _ Hslot). unfold wk_owned. cbn.
    rewrite (filter_ne_Permutation (lp_watchers loop) w) at 1 by done.
    rewrite <- !app_assoc. cbn. by rewrite <- Permutation_middle. }
  rewrite Hown in Hn. apply NoDup_cons in Hn as [Hnot Hn].
  constructor; cbn [pr_heap pr_next pr_fds with_heap with_fds]; [done| | | |].
  - intros x. rewrite lookup_delete_is_Some, <- Ho, Hown, elem_of_cons.
    split; [|by intros [? [->|?]]]. intros Hx. split; [|by right]. by intros ->.
  - intros x [_ Hx]%lookup_delete_is_Some. by apply Hf.
  - intros x io' [Hne Hx]%lookup_delete_Some. destruct (Hi _ _ Hx) as [? Hfd]. split; [done|].
    assert (io_fd io' <> io_fd io) by (intros E; apply Hne; by eapply Hj). set_solver.
  - intros x x' io1 io2 [_ H1]%lookup_delete_Some [_ H2]%lookup_delete_Some. by eapply Hj.
Qed.

(** The response does not change the connections when the client takes it. *)
Lemma first_response_ok gc env loop w io p workers :
  pr_heap p !! w = Some io -> conns_ok workers p ->
  (exists p1, first_response gc env loop w io p = Ret (loop, p1) /\ conns_ok workers p1) \/
  (first_response gc env loop w io p = Fault use_after_free /\ ~ response_sent gc env).
Proof.
  intros Hio Hc.
  assert (Hmark : forall p', is_Some (pr_heap p' !! w) -> conns_ok workers p' ->
    exists p2, mark_response_sent w p' = Ret p2 /\ conns_ok workers p2 /\ is_Some (pr_heap p2 !! w)).
  { intros p' [io' Hio'] Hc'. destruct (mark_response_sent w p') as [p2|f|] eqn:E;
      unfold mark_response_sent in E; rewrite Hio' in E; try discriminate.
    exists p2. split; [done|]. split; [|injection E as <-; eexists; apply lookup_insert_eq].
    eapply conns_mark; [|done]. unfold mark_response_sent. by rewrite Hio'. }
  unfold first_response, response_sent. destruct (gc_response gc) as [response|] eqn:Er; [|left; by eexists].
  destruct (cp_first_response_sent (io_data io) =? 0); [|left; by eexists].
  destruct (gc_response_len gc =? 0) eqn:E0.
  - left. destruct (Hmark p) as (p2 & -> & Hc2 & Hs2); [by eexists|done|].
    destruct (Hmark p2 Hs2 Hc2) as (p3 & Hp3 & Hc3 & _).
    cbn [mbind outcome_bind Z.leb Z.compare]. rewrite Hp3. by eexists.
  - destruct (send_to_socket _ _ _) as [n written] eqn:Es. cbn [mbind outcome_bind].
    destruct (n <=? 0) eqn:En; cbn [close_socket_and_stop_watcher].
    { right. split; [unfold mark_response_sent; cbn; by rewrite lookup_delete_eq|].
      intros [?|[?|(n' & Hn & Hpos)]]; [done|lia|]. rewrite Hn in Es. injection Es as -> _. lia. }
    left. destruct (Hmark (with_sent p (io_fd io) written))
      as (p2 & -> & Hc2 & _); [by eexists|by apply (conns_proc workers p)|]. by eexists.
Qed.

(** What a read does: the connection stays, or it is closed. *)
Lemma read_cb_ok room gc l env loop w p i q phase workers :
  conns_ok workers p ->
  workers !! i = Some (mkslot (Some loop) q phase) -> w ∈ lp_watchers loop ->
  (exists loop1 p1, read_cb gc l env loop w p = Ret (loop1, p1) /\
     lp_sent loop1 = lp_sent loop /\ lp_broken loop1 = lp_broken loop /\
     conns_ok (<[i := mkslot (Some loop1) q phase]> workers) p1) \/
  (exists f, read_cb gc l env loop w p = Fault f /\ step_fault room gc l p (EvRead i w env) (Fault f)) \/
  (read_cb gc l env loop w p = NoFuel /\ step_fault room gc l p (EvRead i w env) NoFuel).
Proof.
  intros Hc Hslot Hin.
  assert (Hsome : is_Some (pr_heap p !! w)).
  { apply (co_owned _ _ Hc). rewrite (owned_at _ _ _ Hslot). unfold wk_owned. cbn. set_solver. }
  destruct Hsome as [io Hio]. unfold read_cb. rewrite Hio.
  rewrite (proj1 (co_io _ _ Hc w io Hio)). rewrite Z.eqb_refl. cbn [c_assert mbind outcome_bind].
  assert (Hclose : exists loop1 p1, Ret (close_socket_and_stop_watcher loop w io p) = Ret (loop1, p1) /\
    lp_sent loop1 = lp_sent loop /\ lp_broken loop1 = lp_broken loop /\
    conns_ok (<[i := mkslot (Some loop1) q phase]> workers) p1).
  { eexists _, _. split; [reflexivity|]. cbn. split; [done|]. split; [done|].
    by apply (conns_close workers p i loop q phase w io _ _ Hslot). }
  assert (Hsame : forall p1, conns_ok workers p1 ->
    exists loop1 p2, Ret (loop, p1) = Ret (loop1, p2) /\ lp_sent loop1 = lp_sent loop /\
      lp_broken loop1 = lp_broken loop /\ conns_ok (<[i := mkslot (Some loop1) q phase]> workers) p2).
  { intros p1 H1. exists loop, p1. split_and!; [done..|]. by eapply conns_same. }
  destruct env as [[pending|eagain] send]; cbn [re_recv re_send receive_from_socket].
  2:{ left. by destruct eagain; [apply Hsame|exact Hclose]. }
  destruct (decide (pending = [])) as [->|Hne]; [left; exact Hclose|].
  assert (0 < zlen (ztake READ_BUFFER_SIZE pending)).
  { unfold READ_BUFFER_SIZE, ztake, zlen. rewrite length_take. destruct pending; [done|]. cbn [length]. lia. }
  ztest. unfold process_data_received_from_socket. cbn [pr_decoder with_buffers].
  change (add_key_value_pair _ _) with (attrs_of io).
  destruct (listener_decode l _ _ _ _ _) as [r|f|] eqn:Hd; cbn [mbind outcome_bind].
  2:{ right; left. exists f. split; [done|]. by eapply fault_decoder. }
  2:{ right; right. split; [done|]. by eapply fault_decoder_fuel. }
  destruct (first_response_ok gc (mkrenv (RECV_DATA pending) send) loop w io
    (with_decoder (with_buffers p (pr_buffers p + 1)) (cb_world r)) workers) as [(p1 & -> & Hc1)|[-> Hr]];
    [done|by apply (conns_proc workers p)|left; auto|].
  right; left. eexists. split; [reflexivity|]. by apply fault_response.
Qed.

(** ** Every step *)

(** What [accept_cb] can do to the listener: nothing, or a queue gets longer. *)
Lemma accept_queue_inv room gc ev_error env sl p woken sl1 p1 :
  accept_cb_queue room gc ev_error env sl p = Ret (woken, sl1, p1) ->
  (woken = None /\ sl1 = sl) \/
  exists i loop q phase idx, woken = Some i /\ sl_workers sl !! i = Some (mkslot loop (Some q) phase) /\
    sl1 = with_workers (with_idx sl idx)
            (<[i := mkslot loop (Some (rd_fifoq_add q (pr_next p))) phase]> (sl_workers sl)).
Proof.
  unfold accept_cb_queue. intros H. destruct ev_error; [left; by simplify_eq|].
  destruct (ae_accept env); [left; by simplify_eq|].
  destruct (sockaddr2str _ _); [|left; by simplify_eq].
  destruct (in_addr_list_contains _ _); [left; by simplify_eq|].
  inv_bind H. unfold accept_dispatch in Hk. destruct (bool_decide _); [done|].
  destruct (ae_calloc_ok env); [|left; by simplify_eq/=]. cbn [negb] in Hk. inv_bind Hk.
  unfold enqueue in Hbind0. cbn in Hbind0.
  destruct (sl_workers sl !! _) as [[l2 [q2|] ph2]|] eqn:E2; try done. injection Hbind0 as <-.
  injection Hk0 as <- <- <-. right. by eexists _, _, _, _, _.
Qed.

(** No step changes the listener, that is the decoder. *)
Lemma tcp_step_listener room gc ev sl p sl1 p1 :
  tcp_step room gc ev sl p = Some (Ret (sl1, p1)) -> sl_listener sl1 = sl_listener sl.
Proof.
  destruct ev; cbn [tcp_step]; intros H; unfold join_listener_socket in *.
  1: destruct (_ && _); [|done]; injection H as H; inv_bind H; destruct a as [[woken sl2] p2];
     apply accept_queue_inv in Hbind as [[-> ->]|(i & lo & q & ph & idx & -> & _ & ->)]; by simplify_eq/=.
  all: repeat (case_match; simplify_eq/=; try done); repeat (inv_bind H; simplify_eq/=; try done).
  destruct a as [loop1 p2]. by simplify_eq/=.
Qed.

Lemma main_async_ok sl p r :
  tcp_ok sl p ->
  match sl_main sl, sl_event_loop sl with
  | Accepting, Some true =>
      Some (Ret (with_main (with_event_loop sl (Some false))
                   (if pr_do_shutdown p then Stopped else Accepting), p))
  | _, _ => None
  end = Some r -> exists sl1 p1, r = Ret (sl1, p1) /\ tcp_ok sl1 p1.
Proof.
  intros Hok H. destruct (sl_main sl) eqn:Em; try done. destruct (sl_event_loop sl) as [[]|] eqn:He; try done.
  injection H as <-. eexists _, _. split; [done|]. destruct Hok as [[H1 H2 H3 H4 H5 H6 H7] Hc].
  split; [|done]. constructor; cbn [sl_config sl_workers sl_accept_current_worker_idx sl_main
    sl_event_loop with_main with_event_loop]; try done.
  - by destruct (pr_do_shutdown p).
  - intros i slot Hi Hlt. destruct (H7 i slot Hi Hlt) as (loop & q & ? & ? & Hw).
    exists loop, q. split_and!; [done..|]. intros Hne. rewrite Em in Hw.
    destruct (Hw Hne) as [?|[?|?]]; auto. done.
Qed.

(** An enabled step of the threads keeps the invariant, or it stops for one of the
    reasons of [step_fault]. *)
Lemma tcp_step_cases room gc ev sl p r :
  tcp_ok sl p -> tcp_step room gc ev sl p = Some r ->
  (exists sl1 p1, r = Ret (sl1, p1) /\ tcp_ok sl1 p1) \/ step_fault room gc (sl_listener sl) p ev r.
Proof.
  intros Hok. destruct ev as [ev_error env| |i|i|i w env|i|mine|]; cbn [tcp_step]; intros H.
  - destruct (bool_decide _ && _) eqn:E; [|done]. apply andb_true_iff in E as [Em Ea].
    apply bool_decide_eq_true in Em.
    destruct (accept_queue_ok room gc ev_error env sl p Hok Em)
      as [(woken & sl1 & p1 & Hq & Hok1)|[Hq Hf]].
    { destruct (ae_accept env); [done|]. by apply bool_decide_eq_true in Ea. }
    + rewrite Hq in H. injection H as <-. left. eauto.
    + rewrite Hq in H. injection H as <-. by right.
  - left. destruct (sl_main sl) as [|i|] eqn:Em; try done.
    destruct (async_send_ok sl p i Hok Em) as (workers & Hs & Hok1). rewrite Hs in H.
    injection H as <-. eauto.
  - left. destruct (sl_workers sl !! i) as [[[loop|] q []]|] eqn:Hslot; try done.
    destruct (_ && _); [|done]. injection H as <-. eexists _, _. split; [done|]. by apply async_begin_ok.
  - left. destruct (sl_workers sl !! i) as [[[loop|] [q|] []]|] eqn:Hslot; try done.
    destruct (async_pop_ok sl p i loop q Hok Hslot) as (r' & Hr & Hok1). rewrite Hr in H.
    injection H as <-. eauto.
  - destruct (sl_workers sl !! i) as [[[loop|] q []]|] eqn:Hslot; try done.
    destruct (bool_decide _) eqn:Hw; [|done]. apply bool_decide_eq_true in Hw. destruct Hok as [Hok Hc].
    destruct (read_cb_ok room gc (sl_listener sl) env loop w p i q Waiting (sl_workers sl) Hc Hslot Hw)
      as [(loop1 & p1 & Hr & Hsent & Hbroken & Hc1)|[(f & Hr & Hf)|[Hr Hf]]];
      rewrite Hr in H; injection H as <-; [|by right..].
    left. eexists _, _. split; [done|]. split; [|done].
    eapply sl_ok_worker; [done|exact Hslot|]. intros Hi.
    destruct (so_slots sl Hok i _ Hslot Hi) as (loop' & q' & Hl & Hq & Hwk). cbn in *. simplify_eq.
    eexists _, _. split_and!; [done..|]. by rewrite Hsent.
  - left. destruct (sl_workers sl !! i) as [[[loop|] q []]|] eqn:Hslot; try done.
    destruct (lp_broken loop); [|done]. injection H as <-. eexists _, _. split; [done|]. by apply exit_ok.
  - left. destruct Hok as [Hok Hc]. assert (Hc' : conns_ok (sl_workers sl) (with_shutdown p))
      by (by apply (conns_proc _ p)).
    destruct mine; injection H as <-; [|by eexists _, _].
    unfold join_listener_socket. destruct (so_event_loop sl Hok) as [e He]. rewrite He.
    eexists _, _. split; [done|]. split; [|done]. destruct Hok. by constructor.
  - left. by apply (main_async_ok sl p).
Qed.

(** With room for the address, a decoder that returns and clients that take the
    response no step stops. *)
Lemma tcp_step_ok room gc ev sl p r :
  INET_ADDRSTRLEN <= room -> decodes (sl_listener sl) -> good_event gc ev -> tcp_ok sl p ->
  tcp_step room gc ev sl p = Some r -> exists sl1 p1, r = Ret (sl1, p1) /\ tcp_ok sl1 p1.
Proof.
  intros Hroom Hdec Hgood Hok Hs. destruct (tcp_step_cases room gc ev sl p r Hok Hs) as [?|Hf]; [done|].
  exfalso. destruct Hf as [sd addr port ? Hr|? ? io pending ? f ? ? Hd|? ? io pending ? ? ? Hd|]; try done.
  - pose proof (ntop4_length addr). unfold INET_ADDRSTRLEN in *. lia.
  - destruct (Hdec (pr_decoder p) (ztake READ_BUFFER_SIZE pending) (attrs_of io)) as [x Hx]. congruence.
  - destruct (Hdec (pr_decoder p) (ztake READ_BUFFER_SIZE pending) (attrs_of io)) as [x Hx]. congruence.
Qed.

Lemma tcp_run_ok room gc evs sl p r :
  INET_ADDRSTRLEN <= room -> decodes (sl_listener sl) -> Forall (good_event gc) evs -> tcp_ok sl p ->
  tcp_run room gc evs sl p = Some r -> exists sl1 p1, r = Ret (sl1, p1) /\ tcp_ok sl1 p1.
Proof.
  intros Hroom Hdec Hgood. revert sl p Hdec. induction Hgood as [|ev evs Hev _ IH];
    intros sl p Hdec Hok H; cbn [tcp_run] in H.
  { injection H as <-. eauto. }
  destruct (tcp_step room gc ev sl p) as [r1|] eqn:Hstep; [|done].
  destruct (tcp_step_ok room gc ev sl p r1 Hroom Hdec Hev Hok Hstep) as (sl1 & p1 & -> & Hok1).
  apply (IH sl1 p1); [|done|done]. by rewrite (tcp_step_listener _ _ _ _ _ _ _ Hstep).
Qed.

(** A run keeps the invariant up to its end or up to the step that stops it. *)
Lemma tcp_run_cases room gc evs sl p r :
  tcp_ok sl p -> tcp_run room gc evs sl p = Some r ->
  (exists sl1 p1, r = Ret (sl1, p1) /\ tcp_ok sl1 p1) \/
  (exists evs1 ev evs2 sl1 p1, evs = evs1 ++ ev :: evs2 /\
     tcp_run room gc evs1 sl p = Some (Ret (sl1, p1)) /\ tcp_ok sl1 p1 /\
     step_fault room gc (sl_listener sl) p1 ev r).
Proof.
  revert sl p. induction evs as [|ev evs IH]; intros sl p Hok H; cbn [tcp_run] in H.
  { injection H as <-. left. eauto. }
  destruct (tcp_step room gc ev sl p) as [r1|] eqn:Hstep; [|done].
  destruct (tcp_step_cases room gc ev sl p r1 Hok Hstep) as [(sl1 & p1 & -> & Hok1)|Hf].
  - rewrite <- (tcp_step_listener _ _ _ _ _ _ _ Hstep).
    destruct (IH sl1 p1 Hok1 H) as [?|(evs1 & ev1 & evs2 & sl2 & p2 & -> & Hrun & Hok2 & Hf)]; [by left|].
    right. exists (ev :: evs1), ev1, evs2, sl2, p2. split_and!; try done. cbn [tcp_run]. by rewrite Hstep.
  - right. exists [], ev, evs, sl, p. split_and!; try done. by inversion Hf; subst; injection H as <-.
Qed.

(** ** The start *)

Definition fresh_slot : worker_slot := mkslot (Some (mkloop [] false false)) (Some rd_fifoq_init) Waiting.

Lemma start_workers_spec env i n workers :
  (forall k, st_args env k = true /\ st_loops env k = true) -> (i + n <= length workers)%nat ->
  exists workers', start_workers env i n workers = Ret workers' /\
    length workers' = length workers /\
    forall j, workers' !! j = if bool_decide (i <= j < i + n)%nat then Some fresh_slot else workers !! j.
Proof.
  intros Henv. revert i workers. induction n as [|n IH]; intros i workers Hlen.
  { exists workers. split_and!; [done..|]. intros j. by rewrite bool_decide_false by lia. }
  cbn [start_workers]. unfold start_worker.
  destruct (lookup_lt_is_Some_2 workers i ltac:(lia)) as [slot ->].
  destruct (Henv i) as [-> ->]. cbn [negb mbind outcome_bind].
  destruct (IH (Datatypes.S i) (<[i := fresh_slot]> workers)) as (workers' & Hr & Hl & Hj).
  { rewrite length_insert. lia. }
  exists workers'. split; [exact Hr|]. rewrite length_insert in Hl. split; [done|]. intros j. rewrite Hj.
  destruct (decide (i = j)) as [<-|Hne].
  - rewrite bool_decide_false, bool_decide_true by lia. apply list_lookup_insert_eq. lia.
  - rewrite list_lookup_insert_ne by done. by rewrite (bool_decide_ext _ (i <= j < i + Datatypes.S n)%nat) by lia.
Qed.

Lemma owned_empty workers :
  (forall j slot, workers !! j = Some slot -> wk_owned slot = []) -> owned workers = [].
Proof.
  induction workers as [|slot workers IH]; intros H; [done|]. cbn.
  rewrite (H 0%nat slot eq_refl). apply IH. intros j s Hs. by apply (H (Datatypes.S j)).
Qed.

(** A listener as [create_socket_listener] leaves it, with its loops created. *)
Lemma start_ok env sl p :
  (forall k, st_args env k = true /\ st_loops env k = true) -> st_main_loop env = true ->
  1 <= c_threads (sl_config sl) <= MAX_NUM_THREADS ->
  c_thread_mode (sl_config sl) <> MODE_THREAD_PER_CONNECTION ->
  sl_workers sl = replicate (Z.to_nat MAX_NUM_THREADS) empty_slot ->
  sl_accept_current_worker_idx sl = 0 -> pr_heap p = ∅ ->
  exists sl1, main_tcp_loop_start env sl = Ret sl1 /\ tcp_ok sl1 p /\
    sl_main sl1 = Accepting /\ sl_listener sl1 = sl_listener sl.
Proof.
  intros Henv Hml Hth Hmode Hw Hidx Hheap. unfold main_tcp_loop_start. rewrite Hml. cbn [negb].
  destruct (start_workers_spec env 0 (Z.to_nat (c_threads (sl_config sl))) (sl_workers sl) Henv)
    as (workers & Hs & Hlen & Hj).
  { rewrite Hw, length_replicate. lia. }
  rewrite Hs. eexists. split; [reflexivity|]. split_and!; [|done..]. split.
  - constructor; cbn; try done.
    + by rewrite Hlen, Hw, length_replicate.
    + rewrite Hidx. lia.
    + intros i slot Hi Hlt. rewrite Hj, bool_decide_true in Hi by lia. injection Hi as <-.
      eexists _, _. split_and!; [reflexivity..|]. rewrite fifo_init. done.
  - cbn. assert (Ho : owned workers = []).
    { apply owned_empty. intros j slot Hjs. rewrite Hj in Hjs. destruct (bool_decide _).
      - injection Hjs as <-. unfold wk_owned. cbn. by rewrite fifo_init.
      - rewrite Hw in Hjs. by apply lookup_replicate in Hjs as [-> _]. }
    constructor; rewrite ?Ho, ?Hheap; try done.
    + constructor.
    + intros w. rewrite lookup_empty. split; [by intros ?%not_elem_of_nil|by intros []].
    + intros w [? H]. by rewrite lookup_empty in H.
Qed.

End invariant.

Lemma clamp_threads_bounds n : 0 <= n -> 1 <= clamp_threads n <= MAX_NUM_THREADS.
Proof.
  unfold clamp_threads, MAX_NUM_THREADS. intros Hn. destruct (n =? 0) eqn:E; cbn zeta.
  - done.
  - destruct (256 <? n) eqn:E2; lia.
Qed.

(** What a listener is like when it is returned. *)
Lemma create_spec {jansson : Jansson} {unpack : JsonUnpack} {unpackb : JsonUnpackBool} {fifo : RdFifoq}
    {S W O : Type} (env : create_env) (config : json_t) (decoder : n2k_decoder S W O) sl :
  create_socket_listener env config decoder = Ret (Some sl) ->
  1 <= c_threads (sl_config sl) <= MAX_NUM_THREADS /\
  sl_workers sl = replicate (Z.to_nat MAX_NUM_THREADS) empty_slot /\
  sl_accept_current_worker_idx sl = 0 /\ sl_event_loop sl = None /\
  l_decoder (sl_listener sl) = decoder /\
  exists port, unpack_i config (bs "port") = Value port /\ l_port (sl_listener sl) = port mod 2 ^ 16 /\
    unpack_s config (bs "proto") = match c_proto (sl_config sl) with Some pr => Value pr | None => Absent end /\
    match unpack_i config (bs "num_threads") with
    | Absent => c_threads (sl_config sl) = 1
    | Value n => c_threads (sl_config sl) = clamp_threads (wrap32 n)
    | BadType => False
    end.
Proof.
  unfold create_socket_listener. intros H. destruct (_ || _); [done|].
  destruct (socket_unpack config) as [[[[[proto port] threads] keep] mode]|] eqn:Hu; [|done].
  destruct (ce_strdup_ok env); [|done]. cbn [negb] in H. inv_bind H. destruct a as [rc l].
  destruct (rc =? 0); [|done]. destruct (ce_pthread_ok env); [|done]. cbn [negb] in Hk. injection Hk as <-.
  unfold socket_unpack in Hu. destruct (unpack_s config (bs "proto")) as [|pr|]; try done.
  destruct (unpack_i config (bs "port")) as [|po|]; try done.
  destruct (override (A := Z) _ 1) as [t|] eqn:Eo; [|done].
  destruct (override (A := bool) _ false); [|done]. destruct (override_str _ _); [|done].
  injection Hu as -> -> -> -> ->.
  assert (Ht : 0 <= threads).
  { destruct (unpack_i config (bs "num_threads")) as [|n|]; cbn in Eo; simplify_eq; [lia|].
    unfold wrap32. by apply Z.mod_pos_bound. }
  cbn -[bs]. split; [by apply clamp_threads_bounds|]. split_and!; try done.
  - unfold listener_init in Hbind. destruct (dec_opaque_creator decoder).
    + inv_bind Hbind. destruct a. by simplify_eq.
    + by simplify_eq.
  - exists port. split_and!; try done.
    + unfold listener_init in Hbind. destruct (dec_opaque_creator decoder).
      * inv_bind Hbind. destruct a. by simplify_eq.
      * by simplify_eq.
    + destruct (unpack_i config (bs "num_threads")); cbn in Eo; by simplify_eq.
Qed.

(** ** Progress *)

Section progress.
Context {jansson : Jansson} {fifo : RdFifoq} {S W O : Type}.
Implicit Types (p : process W) (sl : socket_listener S W O).

(** One round of [async_cb] on a queue that is not empty. *)
Lemma pop_step room gc sl p i loop q x rest :
  tcp_ok sl p -> sl_workers sl !! i = Some (mkslot (Some loop) (Some q) Draining) ->
  fifo_elems q = x :: rest ->
  exists q' sl1, fifo_elems q' = rest /\ tcp_step room gc (EvPop i) sl p = Some (Ret (sl1, p)) /\
    tcp_ok sl1 p /\ sl_workers sl1 !! i = Some (mkslot (Some (mkloop (lp_watchers loop ++ [x])
      (lp_sent loop) (lp_broken loop))) (Some q') Draining).
Proof.
  intros Hok Hslot Hq. destruct (async_pop_ok sl p i loop q Hok Hslot) as (r & Hr & Hok1).
  cbn [tcp_step]. rewrite Hslot, Hr. unfold async_pop in Hr. pose proof (fifo_pop q) as Hpop.
  rewrite Hq in Hpop. destruct (rd_fifoq_pop q) as [[y q']|]; [|discriminate Hpop].
  injection Hpop as <- Hq'. destruct (pr_heap p !! x); [|done]. injection Hr as <-.
  exists q'. eexists. split; [done|]. split; [reflexivity|]. split; [done|].
  apply list_lookup_insert_eq. by eapply lookup_lt_Some.
Qed.

Lemma tcp_run_cons room gc ev evs sl p sl1 p1 :
  tcp_step room gc ev sl p = Some (Ret (sl1, p1)) ->
  tcp_run room gc (ev :: evs) sl p = tcp_run room gc evs sl1 p1.
Proof. intros H. cbn [tcp_run]. by rewrite H. Qed.

(** The rounds of [async_cb] up to a given connection of the queue. *)
Lemma pops_run room gc sl p i loop q pre w post :
  tcp_ok sl p -> sl_workers sl !! i = Some (mkslot (Some loop) (Some q) Draining) ->
  fifo_elems q = pre ++ w :: post ->
  exists sl' q', tcp_run room gc (replicate (Datatypes.S (length pre)) (EvPop i)) sl p = Some (Ret (sl', p)) /\
    sl_workers sl' !! i = Some (mkslot (Some (mkloop (lp_watchers loop ++ pre ++ [w])
      (lp_sent loop) (lp_broken loop))) (Some q') Draining).
Proof.
  revert sl loop q. induction pre as [|x pre IH]; intros sl loop q Hok Hslot Hq.
  all: destruct (pop_step room gc sl p i loop q _ _ Hok Hslot Hq) as (q1 & sl1 & Hq1 & Hs & Hok1 & Hw1).
  all: cbn [length replicate]; rewrite (tcp_run_cons _ _ _ _ _ _ _ _ Hs).
  - by eexists _, _.
  - destruct (IH sl1 _ q1 Hok1 Hw1 Hq1) as (sl' & q' & Hrun & Hw').
    exists sl', q'. split; [exact Hrun|]. rewrite Hw'. cbn. by rewrite <- app_assoc.
Qed.

Lemma tcp_run_app room gc evs evs' sl p sl1 p1 :
  tcp_run room gc evs sl p = Some (Ret (sl1, p1)) ->
  tcp_run room gc (evs ++ evs') sl p = tcp_run room gc evs' sl1 p1.
Proof.
  revert sl p. induction evs as [|ev evs IH]; intros sl p; cbn [tcp_run app].
  { by intros [= -> ->]. }
  destruct (tcp_step room gc ev sl p) as [[[sl2 p2]| |]|]; try done. apply IH.
Qed.

(** From its event on, a worker starts what is in its queue. *)
Lemma async_serves room gc sl p i loop q w :
  tcp_ok sl p -> sl_workers sl !! i = Some (mkslot (Some loop) (Some q) Waiting) ->
  lp_sent loop = true -> lp_broken loop = false -> w ∈ fifo_elems q ->
  exists n sl' loop' q', (n <= length (fifo_elems q))%nat /\
    tcp_run room gc (EvAsync i :: replicate n (EvPop i)) sl p = Some (Ret (sl', p)) /\
    sl_workers sl' !! i = Some (mkslot (Some loop') (Some q') Draining) /\ w ∈ lp_watchers loop'.
Proof.
  intros Hok Hslot Hsent Hbr (pre & post & Hq)%list_elem_of_split.
  assert (Hlen : (i < length (sl_workers sl))%nat) by (by eapply lookup_lt_Some).
  exists (Datatypes.S (length pre)). cbn [tcp_run tcp_step]. rewrite Hslot, Hsent, Hbr. cbn [andb negb].
  pose proof (async_begin_ok sl p i loop (Some q) Hok Hslot) as Hok1. rewrite Hbr in Hok1.
  destruct (pops_run room gc _ p i _ q pre w post Hok1 (list_lookup_insert_eq _ _ _ Hlen) Hq)
    as (sl' & q' & Hrun & Hw').
  eexists sl', _, q'. split; [rewrite Hq, length_app; cbn; lia|]. split; [exact Hrun|].
  split; [exact Hw'|]. cbn. set_solver.
Qed.

(** ** Starvation *)

(** A worker has left its loop, or will, and a connection is still in its queue. *)
Definition stranded (i : nat) (w : nat) sl : Prop :=
  exists loop q phase, sl_workers sl !! i = Some (mkslot (Some loop) (Some q) phase) /\
    lp_broken loop = true /\ phase <> Draining /\ w ∈ fifo_elems q.

Lemma stranded_step room gc ev sl p i w sl1 p1 :
  tcp_ok sl p -> stranded i w sl ->
  tcp_step room gc ev sl p = Some (Ret (sl1, p1)) -> stranded i w sl1.
Proof.
  intros Hok (loop & q & phase & Hslot & Hbr & Hph & Hw).
  assert (Hlen : (i < length (sl_workers sl))%nat) by (by eapply lookup_lt_Some).
  (* a worker that is replaced by one like it *)
  assert (Hrep : forall j slot, (j = i -> exists loop' q' phase', slot = mkslot (Some loop') (Some q') phase' /\
      lp_broken loop' = true /\ phase' <> Draining /\ w ∈ fifo_elems q') ->
    exists loop q phase, <[j := slot]> (sl_workers sl) !! i = Some (mkslot (Some loop) (Some q) phase) /\
      lp_broken loop = true /\ phase <> Draining /\ w ∈ fifo_elems q).
  { intros j slot Hj. destruct (decide (j = i)) as [->|Hne].
    - destruct (Hj eq_refl) as (loop' & q' & phase' & -> & ?). rewrite list_lookup_insert_eq by done.
      by eexists _, _, _.
    - rewrite list_lookup_insert_ne by done. by eexists _, _, _. }
  destruct ev as [ev_error env| |j|j|j w' env|j|mine|]; cbn [tcp_step]; intros H.
  - destruct (_ && _); [|done]. injection H as H. inv_bind H. destruct a as [[woken sl2] p2].
    apply accept_queue_inv in Hbind as [[-> ->]|(j & lo & q2 & ph & idx & -> & E2 & ->)]; simplify_eq/=.
    { by eexists _, _, _. }
    apply Hrep. intros ->. rewrite Hslot in E2. simplify_eq. eexists _, _, _.
    split_and!; try done. rewrite fifo_add. set_solver.
  - destruct (sl_main sl) as [|j|] eqn:Em; try done. injection H as H. inv_bind H. simplify_eq/=.
    unfold async_send in Hbind. destruct (sl_workers sl !! j) as [[[l2|] q2 ph2]|] eqn:E2; try done.
    injection Hbind as <-. apply Hrep. intros ->. rewrite Hslot in E2. injection E2 as <- <- <-.
    by eexists _, _, _.
  - destruct (sl_workers sl !! j) as [[[l2|] q2 []]|] eqn:E2; try done.
    destruct (lp_sent l2 && negb (lp_broken l2)) eqn:Eb; [|done]. injection H as <- <-.
    apply Hrep. intros ->. rewrite Hslot in E2. simplify_eq. rewrite Hbr in Eb.
    by rewrite andb_false_r in Eb.
  - destruct (sl_workers sl !! j) as [[[l2|] [q2|] []]|] eqn:E2; try done. injection H as H. inv_bind H.
    simplify_eq. apply Hrep. intros ->. rewrite Hslot in E2. by simplify_eq.
  - destruct (sl_workers sl !! j) as [[[l2|] q2 []]|] eqn:E2; try done.
    destruct (bool_decide _) eqn:Ew; [|done]. apply bool_decide_eq_true in Ew.
    destruct (read_cb_ok room gc (sl_listener sl) env l2 w' p j q2 Waiting (sl_workers sl))
      as [(loop1 & p2 & Hr & _ & Hbroken & _)|[(f & Hr & _)|[Hr _]]]; [apply Hok|done|done|..];
      rewrite Hr in H; [|done..]. injection H as <- <-. apply Hrep. intros ->. rewrite Hslot in E2. simplify_eq.
    eexists _, _, _. by split_and!; try rewrite Hbroken.
  - destruct (sl_workers sl !! j) as [[[l2|] q2 []]|] eqn:E2; try done.
    destruct (lp_broken l2) eqn:Eb; [|done]. injection H as <- <-. apply Hrep. intros ->.
    rewrite Hslot in E2. simplify_eq. by eexists _, _, _.
  - destruct mine; [|by simplify_eq; eexists _, _, _]. unfold join_listener_socket in H.
    destruct (sl_event_loop sl); [|done]. simplify_eq/=. by eexists _, _, _.
  - destruct (sl_main sl), (sl_event_loop sl) as [[]|]; try done. simplify_eq/=. by eexists _, _, _.
Qed.

End progress.

(** A connection in a queue is in no loop. *)
Lemma queued_not_watched {fifo : RdFifoq} workers i j loop q phase loop' q' phase' w :
  NoDup (owned workers) ->
  workers !! i = Some (mkslot loop (Some q) phase) -> w ∈ fifo_elems q ->
  workers !! j = Some (mkslot (Some loop') q' phase') -> w ∈ lp_watchers loop' -> False.
Proof.
  intros Hn Hi Hw Hj Hw'. rewrite (owned_at _ _ _ Hi) in Hn. unfold wk_owned at 1 in Hn. cbn in Hn.
  destruct (decide (i = j)) as [<-|Hne].
  - rewrite Hi in Hj. simplify_eq. apply NoDup_app in Hn as (Hn & _ & _).
    apply NoDup_app in Hn as (_ & Hn & _). by apply (Hn w).
  - apply NoDup_app in Hn as (_ & Hn & _). apply (Hn w); [set_solver|]. unfold owned.
    apply list_elem_of_bind. exists (mkslot (Some loop') q' phase'). split; [unfold wk_owned; cbn; set_solver|].
    apply list_elem_of_lookup. destruct (decide (j < i)%nat).
    + exists j. by rewrite list_lookup_delete_lt.
    + exists (pred j). rewrite list_lookup_delete_ge by lia. by replace (Datatypes.S (pred j)) with j by lia.
Qed.

(** ** Instances for closed examples *)

#[local] Instance list_fifoq : RdFifoq := {|
  rd_fifoq_t := list nat;
  rd_fifoq_init := [];
  rd_fifoq_add q x := q ++ [x];
  rd_fifoq_pop q := match q with [] => None | x :: q => Some (x, q) end;
  fifo_elems q := q;
  fifo_init := eq_refl;
  fifo_add q x := eq_refl;
  fifo_pop q := match q with [] => eq_refl | x :: q => eq_refl end
|}.

(** Configurations with texts, whose numbers are decimal. *)
#[local] Existing Instance flat_jansson.
Definition flat_get (o : list (bytes * bytes)) (k : bytes) : option bytes :=
  match list_find (fun kv => kv.1 = k) o with Some (_, kv) => Some kv.2 | None => None end.
#[local] Instance flat_unpack : JsonUnpack := {|
  unpack_i o k := match flat_get o k with Some v => Value (read_decimal v) | None => Absent end;
  unpack_s o k := match flat_get o k with Some v => Value v | None => Absent end
|}.
#[local] Instance flat_unpack_bool : JsonUnpackBool := {|
  unpack_b o k := match flat_get o k with
                  | Some v => Value (strcmp0 v (bs "true")) | None => Absent end
|}.

(** A decoder that keeps what it gets. *)
Definition log_decoder : n2k_decoder unit (list bytes) unit :=
  mkdecoder [] (fun w buffer _ _ _ s => Ret (mkcb_result DECODER_CALLBACK_OK None s
    (w ++ [default [] buffer]))) None None None None None None.

Definition all_created : create_env := mkcenv true true true true.
Definition all_started : start_tcp_env := mkstenv true (fun _ => true) (fun _ => true).
Definition no_response : socket_globals := mkglobals None 0 [].
Definition idle_process : process (list bytes) := mkproc {[3]} ∅ 0 false [] 0 [].

Definition two_workers : json_t :=
  [(bs "proto", bs "tcp"); (bs "port", bs "2056"); (bs "num_threads", bs "2")].

Definition demo_listener : socket_listener unit (list bytes) unit :=
  match create_socket_listener all_created two_workers log_decoder with
  | Ret (Some sl) => sl
  | _ => mksock (mklistener log_decoder None 0) (mksconf None 1 false MODE_POLL) None [] 0 Stopped
  end.

Definition demo_started : socket_listener unit (list bytes) unit :=
  match main_tcp_loop_start all_started demo_listener with Ret sl => sl | _ => demo_listener end.

Definition accept_of (sd : Z) : tcp_event :=
  EvAccept false (mkaenv (ACCEPT_CLIENT sd 56993984 40000) true).
Definition read_of (i w : nat) (text : string) : tcp_event :=
  EvRead i w (mkrenv (RECV_DATA (bs text)) SELECT_TIMEOUT).

(** Two connections, one per worker. *)
Definition demo_events : list tcp_event :=
  [accept_of 7; EvSend; accept_of 8; EvAsync 0; EvPop 0; EvSend; EvPop 0; read_of 0 0 "one"; EvAsync 1;
   EvPop 1; EvPop 1; read_of 1 1 "two"].

Example demo_run :
  match tcp_run 16 no_response demo_events demo_started idle_process with
  | Some (Ret (sl, p)) => pr_decoder p = [bs "one"; bs "two"] /\ pr_fds p = {[3; 7; 8]}
  | _ => False
  end.
Proof. vm_compute. done. Qed.

Lemma demo_decodes : decodes (sl_listener demo_listener).
Proof. intros w b props. by eexists. Qed.

Lemma demo_ok : tcp_ok demo_started idle_process.
Proof.
  destruct (start_ok all_started demo_listener idle_process) as (sl1 & H & Hok & _); try done.
  unfold demo_started. by rewrite H.
Qed.

(** ** Properties *)

(** C3: in every interleaving of the threads of a TCP listener, from its creation on,
    the state stays consistent: the index of the next worker is below the number of
    threads, which is between 1 and 256; every connection in memory belongs to exactly
    one worker, and its descriptor is open and its own; and a worker that has something
    in its queue has been woken up or is about to be.  This holds up to the end of the
    run or up to a callback that does not return, and then the reason is one of three:
    the address of a client that is not blacklisted does not fit the [room] bytes it is
    logged to (the array has 4, so with nothing else to spare every such client does
    this), the decoder does not return on what was read, or the client does not take the
    configured response.  The loops of the listener could be created, and its mode is
    not one thread per connection, in which the process exits. *)
Theorem tcp_threads_safe {jansson : Jansson} {unpack : JsonUnpack} {unpackb : JsonUnpackBool}
    {fifo : RdFifoq} {S W O : Type} (cenv : create_env) (config : json_t)
    (decoder : n2k_decoder S W O) (sl : socket_listener S W O) (env : start_tcp_env) (room : Z)
    (gc : socket_globals) (evs : list tcp_event) (p : process W) :
  create_socket_listener cenv config decoder = Ret (Some sl) ->
  c_thread_mode (sl_config sl) <> MODE_THREAD_PER_CONNECTION ->
  st_main_loop env = true -> (forall k, st_args env k = true /\ st_loops env k = true) ->
  pr_heap p = ∅ ->
  exists sl0, main_tcp_loop_start env sl = Ret sl0 /\ tcp_ok sl0 p /\
    forall r, tcp_run room gc evs sl0 p = Some r ->
      (exists sl1 p1, r = Ret (sl1, p1) /\ tcp_ok sl1 p1) \/
      (exists evs1 ev evs2 sl1 p1, evs = evs1 ++ ev :: evs2 /\
         tcp_run room gc evs1 sl0 p = Some (Ret (sl1, p1)) /\ tcp_ok sl1 p1 /\
         step_fault room gc (sl_listener sl) p1 ev r).
Proof.
  intros Hc Hmode Hml Henv Hheap. apply create_spec in Hc as (Hth & Hw & Hidx & _).
  destruct (start_ok env sl p) as (sl0 & Hs & Hok & _ & Hl); try done.
  exists sl0. split; [done|]. split; [done|]. intros r Hr. rewrite <- Hl. by apply tcp_run_cases.
Qed.

(** Two connections are served; and with a response that the client does not take the
    run stops at the read. *)
Definition hello_response : socket_globals := mkglobals (Some (bs "hello")) 6 [].

Lemma tcp_threads_safe_witness :
  (exists sl1 p1, tcp_run 16 no_response demo_events demo_started idle_process = Some (Ret (sl1, p1)) /\
     tcp_ok sl1 p1) /\
  (exists evs1 ev evs2 sl1 p1, demo_events = evs1 ++ ev :: evs2 /\
     tcp_run 16 hello_response evs1 demo_started idle_process = Some (Ret (sl1, p1)) /\ tcp_ok sl1 p1 /\
     step_fault 16 hello_response (sl_listener demo_listener) p1 ev (Fault use_after_free)).
Proof.
  destruct (tcp_threads_safe all_created two_workers log_decoder demo_listener all_started 16
    no_response demo_events idle_process) as (sl0 & Hs & Hok & H).
  - vm_compute. reflexivity.
  - vm_compute. discriminate.
  - reflexivity.
  - by intros k.
  - reflexivity.
  - destruct (tcp_threads_safe all_created two_workers log_decoder demo_listener all_started 16
      hello_response demo_events idle_process) as (sl0' & Hs' & _ & H');
      [vm_compute; reflexivity|vm_compute; discriminate|reflexivity|by intros k|reflexivity|].
    assert (sl0 = demo_started) as -> by (apply Ret_inj; rewrite <- Hs; vm_compute; reflexivity).
    assert (sl0' = demo_started) as -> by (apply Ret_inj; rewrite <- Hs'; vm_compute; reflexivity).
    clear Hs Hs'. split.
    + assert (Hr : exists s, tcp_run 16 no_response demo_events demo_started idle_process = Some (Ret s))
        by (eexists; vm_compute; reflexivity).
      destruct Hr as ([sl2 p2] & Hr).
      destruct (H _ Hr) as [(sl1 & p1 & E & Hok1)|(e1 & ev & e2 & sl1 & p1 & _ & _ & _ & Hf)].
      * exists sl1, p1. split; [exact (eq_trans Hr (f_equal Some E))|exact Hok1].
      * inversion Hf.
    + destruct (H' (Fault use_after_free)) as [(sl1 & p1 & Hr & _)|?]; [vm_compute; reflexivity|done|done].
Defined.

(** C11: no connection waits forever in a queue: if its worker has not been told to
    end, at most two steps more than the length of the queue, of the main thread
    and the worker alone and with no new connection or data, put it in the loop
    of the worker. *)
Theorem tcp_connection_served {jansson : Jansson} {fifo : RdFifoq} {S W O : Type} (room : Z)
    (gc : socket_globals) (sl : socket_listener S W O) (p : process W) (i w : nat) loop q phase :
  tcp_ok sl p -> Z.of_nat i < c_threads (sl_config sl) ->
  sl_workers sl !! i = Some (mkslot (Some loop) (Some q) phase) ->
  lp_broken loop = false -> phase <> Finished -> w ∈ fifo_elems q ->
  exists evs sl' loop' q', Forall (fun ev => ev = EvSend \/ ev = EvAsync i \/ ev = EvPop i) evs /\
    (length evs <= length (fifo_elems q) + 2)%nat /\
    tcp_run room gc evs sl p = Some (Ret (sl', p)) /\
    sl_workers sl' !! i = Some (mkslot (Some loop') (Some q') Draining) /\ w ∈ lp_watchers loop'.
Proof.
  intros Hok Hi Hslot Hbr Hph Hw.
  assert (Hpops : forall n, Forall (fun ev => ev = EvSend \/ ev = EvAsync i \/ ev = EvPop i)
    (replicate n (EvPop i))) by (intros n; apply Forall_replicate; auto).
  destruct (so_slots sl (proj1 Hok) i _ Hslot Hi) as (lo & q0 & Hlo & Hq0 & Hwake).
  cbn in Hlo, Hq0, Hwake. simplify_eq. destruct phase; [| |done].
  - destruct (lp_sent lo) eqn:Hsent.
    + destruct (async_serves room gc sl p i lo q0 w Hok Hslot Hsent Hbr Hw)
        as (n & sl' & loop' & q' & Hn & Hrun & Hw'). eexists _, sl', loop', q'.
      split; [|split; [|split; [exact Hrun|exact Hw']]]; [by constructor; auto|].
      cbn. rewrite length_replicate. lia.
    + destruct Hwake as [?|[?|Hmain]]; [by intros E; rewrite E in Hw; apply not_elem_of_nil in Hw|done..|].
      destruct (async_send_ok sl p i Hok Hmain) as (workers & Hs & Hok1).
      assert (Hsend : tcp_step room gc EvSend sl p
        = Some (Ret (with_main (with_workers sl workers) Accepting, p)))
        by (cbn [tcp_step]; by rewrite Hmain, Hs).
      unfold async_send in Hs. rewrite Hslot in Hs. injection Hs as <-.
      destruct (async_serves room gc _ p i (mkloop (lp_watchers lo) true (lp_broken lo)) q0 w Hok1)
        as (n & sl' & loop' & q' & Hn & Hrun & Hw'); [|done..|].
      { apply list_lookup_insert_eq. by eapply lookup_lt_Some. }
      exists (EvSend :: EvAsync i :: replicate n (EvPop i)), sl', loop', q'.
      rewrite (tcp_run_cons _ _ _ _ _ _ _ _ Hsend).
      split; [|split; [|split; [exact Hrun|exact Hw']]]; [by repeat constructor; auto|].
      cbn. rewrite length_replicate. lia.
  - apply list_elem_of_split in Hw as (pre & post & Hq).
    destruct (pops_run room gc sl p i lo q0 pre w post Hok Hslot Hq) as (sl' & q' & Hrun & Hw').
    eexists _, sl', _, q'. split; [|split; [|split; [exact Hrun|split; [exact Hw'|]]]]; [apply Hpops| |].
    + rewrite Hq, length_replicate, length_app. cbn. lia.
    + cbn. set_solver.
Qed.

Definition demo_queued : socket_listener unit (list bytes) unit * process (list bytes) :=
  match tcp_run 16 no_response [accept_of 7] demo_started idle_process with
  | Some (Ret s) => s | _ => (demo_started, idle_process) end.

Lemma tcp_connection_served_witness :
  exists evs sl' loop' q', Forall (fun ev => ev = EvSend \/ ev = EvAsync 0 \/ ev = EvPop 0) evs /\
    (length evs <= 3)%nat /\
    tcp_run 16 no_response evs demo_queued.1 demo_queued.2 = Some (Ret (sl', demo_queued.2)) /\
    sl_workers sl' !! 0%nat = Some (mkslot (Some loop') (Some q') Draining) /\ 0%nat ∈ lp_watchers loop'.
Proof.
  assert (Hok : tcp_ok demo_queued.1 demo_queued.2).
  { destruct (tcp_run_ok 16 no_response [accept_of 7] demo_started idle_process
      (Ret demo_queued)) as (sl & p & E & Hok).
    - vm_compute. discriminate.
    - intros w b props. by eexists.
    - by repeat constructor.
    - apply demo_ok.
    - vm_compute. reflexivity.
    - apply Ret_inj in E. by rewrite E. }
  apply (tcp_connection_served 16 no_response demo_queued.1 demo_queued.2 0 0
    (mkloop [] false false) [0%nat] Waiting).
  - exact Hok.
  - vm_compute. reflexivity.
  - vm_compute. reflexivity.
  - reflexivity.
  - discriminate.
  - by apply list_elem_of_singleton.
Defined.

(** C37: once a worker has been told to end, a connection that is in its queue is
    never read, whatever the threads do next, and is never closed: it stays in
    memory with its descriptor open.  [do_shutdown] is shared by all the socket
    listeners of the process and is never reset, so joining one of them, as a
    reload does, brings the workers of the others to this state at their next
    connection. *)
Theorem tcp_stranded_connection {jansson : Jansson} {fifo : RdFifoq} {S W O : Type} (room : Z)
    (gc : socket_globals) (evs : list tcp_event) (sl : socket_listener S W O) (p : process W)
    (i w : nat) r :
  INET_ADDRSTRLEN <= room -> decodes (sl_listener sl) -> Forall (good_event gc) evs ->
  tcp_ok sl p -> stranded i w sl -> tcp_run room gc evs sl p = Some r ->
  exists sl1 p1 io, r = Ret (sl1, p1) /\ stranded i w sl1 /\
    pr_heap p1 !! w = Some io /\ io_fd io ∈ pr_fds p1 /\
    forall j env, tcp_step room gc (EvRead j w env) sl1 p1 = None.
Proof.
  intros Hroom Hdec Hgood. revert sl p Hdec. induction Hgood as [|ev evs Hev _ IH];
    intros sl p Hdec Hok Hst Hrun.
  - injection Hrun as <-. destruct Hst as (loop & q & phase & Hslot & Hrest).
    assert (Hw : w ∈ fifo_elems q) by apply Hrest. destruct Hok as [_ Hc].
    assert (Hio : is_Some (pr_heap p !! w)).
    { apply (co_owned _ _ Hc). rewrite (owned_at _ _ _ Hslot). unfold wk_owned. cbn. set_solver. }
    destruct Hio as [io Hio]. exists sl, p, io. split; [done|]. split; [by eexists _, _, _|].
    split; [done|]. split; [by apply (co_io _ _ Hc w)|]. intros j env. cbn [tcp_step].
    destruct (sl_workers sl !! j) as [[[l2|] q2 []]|] eqn:E2; try done.
    destruct (bool_decide _) eqn:Ew; [|done]. apply bool_decide_eq_true in Ew.
    by destruct (queued_not_watched _ _ _ _ _ _ _ _ _ _ (co_nodup _ _ Hc) Hslot Hw E2 Ew).
  - cbn [tcp_run] in Hrun. destruct (tcp_step room gc ev sl p) as [r1|] eqn:Hstep; [|done].
    destruct (tcp_step_ok room gc ev sl p r1 Hroom Hdec Hev Hok Hstep) as (sl1 & p1 & -> & Hok1).
    apply (IH sl1 p1); try done.
    + by rewrite (tcp_step_listener _ _ _ _ _ _ _ Hstep).
    + exact (stranded_step room gc ev sl p i w sl1 p1 Hok Hst Hstep).
Qed.

(** Another listener is joined, a connection comes for each worker, and then one
    more for the first worker. *)
Definition stranding_events : list tcp_event :=
  [EvShutdown false; accept_of 7; EvSend; EvAsync 0; EvPop 0; EvPop 0; accept_of 8; EvSend;
   accept_of 9; EvSend].

Definition demo_stranded : socket_listener unit (list bytes) unit * process (list bytes) :=
  match tcp_run 16 no_response stranding_events demo_started idle_process with
  | Some (Ret s) => s | _ => (demo_started, idle_process) end.

Lemma tcp_stranded_connection_witness :
  exists sl1 p1 io,
    tcp_run 16 no_response [read_of 0 0 "first"; EvExit 0] demo_stranded.1 demo_stranded.2
      = Some (Ret (sl1, p1)) /\
    stranded 0 2 sl1 /\ pr_heap p1 !! 2%nat = Some io /\ io_fd io ∈ pr_fds p1 /\
    forall j env, tcp_step 16 no_response (EvRead j 2 env) sl1 p1 = None.
Proof.
  assert (Hok : tcp_ok demo_stranded.1 demo_stranded.2).
  { destruct (tcp_run_ok 16 no_response stranding_events demo_started idle_process
      (Ret demo_stranded)) as (sl & p & E & Hok).
    - vm_compute. discriminate.
    - intros w b props. by eexists.
    - by repeat constructor.
    - apply demo_ok.
    - vm_compute. reflexivity.
    - apply Ret_inj in E. by rewrite E. }
  assert (Hrun : exists r, tcp_run 16 no_response [read_of 0 0 "first"; EvExit 0] demo_stranded.1
    demo_stranded.2 = Some r) by (eexists; vm_compute; reflexivity).
  destruct Hrun as [r Hrun].
  destruct (tcp_stranded_connection 16 no_response [read_of 0 0 "first"; EvExit 0] demo_stranded.1
    demo_stranded.2 0 2 r) as (sl1 & p1 & io & E & H).
  - vm_compute. discriminate.
  - intros w b props. by eexists.
  - apply list.Forall_cons. split; [by left|by repeat constructor].
  - exact Hok.
  - exists (mkloop [0%nat] true true), [2%nat], Waiting. split; [vm_compute; reflexivity|].
    split; [done|]. split; [discriminate|]. by apply list_elem_of_singleton.
  - exact Hrun.
  - exists sl1, p1, io. split; [exact (eq_trans Hrun (f_equal Some E))|exact H].
Defined.
