(* ===== verification/SocketDelivery.v ===== *)
(** * The socket listeners: connections and data

    Which worker gets a connection, what clients on the blacklist get, what the
    decoders are given over TCP and over UDP, and the errors of the start and the
    end of a listener. *)

From S2P Require Import Prelude Pair Addr CString KafkaArray TopicDb ZzJson ZzXml ZzSession Decoders HttpConfig Socket SocketProps.
From stdpp Require Import gmap.
#[local] Open Scope Z_scope.

(** ** Which worker gets a connection *)

Section dispatch.
Context {jansson : Jansson} {fifo : RdFifoq} {S W O : Type}.
Implicit Types (p : process W) (sl : socket_listener S W O).

(** A listener that can take connections: its workers have loops and queues. *)
Record ready sl : Prop := mkready {
  rd_threads : 1 <= c_threads (sl_config sl) <= MAX_NUM_THREADS;
  rd_mode : c_thread_mode (sl_config sl) <> MODE_THREAD_PER_CONNECTION;
  rd_idx : 0 <= sl_accept_current_worker_idx sl < c_threads (sl_config sl);
  rd_slots : forall i, Z.of_nat i < c_threads (sl_config sl) ->
    exists loop q phase, sl_workers sl !! i = Some (mkslot (Some loop) (Some q) phase)
}.

Lemma ok_ready sl : sl_ok sl -> ready sl.
Proof.
  intros Hok. constructor; [by apply so_threads|by apply so_mode|by apply so_idx|].
  intros i Hi. destruct (slot_lookup sl i Hok Hi) as (loop & q & phase & ? & _). by eexists _, _, _.
Qed.

Definition queue_of sl (i : nat) : list nat :=
  match sl_workers sl !! i with Some (mkslot _ (Some q) _) => fifo_elems q | _ => [] end.

(** [accept_cb] for a list of clients: descriptor, address and port. *)
Definition accept_all (room : Z) (gc : socket_globals) (clients : list (Z * in_addr * Z)) sl p
    : outcome (socket_listener S W O * process W) :=
  fold_left (fun r client =>
    '(sl, p) ← r;
    accept_cb room gc false (mkaenv (ACCEPT_CLIENT client.1.1 client.1.2 client.2) true) sl p)
    clients (Ret (sl, p)).

Lemma next_worker_mod threads idx :
  0 <= idx < threads -> threads <= MAX_NUM_THREADS -> next_worker threads idx = (idx + 1) mod threads.
Proof.
  unfold MAX_NUM_THREADS, next_worker. intros Hi Ht. rewrite wrap64_small by lia.
  destruct (threads <=? idx + 1) eqn:E.
  - replace (idx + 1) with threads by lia. by rewrite Z.mod_same by lia.
  - by rewrite Z.mod_small by lia.
Qed.

(** One connection from a client that is not on the blacklist. *)
Lemma accept_cb_spec room gc sl p sd addr port :
  INET_ADDRSTRLEN <= room -> ready sl -> addr ∉ gc_blacklist gc ->
  exists sl1 p1, accept_cb room gc false (mkaenv (ACCEPT_CLIENT sd addr port) true) sl p = Ret (sl1, p1) /\
    ready sl1 /\ sl_config sl1 = sl_config sl /\
    sl_accept_current_worker_idx sl1
      = (sl_accept_current_worker_idx sl + 1) mod c_threads (sl_config sl) /\
    pr_next p1 = Datatypes.S (pr_next p) /\
    forall j, queue_of sl1 j = queue_of sl j ++
      (if bool_decide (Z.of_nat j = sl_accept_current_worker_idx sl) then [pr_next p] else []).
Proof.
  intros Hroom [Ht Hm Hi Hs] Hbl. unfold accept_cb, accept_cb_queue. cbn [ae_accept].
  rewrite sockaddr2str_ipv4 by done.
  rewrite (not_true_is_false _ (fun H => Hbl (proj1 (in_addr_list_contains_spec _ _) H))).
  rewrite accept_log_ok by done. unfold accept_dispatch. rewrite bool_decide_false by done.
  cbn [mbind outcome_bind ae_calloc_ok negb sl_workers with_idx pr_next with_fds].
  set (i := Z.to_nat (sl_accept_current_worker_idx sl)).
  destruct (Hs i ltac:(lia)) as (loop & q & phase & Hslot).
  assert (Hlen : (i < length (sl_workers sl))%nat) by (by eapply lookup_lt_Some).
  unfold enqueue. rewrite Hslot. cbn [mbind outcome_bind sl_workers with_workers].
  unfold async_send. rewrite list_lookup_insert_eq by done. cbn [mbind outcome_bind].
  eexists _, _. split; [reflexivity|].
  assert (Hlook : forall j, <[i := mkslot (Some (mkloop (lp_watchers loop) true (lp_broken loop)))
      (Some (rd_fifoq_add q (pr_next p))) phase]> (<[i := mkslot (Some loop)
      (Some (rd_fifoq_add q (pr_next p))) phase]> (sl_workers sl)) !! j
    = if bool_decide (j = i) then Some (mkslot (Some (mkloop (lp_watchers loop) true (lp_broken loop)))
        (Some (rd_fifoq_add q (pr_next p))) phase) else sl_workers sl !! j).
  { intros j. rewrite list_insert_insert_eq. destruct (decide (j = i)) as [->|Hne].
    - by rewrite bool_decide_true, list_lookup_insert_eq.
    - by rewrite bool_decide_false, list_lookup_insert_ne. }
  split; [|split_and!; [done|apply next_worker_mod; [done|apply Ht]|done|]].
  - constructor; cbn; [done|done|apply next_worker_bounds; [done|apply Ht]|]. intros j Hj. rewrite Hlook.
    destruct (decide (j = i)) as [->|Hne]; [by rewrite bool_decide_true by done; eexists _, _, _|].
    rewrite bool_decide_false by done. by apply Hs.
  - intros j. unfold queue_of. cbn. rewrite Hlook. destruct (decide (j = i)) as [->|Hne].
    + rewrite !bool_decide_true by lia. rewrite Hslot. apply fifo_add.
    + rewrite !bool_decide_false by lia. by rewrite app_nil_r.
Qed.

(** The watchers of [n] connections, from number [next] on, that the worker [j] gets
    when the first goes to worker [idx]. *)
Definition turn (threads idx : Z) (next n : nat) (j : nat) : list nat :=
  map (fun k => (next + k)%nat)
    (filter (fun k => (idx + Z.of_nat k) mod threads = Z.of_nat j) (seq 0 n)).

Lemma turn_succ threads idx next n j :
  turn threads idx next (Datatypes.S n) j = turn threads idx next n j ++
    (if bool_decide (Z.of_nat j = (idx + Z.of_nat n) mod threads) then [(next + n)%nat] else []).
Proof.
  unfold turn. rewrite seq_S, filter_app, map_app. f_equal. rewrite filter_cons, filter_nil.
  destruct (decide _), (bool_decide _) eqn:E; cbn; try done.
  - by apply bool_decide_eq_false in E.
  - by apply bool_decide_eq_true in E.
Qed.

End dispatch.

(** A client on the blacklist leaves no trace. *)
Lemma accept_blacklisted {jansson : Jansson} {fifo : RdFifoq} {S W O : Type}
    (gc : socket_globals) (sl : socket_listener S W O) (p : process W) (sd : Z) (addr : in_addr)
    (port : Z) (calloc_ok : bool) (room : Z) :
  sd ∉ pr_fds p -> addr ∈ gc_blacklist gc ->
  accept_cb room gc false (mkaenv (ACCEPT_CLIENT sd addr port) calloc_ok) sl p = Ret (sl, p).
Proof.
  intros Hsd Hin. unfold accept_cb, accept_cb_queue. cbn [ae_accept]. rewrite sockaddr2str_ipv4 by done.
  rewrite (proj2 (in_addr_list_contains_spec _ _) Hin). cbn. do 2 f_equal.
  unfold with_fds. destruct p as [fds h n s se b w]. cbn in *. f_equal. set_solver.
Qed.

(** ** The callbacks and the steps of the threads *)

Section callbacks_steps.
Context {jansson : Jansson} {fifo : RdFifoq} {S W O : Type}.
Implicit Types (p : process W) (sl : socket_listener S W O).

(** [async_cb] without interruption is its first step and one round per element of
    the queue and one more. *)
Lemma async_drain_steps room gc n sl p i loop q loop1 q1 :
  sl_workers sl !! i = Some (mkslot (Some loop) (Some q) Draining) -> length (fifo_elems q) = n ->
  async_drain (Datatypes.S n) p loop q = Ret (loop1, q1) ->
  tcp_run room gc (replicate (Datatypes.S n) (EvPop i)) sl p
    = Some (Ret (with_workers sl (<[i := mkslot (Some loop1) (Some q1) Waiting]> (sl_workers sl)), p)).
Proof.
  assert (Hstep : forall sl loop q, sl_workers sl !! i = Some (mkslot (Some loop) (Some q) Draining) ->
    tcp_step room gc (EvPop i) sl p = Some (r ← async_pop p loop q;
      Ret (with_workers sl (<[i := match r with
                  | None => mkslot (Some loop) (Some q) Waiting
                  | Some (loop1, q1) => mkslot (Some loop1) (Some q1) Draining
                  end]> (sl_workers sl)), p))).
  { intros sl' loop' q' H. cbn [tcp_step]. by rewrite H. }
  revert sl loop q. induction n as [|n IH]; intros sl loop q Hslot Hn Hd;
    specialize (Hstep _ _ _ Hslot); pose proof (fifo_pop q) as Hpop;
    rewrite replicate_S; cbn [async_drain] in Hd; unfold async_pop in Hd, Hstep;
    destruct (rd_fifoq_pop q) as [[x q']|]; try (by rewrite Hpop in Hn);
    cbn [mbind outcome_bind] in *.
  - rewrite (tcp_run_cons _ _ _ _ _ _ _ _ Hstep). by injection Hd as <- <-.
  - destruct (pr_heap p !! x) as [io|]; [|done]. cbn [mbind outcome_bind] in *.
    assert (Hlen : (i < length (sl_workers sl))%nat) by (by eapply lookup_lt_Some).
    rewrite (tcp_run_cons _ _ _ _ _ _ _ _ Hstep).
    erewrite IH; [|cbn; by apply list_lookup_insert_eq|by rewrite Hpop in Hn; injection Hn|exact Hd].
    by cbn; rewrite list_insert_insert_eq.
Qed.

Lemma async_drain_S n p loop q :
  async_drain (Datatypes.S n) p loop q
    = (r ← async_pop p loop q;
       match r with None => Ret (loop, q) | Some (loop1, q1) => async_drain n p loop1 q1 end).
Proof. reflexivity. Qed.

Lemma drain_returns n p loop q :
  (forall w, w ∈ fifo_elems q -> is_Some (pr_heap p !! w)) -> (length (fifo_elems q) <= n)%nat ->
  exists q1, fifo_elems q1 = [] /\ async_drain (Datatypes.S n) p loop q
    = Ret (mkloop (lp_watchers loop ++ fifo_elems q) (lp_sent loop) (lp_broken loop), q1).
Proof.
  revert loop q. induction n as [|n IH]; intros loop q Hin Hn; rewrite async_drain_S; unfold async_pop;
    pose proof (fifo_pop q) as Hpop; destruct (rd_fifoq_pop q) as [[x q']|]; rewrite Hpop in *; cbn in Hn; try lia.
  1, 3: exists q; split; [done|]; cbn; rewrite app_nil_r; by destruct loop.
  destruct (Hin x ltac:(set_solver)) as [io ->]. cbn [mbind outcome_bind].
  destruct (IH (mkloop (lp_watchers loop ++ [x]) (lp_sent loop) (lp_broken loop)) q') as (q1 & Hq1 & Hd);
    [set_solver|lia|]. exists q1. split; [done|]. rewrite Hd. cbn. by rewrite <- app_assoc.
Qed.

End callbacks_steps.

(** ** Data *)

(** The dumb decoder, when librdkafka takes the message, does not touch the response
    pointers. *)
Lemma dumb_taken {rk : Rdkafka} {producer : Producer} {jansson : Jansson} {O : Type}
    (topic : option bytes) (r : rkt) (l : listener unit dumb_world O) w body props :
  l_decoder l = dumb_decoder topic -> new_rkt_global_config topic = Some r ->
  rd_kafka_produce r body = ERR_NO_ERROR ->
  listener_decode l w (Some body) props false None
    = Ret (mkcb_result DECODER_CALLBACK_OK None None
        (mkdw (dw_produced w ++ [(rd_kafka_topic_name r, body)]) (dw_rkts w))).
Proof.
  intros Hl Hr Hp. unfold listener_decode. rewrite Hl. cbn [dec_callback dumb_decoder].
  unfold dumb_decode. rewrite Hr. cbn [default from_option id]. rewrite Hp.
  rewrite bool_decide_true by done. cbn [dw_produced dw_rkts]. by replace (dw_rkts w + 1 - 1) with (dw_rkts w) by lia.
Qed.

(** A process where the decoder has got more messages, in buffers that are still
    allocated. *)
Definition produced_more (p : process dumb_world) (name : bytes) (bodies : list bytes)
    : process dumb_world :=
  with_decoder (with_buffers p (pr_buffers p + zlen bodies))
    (mkdw (dw_produced (pr_decoder p) ++ map (fun b => (name, b)) bodies) (dw_rkts (pr_decoder p))).

Lemma produced_more_nil p name : produced_more p name [] = p.
Proof.
  unfold produced_more. destruct p as [f h n s se b [pr rk]]. unfold with_buffers, with_decoder. cbn.
  by rewrite app_nil_r, Z.add_0_r.
Qed.

Lemma produced_more_app p name a b :
  produced_more (produced_more p name a) name b = produced_more p name (a ++ b).
Proof.
  unfold produced_more, with_buffers, with_decoder. cbn. f_equal; [rewrite zlen_app; lia|].
  f_equal. by rewrite map_app, app_assoc.
Qed.

Lemma process_data_dumb {rk : Rdkafka} {producer : Producer} {jansson : Jansson} {fifo : RdFifoq} {O : Type}
    (topic : option bytes) (r : rkt) (l : listener unit dumb_world O) body client (p : process dumb_world) :
  l_decoder l = dumb_decoder topic -> new_rkt_global_config topic = Some r ->
  rd_kafka_produce r body = ERR_NO_ERROR ->
  process_data_received_from_socket l body client (with_buffers p (pr_buffers p + 1))
    = Ret (produced_more p (rd_kafka_topic_name r) [body]).
Proof.
  intros Hl Hr Hp. unfold process_data_received_from_socket.
  by rewrite (dumb_taken topic r) by done.
Qed.

(** ** Datagrams *)

(** What a thread still has to decode. *)
Definition udp_pending (t : udp_thread) : list bytes :=
  match t with UGot buffer _ => [buffer] | _ => [] end.

(** What a round takes under the lock. *)
Definition udp_taken (ev : udp_event) : list bytes :=
  match ev with
  | UReceive _ env => let '(recv_result, buffer, _) := udp_receive env in
                      if recv_result <? 0 then [] else [buffer]
  | _ => []
  end.

Section udp.
Context {rk : Rdkafka} {producer : Producer} {jansson : Jansson} {fifo : RdFifoq} {O : Type}.
Context (topic : option bytes) (r : rkt) (l : listener unit dumb_world O).
Context (Hl : l_decoder l = dumb_decoder topic) (Hr : new_rkt_global_config topic = Some r).
Context (Hp : forall body, rd_kafka_produce r body = ERR_NO_ERROR).
Implicit Types p : process dumb_world.

(** The messages [done] come from what was pending and what was received. *)
Definition udp_progress (threads threads' : list udp_thread) p p' (taken done : list bytes) : Prop :=
  dw_produced (pr_decoder p') = dw_produced (pr_decoder p) ++ map (fun b => (rd_kafka_topic_name r, b)) done /\
  pr_buffers p' = pr_buffers p + zlen taken /\ pr_do_shutdown p' = pr_do_shutdown p /\
  done ++ (threads' ≫= udp_pending) ≡ₚ (threads ≫= udp_pending) ++ taken.

Lemma udp_step_progress ev threads p r1 :
  ev <> UShutdown -> pr_do_shutdown p = false -> main_consumer_loop_udp l ev threads p = Some r1 ->
  exists threads' p' done, r1 = Ret (threads', p') /\
    udp_progress threads threads' p p' (udp_taken ev) done.
Proof.
  intros Hev Hsh. destruct ev as [i env|i|]; [| |done]; cbn [main_consumer_loop_udp]; intros H.
  - destruct (threads !! i) as [[]|] eqn:Hi; try done. rewrite Hsh in H. injection H as <-.
    unfold udp_progress. cbn [udp_taken]. destruct (udp_receive env) as [[recv_result buffer] addr].
    destruct (recv_result <? 0).
    + assert (Hend : exists threads' p' done, Ret (<[i := UEnded]> threads, p) = Ret (threads', p') /\
        udp_progress threads threads' p p' [] done).
      { exists (<[i := UEnded]> threads), p, []. split; [done|]. unfold udp_progress. cbn.
        rewrite !app_nil_r, Z.add_0_r. split_and!; try done.
        by rewrite (bind_insert _ _ _ _ _ Hi), (bind_at _ _ _ _ Hi). }
      destruct (ue_recv env) as [|[]]; [exact Hend| |exact Hend].
      exists threads, p, []. cbn. rewrite !app_nil_r, Z.add_0_r. done.
    + eexists _, _, []. split; [reflexivity|]. cbn. rewrite app_nil_r. split_and!; try done.
      rewrite (bind_insert _ _ _ _ _ Hi), (bind_at _ _ _ _ Hi). cbn. by rewrite <- Permutation_cons_append.
  - destruct (threads !! i) as [[|buffer addr|]|] eqn:Hi; try done. injection H as <-.
    unfold process_data_received_from_socket. rewrite (dumb_taken topic r) by done.
    eexists _, _, [buffer]. split; [reflexivity|]. unfold udp_progress. cbn.
    rewrite app_nil_r, Z.add_0_r. split_and!; try done.
    by rewrite (bind_insert _ _ _ _ _ Hi), (bind_at _ _ _ _ Hi).
Qed.

Lemma udp_run_progress evs threads p r1 :
  Forall (fun ev => ev <> UShutdown) evs -> pr_do_shutdown p = false ->
  udp_run l evs threads p = Some r1 ->
  exists threads' p' done, r1 = Ret (threads', p') /\
    udp_progress threads threads' p p' (evs ≫= udp_taken) done.
Proof.
  intros Hev. revert threads p. induction Hev as [|ev evs Hev _ IH]; intros threads p Hsh H; cbn [udp_run] in H.
  { injection H as <-. exists threads, p, []. split; [done|]. unfold udp_progress. cbn.
    by rewrite !app_nil_r, Z.add_0_r. }
  destruct (main_consumer_loop_udp l ev threads p) as [r2|] eqn:Hs; [|done].
  destruct (udp_step_progress ev threads p r2 Hev Hsh Hs) as (threads1 & p1 & done1 & -> & Hd1 & Hb1 & Hs1 & Hp1).
  destruct (IH threads1 p1) as (threads2 & p2 & done2 & -> & Hd2 & Hb2 & Hs2 & Hp2); [congruence|done|].
  exists threads2, p2, (done1 ++ done2). split; [done|]. unfold udp_progress.
  rewrite Hd2, Hd1, Hb2, Hb1, Hs2, map_app. cbn. rewrite zlen_app. split_and!; [by rewrite app_assoc|lia|done|].
  rewrite <- app_assoc, Hp2, app_assoc, Hp1. by rewrite <- app_assoc.
Qed.

End udp.

(** ** Instances for closed examples *)

#[local] Existing Instance list_fifoq.
#[local] Existing Instance flat_jansson.
#[local] Existing Instance flat_unpack.
#[local] Existing Instance flat_unpack_bool.
#[local] Existing Instance topics_by_name.

(** librdkafka takes every message but those that start with an exclamation mark. *)
#[local] Instance picky_producer : @Producer topics_by_name := {|
  rd_kafka_produce _ m := match m with x21 :: _ => ERR__QUEUE_FULL | _ => ERR_NO_ERROR end;
  rd_kafka_err2str _ := bs "queue full";
  rd_kafka_topic_new_null := None
|}.

Definition dumb_listener : listener unit dumb_world unit :=
  mklistener (dumb_decoder (Some (bs "t"))) None 2056.

Definition dumb_socket : socket_listener unit dumb_world unit :=
  mksock dumb_listener (mksconf (Some (bs "tcp")) 1 false MODE_EPOLL) (Some false)
    [mkslot (Some (mkloop [5%nat] false false)) (Some []) Waiting] 0 Accepting.

Definition dumb_process : process dumb_world :=
  mkproc {[3; 9]} {[5%nat := mkio 9 (mkpriv CONNECTION_PRIVATE_MAGIC 0 (bs "10.0.0.1"))]} 6 false [] 0
    (mkdw [] 0).

(** ** Properties *)

(** C18: connections are given to the workers in turn: of [n] clients that are
    accepted one after the other, the queue of worker [j] gets, in order, exactly
    those whose number, counted from the current index, is [j] modulo the number
    of threads, and nothing else. *)
Theorem accept_round_robin {jansson : Jansson} {fifo : RdFifoq} {S W O : Type} (room : Z)
    (gc : socket_globals) (clients : list (Z * in_addr * Z)) (sl : socket_listener S W O) (p : process W) :
  INET_ADDRSTRLEN <= room -> ready sl -> Forall (fun c => c.1.2 ∉ gc_blacklist gc) clients ->
  exists sl1 p1, accept_all room gc clients sl p = Ret (sl1, p1) /\ ready sl1 /\
    sl_config sl1 = sl_config sl /\
    sl_accept_current_worker_idx sl1
      = (sl_accept_current_worker_idx sl + zlen clients) mod c_threads (sl_config sl) /\
    pr_next p1 = (pr_next p + length clients)%nat /\
    forall j, queue_of sl1 j = queue_of sl j ++
      turn (c_threads (sl_config sl)) (sl_accept_current_worker_idx sl) (pr_next p) (length clients) j.
Proof.
  intros Hroom Hready. induction clients as [|c clients IH] using rev_ind; intros Hbl.
  { exists sl, p. split; [done|]. split; [done|]. rewrite zlen_nil, Z.add_0_r.
    rewrite Z.mod_small by apply (rd_idx sl Hready). split_and!; [done|done|cbn; lia|].
    intros j. cbn. by rewrite app_nil_r. }
  apply list.Forall_app in Hbl as [Hbl Hc]. apply list.Forall_cons in Hc as [Hc _].
  destruct (IH Hbl) as (sl1 & p1 & Hrun & Hr1 & Hcfg & Hidx & Hnext & Hq).
  destruct (accept_cb_spec room gc sl1 p1 c.1.1 c.1.2 c.2 Hroom Hr1 Hc)
    as (sl2 & p2 & Hacc & Hr2 & Hcfg2 & Hidx2 & Hnext2 & Hq2).
  exists sl2, p2. unfold accept_all in *. rewrite fold_left_app, Hrun. cbn [fold_left mbind outcome_bind].
  split; [exact Hacc|]. split; [done|]. rewrite Hidx2, Hcfg2, Hcfg, Hidx.
  pose proof (rd_threads sl Hready). rewrite zlen_app. split_and!; [done| | |].
  - rewrite Z.add_mod_idemp_l by lia. f_equal. unfold zlen. cbn. lia.
  - rewrite Hnext2, Hnext, length_app. cbn. lia.
  - intros j. rewrite Hq2, Hq, length_app. cbn [length]. rewrite Nat.add_1_r, turn_succ, <- app_assoc.
    rewrite Hnext, Hidx. done.
Qed.

Definition three_clients : list (Z * in_addr * Z) := [(7, 16777226, 1); (8, 33554442, 2); (9, 16777226, 3)].

Lemma accept_round_robin_witness :
  exists sl1 p1, accept_all 16 no_response three_clients demo_started idle_process = Ret (sl1, p1) /\
    ready sl1 /\ sl_config sl1 = sl_config demo_started /\
    sl_accept_current_worker_idx sl1 = (0 + 3) mod 2 /\ pr_next p1 = 3%nat /\
    forall j, queue_of sl1 j = queue_of demo_started j ++ turn 2 0 0 3 j.
Proof.
  apply (accept_round_robin 16 no_response three_clients demo_started idle_process).
  - vm_compute. discriminate.
  - apply ok_ready. apply demo_ok.
  - apply (bool_decide_unpack (Forall (fun c => c.1.2 ∉ gc_blacklist no_response) three_clients)).
    vm_compute. exact I.
Defined.

Example turns_of_three : turn 2 0 0 3 0 = [0%nat; 2%nat] /\ turn 2 0 0 3 1 = [1%nat].
Proof. done. Qed.

(** C39: a client on the blacklist is closed at once and leaves no trace: no worker,
    no memory and no descriptor.  For any other client the log overflows the stack:
    the buffer for its address has 4 bytes, and the text that is written there has
    at least 8. *)
Theorem accept_blacklist_and_overflow {jansson : Jansson} {fifo : RdFifoq} {S W O : Type}
    (gc : socket_globals) (sl : socket_listener S W O) (p : process W) (sd : Z) (addr : in_addr)
    (port : Z) (calloc_ok : bool) (Hsd : sd ∉ pr_fds p) :
  (addr ∈ gc_blacklist gc -> forall room,
     accept_cb room gc false (mkaenv (ACCEPT_CLIENT sd addr port) calloc_ok) sl p = Ret (sl, p)) /\
  (addr ∉ gc_blacklist gc ->
     accept_cb log_str_size gc false (mkaenv (ACCEPT_CLIENT sd addr port) calloc_ok) sl p
       = Fault bad_access).
Proof.
  split; [intros Hin room; by apply accept_blacklisted|]. intros Hout.
  unfold accept_cb, accept_cb_queue. cbn [ae_accept]. rewrite sockaddr2str_ipv4 by done.
  rewrite (not_true_is_false _ (fun H => Hout (proj1 (in_addr_list_contains_spec _ _) H))).
  unfold print_accepted_connection_log, inet_ntop, INET_ADDRSTRLEN, log_str_size.
  pose proof (ntop4_length addr). by ztest.
Qed.

Lemma accept_blacklist_and_overflow_witness :
  accept_cb 16 (mkglobals None 0 [16777226]) false (mkaenv (ACCEPT_CLIENT 7 16777226 80) true)
    demo_started idle_process = Ret (demo_started, idle_process) /\
  accept_cb log_str_size (mkglobals None 0 [16777226]) false (mkaenv (ACCEPT_CLIENT 7 33554442 80) true)
    demo_started idle_process = Fault bad_access.
Proof.
  assert (Hsd : 7 ∉ pr_fds idle_process) by (vm_compute; discriminate).
  split.
  - refine (proj1 (accept_blacklist_and_overflow (mkglobals None 0 [16777226]) demo_started idle_process
      7 16777226 80 true Hsd) _ 16). by apply list_elem_of_singleton.
  - refine (proj2 (accept_blacklist_and_overflow (mkglobals None 0 [16777226]) demo_started idle_process
      7 33554442 80 true Hsd) _). intros H. apply list_elem_of_singleton in H. discriminate H.
Defined.

(** C32: a TCP listener with the dumb decoder hands to the default topic the data of
    a connection as it is read, in order, one message per read of up to 4096 bytes,
    as long as librdkafka takes them; the connection stays in its loop and the
    buffers of the reads are never freed. *)
Theorem tcp_dumb_in_order {rk : Rdkafka} {producer : Producer} {jansson : Jansson} {fifo : RdFifoq}
    {O : Type} (room : Z) (gc : socket_globals) (topic : option bytes) (r : rkt)
    (sl : socket_listener unit dumb_world O) (p : process dumb_world) (i w : nat) loop q io
    (reads : list (bytes * select_answer)) :
  l_decoder (sl_listener sl) = dumb_decoder topic -> new_rkt_global_config topic = Some r ->
  gc_response gc = None -> sl_workers sl !! i = Some (mkslot (Some loop) q Waiting) ->
  w ∈ lp_watchers loop -> pr_heap p !! w = Some io ->
  cp_magic (io_data io) = CONNECTION_PRIVATE_MAGIC ->
  Forall (fun d => d.1 <> [] /\ zlen d.1 <= READ_BUFFER_SIZE /\ rd_kafka_produce r d.1 = ERR_NO_ERROR) reads ->
  tcp_run room gc (map (fun d => EvRead i w (mkrenv (RECV_DATA d.1) d.2)) reads) sl p
    = Some (Ret (sl, produced_more p (rd_kafka_topic_name r) (map fst reads))).
Proof.
  intros Hl Hr Hresp Hslot Hw Hio Hmagic Hreads. revert p Hio.
  induction Hreads as [|[d sel] reads (Hne & Hlen & Hp) _ IH]; intros p Hio.
  { cbn. by rewrite produced_more_nil. }
  cbn in Hne, Hlen, Hp. cbn [map].
  assert (Hread : read_cb gc (sl_listener sl) (mkrenv (RECV_DATA d) sel) loop w p
    = Ret (loop, produced_more p (rd_kafka_topic_name r) [d])).
  { unfold read_cb. rewrite Hio, Hmagic, Z.eqb_refl. cbn [c_assert mbind outcome_bind re_recv receive_from_socket].
    rewrite ztake_all by done.
    assert (0 < zlen d) by (destruct d; [done|]; zlia). ztest.
    rewrite (process_data_dumb topic r) by done. unfold first_response. by rewrite Hresp. }
  erewrite tcp_run_cons.
  2:{ cbn [tcp_step]. rewrite Hslot, bool_decide_true by done. cbn [re_recv fst snd]. rewrite Hread.
      cbn [mbind outcome_bind]. rewrite list_insert_id by done. reflexivity. }
  replace (with_workers sl (sl_workers sl)) with sl by (by destruct sl).
  rewrite IH by done. rewrite produced_more_app. done.
Qed.

Lemma tcp_dumb_in_order_witness :
  tcp_run 16 no_response [read_of 0 5 "one"; read_of 0 5 "two"] dumb_socket dumb_process
    = Some (Ret (dumb_socket, produced_more dumb_process (bs "t") [bs "one"; bs "two"])).
Proof.
  apply (tcp_dumb_in_order (rk := topics_by_name) 16 no_response (Some (bs "t")) (bs "t") dumb_socket dumb_process 0 5
    (mkloop [5%nat] false false) (Some []) (mkio 9 (mkpriv CONNECTION_PRIVATE_MAGIC 0 (bs "10.0.0.1")))
    [(bs "one", SELECT_TIMEOUT); (bs "two", SELECT_TIMEOUT)]).
  - reflexivity.
  - reflexivity.
  - reflexivity.
  - reflexivity.
  - by apply list_elem_of_singleton.
  - reflexivity.
  - reflexivity.
  - repeat constructor; discriminate.
Defined.

(** C38: what stops a TCP listener: data for the zz_http2k decoder, which is given no
    session; a message that librdkafka does not take from the dumb decoder, which
    writes the reason through the response pointers it was not given; and a client
    that does not take the configured response, whose connection is written after
    it was freed. *)
Theorem tcp_read_faults {alloc : Allocator} {abi : Abi} {yajl : Yajl} {gen : YajlGen}
    {strings : ExpatStrings} {expat : Expat} {rk : Rdkafka} {batch : BatchProducer}
    {producer : Producer} {jansson : Jansson} {fifo : RdFifoq} {O : Type}
    (string_addr : cstring -> Z) (sizeof_session : Z) (gc : socket_globals) (data : bytes)
    (sel : select_answer) (loop : ev_loop) (w : nat) (io : ev_io) (opaque : option O) (port : Z) :
  data <> [] -> cp_magic (io_data io) = CONNECTION_PRIVATE_MAGIC ->
  (forall p, pr_heap p !! w = Some io ->
     read_cb gc (mklistener (zz_decoder string_addr sizeof_session) opaque port)
       (mkrenv (RECV_DATA data) sel) loop w p = Fault bad_access) /\
  (forall p topic r, pr_heap p !! w = Some io -> new_rkt_global_config topic = Some r ->
     rd_kafka_produce r (ztake READ_BUFFER_SIZE data) <> ERR_NO_ERROR ->
     read_cb gc (mklistener (dumb_decoder topic) opaque port)
       (mkrenv (RECV_DATA data) sel) loop w p = Fault bad_access) /\
  (forall (S W : Type) (l : listener S W O) p response, pr_heap p !! w = Some io -> decodes l ->
     gc_response gc = Some response -> gc_response_len gc <> 0 ->
     cp_first_response_sent (io_data io) = 0 -> (forall n, sel = SELECT_READY n -> n <= 0) ->
     read_cb gc l (mkrenv (RECV_DATA data) sel) loop w p = Fault use_after_free).
Proof.
  intros Hne Hmagic.
  assert (Hlen : 0 < zlen (ztake READ_BUFFER_SIZE data)).
  { destruct data as [|c d]; [done|]. unfold ztake, zlen, READ_BUFFER_SIZE. rewrite length_take.
    cbn [length]. lia. }
  assert (Hread : forall (S W : Type) (l : listener S W O) (p : process W), pr_heap p !! w = Some io ->
    read_cb gc l (mkrenv (RECV_DATA data) sel) loop w p =
    (p1 ← process_data_received_from_socket l (ztake READ_BUFFER_SIZE data)
            (Some (cp_client (io_data io))) (with_buffers p (pr_buffers p + 1));
     first_response gc (mkrenv (RECV_DATA data) sel) loop w io p1)).
  { intros S W l p Hio. unfold read_cb. rewrite Hio, Hmagic, Z.eqb_refl.
    cbn [c_assert mbind outcome_bind re_recv receive_from_socket]. by ztest. }
  split_and!.
  - intros p Hio. by rewrite Hread by done.
  - intros p topic r Hio Hr Hp. rewrite Hread by done. unfold process_data_received_from_socket,
      listener_decode. cbn [l_decoder dec_callback dumb_decoder]. unfold dumb_decode. rewrite Hr.
    cbn [default from_option id]. by rewrite bool_decide_false by done.
  - intros S W l p response Hio Hdec Hresp Hrl Hfirst Hsel. rewrite Hread by done.
    unfold process_data_received_from_socket.
    destruct (Hdec (pr_decoder (with_buffers p (pr_buffers p + 1))) (ztake READ_BUFFER_SIZE data)
      (add_key_value_pair [] (mkpair (bs "client_ip") (Some (cp_client (io_data io)))))) as [r ->].
    cbn [mbind outcome_bind]. unfold first_response. rewrite Hresp, Hfirst. ztest. cbn [re_send].
    destruct (send_to_socket sel response (gc_response_len gc - 1)) as [ret written] eqn:Es.
    assert (ret <= 0).
    { destruct sel as [n| |]; cbn in Es; injection Es as <- <-; [by apply Hsel|lia..]. }
    cbn [mbind outcome_bind]. ztest. cbn. unfold mark_response_sent. cbn. by rewrite lookup_delete_eq.
Qed.

#[local] Existing Instance brace_yajl.
#[local] Existing Instance readme_expat.
#[local] Existing Instance all_accepted.

Definition log_process : process (list bytes) :=
  mkproc {[3; 9]} {[5%nat := mkio 9 (mkpriv CONNECTION_PRIVATE_MAGIC 0 (bs "10.0.0.1"))]} 6 false [] 0 [].

Lemma tcp_read_faults_witness :
  read_cb no_response dumb_listener (mkrenv (RECV_DATA (bs "!no")) SELECT_TIMEOUT)
    (mkloop [5%nat] false false) 5 dumb_process = Fault bad_access /\
  read_cb (mkglobals (Some (bs "ok")) 2 []) (mklistener log_decoder None 2056)
    (mkrenv (RECV_DATA (bs "yes")) SELECT_ERROR)
    (mkloop [5%nat] false false) 5 log_process = Fault use_after_free.
Proof.
  split.
  - destruct (tcp_read_faults (rk := topics_by_name) (O := unit) (fun _ => 64) 100 no_response (bs "!no")
      SELECT_TIMEOUT (mkloop [5%nat] false false) 5
      (mkio 9 (mkpriv CONNECTION_PRIVATE_MAGIC 0 (bs "10.0.0.1"))) None 2056) as (_ & H & _);
      [discriminate|reflexivity|].
    apply (H dumb_process (Some (bs "t")) (bs "t")); [reflexivity|reflexivity|discriminate].
  - destruct (tcp_read_faults (rk := topics_by_name) (O := unit) (fun _ => 64) 100
      (mkglobals (Some (bs "ok")) 2 []) (bs "yes") SELECT_ERROR (mkloop [5%nat] false false) 5
      (mkio 9 (mkpriv CONNECTION_PRIVATE_MAGIC 0 (bs "10.0.0.1"))) None 2056) as (_ & _ & H);
      [discriminate|reflexivity|].
    apply (H unit (list bytes) (mklistener log_decoder None 2056) log_process (bs "ok"));
      [reflexivity| |reflexivity|discriminate|reflexivity|discriminate].
    intros w b props. by eexists.
Defined.

(** The callbacks are the steps of the threads done without interruption.
    [accept_cb] is its two halves, and [async_cb] returns: with one round more than
    the length of the queue it empties the queue and starts its connections in
    order, which is what the steps of the worker do. *)
Theorem callbacks_are_steps {jansson : Jansson} {fifo : RdFifoq} {S W O : Type} (room : Z)
    (gc : socket_globals) (sl : socket_listener S W O) (p : process W) :
  tcp_ok sl p ->
  (forall ev_error env sl1 p1, sl_main sl = Accepting ->
     match ae_accept env with ACCEPT_CLIENT sd _ _ => sd ∉ pr_fds p | ACCEPT_ERROR => True end ->
     accept_cb room gc ev_error env sl p = Ret (sl1, p1) ->
     tcp_run room gc [EvAccept ev_error env] sl p = Some (Ret (sl1, p1)) \/
     tcp_run room gc [EvAccept ev_error env; EvSend] sl p = Some (Ret (sl1, p1))) /\
  (forall i loop q, sl_workers sl !! i = Some (mkslot (Some loop) (Some q) Waiting) ->
     lp_sent loop = true -> lp_broken loop = false ->
     exists q1, fifo_elems q1 = [] /\
       async_cb (Datatypes.S (length (fifo_elems q))) false p loop q
         = Ret (mkloop (lp_watchers loop ++ fifo_elems q) false (pr_do_shutdown p), q1) /\
       tcp_run room gc (EvAsync i :: replicate (Datatypes.S (length (fifo_elems q))) (EvPop i)) sl p
         = Some (Ret (with_workers sl (<[i := mkslot
             (Some (mkloop (lp_watchers loop ++ fifo_elems q) false (pr_do_shutdown p)))
             (Some q1) Waiting]> (sl_workers sl)), p))).
Proof.
  intros Hok. split.
  - intros ev_error env sl1 p1 Hmain Hsd H. unfold accept_cb in H. inv_bind H.
    destruct a as [[woken sl2] p2].
    assert (Hstep : tcp_step room gc (EvAccept ev_error env) sl p
      = Some (Ret (match woken with None => sl2 | Some i => with_main sl2 (Sending i) end, p2))).
    { cbn [tcp_step]. rewrite bool_decide_true by done. rewrite Hbind.
      destruct (ae_accept env); [done|]. by rewrite bool_decide_true. }
    destruct woken as [i|].
    + right. rewrite (tcp_run_cons _ _ _ _ _ _ _ _ Hstep). inv_bind Hk. injection Hk0 as <- <-.
      erewrite tcp_run_cons; [|cbn [tcp_step sl_main with_main sl_workers]; rewrite Hbind0; reflexivity].
      apply accept_queue_inv in Hbind as [[[=] _]|(j & lo & q & ph & idx & _ & _ & ->)].
      cbn. unfold with_main, with_workers. cbn. by rewrite Hmain.
    + left. rewrite (tcp_run_cons _ _ _ _ _ _ _ _ Hstep). cbn. congruence.
  - intros i loop q Hslot Hsent Hbr.
    pose proof (async_begin_ok sl p i loop (Some q) Hok Hslot) as Hok1. rewrite Hbr in Hok1.
    assert (Hlen : (i < length (sl_workers sl))%nat) by (by eapply lookup_lt_Some).
    set (loop0 := async_break p (mkloop (lp_watchers loop) false false)) in *.
    assert (E : loop0 = mkloop (lp_watchers loop) false (pr_do_shutdown p)).
    { unfold loop0, async_break. by destruct (pr_do_shutdown p). }
    destruct (drain_returns (length (fifo_elems q)) p loop0 q) as (q1 & Hq1 & Hd); [|done|].
    { intros w Hw. apply (co_owned _ _ (proj2 Hok)). rewrite (owned_at _ _ _ Hslot).
      unfold wk_owned. cbn. set_solver. }
    exists q1. split; [done|]. unfold async_cb. rewrite Hbr. fold loop0. rewrite Hd, E.
    split; [done|]. erewrite tcp_run_cons.
    2:{ cbn [tcp_step]. rewrite Hslot, Hsent, Hbr. cbn [andb negb]. fold loop0. reflexivity. }
    clearbody loop0. subst loop0.
    erewrite async_drain_steps; [|by apply list_lookup_insert_eq|done|exact Hd].
    cbn. by rewrite list_insert_insert_eq.
Qed.

Definition demo_sent : socket_listener unit (list bytes) unit * process (list bytes) :=
  match tcp_run 16 no_response [accept_of 7; EvSend] demo_started idle_process with
  | Some (Ret s) => s | _ => (demo_started, idle_process) end.

Lemma callbacks_are_steps_witness :
  exists q1, fifo_elems q1 = [] /\
    async_cb 2 false demo_sent.2 (mkloop [] true false) [0%nat] = Ret (mkloop [0%nat] false false, q1) /\
    tcp_run 16 no_response [EvAsync 0; EvPop 0; EvPop 0] demo_sent.1 demo_sent.2
      = Some (Ret (with_workers demo_sent.1 (<[0%nat := mkslot (Some (mkloop [0%nat] false false))
          (Some q1) Waiting]> (sl_workers demo_sent.1)), demo_sent.2)).
Proof.
  assert (Hok : tcp_ok demo_sent.1 demo_sent.2).
  { destruct (tcp_run_ok 16 no_response [accept_of 7; EvSend] demo_started idle_process
      (Ret demo_sent)) as (sl & p & E & Hok).
    - vm_compute. discriminate.
    - intros w b props. by eexists.
    - by repeat constructor.
    - apply demo_ok.
    - vm_compute. reflexivity.
    - apply Ret_inj in E. by rewrite E. }
  apply (proj2 (callbacks_are_steps 16 no_response demo_sent.1 demo_sent.2 Hok) 0%nat
    (mkloop [] true false) [0%nat]).
  - vm_compute. reflexivity.
  - reflexivity.
  - reflexivity.
Defined.

(** C15: the threads of a UDP listener with the dumb decoder lose and invent no
    datagram: in every interleaving the messages produced, with what the threads
    still hold, are what the rounds took, in some order.  But a round that takes
    nothing, because no datagram came in a second, produces an empty message, a
    datagram is cut at 4096 bytes, and every round leaks its buffer. *)
Theorem udp_datagrams_produced {rk : Rdkafka} {producer : Producer} {jansson : Jansson} {fifo : RdFifoq}
    {O : Type} (topic : option bytes) (r : rkt) (l : listener unit dumb_world O) (n : nat)
    (evs : list udp_event) (p : process dumb_world) r1 :
  l_decoder l = dumb_decoder topic -> new_rkt_global_config topic = Some r ->
  (forall body, rd_kafka_produce r body = ERR_NO_ERROR) ->
  Forall (fun ev => ev <> UShutdown) evs -> pr_do_shutdown p = false ->
  udp_run l evs (replicate n UIdle) p = Some r1 ->
  exists threads' p' done, r1 = Ret (threads', p') /\
    dw_produced (pr_decoder p') = dw_produced (pr_decoder p) ++ map (fun b => (rd_kafka_topic_name r, b)) done /\
    done ++ (threads' ≫= udp_pending) ≡ₚ evs ≫= udp_taken /\
    pr_buffers p' = pr_buffers p + zlen (evs ≫= udp_taken) /\
    forall i env, (ue_select env <= 0 -> udp_taken (UReceive i env) = [[]]) /\
      (forall datagram, 0 < ue_select env -> ue_shutdown env = false -> ue_recv env = RECV_DATA datagram ->
         udp_taken (UReceive i env) = [ztake READ_BUFFER_SIZE datagram]).
Proof.
  intros Hl Hr Hp Hev Hsh Hrun.
  destruct (udp_run_progress topic r l Hl Hr Hp evs (replicate n UIdle) p r1 Hev Hsh Hrun)
    as (threads' & p' & done & -> & Hd & Hb & _ & Hperm).
  exists threads', p', done. split; [done|]. split; [done|]. split; [|split; [done|]].
  - rewrite Hperm. assert (E : replicate n UIdle ≫= udp_pending = []) 
      by (clear; induction n as [|n IH]; [done|exact IH]). by rewrite E.
  - intros i env. cbn [udp_taken]. unfold udp_receive. split.
    + intros Hs. rewrite (proj2 (Z.ltb_ge 0 _)) by done. by rewrite andb_false_r.
    + intros d Hs Hf Hrecv. rewrite (proj2 (Z.ltb_lt 0 _)) by done. rewrite Hf, Hrecv. cbn [negb andb receive_from_socket].
      by ztest.
Qed.

#[local] Instance taking_producer : @Producer topics_by_name := {|
  rd_kafka_produce _ _ := ERR_NO_ERROR;
  rd_kafka_err2str _ := [];
  rd_kafka_topic_new_null := None
|}.

Definition udp_round (text : string) : udp_env :=
  mkuenv false 1 (RECV_DATA (bs text)) (SOCKADDR_IN 16777226 53) (SOCKADDR_OTHER 0).
Definition udp_timeout : udp_env := mkuenv false 0 (RECV_ERROR true) (SOCKADDR_OTHER 0) (SOCKADDR_OTHER 0).

Definition udp_demo : list udp_event :=
  [UReceive 0 (udp_round "a"); UReceive 1 (udp_round "b"); UProcess 1; UReceive 1 udp_timeout;
   UProcess 0; UProcess 1].

Definition udp_listener_demo : listener unit dumb_world unit :=
  mklistener (dumb_decoder (producer := taking_producer) (Some (bs "t"))) None 2056.

Lemma udp_datagrams_produced_witness :
  exists r1, udp_run udp_listener_demo udp_demo [UIdle; UIdle] dumb_process = Some r1 /\
  exists threads' p' done, r1 = Ret (threads', p') /\
    dw_produced (pr_decoder p') = map (fun b => (bs "t", b)) done /\
    done ++ (threads' ≫= udp_pending) ≡ₚ [bs "a"; bs "b"; []].
Proof.
  assert (Hrun : exists r1, udp_run udp_listener_demo udp_demo [UIdle; UIdle] dumb_process = Some r1)
    by (eexists; vm_compute; reflexivity).
  destruct Hrun as [r1 Hrun]. exists r1. split; [exact Hrun|].
  destruct (udp_datagrams_produced (rk := topics_by_name) (producer := taking_producer) (Some (bs "t")) (bs "t")
    udp_listener_demo 2 udp_demo dumb_process r1) as (threads' & p' & done & E & Hd & Hp & _).
  - reflexivity.
  - reflexivity.
  - reflexivity.
  - repeat constructor; discriminate.
  - reflexivity.
  - exact Hrun.
  - exists threads', p', done. split; [exact E|]. split; [exact Hd|exact Hp].
Defined.

(** C33: whatever number of threads the configuration asks for, a listener has between
    1 and 256 of them, the size of its arrays: the number asked for if it is in
    that range, 1 for zero, and 256 for larger numbers and for negative ones, which
    are read as unsigned.  Its port is the configured number modulo 65536. *)
Theorem socket_listener_bounds {jansson : Jansson} {unpack : JsonUnpack} {unpackb : JsonUnpackBool}
    {fifo : RdFifoq} {S W O : Type} (env : create_env) (config : json_t) (decoder : n2k_decoder S W O) sl :
  create_socket_listener env config decoder = Ret (Some sl) ->
  1 <= c_threads (sl_config sl) <= MAX_NUM_THREADS /\ zlen (sl_workers sl) = MAX_NUM_THREADS /\
  (forall n, unpack_i config (bs "num_threads") = Value n -> -2 ^ 31 <= n < 2 ^ 31 ->
     c_threads (sl_config sl)
       = if n =? 0 then 1 else if (n <? 0) || (MAX_NUM_THREADS <? n) then MAX_NUM_THREADS else n) /\
  exists port, unpack_i config (bs "port") = Value port /\ 0 <= l_port (sl_listener sl) < 2 ^ 16 /\
    (0 <= port < 2 ^ 16 -> l_port (sl_listener sl) = port).
Proof.
  intros (Ht & Hw & _ & _ & _ & port & Hport & Hl & _ & Hn)%create_spec. split; [done|].
  split; [by rewrite Hw; unfold zlen; rewrite length_replicate|]. split.
  - intros n Eu Hr. rewrite Eu in Hn. rewrite Hn. unfold clamp_threads, MAX_NUM_THREADS, wrap32.
    destruct (Z.lt_trichotomy n 0) as [Hneg|[->|Hpos]]; [|done|].
    + assert (E : n mod 2 ^ 32 = n + 2 ^ 32)
        by (symmetry; apply (Zmod_unique _ _ (-1)); lia). rewrite E. by ztest.
    + rewrite Z.mod_small by lia. ztest. cbn zeta. destruct (256 <? n) eqn:E; by ztest.
  - exists port. rewrite Hl. split; [done|]. split; [by apply Z.mod_pos_bound|].
    intros Hp. by rewrite Z.mod_small.
Qed.

Lemma socket_listener_bounds_witness :
  1 <= c_threads (sl_config demo_listener) <= MAX_NUM_THREADS /\
  zlen (sl_workers demo_listener) = MAX_NUM_THREADS /\
  (forall n, unpack_i two_workers (bs "num_threads") = Value n -> -2 ^ 31 <= n < 2 ^ 31 ->
     c_threads (sl_config demo_listener)
       = if n =? 0 then 1 else if (n <? 0) || (MAX_NUM_THREADS <? n) then MAX_NUM_THREADS else n) /\
  exists port, unpack_i two_workers (bs "port") = Value port /\
    0 <= l_port (sl_listener demo_listener) < 2 ^ 16 /\
    (0 <= port < 2 ^ 16 -> l_port (sl_listener demo_listener) = port).
Proof.
  apply (socket_listener_bounds all_created two_workers log_decoder demo_listener).
  vm_compute. reflexivity.
Defined.

(** A socket listener that has no main event loop cannot be joined: the event is
    sent through a NULL pointer.  That is every listener whose main thread has not
    got to its loop yet, or never will because its port is taken, and every UDP
    listener.  And when [socket] fails its result is taken for the descriptor 0,
    which the loop then uses and closes. *)
Theorem join_without_loop_faults {jansson : Jansson} {unpack : JsonUnpack} {unpackb : JsonUnpackBool}
    {fifo : RdFifoq} {S W O : Type} (cenv : create_env) (config : json_t) (decoder : n2k_decoder S W O)
    (sl : socket_listener S W O) (p : process W) :
  create_socket_listener cenv config decoder = Ret (Some sl) ->
  join_listener_socket sl p = Fault bad_access /\
  (forall fuel lenv stenv mutex_ok room gc tcp_evs udp_evs sl1 p1,
     c_proto (sl_config sl) = Some N2KAFKA_UDP \/
     (c_proto (sl_config sl) = Some N2KAFKA_TCP /\ le_bind lenv = -1 /\ le_socket lenv <> -1) ->
     main_socket_loop fuel lenv stenv mutex_ok room gc tcp_evs udp_evs sl p = Some (Ret (sl1, p1)) ->
     join_listener_socket sl1 p1 = Fault bad_access) /\
  (forall lenv, le_socket lenv = -1 ->
     createListenSocket lenv (c_proto (sl_config sl)) (l_port (sl_listener sl)) (pr_fds p)
       = Ret (0, pr_fds p)).
Proof.
  intros (_ & _ & _ & He & _)%create_spec. unfold join_listener_socket at 1. rewrite He. split; [done|].
  assert (Hjoin : forall p', join_listener_socket sl p' = Fault bad_access)
    by (intros p'; unfold join_listener_socket; by rewrite He). split.
  - intros fuel lenv stenv mutex_ok room gc tcp_evs udp_evs sl1 p1 Hproto H.
    enough (sl1 = sl) as -> by done. unfold main_socket_loop in H.
    destruct Hproto as [Hu|(Ht & Hb & Hs)].
    + rewrite Hu in H. destruct (createListenSocket _ _ _ _) as [[fd fds]| |]; try done.
      destruct (fd =? -1); [by simplify_eq|]. change (strcmp0 N2KAFKA_UDP N2KAFKA_UDP) with true in H.
      destruct (main_udp_loop _ _ _ _ _) as [[]|]; by simplify_eq.
    + rewrite Ht in H. unfold createListenSocket in H.
      change (strcmp0 N2KAFKA_UDP N2KAFKA_TCP || strcmp0 N2KAFKA_TCP N2KAFKA_TCP) with true in H.
      rewrite (proj2 (Z.eqb_neq _ _) Hs), Hb in H.
      destruct (c_assert _); cbn in H; try done. by simplify_eq.
  - intros lenv Hs. unfold createListenSocket. destruct (c_proto (sl_config sl)); [|done].
    destruct (_ || _); [|done]. by rewrite Hs.
Qed.

Definition no_socket : listen_env := mklenv (-1) 0 0.

Lemma join_without_loop_faults_witness :
  join_listener_socket demo_listener idle_process = Fault bad_access /\
  createListenSocket no_socket (c_proto (sl_config demo_listener)) (l_port (sl_listener demo_listener))
    (pr_fds idle_process) = Ret (0, pr_fds idle_process).
Proof.
  destruct (join_without_loop_faults all_created two_workers log_decoder demo_listener idle_process)
    as (H1 & _ & H2); [vm_compute; reflexivity|]. split; [exact H1|]. apply H2. reflexivity.
Defined.
