(* ===== verification/SocketStop.v ===== *)
(** * The socket listeners: how a TCP listener ends

    [join_listener_socket] wakes up the main thread of the listener and waits for it;
    the main thread wakes up its workers and waits for them.  The theorem is that
    this ends, whatever the threads are doing. *)

From S2P Require Import Prelude Pair Addr CString KafkaArray TopicDb ZzJson ZzXml ZzSession Decoders HttpConfig Socket SocketProps SocketDelivery.
From stdpp Require Import gmap.
#[local] Open Scope Z_scope.

Section stop.
Context {jansson : Jansson} {fifo : RdFifoq} {S W O : Type}.
Implicit Types (p : process W) (sl : socket_listener S W O).

(** ** Invariants of the runs *)

(** The main thread has been told to end, and it has, or its event is there. *)
Definition stopping sl p : Prop :=
  pr_do_shutdown p = true /\ (sl_main sl = Stopped \/ sl_event_loop sl = Some true).

(** A worker only returns from a loop that was told to end. *)
Definition exits_ok (workers : list worker_slot) : Prop :=
  forall i loop q, workers !! i = Some (mkslot (Some loop) q Finished) -> lp_broken loop = true.

Lemma exits_insert workers i slot :
  exits_ok workers ->
  (forall loop q, slot = mkslot (Some loop) q Finished -> lp_broken loop = true) ->
  exits_ok (<[i := slot]> workers).
Proof.
  intros H Hs j loop q Hj. destruct (decide (i = j)) as [<-|Hne].
  - apply list_lookup_insert_Some in Hj as [(_ & E & _)|[[] _]]; [|done]. by apply (Hs loop q).
  - rewrite list_lookup_insert_ne in Hj by done. by eapply H.
Qed.

Lemma first_response_shutdown gc env loop w io p loop1 p1 :
  first_response gc env loop w io p = Ret (loop1, p1) -> pr_do_shutdown p1 = pr_do_shutdown p.
Proof.
  assert (Hmark : forall p p', mark_response_sent w p = Ret p' -> pr_do_shutdown p' = pr_do_shutdown p).
  { unfold mark_response_sent. intros q q'. destruct (pr_heap q !! w); [|done]. by intros [= <-]. }
  unfold first_response. destruct (gc_response gc); [|by intros [= <- <-]].
  destruct (_ =? 0); [|by intros [= <- <-]]. intros H. inv_bind H. destruct a as [send_ret p2].
  assert (E : pr_do_shutdown p2 = pr_do_shutdown p).
  { destruct (gc_response_len gc =? 0).
    - inv_bind Hbind. injection Hk0 as _ <-. by apply Hmark.
    - destruct (send_to_socket _ _ _). by injection Hbind as _ <-. }
  destruct (if send_ret <=? 0 then _ else _) as [loop2 p3] eqn:E3. inv_bind Hk. injection Hk0 as <- <-.
  apply Hmark in Hbind0. rewrite Hbind0, <- E. by destruct (send_ret <=? 0); injection E3 as _ <-.
Qed.

Lemma read_cb_shutdown gc (l : listener S W O) env loop w p loop1 p1 :
  read_cb gc l env loop w p = Ret (loop1, p1) -> pr_do_shutdown p1 = pr_do_shutdown p.
Proof.
  unfold read_cb. destruct (pr_heap p !! w) as [io|]; [|done]. intros H. inv_bind H.
  destruct (receive_from_socket _ _) as [recv_result buffer]. destruct (0 <? recv_result).
  - inv_bind Hk. apply first_response_shutdown in Hk0. rewrite Hk0.
    unfold process_data_received_from_socket in Hbind0. inv_bind Hbind0. by injection Hk as <-.
  - unfold close_socket_and_stop_watcher in Hk.
    destruct (recv_result <? 0); [destruct (re_recv env) as [|[]]|]; by simplify_eq/=.
Qed.

(** What a step does to the main thread that was told to end, and to the workers. *)
Lemma accept_queue_shutdown room gc ev_error env sl p woken sl1 p1 :
  accept_cb_queue room gc ev_error env sl p = Ret (woken, sl1, p1) -> pr_do_shutdown p1 = pr_do_shutdown p.
Proof.
  unfold accept_cb_queue. intros H. destruct ev_error; [by simplify_eq|].
  destruct (ae_accept env); [by simplify_eq|]. destruct (sockaddr2str _ _); [|by simplify_eq].
  destruct (in_addr_list_contains _ _); [by simplify_eq|]. inv_bind H. unfold accept_dispatch in Hk.
  destruct (bool_decide _); [done|]. destruct (ae_calloc_ok env); [|by simplify_eq/=]. cbn [negb] in Hk.
  inv_bind Hk. by simplify_eq.
Qed.

Lemma stopping_step room gc ev sl p sl1 p1 :
  stopping sl p -> tcp_step room gc ev sl p = Some (Ret (sl1, p1)) -> stopping sl1 p1.
Proof.
  intros [Hd Hm]. unfold stopping. destruct ev as [ev_error env| |i|i|i w env|i|mine|]; cbn [tcp_step]; intros H.
  - destruct (bool_decide (sl_main sl = Accepting)) eqn:Em; [|done]. apply bool_decide_eq_true in Em.
    destruct (match ae_accept env with ACCEPT_ERROR => _ | _ => _ end); [|done]. injection H as H. inv_bind H.
    destruct a as [[woken sl2] p2]. pose proof (accept_queue_shutdown _ _ _ _ _ _ _ _ _ Hbind) as Hsh.
    destruct Hm as [Hm|Hm]; [congruence|].
    apply accept_queue_inv in Hbind as [[-> ->]|(j & lo & q2 & ph & idx & -> & _ & ->)]; simplify_eq/=;
      rewrite Hsh; auto.
  - destruct (sl_main sl) eqn:Em; try done. injection H as H. inv_bind H. simplify_eq/=.
    destruct Hm as [Hm|Hm]; [congruence|]. auto.
  - destruct (sl_workers sl !! i) as [[[loop|] q []]|]; try done. destruct (_ && _); [|done].
    by simplify_eq/=.
  - destruct (sl_workers sl !! i) as [[[loop|] [q|] []]|]; try done. injection H as H. inv_bind H.
    by simplify_eq/=.
  - destruct (sl_workers sl !! i) as [[[loop|] q []]|]; try done. destruct (bool_decide _); [|done].
    injection H as H. inv_bind H. destruct a as [loop1 p2]. apply read_cb_shutdown in Hbind. simplify_eq/=.
    by rewrite Hbind.
  - destruct (sl_workers sl !! i) as [[[loop|] q []]|]; try done. destruct (lp_broken loop); [|done].
    by simplify_eq/=.
  - destruct mine; [|by simplify_eq/=]. unfold join_listener_socket in H.
    destruct (sl_event_loop sl); [|done]. simplify_eq/=. auto.
  - destruct (sl_main sl), (sl_event_loop sl) as [[]|]; try done. simplify_eq/=. rewrite Hd. auto.
Qed.

Lemma exits_step room gc ev sl p sl1 p1 :
  tcp_ok sl p -> exits_ok (sl_workers sl) ->
  tcp_step room gc ev sl p = Some (Ret (sl1, p1)) -> exits_ok (sl_workers sl1).
Proof.
  intros Hok Hx. destruct ev as [ev_error env| |i|i|i w env|i|mine|]; cbn [tcp_step]; intros H.
  - destruct (_ && _); [|done]. injection H as H. inv_bind H. destruct a as [[woken sl2] p2].
    apply accept_queue_inv in Hbind as [[-> ->]|(j & lo & q2 & ph & idx & -> & Hj & ->)]; simplify_eq/=; [done|].
    apply exits_insert; [done|]. intros loop q [= -> _ ->]. by eapply Hx.
  - destruct (sl_main sl) as [|j|] eqn:Em; try done. injection H as H. inv_bind H. simplify_eq/=.
    unfold async_send in Hbind. destruct (sl_workers sl !! j) as [[[l2|] q2 ph2]|] eqn:E2; try done.
    injection Hbind as <-. apply exits_insert; [done|]. intros loop q [= <- _ ->]. cbn. by eapply Hx.
  - destruct (sl_workers sl !! i) as [[[loop|] q []]|]; try done. destruct (_ && _); [|done].
    simplify_eq/=. by apply exits_insert.
  - destruct (sl_workers sl !! i) as [[[loop|] [q|] []]|]; try done. injection H as H. inv_bind H.
    simplify_eq/=. apply exits_insert; [done|]. by destruct a as [[]|].
  - destruct (sl_workers sl !! i) as [[[loop|] q []]|]; try done. destruct (bool_decide _); [|done].
    injection H as H. inv_bind H. destruct a as [loop1 p2]. simplify_eq/=. by apply exits_insert.
  - destruct (sl_workers sl !! i) as [[[loop|] q []]|]; try done. destruct (lp_broken loop) eqn:Eb; [|done].
    simplify_eq/=. apply exits_insert; [done|]. by intros loop2 q2 [= <- _].
  - destruct mine; [|by simplify_eq/=]. unfold join_listener_socket in H.
    destruct (sl_event_loop sl); [|done]. by simplify_eq/=.
  - destruct (sl_main sl), (sl_event_loop sl) as [[]|]; try done. by simplify_eq/=.
Qed.

Lemma run_keeps room gc evs sl p sl1 p1 :
  tcp_ok sl p -> exits_ok (sl_workers sl) -> tcp_run room gc evs sl p = Some (Ret (sl1, p1)) ->
  tcp_ok sl1 p1 /\ exits_ok (sl_workers sl1) /\ (stopping sl p -> stopping sl1 p1).
Proof.
  revert sl p. induction evs as [|ev evs IH]; intros sl p Hok Hx H; cbn [tcp_run] in H; [by simplify_eq|].
  destruct (tcp_step room gc ev sl p) as [[[sl2 p2]| |]|] eqn:Hs; try done.
  destruct (tcp_step_cases _ _ _ _ _ _ Hok Hs) as [(sl3 & p3 & E & Hok2)|Hf]; [|inversion Hf].
  injection E as <- <-. destruct (IH sl2 p2 Hok2 (exits_step _ _ _ _ _ _ _ Hok Hx Hs) H) as (? & ? & Hst).
  split_and!; try done. intros Hst0. apply Hst. by eapply stopping_step.
Qed.

(** ** The end of the workers *)

(** A worker that was joined. *)
Definition joined (slot : worker_slot) : Prop := wk_loop slot = None /\ wk_phase slot = Finished.

Lemma stop_worker_spec fuel p slot loop q :
  pr_do_shutdown p = true -> wk_loop slot = Some loop -> wk_queue slot = Some q ->
  (wk_phase slot = Finished -> lp_broken loop = true) ->
  (forall w, w ∈ fifo_elems q -> is_Some (pr_heap p !! w)) -> (length (fifo_elems q) < fuel)%nat ->
  exists slot1, stop_worker fuel p slot = Ret slot1 /\ joined slot1.
Proof.
  intros Hd Hl Hq Hf Hin Hfuel. unfold stop_worker. rewrite Hl, Hq.
  destruct (bool_decide (wk_phase slot = Finished)) eqn:E.
  - apply bool_decide_eq_true in E. cbn [mbind outcome_bind]. rewrite Hf by done. by eexists.
  - unfold async_cb, async_break. rewrite Hd. destruct fuel as [|fuel]; [lia|].
    match goal with |- context [async_drain _ _ ?lo _] =>
      destruct (drain_returns fuel p lo q Hin) as (q1 & _ & ->); [lia|] end.
    cbn [mbind outcome_bind lp_broken]. by eexists.
Qed.

Lemma stop_workers_spec fuel p n workers :
  pr_do_shutdown p = true -> (n <= length workers)%nat ->
  (forall i slot, workers !! i = Some slot -> (i < n)%nat -> exists loop q,
     wk_loop slot = Some loop /\ wk_queue slot = Some q /\
     (wk_phase slot = Finished -> lp_broken loop = true) /\
     (forall w, w ∈ fifo_elems q -> is_Some (pr_heap p !! w)) /\ (length (fifo_elems q) < fuel)%nat) ->
  exists workers1, stop_workers fuel p n workers = Ret workers1 /\
    forall i, (i < n)%nat -> exists slot, workers1 !! i = Some slot /\ joined slot.
Proof.
  intros Hd. revert workers. induction n as [|n IH]; intros workers Hn Hs.
  { exists workers. split; [by destruct workers|]. lia. }
  destruct workers as [|slot workers]; cbn [length] in Hn; [lia|]. cbn [stop_workers].
  destruct (Hs 0%nat slot eq_refl ltac:(lia)) as (loop & q & Hl & Hq & Hf & Hin & Hfuel).
  destruct (stop_worker_spec fuel p slot loop q Hd Hl Hq Hf Hin Hfuel) as (slot1 & -> & Hj).
  destruct (IH workers ltac:(lia)) as (workers1 & -> & Hall).
  { intros i s Hi Hlt. apply (Hs (Datatypes.S i) s); [done|lia]. }
  eexists. split; [reflexivity|]. intros [|i] Hi; [by eexists|]. apply Hall. lia.
Qed.

(** The longest queue. *)
Definition max_queue (workers : list worker_slot) : nat :=
  fold_right (fun slot n => Nat.max
    match wk_queue slot with Some q => length (fifo_elems q) | None => 0%nat end n) 0%nat workers.

Lemma max_queue_le workers i slot q :
  workers !! i = Some slot -> wk_queue slot = Some q -> (length (fifo_elems q) <= max_queue workers)%nat.
Proof.
  revert i. induction workers as [|s workers IH]; intros [|i] Hi Hq; try done;
    cbn [max_queue fold_right]; fold (max_queue workers).
  - injection Hi as ->. rewrite Hq. lia.
  - specialize (IH i Hi Hq). lia.
Qed.

(** When the main thread has left its loop it joins every worker. *)
Lemma main_stop_spec fuel sl p :
  tcp_ok sl p -> exits_ok (sl_workers sl) -> pr_do_shutdown p = true ->
  (max_queue (sl_workers sl) < fuel)%nat ->
  exists workers, main_tcp_loop_stop fuel sl p = Ret (with_event_loop (with_workers sl workers) None) /\
    forall i, Z.of_nat i < c_threads (sl_config sl) -> exists slot, workers !! i = Some slot /\ joined slot.
Proof.
  intros [Hok Hc] Hx Hd Hfuel. unfold main_tcp_loop_stop.
  destruct (stop_workers_spec fuel p (Z.to_nat (c_threads (sl_config sl))) (sl_workers sl) Hd)
    as (workers & -> & Hall).
  - rewrite (so_len sl Hok). pose proof (so_threads sl Hok). lia.
  - intros i slot Hi Hlt. destruct (so_slots sl Hok i slot Hi ltac:(lia)) as (loop & q & Hl & Hq & _).
    exists loop, q. split_and!; try done.
    + intros Hf. destruct slot as [lo qu ph]. cbn in *. subst. by eapply Hx.
    + intros w Hw. apply (co_owned _ _ Hc). rewrite (owned_at _ _ _ Hi). unfold wk_owned. rewrite Hq. set_solver.
    + pose proof (max_queue_le _ _ _ _ Hi Hq). lia.
  - exists workers. split; [done|]. intros i Hi. apply Hall. lia.
Qed.

(** The steps the main thread still has to make. *)
Definition last_steps (main : main_phase) : list tcp_event :=
  match main with Accepting => [EvMainAsync] | Sending _ => [EvSend; EvMainAsync] | Stopped => [] end.

Lemma last_steps_run room gc sl p :
  tcp_ok sl p -> stopping sl p ->
  exists sl1, tcp_run room gc (last_steps (sl_main sl)) sl p = Some (Ret (sl1, p)) /\ sl_main sl1 = Stopped.
Proof.
  intros Hok [Hd Hm]. destruct (sl_main sl) as [|i|] eqn:Em; cbn [last_steps tcp_run tcp_step].
  - destruct Hm as [Hm|Hm]; [done|]. rewrite Em, Hm, Hd. by eexists.
  - destruct Hm as [Hm|Hm]; [done|]. rewrite Em.
    destruct (async_send_ok sl p i Hok Em) as (workers & -> & _). cbn. rewrite Hm, Hd. by eexists.
  - by eexists.
Qed.

(** ** The whole life of the main thread *)

Lemma join_stopping sl p sl1 p1 : join_listener_socket sl p = Ret (sl1, p1) -> stopping sl1 p1.
Proof.
  unfold join_listener_socket. destruct (sl_event_loop sl); [|done]. intros [= <- <-].
  split; [done|]. by right.
Qed.

Lemma start_workers_exits env i n workers workers1 :
  exits_ok workers -> start_workers env i n workers = Ret workers1 -> exits_ok workers1.
Proof.
  revert i workers. induction n as [|n IH]; intros i workers Hx H; cbn [start_workers] in H; [by simplify_eq|].
  inv_bind H. refine (IH _ _ _ Hk). unfold start_worker in Hbind.
  destruct (workers !! i); [|done]. destruct (st_args env i); [|by simplify_eq/=].
  destruct (st_loops env i); injection Hbind as <-; by apply exits_insert.
Qed.

Lemma start_exits env sl sl1 :
  sl_workers sl = replicate (Z.to_nat MAX_NUM_THREADS) empty_slot ->
  main_tcp_loop_start env sl = Ret sl1 -> exits_ok (sl_workers sl1).
Proof.
  intros Hw H. assert (Hx : exits_ok (sl_workers sl)).
  { rewrite Hw. intros i loop q Hi. by apply lookup_replicate in Hi as [? _]. }
  unfold main_tcp_loop_start in H. destruct (st_main_loop env); [|by injection H as <-]. cbn [negb] in H.
  inv_bind H. injection Hk as <-. by apply start_workers_exits in Hbind.
Qed.

Lemma tcp_step_config room gc ev sl p sl1 p1 :
  tcp_step room gc ev sl p = Some (Ret (sl1, p1)) -> sl_config sl1 = sl_config sl.
Proof.
  destruct ev; cbn [tcp_step]; intros H; unfold join_listener_socket in *.
  1: destruct (_ && _); [|done]; injection H as H; inv_bind H; destruct a as [[woken sl2] p2];
     apply accept_queue_inv in Hbind as [[-> ->]|(i & lo & q & ph & idx & -> & _ & ->)]; by simplify_eq/=.
  all: repeat (case_match; simplify_eq/=; try done); repeat (inv_bind H; simplify_eq/=; try done).
  destruct a as [loop1 p2]. by simplify_eq/=.
Qed.

Lemma tcp_run_same room gc evs sl p sl1 p1 :
  tcp_run room gc evs sl p = Some (Ret (sl1, p1)) ->
  sl_listener sl1 = sl_listener sl /\ sl_config sl1 = sl_config sl.
Proof.
  revert sl p. induction evs as [|ev evs IH]; intros sl p H; cbn [tcp_run] in H; [by simplify_eq|].
  destruct (tcp_step room gc ev sl p) as [[[sl2 p2]| |]|] eqn:Hs; try done.
  rewrite <- (tcp_step_listener _ _ _ _ _ _ _ Hs), <- (tcp_step_config _ _ _ _ _ _ _ Hs). by eapply IH.
Qed.

(** [main_socket_loop] of a TCP listener, for a run after which its main thread has
    left its loop. *)
Lemma main_socket_loop_tcp fuel lenv stenv mutex_ok room gc evs udp_evs sl p sl1 sl2 p2 sl3 proto listenfd fds :
  c_proto (sl_config sl) = Some proto -> proto <> N2KAFKA_UDP ->
  createListenSocket lenv (Some proto) (l_port (sl_listener sl)) (pr_fds p) = Ret (listenfd, fds) ->
  listenfd <> -1 -> main_tcp_loop_start stenv sl = Ret sl1 -> sl_main sl1 = Accepting ->
  tcp_run room gc evs sl1 (with_fds p fds) = Some (Ret (sl2, p2)) -> sl_main sl2 = Stopped ->
  main_tcp_loop_stop fuel sl2 p2 = Ret sl3 ->
  main_socket_loop fuel lenv stenv mutex_ok room gc evs udp_evs sl p
    = Some (Ret (sl3, with_fds p2 (pr_fds p2 ∖ {[listenfd]}))).
Proof.
  intros Hproto Hudp Hsock Hfd Hstart Hmain Hrun Hstopped Hstop. unfold main_socket_loop.
  rewrite Hproto, Hsock, (proj2 (Z.eqb_neq _ _) Hfd). unfold strcmp0. rewrite bool_decide_false by congruence.
  unfold main_tcp_loop. rewrite Hstart, Hmain, bool_decide_false by done.
  rewrite Hrun, Hstopped, bool_decide_true by done. by rewrite Hstop.
Qed.

End stop.

(** ** Properties *)

(** C12: joining a TCP listener ends.  From the creation of the listener, whatever its
    threads, its clients and the other listeners do ([evs]), once
    [join_listener_socket] has told its main thread to end, and whatever happens
    then ([evs']), at most two steps of the main thread are left: it can always make
    them, and then leaves its loop, wakes up and joins every worker, whose last
    callback ends with as many rounds as its queue has connections and one more, and
    closes the listening socket; so the [pthread_join] of [join_listener_socket]
    returns, and the data of the decoder is released.  No worker is left running; the
    connections that the workers had are not closed.  The callbacks before that
    returned, the socket and the loops could be created, and the mode is not a thread
    per connection. *)
Theorem tcp_join_ends {jansson : Jansson} {unpack : JsonUnpack} {unpackb : JsonUnpackBool} {fifo : RdFifoq}
    {S W O : Type} (cenv : create_env) (config : json_t) (decoder : n2k_decoder S W O)
    (room : Z) (gc : socket_globals) (lenv : listen_env) (stenv : start_tcp_env) (mutex_ok : bool)
    (evs evs' : list tcp_event) (udp_evs : list udp_event) (sl sl1 sl2 sl3 sl4 : socket_listener S W O)
    (p p2 p3 p4 : process W) (proto : bytes) (listenfd : Z) (fds : gset Z) :
  create_socket_listener cenv config decoder = Ret (Some sl) ->
  c_proto (sl_config sl) = Some proto -> proto <> N2KAFKA_UDP ->
  c_thread_mode (sl_config sl) <> MODE_THREAD_PER_CONNECTION ->
  createListenSocket lenv (Some proto) (l_port (sl_listener sl)) (pr_fds p) = Ret (listenfd, fds) ->
  listenfd <> -1 -> pr_heap p = ∅ ->
  (forall k, st_args stenv k = true /\ st_loops stenv k = true) -> st_main_loop stenv = true ->
  main_tcp_loop_start stenv sl = Ret sl1 ->
  tcp_run room gc evs sl1 (with_fds p fds) = Some (Ret (sl2, p2)) ->
  join_listener_socket sl2 p2 = Ret (sl3, p3) ->
  tcp_run room gc evs' sl3 p3 = Some (Ret (sl4, p4)) ->
  exists sl5, tcp_run room gc (last_steps (sl_main sl4)) sl4 p4 = Some (Ret (sl5, p4)) /\
  forall fuel, (max_queue (sl_workers sl5) < fuel)%nat ->
  exists sl6,
    main_socket_loop fuel lenv stenv mutex_ok room gc
      (evs ++ EvShutdown true :: evs' ++ last_steps (sl_main sl4)) udp_evs sl p
      = Some (Ret (sl6, with_fds p4 (pr_fds p4 ∖ {[listenfd]}))) /\
    sl_event_loop sl6 = None /\
    (forall i, Z.of_nat i < c_threads (sl_config sl) ->
       exists slot, sl_workers sl6 !! i = Some slot /\ joined slot) /\
    join_listener_socket_end (main_socket_loop fuel lenv stenv mutex_ok room gc
      (evs ++ EvShutdown true :: evs' ++ last_steps (sl_main sl4)) udp_evs sl p)
      = Some (Ret (listener_join (sl_listener sl), with_fds p4 (pr_fds p4 ∖ {[listenfd]}))).
Proof.
  intros Hcreate Hproto Hudp Hmode Hsock Hfd Hheap Henv Hml Hstart Hrun Hjoin Hrun'.
  apply create_spec in Hcreate as (Hth & Hw & Hidx & _ & _ & _).
  destruct (start_ok stenv sl (with_fds p fds) Henv Hml Hth Hmode Hw Hidx Hheap)
    as (sl1' & Hs & Hok1 & Hmain1 & Hlst1). rewrite Hstart in Hs. injection Hs as <-.
  assert (Hstep : tcp_step room gc (EvShutdown true) sl2 p2 = Some (Ret (sl3, p3))) by (cbn; by rewrite Hjoin).
  assert (Hall : tcp_run room gc (evs ++ EvShutdown true :: evs') sl1 (with_fds p fds) = Some (Ret (sl4, p4))).
  { by rewrite (tcp_run_app _ _ _ _ _ _ _ _ Hrun), (tcp_run_cons _ _ _ _ _ _ _ _ Hstep). }
  destruct (run_keeps _ _ _ _ _ _ _ Hok1 (start_exits _ _ _ Hw Hstart) Hrun) as (Hok2 & Hx2 & _).
  destruct (run_keeps room gc [EvShutdown true] sl2 p2 sl3 p3 Hok2 Hx2) as (Hok3 & Hx3 & _);
    [cbn [tcp_run]; by rewrite Hstep|].
  destruct (run_keeps _ _ _ _ _ _ _ Hok3 Hx3 Hrun') as (Hok4 & Hx4 & Hst).
  destruct (last_steps_run room gc sl4 p4 Hok4 (Hst (join_stopping _ _ _ _ Hjoin))) as (sl5 & Hlast & Hstopped).
  exists sl5. split; [done|]. intros fuel Hfuel.
  destruct (run_keeps _ _ _ _ _ _ _ Hok4 Hx4 Hlast) as (Hok5 & Hx5 & _).
  assert (Hsd : pr_do_shutdown p4 = true) by apply (Hst (join_stopping _ _ _ _ Hjoin)).
  destruct (main_stop_spec fuel sl5 p4 Hok5 Hx5 Hsd Hfuel) as (workers & Hstop & Hjoined).
  assert (Hwhole : tcp_run room gc (evs ++ EvShutdown true :: evs' ++ last_steps (sl_main sl4)) sl1 (with_fds p fds)
    = Some (Ret (sl5, p4))).
  { change (EvShutdown true :: evs' ++ last_steps (sl_main sl4))
      with ((EvShutdown true :: evs') ++ last_steps (sl_main sl4)).
    by rewrite app_assoc, (tcp_run_app _ _ _ _ _ _ _ _ Hall). }
  destruct (tcp_run_same _ _ _ _ _ _ _ Hwhole) as [Hl5 Hc5].
  assert (Hcfg1 : sl_config sl1 = sl_config sl).
  { unfold main_tcp_loop_start in Hstart. rewrite Hml in Hstart. cbn [negb] in Hstart. inv_bind Hstart.
    by injection Hk as <-. }
  pose proof (main_socket_loop_tcp fuel lenv stenv mutex_ok room gc _ udp_evs sl p sl1 sl5 p4 _ proto listenfd fds
    Hproto Hudp Hsock Hfd Hstart Hmain1 Hwhole Hstopped Hstop) as Hloop.
  eexists. split; [exact Hloop|]. split; [done|]. split.
  - intros i Hi. apply Hjoined. by rewrite Hc5, Hcfg1.
  - rewrite Hloop. cbn. by rewrite Hl5, Hlst1.
Qed.

#[local] Existing Instance flat_jansson.
#[local] Existing Instance flat_unpack.
#[local] Existing Instance flat_unpack_bool.
#[local] Existing Instance list_fifoq.

(** The listening socket is descriptor 3; a client is in the queue of the first worker
    when the join begins, and another one comes during it. *)
Definition stop_process : process (list bytes) := mkproc ∅ ∅ 0 false [] 0 [].
Definition stop_lenv : listen_env := mklenv 3 0 0.

Definition run_of (evs : list tcp_event) (s : socket_listener unit (list bytes) unit * process (list bytes)) :=
  match tcp_run 16 no_response evs s.1 s.2 with Some (Ret s1) => s1 | _ => s end.

Definition stop_served := run_of [accept_of 7; EvSend] (demo_started, with_fds stop_process {[3]}).
Definition stop_joined :=
  match join_listener_socket stop_served.1 stop_served.2 with Ret s => s | _ => stop_served end.
Definition stop_last := run_of [accept_of 8] stop_joined.

Lemma tcp_join_ends_witness :
  exists sl5, tcp_run 16 no_response [EvSend; EvMainAsync] stop_last.1 stop_last.2 = Some (Ret (sl5, stop_last.2)) /\
  forall fuel, (max_queue (sl_workers sl5) < fuel)%nat ->
  exists sl6,
    main_socket_loop fuel stop_lenv all_started true 16 no_response
      ([accept_of 7; EvSend] ++ EvShutdown true :: [accept_of 8] ++ [EvSend; EvMainAsync]) [] demo_listener
      stop_process
      = Some (Ret (sl6, with_fds stop_last.2 {[7; 8]})).
Proof.
  destruct (tcp_join_ends all_created two_workers log_decoder 16 no_response stop_lenv all_started true
    [accept_of 7; EvSend] [accept_of 8] [] demo_listener demo_started stop_served.1 stop_joined.1 stop_last.1
    stop_process stop_served.2 stop_joined.2 stop_last.2 (bs "tcp") 3 {[3]}) as (sl5 & Hrun & Hend).
  - vm_compute. reflexivity.
  - vm_compute. reflexivity.
  - discriminate.
  - vm_compute. discriminate.
  - vm_compute. reflexivity.
  - discriminate.
  - reflexivity.
  - intros k. split; reflexivity.
  - reflexivity.
  - vm_compute. reflexivity.
  - vm_compute. reflexivity.
  - vm_compute. reflexivity.
  - vm_compute. reflexivity.
  - exists sl5. split; [exact Hrun|]. intros fuel Hfuel. destruct (Hend fuel Hfuel) as (sl6 & Hloop & _).
    exists sl6. etransitivity; [exact Hloop|]. reflexivity.
Defined.
