(* ===== verification/GlobalConfig.v ===== *)
(** * The global configuration

    engine/global_config.c: the configuration file and the environment at the
    start of the process, the options of librdkafka, the blacklist, the listeners,
    and the reload of the listeners.  A listener factory and a listener are
    records of function pointers; the theorems on the reload are proved against
    what the factories promise ([ListenerLaws]). *)

From S2P Require Import Prelude Pair Addr CString KafkaArray TopicDb ZzJson ZzXml ZzSession HttpAuth Decoders HttpConfig Kafka Socket SocketProps SocketDelivery.
From stdpp Require Import gmap.
#[local] Open Scope Z_scope.

(** ** Libraries *)

(** jansson: documents.  [json_array_items] is what [json_array_foreach] visits if
    the value is an array, [json_object_items] the members of an object. *)
Class JanssonDoc {jansson : Jansson} := {
  json_is_object : json_t -> bool;
  json_array_items : json_t -> option (list json_t);
  json_object_items : json_t -> list (bytes * json_t);
  json_loads : bytes -> option json_t;
  json_dumps : json_t -> bytes
}.

(** librdkafka: whether [rd_kafka_conf_set] takes a property. *)
Class RdConf := { rd_kafka_conf_set : bytes -> bytes -> bool }.

(** ** State *)

(** [n2kafka_rdkafka_conf]: the properties that were set, in order, the topic of the
    statistics and the text to add to them with its NUL. *)
Record rdkafka_conf := mkrc {
  rc_set : list (bytes * bytes);
  rc_statistics_topic : option bytes;
  rc_message_extra : bytes
}.

(** [struct n2kafka_config]; [L] are the listeners. *)
Record n2kafka_config (L : Type) := mkcfg {
  g_config_path : option bytes;
  g_topic : option bytes;
  g_blacklist : list in_addr;
  g_response : option bytes;
  g_response_len : Z;
  g_listeners : list L;
  g_log_severity : Z
}.
Arguments mkcfg {L} _ _ _ _ _ _ _.
Arguments g_config_path {L} _.
Arguments g_topic {L} _.
Arguments g_blacklist {L} _.
Arguments g_response {L} _.
Arguments g_response_len {L} _.
Arguments g_listeners {L} _.
Arguments g_log_severity {L} _.

Definition LOG_INFO : Z := 6.

Definition with_listeners {L} (c : n2kafka_config L) (ls : list L) : n2kafka_config L :=
  mkcfg (g_config_path c) (g_topic c) (g_blacklist c) (g_response c) (g_response_len c) ls
    (g_log_severity c).
Definition with_topic {L} (c : n2kafka_config L) (t : option bytes) : n2kafka_config L :=
  mkcfg (g_config_path c) t (g_blacklist c) (g_response c) (g_response_len c) (g_listeners c)
    (g_log_severity c).
Definition with_blacklist {L} (c : n2kafka_config L) (b : list in_addr) : n2kafka_config L :=
  mkcfg (g_config_path c) (g_topic c) b (g_response c) (g_response_len c) (g_listeners c)
    (g_log_severity c).
Definition with_response {L} (c : n2kafka_config L) (r : bytes) : n2kafka_config L :=
  mkcfg (g_config_path c) (g_topic c) (g_blacklist c) (Some r) (zlen r) (g_listeners c)
    (g_log_severity c).
Definition with_severity {L} (c : n2kafka_config L) (s : Z) : n2kafka_config L :=
  mkcfg (g_config_path c) (g_topic c) (g_blacklist c) (g_response c) (g_response_len c)
    (g_listeners c) s.
Definition with_path {L} (c : n2kafka_config L) (path : bytes) : n2kafka_config L :=
  mkcfg (Some path) (g_topic c) (g_blacklist c) (g_response c) (g_response_len c) (g_listeners c)
    (g_log_severity c).

(** The first part of [init_global_config]; the second calls [zz_decoder_init]. *)
Definition init_global_config {L} : n2kafka_config L :=
  mkcfg None None in_addr_list_new None 0 [] LOG_INFO.

(** The part of the configuration the socket listeners read. *)
Definition socket_part {L} (c : n2kafka_config L) : socket_globals :=
  mkglobals (g_response c) (g_response_len c) (g_blacklist c).

(** ** Options of librdkafka *)

Definition CONFIG_RDKAFKA_KEY : bytes := bs "rdkafka.".
Definition rdkafka_env_prefix : bytes := bs "RDKAFKA_".
Definition stats_add_key : bytes := bs "rdkafka.n2kafka.stats.append".
Definition env_key_size : Z := 64.

(** [0 == strncasecmp(a, b, strlen(a))]. *)
Definition strcaseprefix (a b : bytes) : bool := strprefix (map tolower a) (map tolower b).

Definition is_upper (c : byte) : bool := (65 <=? byte_val c) && (byte_val c <=? 90).

(** A character of the name of a variable: a lower case letter or punctuation is
    skipped, and what was in the array, [old], stays. *)
Definition env_key_char (old c : byte) : byte :=
  if bool_decide (c = x5f) then dot
  else if is_upper c then tolower c
  else if is_digit c then c
  else old.

(** [env_key] as a C string; [old] is the array before the loop. *)
Definition env_key (old : nat -> byte) (name : bytes) : bytes :=
  c_string (imap (fun i c => env_key_char (old i) c) name).

(** The variables of [get_rdkafka_config]. *)
Record rdkafka_vars := mkvars {
  v_conf : rdkafka_conf;
  v_topic : option bytes;
  v_stats_json_enrich : option bytes
}.

(** [strrchr]: the offset of the last occurrence. *)
Fixpoint strrchr (s : bytes) (c : byte) : option Z :=
  match s with
  | [] => None
  | x :: s =>
      match strrchr s c with
      | Some n => Some (1 + n)
      | None => if bool_decide (x = c) then Some 0 else None
      end
  end.

Definition open_brace_char : byte := x7b.
Definition close_brace_char : byte := x7d.

Section rdkafka.
Context {jansson : Jansson} {doc : JanssonDoc} {rc : RdConf}.

(** A value that is not a string is fatal. *)
Definition assert_json_string (value : json_t) : outcome bytes :=
  match json_string_value value with Some s => Ret s | None => Fault process_exit end.

Definition parse_rdkafka_keyval_config (conf : rdkafka_conf) (key value : bytes)
    : outcome rdkafka_conf :=
  if zlen key <? zlen CONFIG_RDKAFKA_KEY then Fault bad_access
  else
    let name := zdrop (zlen CONFIG_RDKAFKA_KEY) key in
    let name := if strprefix (bs "topic.") name then zdrop (zlen (bs "topic.")) name else name in
    if strcmp0 name (bs "n2kafka.statistics.topic")
    then Ret (mkrc (rc_set conf) (Some value) (rc_message_extra conf))
    else if rd_kafka_conf_set name value
    then Ret (mkrc (rc_set conf ++ [(name, value)]) (rc_statistics_topic conf) (rc_message_extra conf))
    else Fault process_exit.

Definition parse_rdkafka_config_json (conf : rdkafka_conf) (key : bytes) (jvalue : json_t)
    : outcome rdkafka_conf :=
  value ← assert_json_string jvalue;
  parse_rdkafka_keyval_config conf key value.

(** The default topic and the options of librdkafka among the members of the
    configuration. *)
Definition parse_rdkafka_config_keyval (v : rdkafka_vars) (key : bytes) (value : json_t)
    : outcome rdkafka_vars :=
  if strcasecmp0 key (bs "topic") then
    t ← assert_json_string value;
    Ret (mkvars (v_conf v) (Some t) (v_stats_json_enrich v))
  else if strcasecmp0 key (bs "brokers") then
    brokers ← assert_json_string value;
    conf ← parse_rdkafka_keyval_config (v_conf v) (bs "rdkafka.metadata.broker.list") brokers;
    Ret (mkvars conf (v_topic v) (v_stats_json_enrich v))
  else if strcaseprefix CONFIG_RDKAFKA_KEY key then
    conf ← parse_rdkafka_config_json (v_conf v) key value;
    Ret (mkvars conf (v_topic v) (v_stats_json_enrich v))
  else Ret v.

(** A round of the loop over [environ]. *)
Definition environ_entry (old : nat -> byte) (v : rdkafka_vars) (entry : bytes)
    : outcome rdkafka_vars :=
  if negb (strprefix rdkafka_env_prefix entry) then Ret v
  else
    match strchr entry x3d with
    | None => Fault assert_failed
    | Some key_size =>
        if env_key_size <? key_size + 1 then Ret v
        else
          let env_val := zdrop (key_size + 1) entry in
          if bool_decide (env_val = []) then Ret v
          else
            let key := env_key old (ztake key_size entry) in
            if strcmp0 stats_add_key key
            then Ret (mkvars (v_conf v) (v_topic v) (Some env_val))
            else
              conf ← parse_rdkafka_keyval_config (v_conf v) key env_val;
              Ret (mkvars conf (v_topic v) (v_stats_json_enrich v))
    end.

(** A round of the loop over the configuration.  The value is tested for a string,
    and then the variable [jstats_json_enrich], which is still NULL, for an object. *)
Definition json_entry (jstats_json_enrich : option json_t) (v : rdkafka_vars)
    (key : bytes) (value : json_t) : outcome (option json_t * rdkafka_vars) :=
  if strcmp0 stats_add_key key then
    match json_string_value value with
    | Some s => Ret (jstats_json_enrich, mkvars (v_conf v) (v_topic v) (Some s))
    | None =>
        if match jstats_json_enrich with Some j => json_is_object j | None => false end
        then Ret (Some value, v)
        else Fault process_exit
    end
  else
    v1 ← parse_rdkafka_config_keyval v key value;
    Ret (jstats_json_enrich, v1).

Fixpoint environ_loop (old : bytes -> nat -> byte) (environ : list bytes) (v : rdkafka_vars)
    : outcome rdkafka_vars :=
  match environ with
  | [] => Ret v
  | entry :: environ => v1 ← environ_entry (old entry) v entry; environ_loop old environ v1
  end.

Fixpoint json_loop (items : list (bytes * json_t)) (j : option json_t) (v : rdkafka_vars)
    : outcome (option json_t * rdkafka_vars) :=
  match items with
  | [] => Ret (j, v)
  | (key, value) :: items => '(j1, v1) ← json_entry j v key value; json_loop items j1 v1
  end.

(** The text between the first and the last brace, and a NUL: what [malloc] and
    [memcpy] leave in [message_extra]. *)
Definition message_extra_of (text : bytes) : outcome bytes :=
  match strchr text open_brace_char with
  | None => Fault assert_failed
  | Some open_brace =>
      match strrchr (zdrop open_brace text) close_brace_char with
      | None => Fault assert_failed
      | Some size => Ret (ztake (size - 1) (zdrop (open_brace + 1) text) ++ [x00])
      end
  end.

(** The end of [get_rdkafka_config].  The dump of an object does not set the size of
    the text. *)
Definition stats_extra (j : option json_t) (v : rdkafka_vars) : outcome rdkafka_vars :=
  match j, v_stats_json_enrich v with
  | Some _, _ => Ret v
  | None, None => Ret v
  | None, Some text =>
      match json_loads text with
      | None => Fault process_exit
      | Some stats_extra =>
          if negb (json_is_object stats_extra) then Fault process_exit
          else if bool_decide (json_object_items stats_extra = []) then Ret v
          else
            extra ← message_extra_of text;
            Ret (mkvars (mkrc (rc_set (v_conf v)) (rc_statistics_topic (v_conf v)) extra)
                   (v_topic v) (v_stats_json_enrich v))
      end
  end.

Definition get_rdkafka_config (old : bytes -> nat -> byte) (environ : list bytes) (root : json_t)
    : outcome rdkafka_vars :=
  v1 ← environ_loop old environ (mkvars (mkrc [] None []) None None);
  '(j, v2) ← json_loop (json_object_items root) None v1;
  stats_extra j v2.

(** The configuration [init_rdkafka] is given. *)
Definition to_kafka_conf (c : rdkafka_conf) : n2kafka_rdkafka_conf :=
  mkconf (rc_statistics_topic c) (rc_message_extra c).

(** ** The blacklist *)

(** [garbage] is what the uninitialised [addr] holds when a text is parsed. *)
Fixpoint blacklist_loop (garbage : bytes -> in_addr) (items : list json_t) (blacklist : list in_addr)
    : outcome (list in_addr) :=
  match items with
  | [] => Ret blacklist
  | value :: items =>
      addr_string ← assert_json_string value;
      blacklist_loop garbage items 
        (in_addr_list_add blacklist (assert_pton addr_string (garbage addr_string)))
  end.

Definition parse_blacklist (garbage : bytes -> in_addr) (config_array : json_t)
    (blacklist : list in_addr) : outcome (list in_addr) :=
  match json_array_items config_array with
  | None => Fault assert_failed
  | Some items => blacklist_loop garbage items blacklist
  end.

End rdkafka.

(** ** Listeners *)

Definition http_listener_name : bytes := bs "http".

(** The function pointers of a listener, NULL if [None], and of a factory.  [D] are
    the decoders, [L] the listeners and [G] the rest of the process. *)
Record listener_ops {jansson : Jansson} (L G : Type) := mkops {
  lo_port : L -> Z;
  lo_join : L -> option (G -> outcome G);
  lo_reload : L -> option (json_t -> G -> outcome (L * G))
}.
Arguments mkops {jansson L G} _ _ _.
Arguments lo_port {jansson L G} _ _.
Arguments lo_join {jansson L G} _ _.
Arguments lo_reload {jansson L G} _ _.

Record n2k_listener_factory {jansson : Jansson} (D L G : Type) := mkfactory {
  lf_name : bytes;
  lf_create : json_t -> D -> G -> outcome (option L * G)
}.
Arguments mkfactory {jansson D L G} _ _.
Arguments lf_name {jansson D L G} _.
Arguments lf_create {jansson D L G} _.

Section listeners.
Context {jansson : Jansson} {unpack : JsonUnpack} {doc : JanssonDoc} {rc : RdConf} {D L G : Type}.
Context (ops : listener_ops L G).
Context (create_http create_socket : json_t -> D -> G -> outcome (option L * G)).
Context (dumb meraki zz : D).
Implicit Types (c : n2kafka_config L) (g : G).

Definition registered_decoders : list (bytes * D) :=
  [(dumb_decoder_name, dumb); (meraki_decoder_name, meraki); (zz_name, zz)].

Definition registered_listeners : list (n2k_listener_factory D L G) :=
  [mkfactory http_listener_name create_http; mkfactory tcp_listener_name create_socket;
   mkfactory udp_listener_name create_socket].

Fixpoint find_factory (factories : list (n2k_listener_factory D L G)) (proto : bytes)
    : option (n2k_listener_factory D L G) :=
  match factories with
  | [] => None
  | f :: factories => if strcmp0 (lf_name f) proto then Some f else find_factory factories proto
  end.

Definition listener_for (proto : bytes) : option (n2k_listener_factory D L G) :=
  find_factory registered_listeners proto.

Fixpoint find_decoder (decoders : list (bytes * D)) (decode_as : bytes) : option D :=
  match decoders with
  | [] => None
  | (name, d) :: decoders => if strcmp0 name decode_as then Some d else find_decoder decoders decode_as
  end.

Definition locate_registered_decoder (decode_as : bytes) : option D :=
  find_decoder registered_decoders decode_as.

Definition parse_listener (config : json_t) c g : outcome (n2kafka_config L * G) :=
  match unpack_s config (bs "proto"), override (unpack_s config (bs "decode_as")) [] with
  | Value proto, Some decode_as =>
      match listener_for proto with
      | None => Ret (c, g)
      | Some listener_factory =>
          match locate_registered_decoder decode_as with
          | None => Fault process_exit
          | Some decoder =>
              '(proto_listener, g1) ← lf_create listener_factory config decoder g;
              match proto_listener with
              | None => Fault process_exit
              | Some l => Ret (with_listeners c (l :: g_listeners c), g1)
              end
          end
      end
  | _, _ => Ret (c, g)
  end.

Fixpoint parse_listeners (items : list json_t) c g : outcome (n2kafka_config L * G) :=
  match items with
  | [] => Ret (c, g)
  | config :: items => '(c1, g1) ← parse_listener config c g; parse_listeners items c1 g1
  end.

Definition shutdown_listener (l : L) g : outcome G :=
  match lo_join ops l with None => Ret g | Some join => join g end.

Fixpoint shutdown_listeners (ls : list L) g : outcome G :=
  match ls with
  | [] => Ret g
  | l :: ls => g1 ← shutdown_listener l g; shutdown_listeners ls g1
  end.

(** ** Reload *)

(** The variable [port] after [json_unpack_ex(value, "{s:i}", "port", &port)]. *)
Definition config_port (value : json_t) : Z :=
  match unpack_i value (bs "port") with Value port => port | _ => 0 end.

(** The first value of the new configuration for the port of a listener. *)
Fixpoint find_config (new_listeners : list json_t) (i_port : Z) : option json_t :=
  match new_listeners with
  | [] => None
  | value :: new_listeners =>
      if (0 <? config_port value) && (config_port value =? i_port) then Some value
      else find_config new_listeners i_port
  end.

(** A listener that is not in the new configuration, or that has no reload function,
    is removed and joined; the others are reloaded. *)
Fixpoint reload_listeners_check_already_present (new_listeners : list json_t) (ls : list L) g
    : outcome (list L * G) :=
  match ls with
  | [] => Ret ([], g)
  | i :: ls =>
      match find_config new_listeners (lo_port ops i), lo_reload ops i with
      | Some found_value, Some reload =>
          '(i1, g1) ← reload found_value g;
          '(rest, g2) ← reload_listeners_check_already_present new_listeners ls g1;
          Ret (i1 :: rest, g2)
      | _, _ =>
          g1 ← shutdown_listener i g;
          reload_listeners_check_already_present new_listeners ls g1
      end
  end.

Fixpoint find_port (ls : list L) (searched_port : Z) : option L :=
  match ls with
  | [] => None
  | i :: ls =>
      if (0 <? lo_port ops i) && (lo_port ops i =? searched_port) then Some i
      else find_port ls searched_port
  end.

(** [json_unpack_ex] stores an [int], four bytes, in the [uint16_t searched_port];
    [room] is how many bytes can be written there.  The variable has two. *)
Definition unpack_searched_port (room : Z) (config : json_t) : outcome Z :=
  match unpack_i config (bs "port") with
  | Value port => if 4 <=? room then Ret (port mod 2 ^ 16) else Fault bad_access
  | _ => Ret 0
  end.

Fixpoint reload_listeners_create_new_ones (room : Z) (new_listeners : list json_t) c g
    : outcome (n2kafka_config L * G) :=
  match new_listeners with
  | [] => Ret (c, g)
  | new_config_listener :: new_listeners =>
      searched_port ← unpack_searched_port room new_config_listener;
      match find_port (g_listeners c) searched_port with
      | Some _ => reload_listeners_create_new_ones room new_listeners c g
      | None =>
          '(c1, g1) ← parse_listener new_config_listener c g;
          reload_listeners_create_new_ones room new_listeners c1 g1
      end
  end.

(** The [listeners] member, as an array; any other value is visited as an empty
    array. *)
Definition reload_listeners (room : Z) (new_config : option json_t) c g
    : outcome (n2kafka_config L * G) :=
  match new_config with
  | None => Ret (c, g)
  | Some new_config =>
      match json_object_get new_config (bs "listeners") with
      | None => Ret (c, g)
      | Some listeners_array =>
          let items := default [] (json_array_items listeners_array) in
          '(ls, g1) ← reload_listeners_check_already_present items (g_listeners c) g;
          reload_listeners_create_new_ones room items (with_listeners c ls) g1
      end
  end.

(** [json_load_file] gives the new configuration, if it can be parsed. *)
Definition reload_config (room : Z) (json_load_file : bytes -> option json_t) c g
    : outcome (n2kafka_config L * G) :=
  match g_config_path c with
  | None => Ret (c, g)
  | Some path => reload_listeners room (json_load_file path) c g
  end.

(** ** Start *)

(** [json_unpack_ex(root, "{s?i,s?s,s?o,s:o}")] stores in order up to the first
    member that is missing or of another type; its result is only logged. *)
Definition global_unpack (root : json_t) (severity : Z)
    : Z * option bytes * option json_t * option json_t :=
  match unpack_i root (bs "debug") with
  | BadType => (severity, None, None, None)
  | debug =>
      let severity := match debug with Value s => s | _ => severity end in
      match unpack_s root (bs "response") with
      | BadType => (severity, None, None, None)
      | response =>
          (severity, match response with Value r => Some r | _ => None end,
           json_object_get root (bs "blacklist"), json_object_get root (bs "listeners"))
      end
  end.

(** [rd_file_read] of librd gives the contents of a file. *)
Definition parse_response (rd_file_read : bytes -> option bytes) (filename : bytes) c
    : outcome (n2kafka_config L) :=
  match rd_file_read filename with
  | None => Fault process_exit
  | Some response => Ret (with_response c response)
  end.

(** The configuration file, the environment and the answers of the libraries. *)
Record config_env := mkgenv {
  ge_root : option json_t;
  ge_environ : list bytes;
  ge_old : bytes -> nat -> byte;
  ge_garbage : bytes -> in_addr;
  ge_rd_file_read : bytes -> option bytes;
  ge_rk_ok : bool
}.

Definition parse_config {rk : Rdkafka} (env : config_env) (config_file_path : bytes) c g
    : outcome (n2kafka_config L * rdkafka_conf * (stats * conf_stats_cb) * G) :=
  let c := with_path c config_file_path in
  match ge_root env with
  | None => Fault process_exit
  | Some root =>
      v ← get_rdkafka_config (ge_old env) (ge_environ env) root;
      let c := match v_topic v with Some t => with_topic c (Some t) | None => c end in
      let '(severity, response_file, blacklist, listeners) := global_unpack root (g_log_severity c) in
      let c := with_severity c severity in
      c ← match response_file with
          | Some filename => parse_response (ge_rd_file_read env) filename c
          | None => Ret c
          end;
      c ← match blacklist with
          | Some config_array =>
              b ← parse_blacklist (ge_garbage env) config_array (g_blacklist c);
              Ret (with_blacklist c b)
          | None => Ret c
          end;
      st ← init_rdkafka (ge_rk_ok env) (to_kafka_conf (v_conf v));
      let items := match listeners with Some l => default [] (json_array_items l) | None => [] end in
      '(c, g) ← parse_listeners items c g;
      Ret (c, v_conf v, st, g)
  end.

(** ** End *)

(** [free_global_config]: the listeners are joined in order, the decoders told to end
    by [done], and librdkafka is stopped. *)
Definition free_global_config {rk : Rdkafka} (done : G -> outcome G) (fuel : nat) (e : rd_kafka_end)
    (outq_len : Z) (st : stats) c g : outcome (stats * list in_addr * G) :=
  g1 ← shutdown_listeners (g_listeners c) g;
  g2 ← done g1;
  '(st1, _) ← stop_rdkafka fuel e (flush_kafka e outq_len) st;
  Ret (st1, in_addr_list_done (g_blacklist c), g2).

End listeners.
