(* ===== verification/GlobalConfigProps.v ===== *)
(** * The global configuration: theorems

    What the environment and the configuration file set in librdkafka, what the
    blacklist of the file does to connections, which listeners a reload leaves, and
    the values the code does not take as it means to. *)

From S2P Require Import Prelude File Pair Addr CString KafkaArray TopicDb ZzJson ZzXml ZzSession HttpAuth Decoders Http HttpConfig Kafka Socket SocketProps SocketDelivery GlobalConfig.
From stdpp Require Import gmap.
#[local] Open Scope Z_scope.

(** ** The environment *)

(** The characters of the properties of librdkafka. *)
Definition prop_char (c : byte) : bool :=
  ((97 <=? byte_val c) && (byte_val c <=? 122)) || is_digit c || bool_decide (c = dot).

(** The variable for a property. *)
Definition to_env (c : byte) : byte :=
  if bool_decide (c = dot) then x5f
  else if is_digit c then c else byte_of_Z (byte_val c - 32).

Lemma env_key_char_to_env old c : prop_char c = true -> env_key_char old (to_env c) = c.
Proof. destruct c; try discriminate; intros _; reflexivity. Qed.

Lemma env_key_of old name :
  forallb prop_char name = true -> env_key old (map to_env name) = name.
Proof.
  intros H. unfold env_key. rewrite <- (c_string_no_nul name) at 2.
  - f_equal. apply list_eq. intros i. rewrite list_lookup_imap, list_lookup_fmap.
    destruct (name !! i) as [c|] eqn:E; cbn; [|done]. f_equal. apply env_key_char_to_env.
    rewrite forallb_forall in H. apply H. by apply list_elem_of_In, list_elem_of_lookup_2 with i.
  - apply list.Forall_forall. intros c Hc ->. rewrite forallb_forall in H.
    by specialize (H x00 (proj1 (list_elem_of_In _ _) Hc)).
Qed.

Lemma to_env_no_equal name :
  forallb prop_char name = true -> Forall (fun c => c <> x3d) (map to_env name).
Proof.
  intros H. apply list.Forall_forall. intros c (d & -> & Hd)%list_elem_of_fmap.
  rewrite forallb_forall in H. specialize (H d (proj1 (list_elem_of_In _ _) Hd)).
  by destruct d; try discriminate H.
Qed.

(** The entry of [environ] for a property. *)
Definition env_entry (name value : bytes) : bytes :=
  rdkafka_env_prefix ++ map to_env name ++ x3d :: value.

(** A round for the variable of a property. *)
Lemma environ_entry_spec {rc : RdConf} old v name value :
  forallb prop_char name = true ->
  environ_entry old v (env_entry name value) =
    if env_key_size <? zlen rdkafka_env_prefix + zlen name + 1 then Ret v
    else if bool_decide (value = []) then Ret v
    else if strcmp0 stats_add_key (CONFIG_RDKAFKA_KEY ++ name)
    then Ret (mkvars (v_conf v) (v_topic v) (Some value))
    else conf ← parse_rdkafka_keyval_config (v_conf v) (CONFIG_RDKAFKA_KEY ++ name) value;
         Ret (mkvars conf (v_topic v) (v_stats_json_enrich v)).
Proof.
  intros Hname. unfold environ_entry, env_entry.
  rewrite (proj2 (strprefix_spec _ _)) by (by eexists). cbn [negb].
  assert (Hp : forallb prop_char (CONFIG_RDKAFKA_KEY ++ name) = true)
    by (by rewrite forallb_app, Hname).
  assert (E : rdkafka_env_prefix ++ map to_env name ++ x3d :: value
    = map to_env (CONFIG_RDKAFKA_KEY ++ name) ++ x3d :: value) by (by rewrite map_app, <- app_assoc).
  rewrite E, strchr_first by (by apply to_env_no_equal).
  assert (Hl : zlen (map to_env (CONFIG_RDKAFKA_KEY ++ name)) = zlen rdkafka_env_prefix + zlen name).
  { unfold zlen. rewrite length_map, length_app. change (length CONFIG_RDKAFKA_KEY) with 8%nat.
    change (length rdkafka_env_prefix) with 8%nat. lia. }
  rewrite Hl. destruct (env_key_size <? _); [done|].
  replace (zdrop _ _) with value.
  2:{ rewrite <- Hl. change (x3d :: value) with ([x3d] ++ value). rewrite app_assoc.
      by rewrite zdrop_app_exact by (by rewrite zlen_app). }
  rewrite <- Hl, ztake_app_exact by done. by rewrite env_key_of.
Qed.

(** The last value a property was set to. *)
Fixpoint last_value (sets : list (bytes * bytes)) (name : bytes) : option bytes :=
  match sets with
  | [] => None
  | (n, v) :: sets =>
      match last_value sets name with
      | Some w => Some w
      | None => if strcmp0 n name then Some v else None
      end
  end.

Lemma last_value_app a b name :
  last_value (a ++ b) name = match last_value b name with Some v => Some v | None => last_value a name end.
Proof.
  induction a as [|[n v] a IH]; cbn; [by destruct (last_value b name)|].
  rewrite IH. by destruct (last_value b name).
Qed.

(** Setting a property only adds it at the end. *)
Lemma keyval_sets {rc : RdConf} conf key value conf' :
  parse_rdkafka_keyval_config conf key value = Ret conf' ->
  exists more, rc_set conf' = rc_set conf ++ more.
Proof.
  unfold parse_rdkafka_keyval_config. destruct (zlen key <? _); [done|]. cbn zeta.
  destruct (strcmp0 _ _); [intros [= <-]; exists []; by rewrite app_nil_r|].
  destruct (rd_kafka_conf_set _ _); [|done]. intros [= <-]. by eexists.
Qed.

(** ** The configuration file *)

(** A property with no special meaning for the program. *)
Definition plain_property (name : bytes) : Prop :=
  strprefix (bs "topic.") name = false /\ name <> bs "n2kafka.statistics.topic" /\
  name <> bs "n2kafka.stats.append".

(** The property that a name stands for: the rest of it after [topic.]. *)
Lemma keyval_property {rc : RdConf} conf name property value :
  name = bs "topic." ++ property \/ (property = name /\ forall rest, name <> bs "topic." ++ rest) ->
  parse_rdkafka_keyval_config conf (CONFIG_RDKAFKA_KEY ++ name) value
    = if strcmp0 property (bs "n2kafka.statistics.topic")
      then Ret (mkrc (rc_set conf) (Some value) (rc_message_extra conf))
      else if rd_kafka_conf_set property value
      then Ret (mkrc (rc_set conf ++ [(property, value)]) (rc_statistics_topic conf) (rc_message_extra conf))
      else Fault process_exit.
Proof.
  intros H. unfold parse_rdkafka_keyval_config.
  rewrite zlen_app. zlen_facts. rewrite (proj2 (Z.ltb_ge _ _)) by lia.
  rewrite zdrop_app_exact by done. cbn zeta. destruct H as [->|[-> Hnot]].
  - rewrite (proj2 (strprefix_spec _ _)) by (by eexists). by rewrite zdrop_app_exact by done.
  - destruct (strprefix (bs "topic.") name) eqn:E; [|done]. apply strprefix_spec in E as [rest E].
    by destruct (Hnot rest).
Qed.

Lemma keyval_plain {rc : RdConf} conf name value :
  plain_property name -> rd_kafka_conf_set name value = true ->
  parse_rdkafka_keyval_config conf (CONFIG_RDKAFKA_KEY ++ name) value
    = Ret (mkrc (rc_set conf ++ [(name, value)]) (rc_statistics_topic conf) (rc_message_extra conf)).
Proof.
  intros (Ht & Hs & _) Hset. rewrite (keyval_property _ _ name).
  - unfold strcmp0. rewrite bool_decide_false by done. by rewrite Hset.
  - right. split; [done|]. intros rest ->. by rewrite (proj2 (strprefix_spec _ _)) in Ht by (by eexists).
Qed.

Lemma not_append name :
  name <> bs "n2kafka.stats.append" -> strcmp0 stats_add_key (CONFIG_RDKAFKA_KEY ++ name) = false.
Proof.
  intros H. unfold strcmp0. apply bool_decide_false. intros E. apply H.
  change stats_add_key with (CONFIG_RDKAFKA_KEY ++ bs "n2kafka.stats.append") in E.
  by apply app_inv_head in E.
Qed.

(** What a value can do to the last value of a property. *)
Lemma keyval_last {rc : RdConf} conf key value conf' name :
  parse_rdkafka_keyval_config conf key value = Ret conf' ->
  last_value (rc_set conf') name = last_value (rc_set conf) name \/
  last_value (rc_set conf') name = Some value.
Proof.
  unfold parse_rdkafka_keyval_config. destruct (zlen key <? _); [done|]. cbn zeta.
  destruct (strcmp0 _ _); [intros [= <-]; by left|].
  destruct (rd_kafka_conf_set _ _); [|done]. intros [= <-]. cbn [rc_set]. rewrite last_value_app.
  cbn. destruct (strcmp0 _ name); auto.
Qed.

Section json.
Context {jansson : Jansson} {doc : JanssonDoc} {rc : RdConf}.

Definition sets (v : rdkafka_vars) : list (bytes * bytes) := rc_set (v_conf v).

Lemma json_entry_last j v key value j' v' name :
  json_entry j v key value = Ret (j', v') ->
  last_value (sets v') name = last_value (sets v) name \/
  exists w, json_string_value value = Some w /\ last_value (sets v') name = Some w.
Proof.
  unfold json_entry. destruct (strcmp0 stats_add_key key).
  { destruct (json_string_value value); [intros [= <- <-]; by left|].
    destruct (match j with Some _ => _ | None => _ end); [intros [= <- <-]; by left|done]. }
  intros H. inv_bind H. injection Hk as <- <-. unfold parse_rdkafka_config_keyval in Hbind.
  destruct (strcasecmp0 key (bs "topic")); [inv_bind Hbind; injection Hk as <-; by left|].
  unfold parse_rdkafka_config_json, assert_json_string in Hbind.
  destruct (strcasecmp0 key (bs "brokers")).
  2: destruct (strcaseprefix _ _); [|injection Hbind as <-; by left].
  all: destruct (json_string_value value) as [s|]; [|done]; cbn in Hbind; inv_bind Hbind;
    injection Hk as <-; unfold sets; cbn [v_conf];
    destruct (keyval_last _ _ _ _ name Hbind0) as [E|E]; rewrite E; eauto.
Qed.

Lemma json_loop_last items j v j' v' name :
  json_loop items j v = Ret (j', v') ->
  last_value (sets v') name = last_value (sets v) name \/
  exists k x w, (k, x) ∈ items /\ json_string_value x = Some w /\ last_value (sets v') name = Some w.
Proof.
  revert j v. induction items as [|[k x] items IH]; intros j v H; cbn [json_loop] in H.
  { injection H as <- <-. by left. }
  inv_bind H. destruct a as [j1 v1]. destruct (IH _ _ Hk) as [E|(k' & x' & w & Hin & Hx & E)].
  - destruct (json_entry_last _ _ _ _ _ _ name Hbind) as [E1|(w & Hx & E1)].
    + left. congruence.
    + right. exists k, x, w. split; [set_solver|]. split; [done|]. congruence.
  - right. exists k', x', w. split; [set_solver|done].
Qed.

Lemma json_loop_app a b j v :
  json_loop (a ++ b) j v = ('(j1, v1) ← json_loop a j v; json_loop b j1 v1).
Proof.
  revert j v. induction a as [|[k x] a IH]; intros j v; [done|]. cbn [json_loop app].
  destruct (json_entry j v k x) as [[j1 v1]|f|]; [|done..]. cbn [mbind outcome_bind]. apply IH.
Qed.

Lemma stats_extra_sets j v v' : stats_extra j v = Ret v' -> sets v' = sets v /\ v_topic v' = v_topic v.
Proof.
  unfold stats_extra. destruct j; [by intros [= <-]|].
  destruct (v_stats_json_enrich v); [|by intros [= <-]].
  destruct (json_loads _); [|done]. destruct (json_is_object _); [|done]. cbn [negb].
  destruct (bool_decide _); [by intros [= <-]|]. intros H. inv_bind H. by injection Hk as <-.
Qed.

(** The member of a plain property sets it. *)
Lemma json_entry_plain j v name jv value :
  plain_property name -> json_string_value jv = Some value -> rd_kafka_conf_set name value = true ->
  json_entry j v (CONFIG_RDKAFKA_KEY ++ name) jv
    = Ret (j, mkvars (mkrc (sets v ++ [(name, value)]) (rc_statistics_topic (v_conf v))
                        (rc_message_extra (v_conf v))) (v_topic v) (v_stats_json_enrich v)).
Proof.
  intros Hp Hv Hset. unfold json_entry. rewrite not_append by apply Hp.
  unfold parse_rdkafka_config_keyval. unfold strcasecmp0.
  rewrite !bool_decide_false by (rewrite map_app; cbn; congruence).
  assert (E : strcaseprefix CONFIG_RDKAFKA_KEY (CONFIG_RDKAFKA_KEY ++ name) = true).
  { unfold strcaseprefix. rewrite map_app. apply strprefix_spec. by eexists. }
  rewrite E. unfold parse_rdkafka_config_json, assert_json_string. rewrite Hv.
  cbn [mbind outcome_bind]. by rewrite keyval_plain.
Qed.

End json.

(** ** Reload *)

(** What the factories and the listeners promise: a listener has the port of its
    configuration, and a reload does not change it. *)
Class ListenerLaws {jansson : Jansson} {unpack : JsonUnpack} {D L G : Type} (ops : listener_ops L G)
    (create_http create_socket : json_t -> D -> G -> outcome (option L * G)) := {
  create_http_port : forall config d g l g', create_http config d g = Ret (Some l, g') ->
    lo_port ops l = config_port config mod 2 ^ 16;
  create_socket_port : forall config d g l g', create_socket config d g = Ret (Some l, g') ->
    lo_port ops l = config_port config mod 2 ^ 16;
  reload_port : forall l reload config g l' g', lo_reload ops l = Some reload ->
    reload config g = Ret (l', g') -> lo_port ops l' = lo_port ops l
}.

Section reload.
Context {jansson : Jansson} {unpack : JsonUnpack} {doc : JanssonDoc} {D L G : Type}.
Context (ops : listener_ops L G).
Context (create_http create_socket : json_t -> D -> G -> outcome (option L * G)).
Context (dumb meraki zz : D) {laws : ListenerLaws ops create_http create_socket}.
Implicit Types (c : n2kafka_config L) (g : G).

Definition ports (ls : list L) : list Z := map (lo_port ops) ls.

(** A member of [listeners] whose port is a port number. *)
Definition has_port (config : json_t) : Prop :=
  exists port, unpack_i config (bs "port") = Value port /\ 0 < port < 2 ^ 16.

(** A member that names a factory of the program; the others are left out. *)
Definition served (config : json_t) : bool :=
  match unpack_s config (bs "proto"), override (unpack_s config (bs "decode_as")) [] with
  | Value proto, Some _ => bool_decide (proto ∈ [http_listener_name; tcp_listener_name; udp_listener_name])
  | _, _ => false
  end.

(** A listener as [listener_init] leaves it. *)
Definition initialised (l : L) : Prop :=
  0 < lo_port ops l /\ is_Some (lo_join ops l) /\ is_Some (lo_reload ops l).

(** What is done to the listeners, in order. *)
Inductive listener_call :=
| Joined (l : L)
| Reloaded (l : L) (value : json_t) (l' : L)
| Created (value : json_t) (l : L).

(** The calls really made: each one takes the rest of the process to the next state
    with the function of that listener, or with the factory and the decoder that the
    member names. *)
Inductive calls : list listener_call -> G -> G -> Prop :=
| calls_nil g : calls [] g g
| calls_joined l join cs g g1 g2 :
    lo_join ops l = Some join -> join g = Ret g1 -> calls cs g1 g2 -> calls (Joined l :: cs) g g2
| calls_reloaded l reload value l' cs g g1 g2 :
    lo_reload ops l = Some reload -> reload value g = Ret (l', g1) -> calls cs g1 g2 ->
    calls (Reloaded l value l' :: cs) g g2
| calls_created value proto decode_as f d l cs g g1 g2 :
    unpack_s value (bs "proto") = Value proto -> listener_for create_http create_socket proto = Some f ->
    override (unpack_s value (bs "decode_as")) [] = Some decode_as ->
    locate_registered_decoder dumb meraki zz decode_as = Some d ->
    lf_create f value d g = Ret (Some l, g1) -> calls cs g1 g2 ->
    calls (Created value l :: cs) g g2.
#[local] Hint Constructors calls : core.

Definition joined : list listener_call -> list L :=
  omap (fun call => match call with Joined l => Some l | _ => None end).

Definition reloaded : list listener_call -> list (L * json_t * L) :=
  omap (fun call => match call with Reloaded l value l' => Some (l, value, l') | _ => None end).

Definition created : list listener_call -> list (json_t * L) :=
  omap (fun call => match call with Created value l => Some (value, l) | _ => None end).

Lemma calls_app cs1 cs2 g g1 g2 : calls cs1 g g1 -> calls cs2 g1 g2 -> calls (cs1 ++ cs2) g g2.
Proof. induction 1; intros; cbn [app]; eauto. Qed.

Lemma find_config_spec items p :
  0 < p -> (is_Some (find_config items p) <-> p ∈ map config_port items).
Proof.
  intros Hp. induction items as [|v items IH]; cbn.
  { split; [by intros []|by intros ?%not_elem_of_nil]. }
  rewrite elem_of_cons. destruct ((0 <? config_port v) && (config_port v =? p)) eqn:E.
  - apply andb_true_iff in E. split; [left; lia|by eexists].
  - rewrite IH. apply andb_false_iff in E. split; [by right|]. intros [->|?]; [lia|done].
Qed.

Lemma find_port_spec ls p :
  0 < p -> (is_Some (find_port ops ls p) <-> p ∈ ports ls).
Proof.
  intros Hp. induction ls as [|l ls IH]; cbn.
  { split; [by intros []|by intros ?%not_elem_of_nil]. }
  rewrite elem_of_cons. destruct ((0 <? lo_port ops l) && (lo_port ops l =? p)) eqn:E.
  - apply andb_true_iff in E. split; [left; lia|by eexists].
  - rewrite IH. apply andb_false_iff in E. split; [by right|]. intros [->|?]; [lia|done].
Qed.

(** The member of a listener is one with its port. *)
Lemma find_config_member items p v : find_config items p = Some v -> v ∈ items /\ config_port v = p.
Proof.
  induction items as [|w items IH]; cbn; [done|]. destruct (_ && _) eqn:E.
  - intros [= <-]. apply andb_true_iff in E. split; [set_solver|lia].
  - intros [? ?]%IH. split; [set_solver|done].
Qed.

(** The first part of a reload joins the listeners that are not in the new
    configuration, and reloads the others. *)
Lemma check_present_calls items ls g ls' g' :
  Forall initialised ls ->
  reload_listeners_check_already_present ops items ls g = Ret (ls', g') ->
  exists cs, calls cs g g' /\ created cs = [] /\
    joined cs = filter (fun l => lo_port ops l ∉ map config_port items) ls /\
    map (fun r => r.1.1) (reloaded cs) = filter (fun l => lo_port ops l ∈ map config_port items) ls /\
    map snd (reloaded cs) = ls' /\
    Forall (fun r => r.1.2 ∈ items /\ config_port r.1.2 = lo_port ops r.1.1) (reloaded cs).
Proof.
  intros Hls. revert g ls' g'.
  induction Hls as [|l ls (Hp & [join Hj] & [reload Hr]) _ IH]; intros g ls' g' H;
    cbn [reload_listeners_check_already_present] in H.
  { injection H as <- <-. exists []. split_and!; auto. }
  rewrite !filter_cons. pose proof (find_config_spec items _ Hp) as Hf.
  rewrite Hr in H. destruct (find_config items (lo_port ops l)) as [v|] eqn:Ev.
  - assert (Hin : lo_port ops l ∈ map config_port items) by (apply Hf; by eexists).
    rewrite (decide_True (P := _ ∈ _)), decide_False by tauto. inv_bind H. destruct a as [l1 g1].
    inv_bind Hk. destruct a as [rest g2]. injection Hk0 as <- <-.
    destruct (IH _ _ _ Hbind0) as (cs & Hcs & Hc & Hjo & Hre & Hnew & Hall).
    exists (Reloaded l v l1 :: cs). cbn. split_and!; [by eauto|done|done|by f_equal|by f_equal|].
    constructor; [by apply find_config_member in Ev|done].
  - assert (Hin : lo_port ops l ∉ map config_port items) by (intros Hin; apply Hf in Hin as []; discriminate).
    rewrite (decide_True (P := _ ∉ _)), decide_False by tauto. inv_bind H. unfold shutdown_listener in Hbind.
    rewrite Hj in Hbind. destruct (IH _ _ _ Hk) as (cs & Hcs & Hc & Hjo & Hre & Hnew & Hall).
    exists (Joined l :: cs). cbn. split_and!; [by eauto|done|by f_equal|done..].
Qed.

(** The ports of reloaded listeners. *)
Lemma calls_reloaded_ports cs g g' :
  calls cs g g' -> Forall (fun r => lo_port ops r.2 = lo_port ops r.1.1) (reloaded cs).
Proof.
  induction 1 as [| |l reload value l' cs g g1 g2 Hr Hcall _ IH|]; cbn; try done. constructor; [|done].
  by eapply reload_port.
Qed.

Lemma listener_for_known proto :
  proto ∈ [http_listener_name; tcp_listener_name; udp_listener_name] ->
  exists f, listener_for create_http create_socket proto = Some f /\
    (lf_create f = create_http \/ lf_create f = create_socket).
Proof.
  rewrite !elem_of_cons. intros [->|[->|[->|?%not_elem_of_nil]]]; [..|done]; eexists;
    (split; [vm_compute; reflexivity|]); cbn; auto.
Qed.

Lemma listener_for_unknown proto :
  proto ∉ [http_listener_name; tcp_listener_name; udp_listener_name] ->
  listener_for create_http create_socket proto = None.
Proof.
  intros H. unfold listener_for, registered_listeners. cbn [find_factory lf_name]. unfold strcmp0.
  by rewrite !bool_decide_false by set_solver.
Qed.

(** A member that is served becomes a listener on its port, the others nothing. *)
Lemma parse_listener_calls config c g c' g' :
  has_port config ->
  parse_listener create_http create_socket dumb meraki zz config c g = Ret (c', g') ->
  if served config then
    exists l, g_listeners c' = l :: g_listeners c /\ lo_port ops l = config_port config /\
      calls [Created config l] g g'
  else c' = c /\ g' = g.
Proof.
  intros (port & Hport & Hr) H. unfold parse_listener in H. unfold served.
  destruct (unpack_s config (bs "proto")) as [|proto|] eqn:Hproto; [by simplify_eq| |by simplify_eq].
  destruct (override (unpack_s config (bs "decode_as")) []) as [decode_as|] eqn:Eo; [|by simplify_eq].
  case_bool_decide as Hk; [|rewrite listener_for_unknown in H by done; by simplify_eq].
  destruct (listener_for_known proto Hk) as (f & Hf & Hcreate). rewrite Hf in H.
  destruct (locate_registered_decoder _ _ _ _) as [d|] eqn:Ed; [|done].
  inv_bind H. destruct a as [[l|] g1]; [|done]. injection Hk0 as <- <-.
  exists l. split; [done|]. split; [|by eauto].
  assert (E : lo_port ops l = config_port config mod 2 ^ 16).
  { destruct Hcreate as [E|E]; rewrite E in Hbind; [by eapply create_http_port|by eapply create_socket_port]. }
  rewrite E. unfold config_port. rewrite Hport. apply Z.mod_small. lia.
Qed.

Lemma searched_port_spec room config sp :
  has_port config -> unpack_searched_port room config = Ret sp ->
  sp = config_port config /\ 0 < sp /\ 4 <= room.
Proof.
  intros (port & Hport & Hr) H. unfold unpack_searched_port in H. unfold config_port. rewrite Hport in *.
  destruct (4 <=? room) eqn:E; [|done]. injection H as <-. rewrite Z.mod_small by lia. lia.
Qed.

(** The second part creates the listeners that are missing, once each. *)
Lemma create_new_calls room items c g c' g' :
  Forall has_port items ->
  reload_listeners_create_new_ones ops create_http create_socket dumb meraki zz room items c g
    = Ret (c', g') ->
  exists cs, calls cs g g' /\ joined cs = [] /\ reloaded cs = [] /\
    g_listeners c' = reverse (map snd (created cs)) ++ g_listeners c /\
    NoDup (map (fun r => config_port r.1) (created cs)) /\
    Forall (fun r => r.1 ∈ items /\ served r.1 = true /\ lo_port ops r.2 = config_port r.1 /\
      config_port r.1 ∉ ports (g_listeners c)) (created cs) /\
    (forall v, v ∈ items -> served v = true -> config_port v ∈ ports (g_listeners c')) /\
    (items <> [] -> 4 <= room).
Proof.
  intros Hitems. revert c g. induction Hitems as [|v items Hv _ IH]; intros c g H;
    cbn [reload_listeners_create_new_ones] in H.
  { injection H as <- <-. exists []. split_and!; auto; [constructor|by intros v ?%not_elem_of_nil|done]. }
  inv_bind H. destruct (searched_port_spec _ _ _ Hv Hbind) as (-> & Hpos & Hroom).
  pose proof (find_port_spec (g_listeners c) _ Hpos) as Hf.
  destruct (find_port ops (g_listeners c) (config_port v)) as [l|].
  { destruct (IH c g Hk) as (cs & Hcs & Hj & Hr & Hl & Hn & Hc & Hall & _). exists cs. split_and!; try done.
    - eapply Forall_impl; [exact Hc|]. set_solver.
    - intros w [->|Hin]%elem_of_cons Hs; [|by apply Hall]. rewrite Hl. unfold ports. rewrite map_app, elem_of_app.
      right. apply Hf. by eexists. }
  assert (Hnot : config_port v ∉ ports (g_listeners c)) by (intros Hin; apply Hf in Hin as []; discriminate).
  inv_bind Hk. destruct a as [c1 g1]. apply (parse_listener_calls v) in Hbind0; [|done].
  destruct (IH c1 g1 Hk0) as (cs & Hcs & Hj & Hr & Hl & Hn & Hc & Hall & _).
  destruct (served v) eqn:Es.
  - destruct Hbind0 as (l & Hl1 & Hp & Hcall). rewrite Hl1 in *. exists (Created v l :: cs). cbn -[reverse].
    split_and!; try done.
    + by apply (calls_app [Created v l] cs g g1 g').
    + by rewrite Hl, reverse_cons, <- app_assoc.
    + constructor; [|done]. intros (r & E & Hin)%list_elem_of_fmap. rewrite list.Forall_forall in Hc.
      destruct (Hc r Hin) as (_ & _ & _ & Hout). apply Hout. cbn. rewrite <- E, Hp. set_solver.
    + constructor; [cbn; set_solver|]. eapply Forall_impl; [exact Hc|]. cbn. set_solver.
    + intros w [->|Hin]%elem_of_cons Hs; [|by apply Hall]. rewrite Hl. unfold ports.
      rewrite map_app, elem_of_app. right. cbn. rewrite Hp. set_solver.
  - destruct Hbind0 as [-> ->]. exists cs. split_and!; try done.
    + eapply Forall_impl; [exact Hc|]. set_solver.
    + intros w [->|Hin]%elem_of_cons Hs; [congruence|by apply Hall].
Qed.

(** The ports of the listeners that were kept. *)
Lemma kept_ports items ls cs g g' :
  calls cs g g' ->
  map (fun r => r.1.1) (reloaded cs) = filter (fun l => lo_port ops l ∈ map config_port items) ls ->
  ports (map snd (reloaded cs)) = filter (fun p => p ∈ map config_port items) (ports ls).
Proof.
  intros Hcs Hr. transitivity (ports (filter (fun l => lo_port ops l ∈ map config_port items) ls)).
  - unfold ports. rewrite <- Hr, !map_map. apply map_ext_Forall. by apply calls_reloaded_ports in Hcs.
  - clear Hr. unfold ports. induction ls as [|l ls IH]; [done|]. cbn [map]. rewrite !filter_cons.
    case_decide; [cbn [map]; by f_equal|done].
Qed.

(** The ports of the listeners in the end. *)
Lemma ports_after items old kept new (fresh : list (json_t * L)) :
  new = reverse (map snd fresh) ++ kept ->
  ports kept = filter (fun p => p ∈ map config_port items) old ->
  Forall (fun r => r.1 ∈ items /\ served r.1 = true /\ lo_port ops r.2 = config_port r.1 /\
    config_port r.1 ∉ ports kept) fresh ->
  (forall v, v ∈ items -> served v = true -> config_port v ∈ ports new) ->
  forall p, p ∈ ports new <->
    p ∈ map config_port (filter (fun v => served v = true) items) \/
    (p ∈ old /\ p ∈ map config_port items).
Proof.
  intros -> Hkept Hfresh Hall p. split.
  - unfold ports in *. rewrite map_app, elem_of_app, Hkept, list_elem_of_filter. intros [Hin|Hin]; [|tauto].
    left. apply list_elem_of_fmap in Hin as (l & -> & Hin). rewrite elem_of_reverse in Hin.
    apply list_elem_of_fmap in Hin as (r & -> & Hin). rewrite list.Forall_forall in Hfresh.
    destruct (Hfresh r Hin) as (Hi & Hs & -> & _). apply list_elem_of_fmap_2, list_elem_of_filter. done.
  - intros [(v & -> & Hv)%list_elem_of_fmap|[Hold Hin]].
    + apply list_elem_of_filter in Hv as [Hs Hv]. by apply Hall.
    + unfold ports in *. rewrite map_app, elem_of_app, Hkept, list_elem_of_filter. tauto.
Qed.

End reload.

(** ** The listeners of the program *)

Lemma listener_init_port {jansson : Jansson} {S W O : Type} (opaque : option O) port
    (decoder : n2k_decoder S W O) conf rc l :
  listener_init opaque port decoder conf = Ret (rc, l) -> l_port l = port.
Proof.
  unfold listener_init. destruct (dec_opaque_creator decoder) as [f|]; [|by intros [= _ <-]].
  intros H. inv_bind H. destruct a. by injection Hk as _ <-.
Qed.

Lemma http_unpack_port {jansson : Jansson} {unpack : JsonUnpack} conf a args :
  http_unpack conf a = Some args -> unpack_i conf (bs "port") = Value (a_port args).
Proof.
  unfold http_unpack. intros H. apply bind_Some in H as (port & Hp & H).
  repeat (apply bind_Some in H as (? & _ & H)). injection H as <-.
  by destruct (unpack_i conf (bs "port")); simplify_eq.
Qed.

(** A listener of the HTTP factory has the port of its configuration. *)
Lemma http_created_port {jansson : Jansson} {unpack : JsonUnpack} {S W O : Type} env
    (decoder : n2k_decoder S W O) conf getenv rd_file_read responses r b l :
  create_http_listener0 env decoder conf getenv rd_file_read responses = Ret r ->
  sr_built r = Some b -> b_listener b = Some l -> l_port l = config_port conf mod 2 ^ 16.
Proof.
  unfold create_http_listener0. intros H Hb Hl.
  destruct (http_unpack conf _) as [args|] eqn:Hu; [|by simplify_eq].
  apply http_unpack_port in Hu. unfold config_port. rewrite Hu.
  set (args1 := set_key_password args _) in H.
  change (a_port args) with (a_port args1). clearbody args1. clear Hu.
  unfold start_http_loop, load_secrets in H.
  destruct (http_mode (a_mode args1)) as [mode|]; [|by simplify_eq].
  destruct (xorb _ _); [by simplify_eq|].
  destruct (negb (is_some (a_https_key_filename args1)) && _); [by simplify_eq|].
  inv_bind H. destruct a as [files|]; [|by simplify_eq].
  destruct (negb (se_calloc_ok env)); [by simplify_eq|].
  inv_bind Hk. destruct a as [blocks ok]. destruct ok; cbn [negb] in Hk0; [|by simplify_eq/=].
  inv_bind Hk0. unfold start_daemon in Hk. inv_bind Hk. destruct a0 as [rc lst].
  destruct (rc =? 0); cbn [negb] in Hk0; [|by simplify_eq].
  destruct (responses_listener_counter_incref responses) as [x responses1].
  destruct (se_daemon_ok env); cbn [negb] in Hk0; [|by simplify_eq].
  simplify_eq/=. by apply listener_init_port in Hbind2.
Qed.

(** HTTP and socket listeners together, with one decoder type. *)
Section program.
Context {jansson : Jansson} {unpack : JsonUnpack} {unpackb : JsonUnpackBool} {fifo : RdFifoq}.
Context {S W O : Type} (env : start_env) (cenv : create_env) (getenv rd_file_read : bytes -> option bytes).

Definition a_listener : Type := built S W O + socket_listener S W O.

(** The shared responses and the part of the process the socket listeners use. *)
Definition rest_of_process : Type := http_responses * process W.

Definition program_create_http (config : json_t) (d : n2k_decoder S W O) (g : rest_of_process)
    : outcome (option a_listener * rest_of_process) :=
  r ← create_http_listener0 env d config getenv rd_file_read g.1;
  Ret (match sr_built r with Some b => Some (inl b) | None => None end, (sr_responses r, g.2)).

Definition program_create_socket (config : json_t) (d : n2k_decoder S W O) (g : rest_of_process)
    : outcome (option a_listener * rest_of_process) :=
  sl ← create_socket_listener cenv config d;
  Ret (match sl with Some sl => Some (inr sl) | None => None end, g).

Definition program_port (l : a_listener) : Z :=
  match l with
  | inl b => match b_listener b with Some l => l_port l | None => 0 end
  | inr sl => l_port (sl_listener sl)
  end.

Definition program_reload (l : a_listener) (config : json_t) (g : rest_of_process)
    : outcome (a_listener * rest_of_process) :=
  Ret (match l with
       | inl b => inl (mkbuilt (match b_listener b with
                                | Some l => Some (listener_reload l config).2 | None => None end)
                         (b_tls_data b) (b_htpasswd b) (b_client_tls_cert b) (b_daemon b))
       | inr sl => inr (mksock (listener_reload (sl_listener sl) config).2 (sl_config sl)
                          (sl_event_loop sl) (sl_workers sl) (sl_accept_current_worker_idx sl) (sl_main sl))
       end, g).

Definition program_join (l : a_listener) (g : rest_of_process) : outcome rest_of_process :=
  match l with
  | inl b => Ret ((break_http_loop b g.1).2, g.2)
  | inr sl => '(_, p) ← join_listener_socket sl g.2; Ret (g.1, p)
  end.

(** [listener_init] sets both functions of every listener. *)
Definition program_ops : listener_ops a_listener rest_of_process :=
  mkops program_port (fun l => Some (program_join l)) (fun l => Some (program_reload l)).

Lemma listener_reload_port (l : listener S W O) config : l_port (listener_reload l config).2 = l_port l.
Proof.
  unfold listener_reload. destruct (dec_opaque_reload (l_decoder l)) as [f|]; [|done].
  by destruct (f config (l_decoder_opaque l)).
Qed.

(** The factories keep what the reload relies on, if no file gets shorter while the
    HTTP listener reads it (a listener that is not initialised has no port). *)
Lemma program_laws :
  (forall config (d : n2k_decoder S W O) g r b, create_http_listener0 env d config getenv rd_file_read g = Ret r ->
     sr_built r = Some b -> is_Some (b_listener b)) ->
  ListenerLaws program_ops program_create_http program_create_socket.
Proof.
  intros Hwhole. constructor.
  - intros config d g l g' H. unfold program_create_http in H. inv_bind H.
    destruct (sr_built a) as [b|] eqn:Eb; [|done]. injection Hk as <- <-.
    destruct (Hwhole _ _ _ _ _ Hbind Eb) as [l Hl]. cbn. rewrite Hl. by eapply http_created_port.
  - intros config d g l g' H. unfold program_create_socket in H. inv_bind H. destruct a as [sl|]; [|done].
    injection Hk as <- <-. apply create_spec in Hbind as (_ & _ & _ & _ & _ & port & Hport & Hl & _).
    cbn. unfold config_port. by rewrite Hl, Hport.
  - intros l reload config g l' g' [= <-] H. injection H as <- <-. cbn. destruct l as [b|sl]; cbn.
    + destruct (b_listener b); [|done]. apply listener_reload_port.
    + apply listener_reload_port.
Qed.

End program.

(** ** Lemmas on the blacklist *)

(** An entry of the blacklist and the address that it adds. *)
Definition blacklist_entry {jansson : Jansson} (garbage : bytes -> in_addr) (item : json_t) (a : in_addr) : Prop :=
  exists text, json_string_value item = Some text /\
    ((text = inet_ntop4 a /\ 0 <= a < 2 ^ 32) \/ (inet_pton4 text = None /\ a = garbage text)).

Lemma blacklist_loop_spec {jansson : Jansson} garbage items addrs :
  Forall2 (blacklist_entry garbage) items addrs ->
  forall l, exists b, blacklist_loop garbage items l = Ret b /\ forall a, a ∈ b <-> a ∈ addrs \/ a ∈ l.
Proof.
  induction 1 as [|item a items addrs (text & Hs & Ha) _ IH]; intros l.
  - exists l. split; [done|]. intros a. set_solver.
  - cbn [blacklist_loop]. unfold assert_json_string. rewrite Hs. cbn [mbind outcome_bind].
    replace (assert_pton text (garbage text)) with a.
    + destruct (IH (in_addr_list_add l a)) as (b & -> & Hin). exists b. split; [done|].
      intros x. rewrite Hin. unfold in_addr_list_add. set_solver.
    + unfold assert_pton. destruct Ha as [[-> Hr]|[-> ->]]; [by rewrite pton_ntop|done].
Qed.

(** The watcher of a connection that is given to a worker. *)
Lemma accept_cb_process {jansson : Jansson} {fifo : RdFifoq} {S W O : Type} room gc sd addr port
    (sl sl1 : socket_listener S W O) (p p1 : process W) :
  accept_cb room gc false (mkaenv (ACCEPT_CLIENT sd addr port) true) sl p = Ret (sl1, p1) ->
  addr ∉ gc_blacklist gc ->
  pr_heap p1 !! pr_next p = Some (mkio sd (mkpriv CONNECTION_PRIVATE_MAGIC 0 (inet_ntop4 addr))) /\
  pr_fds p1 = {[sd]} ∪ pr_fds p.
Proof.
  unfold accept_cb, accept_cb_queue. cbn [ae_accept]. rewrite sockaddr2str_ipv4 by done.
  intros H Hout. rewrite (not_true_is_false _ (fun H => Hout (proj1 (in_addr_list_contains_spec _ _) H))) in H.
  inv_bind H. destruct a as [[woken sl2] p2]. inv_bind Hbind. unfold accept_dispatch in Hk0.
  destruct (bool_decide _); [done|]. cbn [ae_calloc_ok negb] in Hk0. inv_bind Hk0. simplify_eq.
  inv_bind Hk. simplify_eq. cbn. by rewrite lookup_insert_eq.
Qed.

(** ** Lemmas on the statistics text *)

Lemma strrchr_none s c : Forall (fun x => x <> c) s -> strrchr s c = None.
Proof.
  induction 1 as [|x s Hx _ IH]; cbn; [done|]. rewrite IH. by rewrite bool_decide_false.
Qed.

Lemma strrchr_last l t c : Forall (fun x => x <> c) t -> strrchr (l ++ c :: t) c = Some (zlen l).
Proof.
  intros Ht. induction l as [|x l IH]; cbn.
  - rewrite strrchr_none by done. by rewrite bool_decide_true.
  - rewrite IH. by rewrite zlen_cons.
Qed.

Lemma message_extra_braces pre inner post :
  Forall (fun x => x <> open_brace_char) pre -> Forall (fun x => x <> close_brace_char) post ->
  message_extra_of (pre ++ open_brace_char :: inner ++ close_brace_char :: post) = Ret (inner ++ [x00]).
Proof.
  intros Hpre Hpost. unfold message_extra_of. rewrite strchr_first by done.
  rewrite zdrop_app_exact by done.
  change (open_brace_char :: inner ++ close_brace_char :: post)
    with ((open_brace_char :: inner) ++ close_brace_char :: post).
  rewrite strrchr_last by done. rewrite zlen_cons.
  replace (1 + zlen inner - 1) with (zlen inner) by lia.
  replace (pre ++ (open_brace_char :: inner) ++ close_brace_char :: post)
    with ((pre ++ [open_brace_char]) ++ inner ++ close_brace_char :: post)
    by (rewrite <- !app_assoc; done).
  rewrite zdrop_app_exact by (by rewrite zlen_app). by rewrite ztake_app_exact.
Qed.

Section stats_json.
Context {jansson : Jansson} {doc : JanssonDoc} {rc : RdConf}.

(** The variable for an object is never set. *)
Lemma json_entry_none v key value j' v' : json_entry None v key value = Ret (j', v') -> j' = None.
Proof.
  unfold json_entry. destruct (strcmp0 _ _).
  - destruct (json_string_value value); [by intros [= <- <-]|done].
  - intros H. inv_bind H. by injection Hk as <- <-.
Qed.

Lemma json_loop_none items v j' v' : json_loop items None v = Ret (j', v') -> j' = None.
Proof.
  revert v. induction items as [|[k x] items IH]; intros v H; cbn [json_loop] in H; [by simplify_eq|].
  inv_bind H. destruct a as [j1 v1]. apply json_entry_none in Hbind as ->. by eapply IH.
Qed.

(** The text of the statistics that a configuration leaves. *)
Lemma config_extra old environ root v text o pre inner post :
  get_rdkafka_config old environ root = Ret v -> v_stats_json_enrich v = Some text ->
  json_loads text = Some o -> json_is_object o = true -> json_object_items o <> [] ->
  text = pre ++ open_brace_char :: inner ++ close_brace_char :: post ->
  Forall (fun x => x <> open_brace_char) pre -> Forall (fun x => x <> close_brace_char) post ->
  rc_message_extra (v_conf v) = inner ++ [x00].
Proof.
  intros H Ht Hl Ho Hne -> Hpre Hpost. unfold get_rdkafka_config in H. inv_bind H. inv_bind Hk.
  destruct a0 as [j v2]. apply json_loop_none in Hbind0 as ->. unfold stats_extra in Hk0.
  destruct (v_stats_json_enrich v2) as [text2|] eqn:E2; [|simplify_eq; congruence].
  assert (Et : text2 = pre ++ open_brace_char :: inner ++ close_brace_char :: post).
  { destruct (json_loads text2) as [o2|]; [|done]. destruct (json_is_object o2); [|done]. cbn [negb] in Hk0.
    destruct (bool_decide _); [simplify_eq; congruence|]. inv_bind Hk0. simplify_eq/=. done. }
  subst text2. rewrite Hl, Ho in Hk0. cbn [negb] in Hk0. rewrite bool_decide_false in Hk0 by done.
  rewrite message_extra_braces in Hk0 by done. by injection Hk0 as <-.
Qed.

End stats_json.

(** ** Instances for closed examples *)

Inductive jvalue :=
| JStr (s : bytes) | JInt (n : Z) | JArr (l : list jvalue) | JObj (l : list (bytes * jvalue)).

Definition jobj_get (o : jvalue) (k : bytes) : option jvalue :=
  match o with
  | JObj l => match find (fun kv => strcmp0 kv.1 k) l with Some kv => Some kv.2 | None => None end
  | _ => None
  end.

#[local] Instance tree_jansson : Jansson := {|
  json_t := jvalue;
  json_object_get := jobj_get;
  json_string_value v := match v with JStr s => Some s | _ => None end
|}.
#[local] Instance tree_unpack : JsonUnpack := {|
  unpack_i o k := match jobj_get o k with Some (JInt n) => Value n | Some _ => BadType | None => Absent end;
  unpack_s o k := match jobj_get o k with Some (JStr s) => Value s | Some _ => BadType | None => Absent end
|}.
#[local] Instance tree_unpack_bool : JsonUnpackBool := {| unpack_b o k := Absent |}.

(** Every text is the object [{b:2}]. *)
#[local] Instance tree_doc : JanssonDoc := {|
  json_is_object v := match v with JObj _ => true | _ => false end;
  json_array_items v := match v with JArr l => Some l | _ => None end;
  json_object_items v := match v with JObj l => l | _ => [] end;
  json_loads _ := Some (JObj [(bs "b", JInt 2)]);
  json_dumps _ := []
|}.
#[local] Instance any_property : RdConf := {| rd_kafka_conf_set _ _ := true |}.

Definition demo_decoder : n2k_decoder unit (list bytes) unit :=
  mkdecoder [] (fun w _ _ _ _ s => Ret (mkcb_result DECODER_CALLBACK_OK None s w)) None None None None None None.

Definition empty_vars : rdkafka_vars := mkvars (mkrc [] None []) None None.
Definition empty_root : json_t := JObj [].
Definition no_old : bytes -> nat -> byte := fun _ _ => x00.

(** ** Properties *)

(** C27: what a variable of the environment sets, for every name with lower case
    letters, digits and dots.  The variable that has its letters in upper case and
    its dots as underscores, after [RDKAFKA_], is read back to that name, whatever
    the array held before.  It is ignored if its value is empty or the name has more
    than 55 characters, which the 64 bytes of the array do not hold.  Otherwise
    [n2kafka.stats.append] is the text to add to the statistics, and
    [n2kafka.statistics.topic] their topic; any other name gives its value to the
    property of that name of librdkafka, and ends the process if librdkafka does not
    accept it.  A name that starts with [topic.] is an exception: it always stands
    for the rest of the name, so that the properties of librdkafka that have such a
    name (as topic.metadata.refresh.interval.ms) cannot be set. *)
Theorem environment_sets_property {rc : RdConf} (old : nat -> byte) (v : rdkafka_vars)
    (name value : bytes) :
  forallb prop_char name = true ->
  (value = [] \/ 55 < zlen name -> environ_entry old v (env_entry name value) = Ret v) /\
  (value <> [] -> zlen name <= 55 ->
   (name = bs "n2kafka.stats.append" ->
    environ_entry old v (env_entry name value) = Ret (mkvars (v_conf v) (v_topic v) (Some value))) /\
   (forall property, name <> bs "n2kafka.stats.append" ->
    name = bs "topic." ++ property \/ (property = name /\ forall rest, name <> bs "topic." ++ rest) ->
    (property = bs "n2kafka.statistics.topic" ->
     environ_entry old v (env_entry name value)
       = Ret (mkvars (mkrc (rc_set (v_conf v)) (Some value) (rc_message_extra (v_conf v)))
                (v_topic v) (v_stats_json_enrich v))) /\
    (property <> bs "n2kafka.statistics.topic" ->
     environ_entry old v (env_entry name value)
       = if rd_kafka_conf_set property value
         then Ret (mkvars (mkrc (rc_set (v_conf v) ++ [(property, value)]) (rc_statistics_topic (v_conf v))
                (rc_message_extra (v_conf v))) (v_topic v) (v_stats_json_enrich v))
         else Fault process_exit))).
Proof.
  intros Hname. rewrite environ_entry_spec by done.
  change (zlen rdkafka_env_prefix) with 8. unfold env_key_size. split.
  { intros [->|Hl]; [|by rewrite (proj2 (Z.ltb_lt _ _)) by lia]. destruct (64 <? _); [done|].
    by rewrite bool_decide_true. }
  intros Hv Hl. rewrite (proj2 (Z.ltb_ge _ _)) by lia. rewrite bool_decide_false by done.
  split; [intros ->; unfold strcmp0; by rewrite bool_decide_true|].
  intros property Hne Hproperty. rewrite not_append by done. rewrite (keyval_property _ _ property) by done.
  unfold strcmp0. split; intros Hp; [by rewrite bool_decide_true|]. rewrite bool_decide_false by done.
  by destruct (rd_kafka_conf_set property value).
Qed.

Lemma environment_sets_property_witness :
  environ_entry (fun _ => x41) empty_vars (bs "RDKAFKA_SOCKET_MAX_FAILS=3")
    = Ret (mkvars (mkrc [(bs "socket.max.fails", bs "3")] None []) None None) /\
  environ_entry (fun _ => x41) empty_vars (bs "RDKAFKA_TOPIC_METADATA_REFRESH_INTERVAL_MS=9")
    = Ret (mkvars (mkrc [(bs "metadata.refresh.interval.ms", bs "9")] None []) None None).
Proof.
  change (bs "RDKAFKA_SOCKET_MAX_FAILS=3") with (env_entry (bs "socket.max.fails") (bs "3")).
  change (bs "RDKAFKA_TOPIC_METADATA_REFRESH_INTERVAL_MS=9")
    with (env_entry (bs "topic.metadata.refresh.interval.ms") (bs "9")). split.
  - destruct (environment_sets_property (fun _ => x41) empty_vars (bs "socket.max.fails") (bs "3") eq_refl)
      as [_ H].
    destruct H as [_ H]; [discriminate|vm_compute; discriminate|].
    apply (H (bs "socket.max.fails")); [discriminate| |discriminate].
    right. split; [reflexivity|]. intros rest. discriminate.
  - destruct (environment_sets_property (fun _ => x41) empty_vars (bs "topic.metadata.refresh.interval.ms")
      (bs "9") eq_refl) as [_ H].
    destruct H as [_ H]; [discriminate|vm_compute; discriminate|].
    apply (H (bs "metadata.refresh.interval.ms")); [discriminate|by left|discriminate].
Defined.

(** C28: the configuration file has precedence over the environment.  If the file has
    a property, then whatever variables the environment has, the last value that
    librdkafka is given for it is the one of the file, or of a later member of the
    file. *)
Theorem file_overrides_environment {jansson : Jansson} {doc : JanssonDoc} {rc : RdConf}
    (old : bytes -> nat -> byte) (environ : list bytes) (root : json_t) (v : rdkafka_vars)
    (pre post : list (bytes * json_t)) (name value : bytes) (jv : json_t) :
  get_rdkafka_config old environ root = Ret v ->
  json_object_items root = pre ++ (CONFIG_RDKAFKA_KEY ++ name, jv) :: post ->
  plain_property name -> json_string_value jv = Some value -> rd_kafka_conf_set name value = true ->
  exists w, last_value (rc_set (v_conf v)) name = Some w /\
    (w = value \/ exists k x, (k, x) ∈ post /\ json_string_value x = Some w).
Proof.
  intros H Hitems Hp Hv Hset. unfold get_rdkafka_config in H. inv_bind H. inv_bind Hk.
  destruct a0 as [j v2]. apply stats_extra_sets in Hk0 as [Hsets _]. fold (sets v). rewrite Hsets.
  rewrite Hitems, json_loop_app in Hbind0. inv_bind Hbind0. destruct a0 as [j1 v1].
  cbn [json_loop] in Hk. rewrite json_entry_plain with (value := value) in Hk by done.
  cbn [mbind outcome_bind] in Hk.
  destruct (json_loop_last _ _ _ _ _ name Hk) as [E|(k & x & w & Hin & Hx & E)].
  - exists value. split; [|by left]. rewrite E. unfold sets. cbn. rewrite last_value_app. cbn.
    unfold strcmp0. by rewrite bool_decide_true.
  - exists w. split; [done|]. right. by exists k, x.
Qed.

Definition both_root : json_t :=
  JObj [(bs "topic", JStr (bs "t")); (bs "rdkafka.socket.max.fails", JStr (bs "3"))].
Definition both_environ : list bytes := [bs "HOME=/"; bs "RDKAFKA_SOCKET_MAX_FAILS=9"].

Lemma file_overrides_environment_witness :
  exists v, get_rdkafka_config no_old both_environ both_root = Ret v /\
  exists w, last_value (rc_set (v_conf v)) (bs "socket.max.fails") = Some w /\
    (w = bs "3" \/ exists k x, (k, x) ∈ @nil (bytes * json_t) /\ json_string_value x = Some w).
Proof.
  eexists. split; [vm_compute; reflexivity|].
  apply (file_overrides_environment no_old both_environ both_root _ [(bs "topic", JStr (bs "t"))] []
    (bs "socket.max.fails") (bs "3") (JStr (bs "3"))).
  - vm_compute. reflexivity.
  - reflexivity.
  - split; [reflexivity|]. split; discriminate.
  - reflexivity.
  - reflexivity.
Defined.

(** C21: from the configuration to the statistics: if the text to add is an object,
    and a topic for the statistics is configured, then after the start the
    statistics that librdkafka reports are sent to that topic as one object, with
    the members of the text after their own. *)
Theorem stats_text_appended {jansson : Jansson} {doc : JanssonDoc} {rc : RdConf} {rk : Rdkafka}
    {producer : Producer} (old : bytes -> nat -> byte) (environ : list bytes) (root : json_t)
    (v : rdkafka_vars) (text pre inner post topic body : bytes) (o : json_t) (t : rkt) (fuel : nat) :
  get_rdkafka_config old environ root = Ret v ->
  v_stats_json_enrich v = Some text -> rc_statistics_topic (v_conf v) = Some topic ->
  json_loads text = Some o -> json_is_object o = true -> json_object_items o <> [] ->
  text = pre ++ open_brace_char :: inner ++ close_brace_char :: post ->
  Forall (fun x => x <> open_brace_char) pre -> Forall (fun x => x <> close_brace_char) post ->
  rd_kafka_topic_new topic = Some t ->
  rd_kafka_produce t (body ++ [comma_char] ++ inner ++ [close_brace_char]) = ERR_NO_ERROR ->
  exists s r, init_rdkafka true (to_kafka_conf (v_conf v)) = Ret (s, use_decorator) /\
    rdkafka_stats_enrich_decorator_cb fuel true s (body ++ [close_brace_char]) = Ret r /\
    sr_produced r = [(topic, body ++ [comma_char] ++ inner ++ [close_brace_char])] /\
    sr_rc r = I_WILL_FREE_LIBRDKAFKA.
Proof.
  intros H Ht Htopic Hl Ho Hne Htext Hpre Hpost Hnew Hprod.
  pose proof (config_extra _ _ _ _ _ _ _ _ _ H Ht Hl Ho Hne Htext Hpre Hpost) as Hextra.
  set (s := mkstats (Some t) true (inner ++ [x00])). exists s.
  destruct (stats_enriched fuel s body inner
    (mksr I_WILL_FREE_LIBRDKAFKA [(topic, body ++ [comma_char] ++ inner ++ [close_brace_char])] [] of_producer))
    as (r & Hr & Hp & _ & Hrc & _); [done| |by left|].
  { unfold n2k_stats_cb. cbn [n2k_stats_to_topic s]. unfold rdkafka_stats_topic_cb. cbn [stats_topic s].
    unfold text_of. rewrite !zlen_app. change (zlen [comma_char]) with 1. change (zlen [x7d]) with 1.
    zlen_facts. ztest. rewrite ztake_all by (rewrite !zlen_app; change (zlen [comma_char]) with 1; change (zlen [x7d]) with 1; lia).
    cbn [mbind outcome_bind]. change x7d with close_brace_char. rewrite Hprod.
    rewrite bool_decide_true by done. by rewrite (topic_name_new _ _ Hnew). }
  exists r. split; [|done]. unfold init_rdkafka, to_kafka_conf. cbn [statistics_topic message_extra negb].
  rewrite Htopic, Hextra, Hnew. rewrite zlen_app. change (zlen [x00]) with 1. zlen_facts. by ztest.
Qed.

#[local] Existing Instance topics_by_name.
#[local] Existing Instance taking_producer.

Definition stats_environ : list bytes :=
  [bs "RDKAFKA_N2KAFKA_STATS_APPEND= {b:2} "; bs "RDKAFKA_N2KAFKA_STATISTICS_TOPIC=stats"].

Lemma stats_text_appended_witness :
  exists v, get_rdkafka_config no_old stats_environ empty_root = Ret v /\
  exists s r, init_rdkafka true (to_kafka_conf (v_conf v)) = Ret (s, use_decorator) /\
    rdkafka_stats_enrich_decorator_cb 9 true s (bs "{a:1}") = Ret r /\
    sr_produced r = [(bs "stats", bs "{a:1,b:2}")] /\ sr_rc r = I_WILL_FREE_LIBRDKAFKA.
Proof.
  eexists. split; [vm_compute; reflexivity|].
  apply (stats_text_appended (rk := topics_by_name) no_old stats_environ empty_root _ (bs " {b:2} ") (bs " ") (bs "b:2") (bs " ")
    (bs "stats") (bs "{a:1") (JObj [(bs "b", JInt 2)]) (bs "stats") 9).
  all: try (vm_compute; reflexivity).
  - discriminate.
  - repeat constructor; discriminate.
  - repeat constructor; discriminate.
Defined.

(** The text to add to the statistics cannot be given as a JSON object: the code
    tests for an object the variable it is about to set and not the value, so the
    process ends whenever the configuration has one. *)
Theorem stats_object_fatal {jansson : Jansson} {doc : JanssonDoc} {rc : RdConf}
    (old : bytes -> nat -> byte) (environ : list bytes) (root : json_t) (value : json_t)
    (pre post : list (bytes * json_t)) :
  json_object_items root = pre ++ (stats_add_key, value) :: post ->
  json_string_value value = None -> ~ returns (get_rdkafka_config old environ root).
Proof.
  intros Hitems Hv [v H]. unfold get_rdkafka_config in H.
  apply bind_Ret_inv in H as (v1 & _ & H). apply bind_Ret_inv in H as (jv & H & _).
  rewrite Hitems, json_loop_app in H. apply bind_Ret_inv in H as ([j1 v2] & Hpre & H).
  apply json_loop_none in Hpre as ->. cbn [json_loop] in H. apply bind_Ret_inv in H as (r & H & _).
  unfold json_entry, strcmp0 in H. rewrite bool_decide_true in H by done. by rewrite Hv in H.
Qed.

Definition object_root : json_t := JObj [(stats_add_key, JObj [(bs "b", JInt 2)])].

Lemma stats_object_fatal_witness : ~ returns (get_rdkafka_config no_old [] object_root).
Proof.
  apply (stats_object_fatal no_old [] object_root (JObj [(bs "b", JInt 2)]) [] []); reflexivity.
Defined.

(** C16: the blacklist of the configuration decides which connections the listeners
    refuse.  From a list of texts the start builds a list that contains exactly the
    addresses of the entries: the one an entry writes in dotted notation or, for a
    text that [inet_pton] does not take, whatever the uninitialised variable held.
    [accept_cb] then closes the connection of any of them, with nothing else
    changed, and gives that of any other client to the current worker of a listener
    that can take connections, if the block of its watcher can be allocated and the
    stack has room for the text of its address in the log. *)
Theorem blacklist_enforced {jansson : Jansson} {doc : JanssonDoc} {fifo : RdFifoq} {S W O : Type}
    (garbage : bytes -> in_addr) (arr : json_t) (items : list json_t) (addrs : list in_addr)
    (c : n2kafka_config (socket_listener S W O)) :
  json_array_items arr = Some items -> g_blacklist c = in_addr_list_new ->
  Forall2 (blacklist_entry garbage) items addrs ->
  exists b, parse_blacklist garbage arr (g_blacklist c) = Ret b /\
    (forall a, in_addr_list_contains b a = true <-> a ∈ addrs) /\
    forall a room sd port (sl : socket_listener S W O) (p : process W),
      (a ∈ addrs -> sd ∉ pr_fds p -> forall calloc_ok,
       accept_cb room (socket_part (with_blacklist c b)) false
         (mkaenv (ACCEPT_CLIENT sd a port) calloc_ok) sl p = Ret (sl, p)) /\
      (a ∉ addrs -> INET_ADDRSTRLEN <= room -> ready sl ->
       exists sl1 p1, accept_cb room (socket_part (with_blacklist c b)) false
           (mkaenv (ACCEPT_CLIENT sd a port) true) sl p = Ret (sl1, p1) /\
         pr_heap p1 !! pr_next p
           = Some (mkio sd (mkpriv CONNECTION_PRIVATE_MAGIC 0 (inet_ntop4 a))) /\
         pr_fds p1 = {[sd]} ∪ pr_fds p /\
         forall j, queue_of sl1 j = queue_of sl j ++
           (if bool_decide (Z.of_nat j = sl_accept_current_worker_idx sl) then [pr_next p] else [])).
Proof.
  intros Harr Hb Hitems. unfold parse_blacklist. rewrite Harr, Hb.
  destruct (blacklist_loop_spec _ _ _ Hitems in_addr_list_new) as (b & Hr & Hin). exists b. split; [done|].
  assert (Hspec : forall a, a ∈ b <-> a ∈ addrs).
  { intros a. rewrite Hin. unfold in_addr_list_new. set_solver. }
  split; [intros a; by rewrite in_addr_list_contains_spec|].
  intros a room sd port sl p. split.
  - intros Ha Hsd calloc_ok. apply accept_blacklisted; [done|]. by apply Hspec.
  - intros Ha Hroom Hready.
    destruct (accept_cb_spec room (socket_part (with_blacklist c b)) sl p sd a port Hroom Hready)
      as (sl1 & p1 & Hacc & _ & _ & _ & _ & Hq); [by rewrite <- Hspec in Ha|].
    exists sl1, p1. split; [done|]. apply accept_cb_process in Hacc as [Hh Hf]; [|by rewrite <- Hspec in Ha].
    done.
Qed.

(** The third entry is not an address; the variable held 10.0.0.2. *)
Definition demo_blacklist : json_t :=
  JArr [JStr (bs "192.168.101.3"); JStr (bs "10.0.0.1"); JStr (bs "10.0.0")].
Definition demo_addrs : list in_addr := [56993984; 16777226; 33554442].

(** A listener with one worker. *)
Definition demo_idle : @socket_listener tree_jansson list_fifoq unit (list bytes) unit :=
  mksock (mklistener demo_decoder None 2056) (mksconf (Some (bs "tcp")) 1 false MODE_EPOLL) (Some false)
    [mkslot (Some (mkloop [] false false)) (Some ([] : rd_fifoq_t (RdFifoq := list_fifoq))) Waiting] 0 Accepting.

Lemma demo_idle_ready : ready demo_idle.
Proof.
  constructor; cbn; [split; vm_compute; discriminate|discriminate|lia|].
  intros i Hi. assert (i = 0%nat) as -> by lia. by eexists _, _, _.
Qed.

Lemma blacklist_enforced_witness :
  exists b, parse_blacklist (fun _ => 33554442) demo_blacklist in_addr_list_new = Ret b /\
    (forall a, in_addr_list_contains b a = true <-> a ∈ demo_addrs) /\
    accept_cb 16 (mkglobals None 0 b) false (mkaenv (ACCEPT_CLIENT 7 16777226 80) true)
      demo_idle idle_process = Ret (demo_idle, idle_process) /\
    exists sl1 p1, accept_cb 16 (mkglobals None 0 b) false
      (mkaenv (ACCEPT_CLIENT 7 50331658 80) true) demo_idle idle_process = Ret (sl1, p1) /\
      queue_of sl1 0 = queue_of demo_idle 0 ++ [0%nat].
Proof.
  destruct (blacklist_enforced (fifo := list_fifoq) (S := unit) (W := list bytes) (O := unit)
    (fun _ => 33554442) demo_blacklist [JStr (bs "192.168.101.3"); JStr (bs "10.0.0.1"); JStr (bs "10.0.0")]
    demo_addrs init_global_config) as (b & H1 & H2 & H3).
  - reflexivity.
  - reflexivity.
  - constructor; [|constructor; [|constructor; [|constructor]]]; [..|eexists; split; [reflexivity|by right]];
      (eexists; split; [reflexivity|left; split; [vm_compute; reflexivity|lia]]).
  - exists b. split; [exact H1|]. split; [exact H2|]. split.
    + apply (proj1 (H3 16777226 16 7 80 demo_idle idle_process)); [|vm_compute; discriminate].
      apply (bool_decide_unpack (16777226 ∈ demo_addrs)). vm_compute. exact I.
    + destruct (proj2 (H3 50331658 16 7 80 demo_idle idle_process)) as (sl1 & p1 & Hacc & _ & _ & Hq).
      * apply (bool_decide_unpack (50331658 ∉ demo_addrs)). vm_compute. exact I.
      * vm_compute. discriminate.
      * exact demo_idle_ready.
      * exists sl1, p1. split; [exact Hacc|]. rewrite (Hq 0%nat). reflexivity.
Defined.

(** C8: what a reload that returns has done to the listeners, for a configuration
    whose members have ports from 1 to 65535 (a member with an unknown protocol,
    such as [udp], or with a [decode_as] that is not a text, is left out), and for
    listeners that were initialised.  The listeners whose port is not in the new
    configuration have been joined, each once and in their order, and no other; the
    rest have been reloaded, each with a member of its port, and keep their order;
    each missing port of a member that is served has been given one new listener,
    with the factory and the decoder the member names, placed before the others.
    So the ports are in the end those of the members that are served and the old
    ones that still have a member.  These are all the calls that were made.  A
    reload with some member returns only if the four bytes of an [int] can be
    written at [searched_port], which has two: [room] is how many can. *)
Theorem reload_leaves_new_ports {jansson : Jansson} {unpack : JsonUnpack} {doc : JanssonDoc}
    {D L G : Type} (ops : listener_ops L G)
    (create_http create_socket : json_t -> D -> G -> outcome (option L * G)) (dumb meraki zz : D)
    (laws : ListenerLaws ops create_http create_socket) (room : Z) (new_config arr : json_t)
    (items : list json_t) (c : n2kafka_config L) (g : G) c' g' :
  json_object_get new_config (bs "listeners") = Some arr -> json_array_items arr = Some items ->
  Forall has_port items -> Forall (initialised ops) (g_listeners c) ->
  reload_listeners ops create_http create_socket dumb meraki zz room (Some new_config) c g = Ret (c', g') ->
  (items <> [] -> 4 <= room) /\
  exists cs, calls ops create_http create_socket dumb meraki zz cs g g' /\
    joined cs = filter (fun l => lo_port ops l ∉ map config_port items) (g_listeners c) /\
    map (fun r => r.1.1) (reloaded cs)
      = filter (fun l => lo_port ops l ∈ map config_port items) (g_listeners c) /\
    Forall (fun r => r.1.2 ∈ items /\ config_port r.1.2 = lo_port ops r.1.1) (reloaded cs) /\
    Forall (fun r => r.1 ∈ items /\ config_port r.1 ∉ ports ops (g_listeners c)) (created cs) /\
    NoDup (map (fun r => config_port r.1) (created cs)) /\
    g_listeners c' = reverse (map snd (created cs)) ++ map snd (reloaded cs) /\
    forall p, p ∈ ports ops (g_listeners c') <->
      p ∈ map config_port (filter (fun v => served v = true) items) \/
      (p ∈ ports ops (g_listeners c) /\ p ∈ map config_port items).
Proof.
  intros Harr Hitems Hport Hold H. unfold reload_listeners in H. rewrite Harr, Hitems in H.
  cbn [default from_option id] in H. inv_bind H. destruct a as [ls g1].
  destruct (check_present_calls ops create_http create_socket dumb meraki zz items _ _ _ _ Hold Hbind)
    as (cs1 & Hcs1 & Hcr1 & Hj1 & Hr1 & <- & Hm1).
  destruct (create_new_calls ops create_http create_socket dumb meraki zz room items _ _ _ _ Hport Hk)
    as (cs2 & Hcs2 & Hj2 & Hr2 & Hl2 & Hn2 & Hc2 & Hall & Hroom).
  cbn [with_listeners g_listeners] in *. split; [exact Hroom|]. exists (cs1 ++ cs2).
  unfold joined, reloaded, created in *. rewrite !omap_app, Hj2, Hr2, Hcr1, !app_nil_r. cbn [app].
  assert (Hkept : ports ops (map snd (reloaded cs1))
    = filter (fun p => p ∈ map config_port items) (ports ops (g_listeners c))).
  { apply (kept_ports ops create_http create_socket dumb meraki zz _ _ _ _ _ Hcs1 Hr1). }
  unfold reloaded in Hkept. split_and!; try done; [by apply (calls_app _ _ _ _ _ _ _ _ g g1 g')| |].
  - eapply Forall_impl; [exact Hc2|]. intros r (Hi & _ & _ & Hout). split; [done|]. intros Hin. apply Hout.
    rewrite Hkept. apply list_elem_of_filter. split; [|done]. by apply list_elem_of_fmap_2.
  - apply (ports_after ops items _ _ _ _ Hl2 Hkept Hc2 Hall).
Qed.

Definition tcp_config (port : Z) : jvalue := JObj [(bs "proto", JStr (bs "tcp")); (bs "port", JInt port)].
Definition demo_members : list jvalue :=
  [tcp_config 2057; tcp_config 2058; JObj [(bs "proto", JStr (bs "udp")); (bs "port", JInt 2059)]].
Definition demo_new_root : json_t := JObj [(bs "listeners", JArr demo_members)].

(** No HTTP listener: the certificates cannot be read. *)
Definition no_files : start_env :=
  mkstart (fun _ => None) (fun _ => false) (fun _ => []) (fun _ => mkstdio true true true true)
    (fun _ _ => []) (fun _ => []) false false.

Section demo_reload.
#[local] Existing Instance list_fifoq.

Definition demo_ops : listener_ops (@a_listener tree_jansson list_fifoq unit (list bytes) unit)
    (@rest_of_process (list bytes)) := program_ops.

Definition demo_socket_at (port : Z) : @a_listener tree_jansson list_fifoq unit (list bytes) unit :=
  inr (mksock (mklistener demo_decoder None port) (mksconf (Some (bs "tcp")) 1 false MODE_EPOLL)
         (Some false) [] 0 Accepting).

Definition demo_config : n2kafka_config (@a_listener tree_jansson list_fifoq unit (list bytes) unit) :=
  with_listeners init_global_config [demo_socket_at 2056; demo_socket_at 2057].

Lemma no_files_no_http (config : json_t) (d : n2k_decoder unit (list bytes) unit) getenv rd_file_read g r :
  create_http_listener0 no_files d config getenv rd_file_read g = Ret r -> sr_built r = None.
Proof.
  unfold create_http_listener0. destruct (http_unpack _ _); [|by intros [= <-]].
  unfold start_http_loop, load_secrets. intros H. destruct (http_mode _); [|by simplify_eq].
  destruct (xorb _ _); [by simplify_eq|]. destruct (_ && _); [by simplify_eq|]. inv_bind H.
  destruct a; by simplify_eq/=.
Qed.

Lemma demo_laws : ListenerLaws demo_ops
  (program_create_http no_files (fun _ => None) (fun _ => None)) (program_create_socket all_created).
Proof.
  apply program_laws. intros config d g r b H Hb. apply no_files_no_http in H. congruence.
Qed.

Definition demo_reloaded :=
  reload_listeners demo_ops (program_create_http no_files (fun _ => None) (fun _ => None))
    (program_create_socket all_created) demo_decoder demo_decoder demo_decoder 4
    (Some demo_new_root) demo_config (http_responses_init, idle_process).

Lemma has_port_tcp (port : Z) : 0 < port < 2 ^ 16 -> has_port (tcp_config port).
Proof. intros H. by exists port. Qed.

Lemma demo_initialised port : 0 < port -> initialised demo_ops (demo_socket_at port).
Proof. intros H. split; [exact H|]. split; by eexists. Qed.

(** The listener of port 2056 is joined, the one of 2057 reloaded, and one for 2058
    created; the member with [udp] is left out. *)
Lemma reload_leaves_new_ports_witness :
  exists c' g', demo_reloaded = Ret (c', g') /\
  exists cs, calls demo_ops (program_create_http no_files (fun _ => None) (fun _ => None))
      (program_create_socket all_created) demo_decoder demo_decoder demo_decoder cs
      (http_responses_init, idle_process) g' /\
    joined cs = [demo_socket_at 2056] /\
    map (fun r => r.1.1) (reloaded cs) = [demo_socket_at 2057] /\
    (forall p, p ∈ ports demo_ops (g_listeners c') <-> p ∈ [2057; 2058] \/ p ∈ [2056; 2057] /\ p ∈ [2057; 2058; 2059]).
Proof.
  assert (Hrun : exists r, demo_reloaded = Ret r) by (eexists; vm_compute; reflexivity).
  destruct Hrun as [[c' g'] Hrun]. exists c', g'. split; [exact Hrun|].
  destruct (reload_leaves_new_ports demo_ops (program_create_http no_files (fun _ => None) (fun _ => None))
    (program_create_socket all_created) demo_decoder demo_decoder demo_decoder demo_laws 4
    demo_new_root (JArr demo_members) demo_members
    demo_config (http_responses_init, idle_process) c' g') as (_ & cs & Hcs & Hj & Hr & _ & _ & _ & _ & Hp).
  - reflexivity.
  - reflexivity.
  - apply list.Forall_cons. split; [apply has_port_tcp; lia|].
    apply list.Forall_cons. split; [apply has_port_tcp; lia|].
    apply list.Forall_cons. split; [by exists 2059|constructor].
  - apply list.Forall_cons. split; [by apply demo_initialised|].
    apply list.Forall_cons. split; [by apply demo_initialised|constructor].
  - exact Hrun.
  - exists cs. split; [exact Hcs|]. split; [rewrite Hj; reflexivity|]. split; [rewrite Hr; reflexivity|exact Hp].
Defined.

End demo_reload.

(** No UDP listener can be configured: the name of its factory is misspelt, so a
    listener whose protocol is [udp] is left out with a message in the log; and one
    with the name of the factory, [ucp], has a protocol that the creation of the
    socket does not know, so its thread serves descriptor 0 as TCP.  An unknown
    decoder ends the process. *)
Theorem udp_not_configurable {jansson : Jansson} {unpack : JsonUnpack} {D L G : Type}
    (create_http create_socket : json_t -> D -> G -> outcome (option L * G)) (dumb meraki zz : D)
    (config : json_t) (c : n2kafka_config L) (g : G) :
  (unpack_s config (bs "proto") = Value N2KAFKA_UDP ->
   parse_listener create_http create_socket dumb meraki zz config c g = Ret (c, g)) /\
  (forall lenv port fds, createListenSocket lenv (Some udp_listener_name) port fds = Ret (0, fds)) /\
  (forall proto decode_as,
     unpack_s config (bs "proto") = Value proto -> unpack_s config (bs "decode_as") = Value decode_as ->
     proto ∈ [http_listener_name; tcp_listener_name] ->
     decode_as ∉ [dumb_decoder_name; meraki_decoder_name; zz_name] ->
     parse_listener create_http create_socket dumb meraki zz config c g = Fault process_exit).
Proof.
  unfold parse_listener. split_and!.
  - intros ->. destruct (override _ _); reflexivity.
  - reflexivity.
  - intros proto decode_as -> -> Hp Hd.
    destruct (listener_for_known create_http create_socket proto) as (f & -> & _); [set_solver|].
    cbn [override]. unfold locate_registered_decoder, registered_decoders. cbn [find_decoder]. unfold strcmp0.
    by rewrite !bool_decide_false by set_solver.
Qed.

Definition udp_config : json_t := JObj [(bs "proto", JStr (bs "udp")); (bs "port", JInt 2058)].

Lemma udp_not_configurable_witness :
  parse_listener (L := unit) (fun _ _ g => Ret (Some tt, g)) (fun _ _ g => Ret (Some tt, g)) tt tt tt
    udp_config init_global_config tt = Ret (init_global_config, tt).
Proof.
  apply (udp_not_configurable (fun _ _ g => Ret (Some tt, g)) (fun _ _ g => Ret (Some tt, g)) tt tt tt
    udp_config init_global_config tt).
  reflexivity.
Defined.
