(* ===== verification/MainProgram.v ===== *)
(** * The main program

    engine/n2kafka.c: the arguments, the signals and the main loop.  Signals are
    blocked in all the threads but the main one, which only sets a flag in their
    handlers; the loop polls librdkafka and looks at the flags. *)

From S2P Require Import Prelude Pair Addr TopicDb KafkaArray Decoders HttpConfig Kafka Socket GlobalConfig GlobalConfigProps.
#[local] Open Scope Z_scope.

(** ** Signals *)

Inductive signal := SIGINT | SIGHUP.

Record flags := mkflags { do_shutdown : bool; do_reload : bool }.

Definition shutdown_process (f : flags) : flags := mkflags true (do_reload f).

Definition sighup_proc (f : flags) : flags := mkflags (do_shutdown f) true.

(** The handlers that [main] installs. *)
Definition handle (f : flags) (s : signal) : flags :=
  match s with SIGINT => shutdown_process f | SIGHUP => sighup_proc f end.

Definition deliver (signals : list signal) (f : flags) : flags := fold_left handle signals f.

Definition is_asking_help (param : bytes) : bool :=
  strcmp0 param (bs "-h") || strcmp0 param (bs "--help").

(** ** The main loop *)

(** What happens in a round: the signals that come before [do_reload] is tested, the
    configuration file as a reload would read it, and the signals that come while
    it is reloaded. *)
Record round {jansson : Jansson} := mkround {
  r_before : list signal;
  r_file : bytes -> option json_t;
  r_during : list signal
}.
Arguments mkround {jansson} _ _ _.

Section main.
Context {jansson : Jansson} {unpack : JsonUnpack} {doc : JanssonDoc} {rc : RdConf} {rk : Rdkafka}.
Context {D L G : Type} (ops : listener_ops L G).
Context (create_http create_socket : json_t -> D -> G -> outcome (option L * G)).
Context (dumb meraki zz : D) (room : Z).

Definition reload (file : bytes -> option json_t) (c : n2kafka_config L) (g : G) :=
  reload_config ops create_http create_socket dumb meraki zz room file c g.

(** The body of the [while].  [kafka_poll] calls back into the other parts; it does
    not touch the configuration. *)
Definition main_round (kafka_poll : G -> G) (r : round) (f : flags) (c : n2kafka_config L) (g : G)
    : outcome (flags * n2kafka_config L * G) :=
  let g1 := kafka_poll g in
  let f1 := deliver (r_before r) f in
  if do_reload f1 then
    '(c1, g2) ← reload (r_file r) c g1;
    let f2 := deliver (r_during r) f1 in
    Ret (mkflags (do_shutdown f2) false, c1, g2)
  else Ret (f1, c, g1).

(** The loop, for the rounds that happen; [NoFuel] if it has not ended with them. *)
Fixpoint main_loop (kafka_poll : G -> G) (rounds : list round) (f : flags) (c : n2kafka_config L)
    (g : G) : outcome (list round * n2kafka_config L * G) :=
  if do_shutdown f then Ret (rounds, c, g)
  else
    match rounds with
    | [] => NoFuel
    | r :: rounds =>
        '(f1, c1, g1) ← main_round kafka_poll r f c g;
        main_loop kafka_poll rounds f1 c1 g1
    end.

(** [main]: [blocked] are the signals that came while the program started; they are
    delivered when the mask is restored. *)
Definition n2kafka_main (argv : list bytes) (env : config_env) (blocked : list signal)
    (kafka_poll : G -> G) (rounds : list round) (done : G -> outcome G) (fuel : nat)
    (e : rd_kafka_end) (outq_len : Z) (g : G) : outcome Z :=
  match argv with
  | [_; config_file] =>
      if is_asking_help config_file then Fault process_exit
      else
        '(c, conf, (st, cb), g1) ←
          parse_config create_http create_socket dumb meraki zz env config_file init_global_config g;
        '(_, c1, g2) ← main_loop kafka_poll rounds (deliver blocked (mkflags false false)) c g1;
        _ ← free_global_config ops done fuel e outq_len st c1 g2;
        Ret 0
  | _ => Fault process_exit
  end.

(** ** Lemmas *)

Lemma deliver_shutdown signals f :
  do_shutdown (deliver signals f) = do_shutdown f || existsb (fun s => match s with SIGINT => true | _ => false end) signals.
Proof.
  revert f. induction signals as [|s signals IH]; intros f; cbn; [by rewrite orb_false_r|].
  unfold deliver in IH. rewrite IH. destruct s; cbn; [by rewrite orb_true_r|done].
Qed.

Lemma deliver_reload signals f :
  do_reload (deliver signals f) = do_reload f || existsb (fun s => match s with SIGHUP => true | _ => false end) signals.
Proof.
  revert f. induction signals as [|s signals IH]; intros f; cbn; [by rewrite orb_false_r|].
  unfold deliver in IH. rewrite IH. destruct s; cbn; [done|by rewrite orb_true_r].
Qed.

End main.

Definition has_sigint (signals : list signal) : bool :=
  existsb (fun s => match s with SIGINT => true | _ => false end) signals.
Definition has_sighup (signals : list signal) : bool :=
  existsb (fun s => match s with SIGHUP => true | _ => false end) signals.

(** The configurations the rounds leave when their reloads return. *)
Section spec.
Context {jansson : Jansson} {unpack : JsonUnpack} {doc : JanssonDoc}.
Context {D L G : Type} (ops : listener_ops L G).
Context (create_http create_socket : json_t -> D -> G -> outcome (option L * G)).
Context (dumb meraki zz : D) (room : Z) (kafka_poll : G -> G).

(** A round as a user sees it: a poll, and a reload if a SIGHUP had come. *)
Definition round_spec (r : round) (c : n2kafka_config L) (g : G) : outcome (n2kafka_config L * G) :=
  if has_sighup (r_before r)
  then reload ops create_http create_socket dumb meraki zz room (r_file r) c (kafka_poll g)
  else Ret (c, kafka_poll g).

Fixpoint rounds_spec (rounds : list round) (c : n2kafka_config L) (g : G) : outcome (n2kafka_config L * G) :=
  match rounds with
  | [] => Ret (c, g)
  | r :: rounds => '(c1, g1) ← round_spec r c g; rounds_spec rounds c1 g1
  end.

(** Whether a round ends the loop: a SIGINT during a reload counts, one after it is
    only seen by the next round. *)
Definition interrupted (r : round) : bool :=
  has_sigint (r_before r) || (has_sighup (r_before r) && has_sigint (r_during r)).

Lemma main_round_spec r c g :
  main_round ops create_http create_socket dumb meraki zz room kafka_poll r (mkflags false false) c g
    = ('(c1, g1) ← round_spec r c g; Ret (mkflags (interrupted r) false, c1, g1)).
Proof.
  unfold main_round, round_spec. rewrite deliver_reload. cbn [do_reload]. cbn [orb]. unfold interrupted.
  change (existsb (fun s => match s with SIGHUP => true | _ => false end)) with has_sighup.
  destruct (has_sighup (r_before r)) eqn:Eh.
  - destruct (reload _ _ _ _ _ _ _ _ _ _) as [[c1 g1]| |]; [|done..]. cbn [mbind outcome_bind].
    rewrite !deliver_shutdown. done.
  - cbn [mbind outcome_bind andb]. rewrite orb_false_r. do 3 f_equal.
    assert (Hs := deliver_shutdown (r_before r) (mkflags false false)).
    assert (Hr := deliver_reload (r_before r) (mkflags false false)).
    destruct (deliver (r_before r) (mkflags false false)) as [s re]. cbn in Hs, Hr.
    unfold has_sighup in Eh. by rewrite Hs, Hr, Eh.
Qed.

Lemma main_loop_spec before r rest c g :
  Forall (fun r => interrupted r = false) before -> interrupted r = true ->
  main_loop ops create_http create_socket dumb meraki zz room kafka_poll (before ++ r :: rest)
    (mkflags false false) c g
  = ('(c1, g1) ← rounds_spec (before ++ [r]) c g; Ret (rest, c1, g1)).
Proof.
  intros Hb Hr. revert c g. induction Hb as [|x before Hx _ IH]; intros c g;
    cbn [app main_loop do_shutdown rounds_spec]; rewrite main_round_spec;
    destruct (round_spec _ c g) as [[c1 g1]| |]; try done; cbn [mbind outcome_bind].
  - rewrite Hr. by destruct rest.
  - rewrite Hx. apply IH.
Qed.

(** Signals that were blocked during the start count for the first round. *)
Definition absorb (blocked : list signal) (rounds : list round) : list round :=
  match rounds with
  | [] => []
  | r :: rounds => mkround (blocked ++ r_before r) (r_file r) (r_during r) :: rounds
  end.

Lemma main_loop_blocked blocked rounds c g :
  has_sigint blocked = false ->
  main_loop ops create_http create_socket dumb meraki zz room kafka_poll rounds
    (deliver blocked (mkflags false false)) c g
  = main_loop ops create_http create_socket dumb meraki zz room kafka_poll (absorb blocked rounds)
      (mkflags false false) c g.
Proof.
  intros Hb. assert (Hs : do_shutdown (deliver blocked (mkflags false false)) = false)
    by (rewrite deliver_shutdown; exact Hb).
  destruct rounds as [|r rounds]; cbn [absorb main_loop]; rewrite Hs; [done|]. cbn [do_shutdown].
  unfold main_round. cbn [r_before r_file r_during]. unfold deliver. by rewrite fold_left_app.
Qed.

End spec.

(** ** Properties *)

(** C22: the program ends when it is told to: from the start of its loop, the first
    round in which a SIGINT comes (before the reload flag is tested, or during the
    reload of that round) is the last one, and up to then each round has polled
    librdkafka and reloaded the configuration exactly if a SIGHUP had come.  A
    SIGHUP that comes during a reload is lost: the run is the same without it. *)
Theorem main_loop_signals {jansson : Jansson} {unpack : JsonUnpack} {doc : JanssonDoc}
    {D L G : Type} (ops : listener_ops L G)
    (create_http create_socket : json_t -> D -> G -> outcome (option L * G)) (dumb meraki zz : D)
    (room : Z) (kafka_poll : G -> G) (before rest : list round) (r : round)
    (c : n2kafka_config L) (g : G) c1 g1 :
  Forall (fun r => interrupted r = false) before -> interrupted r = true ->
  rounds_spec ops create_http create_socket dumb meraki zz room kafka_poll (before ++ [r]) c g = Ret (c1, g1) ->
  main_loop ops create_http create_socket dumb meraki zz room kafka_poll (before ++ r :: rest)
    (mkflags false false) c g = Ret (rest, c1, g1) /\
  main_loop ops create_http create_socket dumb meraki zz room kafka_poll
    (map (fun r => mkround (r_before r) (r_file r) (SIGHUP :: r_during r)) before ++ r :: rest)
    (mkflags false false) c g = Ret (rest, c1, g1).
Proof.
  intros Hb Hr Hspec. split.
  - rewrite main_loop_spec by done. by rewrite Hspec.
  - rewrite main_loop_spec; [|by apply list.Forall_fmap|done].
    enough (E : forall rounds c g,
      rounds_spec ops create_http create_socket dumb meraki zz room kafka_poll
        (map (fun r => mkround (r_before r) (r_file r) (SIGHUP :: r_during r)) rounds ++ [r]) c g
      = rounds_spec ops create_http create_socket dumb meraki zz room kafka_poll (rounds ++ [r]) c g)
      by (by rewrite E, Hspec).
    clear. induction rounds as [|x rounds IH]; intros c g; [done|]. cbn [map app rounds_spec].
    change (round_spec ops create_http create_socket dumb meraki zz room kafka_poll
      (mkround (r_before x) (r_file x) (SIGHUP :: r_during x)) c g)
      with (round_spec ops create_http create_socket dumb meraki zz room kafka_poll x c g).
    destruct (round_spec _ _ _ _ _ _ _ _ x c g) as [[c2 g2]| |]; [|done..]. cbn [mbind outcome_bind]. apply IH.
Qed.

(** C23: what the program does from its start to its end, with no assumption on its
    parts.  When a SIGINT comes in some round (signals that came during the start
    count for the first one), [main] reads the configuration, does the rounds up to
    that one, joins the listeners that the reloads left, tells the decoders to end,
    stops librdkafka and returns 0.  If one of those parts stops the process or does
    not return, so does [main], and nothing else does: its own loop ends, and so do
    the loops that empty the queue of librdkafka and wait for it, if librdkafka empties
    its queue after some polls and then releases its handler.  Any other number of
    arguments, or a request for help, only ends the process. *)
Theorem main_exits {jansson : Jansson} {unpack : JsonUnpack} {doc : JanssonDoc} {rc : RdConf}
    {rk : Rdkafka} {D L G : Type} (ops : listener_ops L G)
    (create_http create_socket : json_t -> D -> G -> outcome (option L * G)) (dumb meraki zz : D)
    (room : Z) (kafka_poll : G -> G) (before rest rounds : list round) (r : round) (blocked : list signal)
    (argv : list bytes) (env : config_env) (done : G -> outcome G) (e : rd_kafka_end) (outq_len : Z) (g : G) :
  has_sigint blocked = false -> absorb blocked rounds = before ++ r :: rest ->
  Forall (fun r => interrupted r = false) before -> interrupted r = true ->
  ends e (flush_kafka e outq_len) ->
  exists fuel0, forall fuel, (fuel0 <= fuel)%nat ->
    n2kafka_main ops create_http create_socket dumb meraki zz room argv env blocked
      kafka_poll rounds done fuel e outq_len g =
    match argv with
    | [_; config_file] =>
        if is_asking_help config_file then Fault process_exit
        else
          '(c, _, _, g1) ←
            parse_config create_http create_socket dumb meraki zz env config_file init_global_config g;
          '(c1, g2) ← rounds_spec ops create_http create_socket dumb meraki zz room kafka_poll (before ++ [r]) c g1;
          g3 ← shutdown_listeners ops (g_listeners c1) g2;
          _ ← done g3;
          Ret 0
    | _ => Fault process_exit
    end.
Proof.
  intros Hb Ha Hbe Hr He. destruct argv as [|progname [|config_file [|x argv]]]; try by exists 0%nat.
  unfold n2kafka_main. destruct (is_asking_help config_file); [by exists 0%nat|].
  destruct (parse_config _ _ _ _ _ _ _ _ _) as [[[[c conf] [st cb]] g1]| |]; [|by exists 0%nat..].
  destruct (stop_rdkafka_ends e _ st He) as (n & fuel0 & _ & Hstop).
  exists fuel0. intros fuel Hf. cbn [mbind outcome_bind].
  rewrite main_loop_blocked, Ha, main_loop_spec by done.
  destruct (rounds_spec _ _ _ _ _ _ _ _ _ _ _) as [[c1 g2]| |]; [|done..]. cbn [mbind outcome_bind].
  unfold free_global_config. destruct (shutdown_listeners ops (g_listeners c1) g2) as [g3| |]; [|done..].
  cbn [mbind outcome_bind]. destruct (done g3) as [g4| |]; [|done..]. cbn [mbind outcome_bind].
  by rewrite Hstop.
Qed.

#[local] Instance main_jansson : Jansson := {|
  json_t := unit; json_object_get _ _ := None; json_string_value _ := None
|}.
#[local] Instance main_unpack : JsonUnpack := {| unpack_i _ _ := Absent; unpack_s _ _ := Absent |}.
#[local] Instance main_doc : JanssonDoc := {|
  json_is_object _ := false; json_array_items _ := None; json_object_items _ := [];
  json_loads _ := None; json_dumps _ := []
|}.

Definition no_ops : listener_ops unit Z := mkops (fun _ => 0) (fun _ => None) (fun _ => None).
Definition no_create (config : json_t) (d : unit) (g : Z) : outcome (option unit * Z) := Ret (None, g).
Definition quiet_round : round := mkround [] (fun _ => None) [].
Definition hup_round : round := mkround [SIGHUP] (fun _ => None) [].
Definition int_round : round := mkround [SIGINT] (fun _ => None) [].

Lemma main_loop_signals_witness :
  main_loop no_ops no_create no_create tt tt tt 4 (fun n => n + 1) ([quiet_round; hup_round] ++ int_round :: [quiet_round])
    (mkflags false false) init_global_config 0 = Ret ([quiet_round], init_global_config, 3) /\
  main_loop no_ops no_create no_create tt tt tt 4 (fun n => n + 1)
    (map (fun r => mkround (r_before r) (r_file r) (SIGHUP :: r_during r)) [quiet_round; hup_round] ++ int_round :: [quiet_round])
    (mkflags false false) init_global_config 0 = Ret ([quiet_round], init_global_config, 3).
Proof.
  apply (main_loop_signals no_ops no_create no_create tt tt tt 4 (fun n => n + 1) [quiet_round; hup_round] [quiet_round] int_round
    init_global_config 0).
  - repeat constructor.
  - reflexivity.
  - reflexivity.
Defined.

#[local] Existing Instance tree_jansson.
#[local] Existing Instance tree_unpack.
#[local] Existing Instance tree_doc.
#[local] Existing Instance any_property.
#[local] Instance main_rdkafka : Rdkafka.
Proof.
  refine {| rkt := bytes; rd_kafka_topic_new := Some; rd_kafka_topic_name r := r |}.
  by intros name r [= ->].
Defined.

(** Two listeners at the start, of which a reload keeps one and adds a third; three
    messages are in flight at the end, each poll delivers one, and the handler is
    released at the second wait. *)
Definition main_root : jvalue := JObj [(bs "listeners", JArr [tcp_config 2056; tcp_config 2057])].
Definition main_reloaded : jvalue := JObj [(bs "listeners", JArr [tcp_config 2057; tcp_config 2058])].
Definition main_env : config_env :=
  mkgenv (Some (main_root : json_t)) [] (fun _ _ => x00) (fun _ => 0) (fun _ => None) true.
Definition main_end : rd_kafka_end :=
  mkend (fun _ n => n - 1) (fun i => match i with 0%nat => 1 | _ => 0 end).
Definition reload_file (path : bytes) : option (@json_t tree_jansson) := Some main_reloaded.
Definition file_round : @round tree_jansson := mkround [] reload_file [].
Definition sigint_round : @round tree_jansson := mkround [SIGINT] (fun _ => None) [].

(** A listener is its port, and the rest of the process the ports that were joined:
    none can be joined twice. *)
Definition port_ops : listener_ops Z (list Z) :=
  mkops (fun l => l) (fun l => Some (fun g => if bool_decide (l ∈ g) then Fault use_after_free else Ret (g ++ [l])))
    (fun l => Some (fun _ g => Ret (l, g))).
Definition port_create (config : json_t) (d : unit) (g : list Z) : outcome (option Z * list Z) :=
  Ret (Some (config_port config), g).

Lemma main_exits_witness :
  exists fuel0, forall fuel, (fuel0 <= fuel)%nat ->
    n2kafka_main port_ops port_create port_create tt tt tt 4 [bs "n2kafka"; bs "conf"] main_env [SIGHUP]
      (fun g => g) [file_round; sigint_round] (fun g => if bool_decide (g = [2056; 2058; 2057]) then Ret g else NoFuel)
      fuel main_end 3 [] = Ret 0.
Proof.
  destruct (main_exits port_ops port_create port_create tt tt tt 4 (fun g => g)
    [mkround [SIGHUP] reload_file []] [] [file_round; sigint_round]
    sigint_round [SIGHUP] [bs "n2kafka"; bs "conf"] main_env
    (fun g => if bool_decide (g = [2056; 2058; 2057]) then Ret g else NoFuel) main_end 3 []) as (fuel0 & H).
  - reflexivity.
  - reflexivity.
  - repeat constructor.
  - reflexivity.
  - split; [exists 3%nat; vm_compute; discriminate|exists 1%nat; reflexivity].
  - exists fuel0. intros fuel Hf. rewrite (H fuel Hf). vm_compute. reflexivity.
Defined.
